(* ===== verification/_CoqProject ===== *)
-Q . S2P
Prelude.v
Machine.v
Heap.v
Refine.v
Symbols.v
Interrupt.v
Klist.v
CString.v
Bitmap.v
Paging.v
Tss.v
Sched.v
Resume.v
Sync.v
Handoff.v
Locks.v
Memory.v
Pages.v
Arena.v
Blocks.v
Boot.v
Thread.v
Device.v
Stdio.v
Format.v
Screen.v
Ide.v
Traps.v
Context.v
Transfer.v
Inode.v
Storage.v
Reopen.v
Fs.v
Lookup.v
Dirs.v
Search.v
Init.v
