(* ===== verification/Prelude.v ===== *)
(** * leeos: a verification library

    leeos is a small 32-bit x86 kernel: paging and page pools, a heap of small
    blocks, kernel threads with a round-robin scheduler, semaphores and
    reentrant locks, user processes and system calls, the timer, keyboard and
    console, an ATA disk driver and the beginnings of a file system.  This
    library translates its C code, function by function, into executable
    definitions and proves what they do.

    ** How the code is modelled

    Every C function is a program of the monad [M] of [Machine]: from a state,
    which is the processor's registers and a byte-addressed memory, to an
    [outcome].  It returns, or it switches to another thread, keeping what is
    left of it as a continuation, or it stops the system in [exception_report]
    ([Panic]), or it touches an address that is not there ([Fault]).  Integers
    are [Z], and the widths of C are kept where values are computed or stored
    ([w8], [w16], [w32], [s32]); structures are addresses with a definition per
    field; a C array, list or string is the bytes it is in memory, so aliasing
    is the aliasing of the code.  What a function does to the outside world is
    the [trace] of the processor, what the ports deliver its [inputs].

    Loops and recursion.  A [while] loop is [loop] over a step that goes on or
    leaves; it runs on fuel, and [exec] says that every large enough fuel gives
    the result.  All specifications are about [exec], so they state termination;
    none says "if it returns".  [for] loops with a fixed bound are [for_], without
    fuel.  [itoa] recurses at most 32 times, one for each bit of a word;
    [partition_scan] follows a chain that is on the disk, as deep as the fuel
    allows.

    Memory is flat: an access goes to the address it names, and the page tables
    are words in it, in the recursive window.  [Paging] has the processor's page
    walk separately and proves that the window gives the same translation.
    Changing the directory register changes [cr3] and not what later accesses
    see.  Translations that the processor has cached play no part in the memory
    either: [Paging] shows that freeing a page leaves them, and what is proved of
    the heap is what holds when accesses follow the page tables.

    Threads.  [switch_to] saves and loads the stack pointer of the two control
    blocks and gives [Switch].  Specifications of blocking functions say what is
    switched to and in what state; [Resume] runs a thread past its switches,
    with what runs in between as a program of its own, and so states what a
    blocking function has done when it returns.  Inside a program interrupts are
    not taken.  Preemption is modelled where it matters most, in [Locks]: the
    statements of the lock functions are the steps of a transition system,
    interleaved at every memory access.  The interrupt of the disk is taken
    where the code waits for it, in the idle thread ([Traps], [Transfer]).

    What is not source of the kernel's C code is a parameter: [Symbols] says
    where the linker puts globals, functions and literals, [Frames] where the
    compiler puts the arrays and the parameters of functions whose address the
    code takes.  Theorems hold for all of them;
    witnesses use one concrete map.

    ** Files

    Foundations:
    - [Prelude]: machine words, bit lemmas, tactics.
    - [Machine]: state, monad, loads and stores, loops, [exec].
    - [Heap]: assertions on memory as a logic of the Iris proof mode, the
      weakest preconditions [wp] and their rules, [Proper] for programs that
      are equal pointwise, triples, and how a triple is run on a concrete memory.
    - [Refine]: what a component promises its clients, as a class: each call in
      a state that represents an abstract one does what an abstract function
      says, and so does any sequence of calls.
    - [Symbols]: link-time addresses, and those in the frames of functions.

    Components, with the files of src/ they translate:
    - [Interrupt]: kernel/interrupt.c, kernel/debug.c, kernel/io.h.
    - [Screen]: lib/kernel/print.asm, against a terminal of 25 rows.
    - [Klist]: lib/kernel/list.c, with the instance of [Refine] for lists.
    - [CString]: lib/string.c.
    - [Bitmap]: lib/bitmap.c.
    - [Paging], [Memory], [Arena]: kernel/memory.c; the page-table window, the
      pools and page allocation, the arenas of small blocks.  [Pages] and
      [Blocks] take any sequence of calls of the page allocator and of
      [sys_malloc] and [sys_free]: an abstract heap, the invariant that ties the
      bitmaps, page tables, headers and free lists to it, and a client.  [Boot]:
      the page tables of boot/loader.asm, and [mem_init] on the memory it leaves.
    - [Tss]: userprog/tss.c, the layout of control blocks, and the
      address-space switch of userprog/process.c.
    - [Sched]: the scheduler of thread/thread.c, thread/switch.asm and the clock
      interrupt of device/timer.c; [Thread]: the rest of thread/thread.c and of
      userprog/process.c, the return from interrupts of kernel/kernel.asm.
    - [Resume]: running a thread past its switches.
    - [Sync]: thread/sync.c, with the class [Mutex] that clients of locks are
      verified against; [Handoff]: a lock passed from thread to thread;
      [Locks]: the same functions under preemption.
    - [Device]: device/timer.c, console.c, ioqueue.c, keyboard.c.
    - [Stdio]: lib/stdio.c, lib/kernel/stdio-kernel.c, lib/user/syscall.c,
      userprog/syscall-init.c, the system call entry of kernel/kernel.asm;
      [Format]: what a format stands for, as a function.
    - [Ide]: device/ide.c; [Traps]: the interrupt entry of kernel/kernel.asm and
      the idle thread; [Transfer]: the driver against an ATA controller.
    - [Context]: the entries and the exit of kernel/kernel.asm and
      thread/switch.asm with the register file and the frames on the stack.
    - [Inode]: fs/inode.c, fs/file.c; [Fs]: fs/dir.c, fs/fs.c; [Storage]: inodes
      and bitmaps written to the disk; [Reopen]: inodes read from the disk into
      the heap; [Lookup], [Search]: what the search of a directory finds, in a
      sector and as a whole; [Dirs]: where a new entry goes.
    - [Init]: kernel/init.c, kernel/main.c.

    ** What is proved

    - Scheduling: [schedule] refines an abstract step on control blocks and a
      ready queue; kernel threads run in turn; blocking leaves no queue holding
      the thread; a new thread is ready, and its first switch enters its
      function; a process gets the page table of its stack and enters user mode
      with user segments.
    - Locks: mutual exclusion and no lost wakeup as invariants of every
      interleaving, with the link from the steps to the functions; reentrancy,
      contention, the order of wakeups, misuse; a contended lock passes to the
      waiter.
    - Memory: the tables of the loader map what the kernel expects; [mem_init]
      makes pools and descriptors of raw memory, and from there on the heap is
      safe; the window translates as the processor does; pages given out are
      the first that fit, mapped and zeroed; allocation and release are inverse,
      for pages and for small blocks; any sequence of calls keeps the blocks
      that are held apart, mapped to frames of their own, and with the bytes
      their holders wrote, and leaves no page in use when all are given back
      (a block of several pages may end one page past the heap, since the search
      of a bitmap looks at one bit more than it has); what happens when frames
      run out; that a freed page can stay cached.
    - Interrupts: the code an interrupt, a system call or a switch comes back to
      finds its registers, flags and stack as they were.
    - Data structures: first-fit search in bitmaps; any calls of the intrusive
      lists and of the ring of characters refine lists; numerals and formats.
    - Screen: any calls of the output routines leave in the video memory what
      they leave on a terminal that wraps and scrolls.
    - Disk: a transfer of any number of sectors makes exactly the requests that
      cover it, blocks for each interrupt, and moves exactly the bytes; polling
      ends.
    - File system: where the areas of a partition are put, the place of an inode,
      sharing of open inodes, the block a file gets next, the entry a name finds in
      a directory, the place a new one gets and the size for which that fails, what
      writing an inode or a bitmap back changes on the disk, that an inode written
      back is the one opened next if the disk gives back what it was sent, that
      opening and closing one leaves the heap as it was, the depth of a path and
      what it takes for the depth of "/".
    Several theorems state what the code does where that is not what it means to
    do; their comments say so.

    ** Not modelled

    The real-mode code of boot/, its BIOS calls, and the part of the loader that
    reads the kernel's sectors and copies its segments: they run before there is
    a C program, on a machine state the rest of the development has no use for.
    Files other than [Screen] keep a call of print.asm as an event of the trace.
    The general registers are part of the state only in [Context]; elsewhere an
    interrupt is a call of its handler.  The heap is specified for blocks of at
    most 1024 bytes in kernel threads, with no other thread at the heap's lock,
    and the opening of an inode and the search of a directory for a heap with
    room in its arenas: the code does not look whether it got memory.  Commented-out code is not translated.
    Adding entries beyond the first block, formatting and mounting, the walk
    along a path, the scan of partition tables and start-up are translated but
    not specified beyond the theorems above. *)

From Stdlib Require Export ZArith Lia.
From stdpp Require Export base numbers list gmap strings.

#[global] Open Scope Z_scope.

#[global] Arguments Z.testbit : simpl never.
#[global] Arguments Z.land : simpl never.
#[global] Arguments Z.lor : simpl never.
#[global] Arguments Z.ldiff : simpl never.
#[global] Arguments Z.shiftl : simpl never.
#[global] Arguments Z.shiftr : simpl never.
#[global] Arguments Z.pow : simpl never.
#[global] Arguments Z.modulo : simpl never.
#[global] Arguments Z.div : simpl never.
#[global] Arguments Z.add : simpl never.
#[global] Arguments Z.mul : simpl never.
#[global] Arguments Z.sub : simpl never.
#[global] Arguments Z.to_nat : simpl never.
#[global] Arguments Z.eqb !_ !_.

(** ** Machine words *)

Definition w8 (z : Z) : Z := z mod 2 ^ 8.
Definition w16 (z : Z) : Z := z mod 2 ^ 16.
Definition w32 (z : Z) : Z := z mod 2 ^ 32.

(** The value an [int] has when its 32 bits are [z]. *)
Definition s32 (z : Z) : Z := if decide (w32 z < 2 ^ 31) then w32 z else w32 z - 2 ^ 32.

(** The value of a [char] holding byte [b]: [char] is signed. *)
Definition s8 (b : Z) : Z := if b <? 128 then b else b - 256.

(** Bitwise complement of a 32-bit word. *)
Definition not32 (z : Z) : Z := 2 ^ 32 - 1 - w32 z.

#[global] Arguments w8 : simpl never.
#[global] Arguments w16 : simpl never.
#[global] Arguments w32 : simpl never.
#[global] Arguments s32 : simpl never.

Lemma w8_range z : 0 <= w8 z < 256.
Proof. unfold w8. apply (Z.mod_pos_bound z (2 ^ 8)). lia. Qed.

Lemma w16_range z : 0 <= w16 z < 65536.
Proof. unfold w16. apply (Z.mod_pos_bound z (2 ^ 16)). lia. Qed.

Lemma w32_range z : 0 <= w32 z < 4294967296.
Proof. unfold w32. apply (Z.mod_pos_bound z (2 ^ 32)). lia. Qed.

Lemma w8_small z : 0 <= z < 256 → w8 z = z.
Proof. intros H. unfold w8. apply Z.mod_small. lia. Qed.

Lemma w16_small z : 0 <= z < 65536 → w16 z = z.
Proof. intros H. unfold w16. apply Z.mod_small. lia. Qed.

(** A value that fits a word. *)
Definition word_ok (v : Z) : Prop := 0 <= v < 2 ^ 32.

Lemma w32_small z : 0 <= z < 4294967296 → w32 z = z.
Proof. intros H. unfold w32. apply Z.mod_small. lia. Qed.

Lemma w32_w32 z : w32 (w32 z) = w32 z.
Proof. apply w32_small, w32_range. Qed.

Lemma s32_small z : 0 <= z < 2147483648 → s32 z = z.
Proof.
  intros H. unfold s32. rewrite w32_small by lia. rewrite decide_True by lia. done.
Qed.

(** ** Words as little-endian bytes *)

(** Byte [i] of a word. *)
Definition byte (i v : Z) : Z := w8 (Z.shiftr v (8 * i)).

Lemma byte_range i v : 0 <= byte i v < 256.
Proof. apply w8_range. Qed.

(** The bytes of a word determine it. *)
Lemma bytes_of_word v :
  0 <= v < 2 ^ 32 →
  byte 0 v + 2 ^ 8 * byte 1 v + 2 ^ 16 * byte 2 v + 2 ^ 24 * byte 3 v = v.
Proof.
  intros H. unfold byte, w8. rewrite !Z.shiftr_div_pow2 by lia.
  change (8 * 0) with 0. change (8 * 1) with 8. change (8 * 2) with 16.
  change (8 * 3) with 24.
  change (2 ^ 0) with 1. change (2 ^ 8) with 256. change (2 ^ 16) with 65536.
  change (2 ^ 24) with 16777216. change (2 ^ 32) with 4294967296 in H.
  rewrite Z.div_1_r. Z.div_mod_to_equations. lia.
Qed.

Lemma word_of_bytes b0 b1 b2 b3 :
  0 <= b0 < 256 → 0 <= b1 < 256 → 0 <= b2 < 256 → 0 <= b3 < 256 →
  let v := b0 + 2 ^ 8 * b1 + 2 ^ 16 * b2 + 2 ^ 24 * b3 in
  0 <= v < 2 ^ 32 ∧ byte 0 v = b0 ∧ byte 1 v = b1 ∧ byte 2 v = b2 ∧ byte 3 v = b3.
Proof.
  intros H0 H1 H2 H3 v.
  assert (0 <= v < 2 ^ 32) as Hv by (subst v; lia).
  pose proof (bytes_of_word v Hv) as E.
  pose proof (byte_range 0 v). pose proof (byte_range 1 v).
  pose proof (byte_range 2 v). pose proof (byte_range 3 v).
  subst v. split; [done|]. lia.
Qed.

Lemma byte_w32 i v : 0 <= i < 4 → byte i (w32 v) = byte i v.
Proof.
  intros Hi. unfold byte, w8, w32. apply Z.bits_inj'. intros n Hn.
  destruct (decide (n < 8)).
  - rewrite !Z.mod_pow2_bits_low, !Z.shiftr_spec, Z.mod_pow2_bits_low by lia. done.
  - rewrite !Z.mod_pow2_bits_high by lia. done.
Qed.

(** ** Single bits *)

Lemma land_pow2 z n : 0 <= n → Z.land z (2 ^ n) = if Z.testbit z n then 2 ^ n else 0.
Proof.
  intros Hn. apply Z.bits_inj'. intros k Hk. rewrite Z.land_spec, Z.pow2_bits_eqb by lia.
  destruct (Z.eqb_spec n k) as [->|Hne].
  - destruct (Z.testbit z k); [|by rewrite Z.bits_0].
    rewrite Z.pow2_bits_true by lia. done.
  - rewrite andb_false_r. destruct (Z.testbit z n); [|by rewrite Z.bits_0].
    rewrite Z.pow2_bits_false by done. done.
Qed.

Lemma land_pow2_eqb z n : 0 <= n → (Z.land z (2 ^ n) =? 0) = negb (Z.testbit z n).
Proof.
  intros Hn. rewrite land_pow2 by done. destruct (Z.testbit z n); simpl; [|done].
  apply Z.eqb_neq. lia.
Qed.

Lemma lor_pow2_id z n : 0 <= n → Z.testbit z n = true → Z.lor z (2 ^ n) = z.
Proof.
  intros Hn Hb. apply Z.bits_inj'. intros k Hk. rewrite Z.lor_spec, Z.pow2_bits_eqb by lia.
  destruct (Z.eqb_spec n k) as [->|]; [by rewrite Hb|apply orb_false_r].
Qed.

Lemma ldiff_pow2_id z n : 0 <= n → Z.testbit z n = false → Z.ldiff z (2 ^ n) = z.
Proof.
  intros Hn Hb. apply Z.bits_inj'. intros k Hk. rewrite Z.ldiff_spec, Z.pow2_bits_eqb by lia.
  destruct (Z.eqb_spec n k) as [->|]; [by rewrite Hb|apply andb_true_r].
Qed.

Lemma lor_ldiff_pow2 z n : 0 <= n → Z.testbit z n = true → Z.lor (Z.ldiff z (2 ^ n)) (2 ^ n) = z.
Proof.
  intros Hn Hb. apply Z.bits_inj'. intros k Hk.
  rewrite Z.lor_spec, Z.ldiff_spec, Z.pow2_bits_eqb by lia.
  destruct (Z.eqb_spec n k) as [->|]; [by rewrite Hb|].
  by rewrite andb_true_r, orb_false_r.
Qed.
