(* ===== verification/Machine.v ===== *)
(** The machine the C code runs on: CPU registers, byte-addressed memory, and
    the monad of C statements, with the loads, stores and loops every
    component is written in. *)
From S2P Require Import Prelude.

(** ** State *)

(** What the code does to the outside world, oldest event first. *)
Inductive io_event :=
  | EvOut (port value : Z)              (* outb *)
  | EvIn (port value : Z)               (* inb *)
  | EvOutWords (port : Z) (data : list Z)  (* rep outsw: the bytes sent *)
  | EvInWords (port : Z) (data : list Z)   (* rep insw: the bytes received *)
  | EvChar (c : Z)                      (* putChar *)
  | EvStr (s : string)                  (* putStr of a literal *)
  | EvStrAt (addr : Z)                  (* putStr of a string in memory *)
  | EvInt (n : Z)                       (* putInt *)
  | EvCursor (n : Z)                    (* set_cursor *)
  | EvLidt (operand : Z)                (* lidt *)
  | EvLgdt (operand : Z)                (* lgdt *)
  | EvLtr (selector : Z)                (* ltr *)
  | EvInvlpg (vaddr : Z)                (* invlpg *)
  | EvHlt                               (* hlt *)
  | EvIret (eip cs esp ss : Z).         (* iret to another privilege level *)

Record cpu := Cpu {
  esp : Z;                 (* the stack pointer: its page is the running thread's *)
  eflags : Z;
  cr3 : Z;
  inputs : list Z;         (* bytes the ports will deliver, in order *)
  trace : list io_event
}.

Abbreviation memory := (gmap Z Z).

Record state := State { st_cpu : cpu; st_mem : memory }.

Definition set_esp (v : Z) (c : cpu) : cpu := Cpu v (eflags c) (cr3 c) (inputs c) (trace c).
Definition set_eflags (v : Z) (c : cpu) : cpu := Cpu (esp c) v (cr3 c) (inputs c) (trace c).
Definition set_cr3 (v : Z) (c : cpu) : cpu := Cpu (esp c) (eflags c) v (inputs c) (trace c).
Definition set_inputs (v : list Z) (c : cpu) : cpu := Cpu (esp c) (eflags c) (cr3 c) v (trace c).
Definition log_event (e : io_event) (c : cpu) : cpu :=
  Cpu (esp c) (eflags c) (cr3 c) (inputs c) (trace c ++ [e]).

(** ** Outcomes and the monad *)

(** [Switch s k]: the CPU now runs the thread whose stack is [esp (st_cpu s)];
    [k] is what is left of the calling thread's code, for when it is resumed.
    [Panic]: [exception_report] was reached, which never returns.
    [Fault a]: an access to an address that is not there.
    [NoFuel]: more loop iterations than the fuel allows. *)
Inductive outcome (A : Type) : Type :=
  | Ret (a : A) (s : state)
  | Switch (s : state) (k : state → outcome A)
  | Panic (s : state)
  | Fault (a : Z) (s : state)
  | NoFuel.
Arguments Ret {A}.
Arguments Switch {A}.
Arguments Panic {A}.
Arguments Fault {A}.
Arguments NoFuel {A}.

Definition M (A : Type) : Type := nat → state → outcome A.

Definition ret {A} (a : A) : M A := λ _ s, Ret a s.

Fixpoint obind {A B} (o : outcome A) (f : A → state → outcome B) : outcome B :=
  match o with
  | Ret a s => f a s
  | Switch s k => Switch s (λ s', obind (k s') f)
  | Panic s => Panic s
  | Fault a s => Fault a s
  | NoFuel => NoFuel
  end.

Definition bind {A B} (m : M A) (f : A → M B) : M B :=
  λ n s, obind (m n s) (λ a s', f a n s').

Declare Scope prog_scope.
Delimit Scope prog_scope with prog.
Notation "x <- m ; k" := (bind m (λ x, k))
  (at level 100, m at next level, right associativity) : prog_scope.
Notation "m ;; k" := (bind m (λ _, k))
  (at level 100, right associativity) : prog_scope.
#[global] Open Scope prog_scope.

(** [if (c) m] without an [else]. *)
Definition when (c : bool) (m : M unit) : M unit := if c then m else ret tt.

Definition get_cpu : M cpu := λ _ s, Ret (st_cpu s) s.
Definition put_cpu (c : cpu) : M unit := λ _ s, Ret tt (State c (st_mem s)).
Definition modify_cpu (f : cpu → cpu) : M unit := c <- get_cpu; put_cpu (f c).
Definition emit (e : io_event) : M unit := modify_cpu (log_event e).
Definition panic {A} : M A := λ _ s, Panic s.
Definition out_of_fuel {A} : M A := λ _ _, NoFuel.

(** The processor continues in the thread whose stack [esp] now points into. *)
Definition yield : M unit := λ _ s, Switch s (λ s', Ret tt s').

(** ** Memory accesses *)

Definition ld8 (a : Z) : M Z := λ _ s,
  match st_mem s !! a with
  | Some b => Ret (w8 b) s
  | None => Fault a s
  end.

Definition st8 (a v : Z) : M unit := λ _ s,
  match st_mem s !! a with
  | Some _ => Ret tt (State (st_cpu s) (<[a := w8 v]> (st_mem s)))
  | None => Fault a s
  end.

(** Little-endian halves and words. *)
Definition ld16 (a : Z) : M Z :=
  b0 <- ld8 a; b1 <- ld8 (a + 1); ret (b0 + 2 ^ 8 * b1).
Definition st16 (a v : Z) : M unit :=
  st8 a v ;; st8 (a + 1) (Z.shiftr v 8).

Definition ld32 (a : Z) : M Z :=
  b0 <- ld8 a; b1 <- ld8 (a + 1); b2 <- ld8 (a + 2); b3 <- ld8 (a + 3);
  ret (b0 + 2 ^ 8 * b1 + 2 ^ 16 * b2 + 2 ^ 24 * b3).
Definition st32 (a v : Z) : M unit :=
  st8 a v ;; st8 (a + 1) (Z.shiftr v 8) ;;
  st8 (a + 2) (Z.shiftr v 16) ;; st8 (a + 3) (Z.shiftr v 24).

(** Blocks of consecutive bytes, as the string instructions move them. *)
Fixpoint ld_bytes (k : nat) (a : Z) : M (list Z) :=
  match k with
  | O => ret []
  | S k => b <- ld8 a; bs <- ld_bytes k (a + 1); ret (b :: bs)
  end.

Fixpoint st_bytes (a : Z) (bs : list Z) : M unit :=
  match bs with
  | [] => ret tt
  | b :: bs => st8 a b ;; st_bytes (a + 1) bs
  end.

(** ** Loops *)

(** [while]/[for] with the locals it updates as [σ]: the step either goes on
    ([inl]) or leaves the loop ([inr], at the condition, a [break] or a
    [return]).  Runs at most as many iterations as there is fuel. *)
Fixpoint loop_n {S B} (k : nat) (step : S → M (S + B)) (x : S) : M B :=
  match k with
  | O => out_of_fuel
  | S k => r <- step x;
           match r with
           | inl x' => loop_n k step x'
           | inr b => ret b
           end
  end.

Definition loop {S B} (step : S → M (S + B)) (x : S) : M B :=
  λ n, loop_n n step x n.

(** [for (i = i0; i < i0 + k; ++i) body] for a body that neither breaks nor
    changes [i]: no fuel needed. *)
Fixpoint for_n (k : nat) (i : Z) (body : Z → M unit) : M unit :=
  match k with
  | O => ret tt
  | S k => body i ;; for_n k (i + 1) body
  end.

Definition for_ (i0 i1 : Z) (body : Z → M unit) : M unit :=
  for_n (Z.to_nat (i1 - i0)) i0 body.

(** ** Running *)

(** What can be observed of an outcome without resuming it. *)
Inductive res (A : Type) : Type :=
  | RRet (a : A) (c : cpu)
  | RSwitch (c : cpu)
  | RPanic (c : cpu)
  | RFault (a : Z) (c : cpu).
Arguments RRet {A}.
Arguments RSwitch {A}.
Arguments RPanic {A}.
Arguments RFault {A}.

Definition observe {A} (o : outcome A) : option (res A * memory) :=
  match o with
  | Ret a s => Some (RRet a (st_cpu s), st_mem s)
  | Switch s _ => Some (RSwitch (st_cpu s), st_mem s)
  | Panic s => Some (RPanic (st_cpu s), st_mem s)
  | Fault a s => Some (RFault a (st_cpu s), st_mem s)
  | NoFuel => None
  end.

(** [exec m c h r h']: from CPU [c] and memory [h], with any large enough fuel,
    [m] comes to [r] with memory [h']. *)
Definition exec {A} (m : M A) (c : cpu) (h : memory) (r : res A) (h' : memory) : Prop :=
  ∃ n0, ∀ n, (n0 ≤ n)%nat → observe (m n (State c h)) = Some (r, h').

Definition ret_res {A} (Q : A → cpu → Prop) (r : res A) : Prop :=
  match r with RRet a c => Q a c | _ => False end.

(** [b2z]: the [int] value of a C condition. *)
Definition b2z (b : bool) : Z := if b then 1 else 0.
