(* ===== verification/Heap.v ===== *)
(** Separation logic for the machine: assertions on memory as a BI of the Iris
    proof mode, and weakest preconditions for the monad of statements. *)
From iris.bi Require Import interface derived_connectives derived_laws.
From iris.proofmode Require Export proofmode.
From iris.proofmode Require Import environments.
From S2P Require Export Prelude Machine.

(** ** Assertions: predicates on memory closed under extension *)

Record hProp := HProp {
  holds :> memory → Prop;
  holds_mono h1 h2 : holds h1 → h1 ⊆ h2 → holds h2
}.
Arguments holds : simpl never.

Section ofe.
#[local] Instance hProp_equiv_def : Equiv hProp := λ P Q, ∀ h, P h ↔ Q h.
#[local] Instance hProp_equivalence : Equivalence (≡@{hProp}).
Proof. split; repeat intro; firstorder. Qed.
Canonical Structure hPropO : ofe := discreteO hProp.
End ofe.

Inductive hProp_entails (P Q : hProp) : Prop :=
  { in_entails : ∀ h, P h → Q h }.

Program Definition hProp_pure (φ : Prop) : hProp := HProp (λ _, φ) _.
Next Obligation. done. Qed.
Definition hProp_emp : hProp := hProp_pure True.
Program Definition hProp_and (P Q : hProp) : hProp := HProp (λ h, P h ∧ Q h) _.
Next Obligation. intros P Q h1 h2 [??] ?. split; by eapply holds_mono. Qed.
Program Definition hProp_or (P Q : hProp) : hProp := HProp (λ h, P h ∨ Q h) _.
Next Obligation. intros P Q h1 h2 [?|?] ?; [left|right]; by eapply holds_mono. Qed.
Program Definition hProp_impl (P Q : hProp) : hProp :=
  HProp (λ h, ∀ h', h ⊆ h' → P h' → Q h') _.
Next Obligation. intros P Q h1 h2 H ? h' ??. apply H; [by trans h2|done]. Qed.
Program Definition hProp_forall {A} (Ψ : A → hProp) : hProp := HProp (λ h, ∀ a, Ψ a h) _.
Next Obligation. intros A Ψ h1 h2 H ? a. by eapply holds_mono. Qed.
Program Definition hProp_exist {A} (Ψ : A → hProp) : hProp := HProp (λ h, ∃ a, Ψ a h) _.
Next Obligation. intros A Ψ h1 h2 [a ?] ?. exists a. by eapply holds_mono. Qed.
Program Definition hProp_sep (P Q : hProp) : hProp :=
  HProp (λ h, ∃ h1 h2, h1 ##ₘ h2 ∧ h1 ∪ h2 ⊆ h ∧ P h1 ∧ Q h2) _.
Next Obligation.
  intros P Q h1 h2 (g1 & g2 & ? & ? & ? & ?) ?. exists g1, g2. split_and!; try done. by trans h1.
Qed.
Program Definition hProp_wand (P Q : hProp) : hProp :=
  HProp (λ h, ∀ h', h ##ₘ h' → P h' → Q (h ∪ h')) _.
Next Obligation.
  intros P Q h1 h2 H Hs h' Hd HP.
  assert (h1 ##ₘ h') as Hd' by (by eapply map_disjoint_weaken_l).
  eapply holds_mono; [by apply H|]. by apply map_union_mono_r.
Qed.
Definition hProp_persistently (P : hProp) : hProp := hProp_pure (hProp_entails hProp_emp P).

Lemma hProp_bi_mixin :
  BiMixin hProp_entails hProp_emp hProp_pure hProp_and hProp_or hProp_impl
          (@hProp_forall) (@hProp_exist) hProp_sep hProp_wand.
Proof.
  split.
  - split; [by intros P; split|intros P Q R [H1] [H2]; split; eauto].
  - intros P Q. split; [intros H; split; split; intros h; apply H|intros [[H1] [H2]] h; split; auto].
  - intros n φ ψ H h. apply H.
  - intros n P P' HP Q Q' HQ h. specialize (HP h). specialize (HQ h).
    unfold holds; simpl. tauto.
  - intros n P P' HP Q Q' HQ h. specialize (HP h). specialize (HQ h).
    unfold holds; simpl. tauto.
  - intros n P P' HP Q Q' HQ h. split; intros H h' Hs HP'; apply HQ, H; auto; by apply HP.
  - intros A n Ψ Ψ' H h. split; intros HΨ a; apply (H a), HΨ.
  - intros A n Ψ Ψ' H h. split; intros [a HΨ]; exists a; by apply (H a).
  - intros n P P' HP Q Q' HQ h.
    split; intros (h1 & h2 & ? & ? & ? & ?); exists h1, h2; split_and!; try done;
      by (apply HP || apply HQ).
  - intros n P P' HP Q Q' HQ h. split; intros H h' Hd HP'; apply HQ, H; auto; by apply HP.
  - intros φ P Hφ. by split.
  - intros φ P H. split. intros h Hφ. by apply (in_entails _ _ (H Hφ)).
  - intros P Q. by split; intros h [? _].
  - intros P Q. by split; intros h [_ ?].
  - intros P Q R [H1] [H2]. split; intros h ?; split; auto.
  - intros P Q. split. by left.
  - intros P Q. split. by right.
  - intros P Q R [H1] [H2]. split; intros h [?|?]; auto.
  - intros P Q R [H]. split; intros h HP h' Hs HQ. apply H. split; [by eapply holds_mono|done].
  - intros P Q R [H]. split; intros h [HP HQ]. by apply (H h HP h).
  - intros A P Ψ H. split; intros h HP a. by apply H.
  - intros A Ψ a. split; intros h H. apply H.
  - intros A Ψ a. split; intros h H. by exists a.
  - intros A Ψ Q H. split; intros h [a ?]. by apply (H a).
  - intros P P' Q Q' [H1] [H2]. split; intros h (h1 & h2 & ? & ? & ? & ?).
    exists h1, h2. split_and!; auto.
  - intros P. split; intros h HP. exists ∅, h.
    split_and!; [apply map_disjoint_empty_l| |done..]. by rewrite left_id_L.
  - intros P. split; intros h (h1 & h2 & Hd & Hs & _ & HP). eapply holds_mono; [done|].
    trans (h1 ∪ h2); [by apply map_union_subseteq_r|done].
  - intros P Q. split; intros h (h1 & h2 & Hd & Hs & HP & HQ). exists h2, h1.
    split_and!; [done| |done..]. by rewrite map_union_comm.
  - intros P Q R. split; intros h (h12 & h3 & Hd & Hs & (h1 & h2 & Hd' & Hs' & HP & HQ) & HR).
    assert (h1 ∪ h2 ##ₘ h3) as Hd3 by (by eapply map_disjoint_weaken_l).
    apply map_disjoint_union_l in Hd3 as [Hd13 Hd23].
    exists h1, (h2 ∪ h3). split_and!; [by apply map_disjoint_union_r| |done|].
    + rewrite assoc_L. etrans; [|done]. by apply map_union_mono_r.
    + exists h2, h3. done.
  - intros P Q R [H]. split; intros h HP h' Hd HQ. apply H. exists h, h'. done.
  - intros P Q R [H]. split; intros h (h1 & h2 & Hd & Hs & HP & HQ). eapply holds_mono; [|done].
    by apply (H h1 HP h2).
Qed.

Lemma hProp_persistently_mixin :
  BiPersistentlyMixin hProp_entails hProp_emp hProp_and (@hProp_exist) hProp_sep
                      hProp_persistently.
Proof.
  eapply bi_persistently_mixin_discrete; [|..|exact hProp_bi_mixin].
  - done.
  - intros A Φ [H]. destruct (H ∅ I) as [a Ha]. exists a. split; intros h _.
    eapply holds_mono; [done|]. apply map_empty_subseteq.
  - done.
Qed.

Lemma hProp_later_mixin :
  BiLaterMixin hProp_entails hProp_pure hProp_or hProp_impl (@hProp_forall)
               (@hProp_exist) hProp_sep hProp_persistently id.
Proof. by eapply bi_later_mixin_id, hProp_bi_mixin. Qed.

Canonical Structure hPropI : bi :=
  {| bi_bi_mixin := hProp_bi_mixin;
     bi_bi_persistently_mixin := hProp_persistently_mixin;
     bi_bi_later_mixin := hProp_later_mixin |}.

#[global] Instance hProp_affine : BiAffine hPropI | 0.
Proof. intros P. by split. Qed.
#[global] Instance hProp_pure_forall : BiPureForall hPropI.
Proof. intros A φ. split; intros h H a. apply H. Qed.

(** [h ⊨ P]: memory [h] contains what [P] asserts. *)
Definition models (h : memory) (P : hPropI) : Prop := holds P h.
Notation "h ⊨ P" := (models h P%I) (at level 70, no associativity).

(** ** Points-to assertions *)

Program Definition pt_def (a b : Z) : hProp := HProp (λ h, h !! a = Some b ∧ 0 <= b < 256) _.
Next Obligation. intros a b h1 h2 [??] ?. split; [by eapply lookup_weaken|done]. Qed.
Definition pt (a b : Z) : hPropI := pt_def a b.

Definition pt16 (a v : Z) : hPropI :=
  (⌜0 <= v < 2 ^ 16⌝ ∗ pt a (byte 0 v) ∗ pt (a + 1) (byte 1 v))%I.
Definition pt32 (a v : Z) : hPropI :=
  (⌜0 <= v < 2 ^ 32⌝ ∗ pt a (byte 0 v) ∗ pt (a + 1) (byte 1 v) ∗
   pt (a + 2) (byte 2 v) ∗ pt (a + 3) (byte 3 v))%I.
(** Consecutive bytes. *)
Definition bytes (a : Z) (bs : list Z) : hPropI :=
  ([∗ list] i ↦ b ∈ bs, pt (a + Z.of_nat i) b)%I.

Notation "a ↦ b" := (pt a b) (at level 20) : bi_scope.
Notation "a ↦ₕ v" := (pt16 a v) (at level 20) : bi_scope.
Notation "a ↦w v" := (pt32 a v) (at level 20) : bi_scope.
Notation "a ↦∗ bs" := (bytes a bs) (at level 20) : bi_scope.
(** A cell or word whose content does not matter. *)
Notation "a ↦ -" := (∃ b, pt a b)%I (at level 20) : bi_scope.
Notation "a ↦w -" := (∃ v, pt32 a v)%I (at level 20) : bi_scope.

Lemma pt_range a b : a ↦ b ⊢ ⌜0 <= b < 256⌝.
Proof. split. intros h H. apply H. Qed.

Lemma pt_excl_sep a b b' : a ↦ b ∗ a ↦ b' ⊢ False.
Proof.
  split. intros h (h1 & h2 & Hd & _ & [H1 _] & [H2 _]).
  by eapply map_disjoint_spec in Hd.
Qed.

Lemma pt_excl a b b' : a ↦ b -∗ a ↦ b' -∗ False.
Proof. iIntros "H1 H2". iApply pt_excl_sep. iFrame. Qed.

Lemma pt_ne a a' b b' : a ↦ b -∗ a' ↦ b' -∗ ⌜a ≠ a'⌝.
Proof. iIntros "H1 H2" (->). iApply (pt_excl with "H1 H2"). Qed.

Lemma pt32_range a v : a ↦w v ⊢ ⌜0 <= v < 2 ^ 32⌝.
Proof. iIntros "[$ _]". Qed.

Lemma pt32_ne a a' v v' : a ↦w v -∗ a' ↦w v' -∗ ⌜a ≠ a'⌝.
Proof. iIntros "(_ & H1 & _) (_ & H2 & _)". iApply (pt_ne with "H1 H2"). Qed.

(** ** Weakest preconditions *)

Lemma memory_split (h1 h2 : memory) : h1 ⊆ h2 → ∃ g, h1 ##ₘ g ∧ h2 = h1 ∪ g.
Proof.
  intros Hs. exists (h2 ∖ h1). split; [by apply map_disjoint_difference_r1|].
  symmetry. by apply map_difference_union.
Qed.

(** From a memory containing this assertion the execution [E] comes to some
    result [r] and a memory that contains [Φ r], in which everything else is as
    it was. *)
Program Definition wpx {A} (E : memory → res A → memory → Prop) (Φ : res A → hPropI) : hProp :=
  HProp (λ h, ∀ hf, h ##ₘ hf →
    ∃ r h', h' ##ₘ hf ∧ (h' ⊨ Φ r) ∧ E (h ∪ hf) r (h' ∪ hf)) _.
Next Obligation.
  intros A E Φ h1 h2 H Hs hf Hd.
  destruct (memory_split _ _ Hs) as (g & Hg & ->).
  apply map_disjoint_union_l in Hd as [Hd1 Hdg].
  destruct (H (g ∪ hf)) as (r & h' & Hd' & HΦ & Hx); [by apply map_disjoint_union_r|].
  apply map_disjoint_union_r in Hd' as [Hd'g Hd'f].
  exists r, (h' ∪ g). split_and!.
  - by apply map_disjoint_union_l.
  - eapply holds_mono; [done|]. apply map_union_subseteq_l.
  - by rewrite -!assoc_L.
Qed.

Lemma wpx_wand {A} (E : memory → res A → memory → Prop) (Φ Ψ : res A → hPropI) :
  wpx E Φ -∗ (∀ r, Φ r -∗ Ψ r) -∗ (wpx E Ψ : hPropI).
Proof.
  assert ((∀ r, Φ r -∗ Ψ r) ∗ wpx E Φ ⊢ (wpx E Ψ : hPropI)) as Hw;
    [|iIntros "H HW"; iApply Hw; iFrame].
  split. intros h (h1 & h2 & Hd & Hs & HW & H) hf Hdf.
  destruct (memory_split _ _ Hs) as (g & Hg & ->).
  apply map_disjoint_union_l in Hdf as [[Hd1f Hd2f]%map_disjoint_union_l Hgf].
  apply map_disjoint_union_l in Hg as [Hg1 Hg2].
  destruct (H (h1 ∪ (g ∪ hf))) as (r & h' & Hd' & HΦ & Hx).
  { apply map_disjoint_union_r. split; [done|]. by apply map_disjoint_union_r. }
  apply map_disjoint_union_r in Hd' as [Hd'1 [Hd'g Hd'f]%map_disjoint_union_r].
  exists r, (h1 ∪ h' ∪ g). split_and!.
  - rewrite !map_disjoint_union_l. done.
  - eapply holds_mono; [apply (HW r h'); [done|apply HΦ]|]. apply map_union_subseteq_l.
  - replace (h1 ∪ h2 ∪ g ∪ hf) with (h2 ∪ (h1 ∪ (g ∪ hf))).
    + replace (h1 ∪ h' ∪ g ∪ hf) with (h' ∪ (h1 ∪ (g ∪ hf))); [done|].
      rewrite (map_union_comm h1 h') //. by rewrite -!assoc_L.
    + rewrite (map_union_comm h1 h2) //. by rewrite -!assoc_L.
Qed.

(** [wp m c Φ]: the runs of [m] on CPU [c], with enough fuel. *)
Definition wp {A} (m : M A) (c : cpu) (Φ : res A → hPropI) : hPropI := wpx (exec m c) Φ.

(** The continuation of a sequence: only a normal return goes on. *)
Definition wp_k {A B} (f : A → M B) (Φ : res B → hPropI) (r : res A) : hPropI :=
  match r with
  | RRet a c => wp (f a) c Φ
  | RSwitch c => Φ (RSwitch c)
  | RPanic c => Φ (RPanic c)
  | RFault a c => Φ (RFault a c)
  end.

(** Postcondition of code that returns. *)
Definition returns {A} (Q : A → cpu → hPropI) (r : res A) : hPropI :=
  match r with RRet a c => Q a c | _ => False end.

(** Soundness: what a weakest precondition says of whole memories. *)
Lemma wp_sound {A} (m : M A) c Φ (P : hPropI) h :
  (P ⊢ wp m c Φ) → h ⊨ P → ∃ r h', exec m c h r h' ∧ h' ⊨ Φ r.
Proof.
  intros [H] HP. destruct (H h HP ∅) as (r & h' & _ & HΦ & Hx).
  { apply map_disjoint_empty_r. }
  rewrite !right_id_L in Hx. eauto.
Qed.

Lemma models_mono h (P Q : hPropI) : (P ⊢ Q) → h ⊨ P → h ⊨ Q.
Proof. intros [H]. apply H. Qed.

Section wp_rules.
Context {A B : Type}.
Implicit Types (m : M A) (Φ Ψ : res A → hPropI).

Lemma wp_exec_intro m c Φ h r :
  (∀ hf, h ##ₘ hf → exec m c (h ∪ hf) r (h ∪ hf)) → (h ⊨ Φ r) → h ⊨ wp m c Φ.
Proof. intros H HΦ hf Hd. exists r, h. auto. Qed.

Lemma wp_ret a c Φ : Φ (RRet a c) ⊢ wp (ret a) c Φ.
Proof.
  split. intros h HΦ. eapply wp_exec_intro; [|done].
  intros hf _. exists O. done.
Qed.

Lemma wp_panic c Φ : Φ (RPanic c) ⊢ wp panic c Φ.
Proof.
  split. intros h HΦ. eapply wp_exec_intro; [|done].
  intros hf _. exists O. done.
Qed.

Lemma wp_bind m (f : A → M B) c (Φ : res B → hPropI) :
  wp m c (wp_k f Φ) ⊢ wp (bind m f) c Φ.
Proof.
  split. intros h H hf Hd.
  destruct (H hf Hd) as (r & h' & Hd' & HΦ & n0 & Hx).
  destruct r as [a c'|c'|c'|x c'].
  - destruct (HΦ hf Hd') as (r2 & h2 & Hd2 & HΦ2 & n1 & Hx2).
    exists r2, h2. split_and!; [done..|]. exists (n0 `max` n1)%nat. intros n Hn.
    unfold bind. specialize (Hx n ltac:(lia)). specialize (Hx2 n ltac:(lia)).
    destruct (m n _) as [? [? ?]|[? ?] ?|[? ?]|? [? ?]|]; simplify_eq/=; done.
  - exists (RSwitch c'), h'. split_and!; [done..|]. exists n0. intros n Hn.
    unfold bind. specialize (Hx n Hn).
    destruct (m n _) as [? [? ?]|[? ?] ?|[? ?]|? [? ?]|]; simplify_eq/=; congruence.
  - exists (RPanic c'), h'. split_and!; [done..|]. exists n0. intros n Hn.
    unfold bind. specialize (Hx n Hn).
    destruct (m n _) as [? [? ?]|[? ?] ?|[? ?]|? [? ?]|]; simplify_eq/=; congruence.
  - exists (RFault x c'), h'. split_and!; [done..|]. exists n0. intros n Hn.
    unfold bind. specialize (Hx n Hn).
    destruct (m n _) as [? [? ?]|[? ?] ?|[? ?]|? [? ?]|]; simplify_eq/=; congruence.
Qed.

Lemma wp_wand m c Φ Ψ : wp m c Φ -∗ (∀ r, Φ r -∗ Ψ r) -∗ wp m c Ψ.
Proof. apply wpx_wand. Qed.

End wp_rules.

(** Programs with the same outcomes from every state. *)
Definition same_program {A} (m m' : M A) : Prop := ∀ n s, m n s = m' n s.

#[export] Instance same_program_equivalence {A} : Equivalence (@same_program A).
Proof.
  split; [by intros ???|by intros m m' E n s; rewrite E|].
  intros m1 m2 m3 E1 E2 n s. by rewrite E1 E2.
Qed.

(** They satisfy the same specifications, weaker ones too. *)
#[export] Instance wp_proper {A} :
  Proper (same_program ==> eq ==> pointwise_relation _ (⊢) ==> (⊢)) (@wp A).
Proof.
  intros m m' E c ? <- Φ Ψ HΦ. iIntros "H". iApply (wp_wand m' c Φ with "[H]").
  - iStopProof. split. intros h H hf Hd. destruct (H hf Hd) as (r & h' & Hd' & HQ & n0 & Hx).
    exists r, h'. split_and!; [done..|]. exists n0. intros n Hn. rewrite -E. by apply Hx.
  - iIntros (r) "H". by iApply HΦ.
Qed.

(** ** Rules for the primitive statements *)

Section wp_primitives.
Implicit Types (c : cpu).

Lemma wp_get_cpu c (Φ : res cpu → hPropI) : Φ (RRet c c) ⊢ wp get_cpu c Φ.
Proof. split. intros h H. eapply wp_exec_intro; [|done]. intros hf _. by exists O. Qed.

Lemma wp_put_cpu c c' (Φ : res unit → hPropI) : Φ (RRet tt c') ⊢ wp (put_cpu c') c Φ.
Proof. split. intros h H. eapply wp_exec_intro; [|done]. intros hf _. by exists O. Qed.

Lemma wp_modify_cpu c f (Φ : res unit → hPropI) :
  Φ (RRet tt (f c)) ⊢ wp (modify_cpu f) c Φ.
Proof. rewrite -wp_bind -wp_get_cpu /= -wp_put_cpu. done. Qed.

Lemma wp_emit c e (Φ : res unit → hPropI) :
  Φ (RRet tt (log_event e c)) ⊢ wp (emit e) c Φ.
Proof. apply wp_modify_cpu. Qed.

Lemma wp_yield c (Φ : res unit → hPropI) : Φ (RSwitch c) ⊢ wp yield c Φ.
Proof. split. intros h H. eapply wp_exec_intro; [|done]. intros hf _. by exists O. Qed.

Lemma wp_when c (b : bool) m (Φ : res unit → hPropI) :
  (if b then wp m c Φ else Φ (RRet tt c)) ⊢ wp (when b m) c Φ.
Proof. destruct b; [done|apply wp_ret]. Qed.

Lemma pt_lookup a b (h hf : memory) : (h ⊨ a ↦ b) → (h ∪ hf) !! a = Some b ∧ 0 <= b < 256.
Proof. intros [H Hr]. split; [|done]. by apply lookup_union_Some_l. Qed.

Lemma wp_ld8_sep a b c (Φ : res Z → hPropI) :
  a ↦ b ∗ (a ↦ b -∗ Φ (RRet b c)) ⊢ wp (ld8 a) c Φ.
Proof.
  split. intros h (h1 & h2 & Hd & Hs & Hp & HW) hf Hdf.
  assert (h ⊨ a ↦ b) as Hp'.
  { eapply holds_mono; [apply Hp|]. etrans; [|done]. apply map_union_subseteq_l. }
  destruct (pt_lookup a b h hf Hp') as [Hl Hr].
  exists (RRet b c), h. split_and!; [done| |].
  - eapply holds_mono; [apply (HW h1); [done|apply Hp]|]. by rewrite (map_union_comm h2).
  - exists O. intros n _. rewrite /ld8 /= Hl /=. by rewrite w8_small.
Qed.

Lemma wp_ld8 a a' b c (Φ : res Z → hPropI) :
  a = a' → a' ↦ b -∗ (a' ↦ b -∗ Φ (RRet b c)) -∗ wp (ld8 a) c Φ.
Proof. iIntros (->) "H HΦ". iApply wp_ld8_sep. iFrame. Qed.

Lemma wp_st8_sep a b v c (Φ : res unit → hPropI) :
  a ↦ b ∗ (a ↦ w8 v -∗ Φ (RRet tt c)) ⊢ wp (st8 a v) c Φ.
Proof.
  split. intros h (h1 & h2 & Hd & Hs & [Hp Hb] & HW) hf Hdf.
  assert (h1 !! a = Some b) as Hp1 by done.
  destruct (memory_split _ _ Hs) as (g & Hg & ->).
  apply map_disjoint_union_l in Hg as [Hg1 Hg2].
  apply map_disjoint_union_l in Hdf as [[Hd1f Hd2f]%map_disjoint_union_l Hgf].
  assert (∀ k : memory, h1 ##ₘ k → {[a := w8 v]} ##ₘ k) as Hone.
  { intros k Hk. apply map_disjoint_singleton_l. by eapply map_disjoint_Some_l. }
  exists (RRet tt c), (h2 ∪ {[a := w8 v]} ∪ (delete a h1 ∪ g)). split_and!.
  - rewrite !map_disjoint_union_l. split_and!; auto.
    by apply map_disjoint_delete_l.
  - eapply holds_mono; [apply (HW {[a := w8 v]})|].
    + symmetry. by apply Hone.
    + split; [apply lookup_singleton_eq|apply w8_range].
    + apply map_union_subseteq_l.
  - exists O. intros n _. rewrite /st8 /=.
    assert ((h1 ∪ h2 ∪ g ∪ hf) !! a = Some b) as ->.
    { by do 3 apply lookup_union_Some_l. }
    simpl. do 2 f_equal. apply map_eq. intros x.
    destruct (decide (x = a)) as [->|Hx].
    + rewrite lookup_insert_eq. symmetry. apply lookup_union_Some_l, lookup_union_Some_l.
      rewrite lookup_union_r; [apply lookup_singleton_eq|]. by eapply map_disjoint_Some_l.
    + rewrite lookup_insert_ne // !lookup_union lookup_singleton_ne // lookup_delete_ne //.
      assert (h1 !! x = None ∨ h2 !! x = None) as [E|E].
      { destruct (h1 !! x) eqn:E1; [right|by left]. by eapply map_disjoint_Some_l. }
      all: rewrite E; destruct (h1 !! x), (h2 !! x), (g !! x), (hf !! x); done.
Qed.

Lemma wp_st8 a a' b v c (Φ : res unit → hPropI) :
  a = a' → a' ↦ b -∗ (a' ↦ w8 v -∗ Φ (RRet tt c)) -∗ wp (st8 a v) c Φ.
Proof. iIntros (->) "H HΦ". iApply wp_st8_sep. iFrame. Qed.

Lemma wp_ld32 a a' v c (Φ : res Z → hPropI) :
  a = a' → a' ↦w v -∗ (a' ↦w v -∗ Φ (RRet v c)) -∗ wp (ld32 a) c Φ.
Proof.
  iIntros (->) "(%Hv & H0 & H1 & H2 & H3) HΦ". rewrite /ld32.
  iApply wp_bind; iApply (wp_ld8 with "H0"); [done|]; iIntros "H0 /=".
  iApply wp_bind; iApply (wp_ld8 with "H1"); [done|]; iIntros "H1 /=".
  iApply wp_bind; iApply (wp_ld8 with "H2"); [done|]; iIntros "H2 /=".
  iApply wp_bind; iApply (wp_ld8 with "H3"); [done|]; iIntros "H3 /=".
  iApply wp_ret. rewrite bytes_of_word //. iApply "HΦ". by iFrame.
Qed.

Lemma wp_st32 a a' v v' c (Φ : res unit → hPropI) :
  a = a' → a' ↦w v -∗ (a' ↦w w32 v' -∗ Φ (RRet tt c)) -∗ wp (st32 a v') c Φ.
Proof.
  iIntros (->) "(%Hv & H0 & H1 & H2 & H3) HΦ". rewrite /st32.
  iApply wp_bind; iApply (wp_st8 with "H0"); [done|]; iIntros "H0 /=".
  iApply wp_bind; iApply (wp_st8 with "H1"); [done|]; iIntros "H1 /=".
  iApply wp_bind; iApply (wp_st8 with "H2"); [done|]; iIntros "H2 /=".
  iApply (wp_st8 with "H3"); [done|]; iIntros "H3 /=".
  iApply "HΦ". rewrite /pt32. rewrite !byte_w32 //. iFrame.
  iPureIntro. apply w32_range.
Qed.
End wp_primitives.

Lemma byte_small_0 b : 0 <= b < 256 → byte 0 b = b.
Proof. intros H. unfold byte. rewrite Z.shiftr_0_r. by apply w8_small. Qed.

Section wp_halves.
Implicit Types (c : cpu).

Lemma half_of_bytes v : 0 <= v < 2 ^ 16 → byte 0 v + 2 ^ 8 * byte 1 v = v.
Proof.
  intros H. pose proof (bytes_of_word v ltac:(lia)) as E.
  assert (∀ i, 2 <= i → byte i v = 0) as Hz.
  { intros i Hi. unfold byte, w8. rewrite Z.shiftr_div_pow2; [|lia].
    rewrite Z.div_small; [done|]. split; [lia|].
    apply Z.lt_le_trans with (2 ^ 16); [lia|]. apply Z.pow_le_mono_r; lia. }
  rewrite (Hz 2) // (Hz 3) // in E. lia.
Qed.

Lemma byte_w16 i v : 0 <= i < 2 → byte i (w16 v) = byte i v.
Proof.
  intros Hi. rewrite -(byte_w32 i v); [|lia]. rewrite -(byte_w32 i (w16 v)); [|lia].
  unfold byte, w8, w32, w16. apply Z.bits_inj'. intros n Hn.
  destruct (decide (n < 8)).
  - rewrite !Z.mod_pow2_bits_low; [|lia..]. rewrite !Z.shiftr_spec; [|lia..].
    by rewrite !Z.mod_pow2_bits_low; [|lia..].
  - by rewrite !Z.mod_pow2_bits_high; [|lia..].
Qed.

Lemma wp_ld16 a a' v c (Φ : res Z → hPropI) :
  a = a' → a' ↦ₕ v -∗ (a' ↦ₕ v -∗ Φ (RRet v c)) -∗ wp (ld16 a) c Φ.
Proof.
  iIntros (->) "(%Hv & H0 & H1) HΦ". rewrite /ld16.
  iApply wp_bind; iApply (wp_ld8 with "H0"); [done|]; iIntros "H0 /=".
  iApply wp_bind; iApply (wp_ld8 with "H1"); [done|]; iIntros "H1 /=".
  iApply wp_ret. rewrite half_of_bytes //. iApply "HΦ". by iFrame.
Qed.

Lemma wp_st16 a a' v v' c (Φ : res unit → hPropI) :
  a = a' → a' ↦ₕ v -∗ (a' ↦ₕ w16 v' -∗ Φ (RRet tt c)) -∗ wp (st16 a v') c Φ.
Proof.
  iIntros (->) "(%Hv & H0 & H1) HΦ". rewrite /st16.
  iApply wp_bind; iApply (wp_st8 with "H0"); [done|]; iIntros "H0 /=".
  iApply (wp_st8 with "H1"); [done|]; iIntros "H1 /=".
  iApply "HΦ". rewrite /pt16. rewrite !byte_w16 //. iFrame.
  iPureIntro. apply w16_range.
Qed.
End wp_halves.

(** ** Loops *)

(** The precondition of a loop about to run its step on [x]: any large enough
    bound on the iterations gives the result. *)
Definition exec_loop {S B} (step : S → M (S + B)) (x : S) (c : cpu) (h : memory)
    (r : res B) (h' : memory) : Prop :=
  ∃ n0, ∀ k n, (n0 ≤ k)%nat → (n0 ≤ n)%nat →
    observe (loop_n k step x n (State c h)) = Some (r, h').

Definition wp_loop {S B} (step : S → M (S + B)) x c (Φ : res B → hPropI) : hPropI :=
  wpx (exec_loop step x c) Φ.

Definition wp_loop_k {S B} (step : S → M (S + B)) (Φ : res B → hPropI)
    (r : res (S + B)) : hPropI :=
  match r with
  | RRet (inl x) c => wp_loop step x c Φ
  | RRet (inr b) c => Φ (RRet b c)
  | RSwitch c => Φ (RSwitch c)
  | RPanic c => Φ (RPanic c)
  | RFault a c => Φ (RFault a c)
  end.

Lemma wp_loop_step {S B} (step : S → M (S + B)) x c (Φ : res B → hPropI) :
  wp (step x) c (wp_loop_k step Φ) ⊢ wp_loop step x c Φ.
Proof.
  split. intros h H hf Hd.
  destruct (H hf Hd) as (r & h' & Hd' & HΦ & n0 & Hx).
  destruct r as [[x'|b] c'|c'|c'|a c'].
  - destruct (HΦ hf Hd') as (r2 & h2 & Hd2 & HΦ2 & n1 & Hx2).
    exists r2, h2. split_and!; [done..|]. exists (Datatypes.S (n0 `max` n1))%nat. intros k n Hk Hn.
    destruct k as [|k]; [lia|]. simpl. unfold bind.
    specialize (Hx n ltac:(lia)). specialize (Hx2 k n ltac:(lia) ltac:(lia)).
    destruct (step x n _) as [? [? ?]|[? ?] ?|[? ?]|? [? ?]|]; simplify_eq/=. done.
  - exists (RRet b c'), h'. split_and!; [done..|]. exists (Datatypes.S n0). intros k n Hk Hn.
    destruct k as [|k]; [lia|]. simpl. unfold bind. specialize (Hx n ltac:(lia)).
    destruct (step x n _) as [? [? ?]|[? ?] ?|[? ?]|? [? ?]|]; simplify_eq/=. done.
  - exists (RSwitch c'), h'. split_and!; [done..|]. exists (Datatypes.S n0). intros k n Hk Hn.
    destruct k as [|k]; [lia|]. simpl. unfold bind. specialize (Hx n ltac:(lia)).
    destruct (step x n _) as [? [? ?]|[? ?] ?|[? ?]|? [? ?]|]; simplify_eq/=; congruence.
  - exists (RPanic c'), h'. split_and!; [done..|]. exists (Datatypes.S n0). intros k n Hk Hn.
    destruct k as [|k]; [lia|]. simpl. unfold bind. specialize (Hx n ltac:(lia)).
    destruct (step x n _) as [? [? ?]|[? ?] ?|[? ?]|? [? ?]|]; simplify_eq/=; congruence.
  - exists (RFault a c'), h'. split_and!; [done..|]. exists (Datatypes.S n0). intros k n Hk Hn.
    destruct k as [|k]; [lia|]. simpl. unfold bind. specialize (Hx n ltac:(lia)).
    destruct (step x n _) as [? [? ?]|[? ?] ?|[? ?]|? [? ?]|]; simplify_eq/=; congruence.
Qed.

Lemma wp_loop_start {S B} (step : S → M (S + B)) x c (Φ : res B → hPropI) :
  wp_loop step x c Φ ⊢ wp (loop step x) c Φ.
Proof.
  split. intros h H hf Hd. destruct (H hf Hd) as (r & h' & Hd' & HΦ & n0 & Hx).
  exists r, h'. split_and!; [done..|]. exists n0. intros n Hn. unfold loop. by apply Hx.
Qed.

Lemma wp_loop_wand {S B} (step : S → M (S + B)) x c (Φ Ψ : res B → hPropI) :
  wp_loop step x c Φ -∗ (∀ r, Φ r -∗ Ψ r) -∗ wp_loop step x c Ψ.
Proof. apply wpx_wand. Qed.

(** [for] loops: an invariant indexed by the counter. *)
Lemma wp_for (I : Z → hPropI) i0 i1 (body : Z → M unit) c (Φ : res unit → hPropI) :
  i0 <= i1 →
  (∀ i, i0 <= i < i1 → I i ⊢ wp (body i) c (returns (λ _ c', ⌜c' = c⌝ ∗ I (i + 1)))) →
  I i0 -∗ (I i1 -∗ Φ (RRet tt c)) -∗ wp (for_ i0 i1 body) c Φ.
Proof.
  intros Hle Hbody. unfold for_.
  remember (Z.to_nat (i1 - i0)) as k eqn:Ek. iIntros "HI HΦ".
  iInduction k as [|k IH] forall (i0 Hle Hbody Ek); simpl.
  - iApply wp_ret. replace i1 with i0 by lia. by iApply "HΦ".
  - iApply wp_bind. iApply (wp_wand with "[HI]"); [iApply (Hbody with "HI"); lia|].
    iIntros ([[] c'| | |]) "H //=". iDestruct "H" as "[-> H]".
    iApply ("IH" with "[%] [%] [%] H HΦ"); [lia| |lia]. intros. apply Hbody. lia.
Qed.

(** ** Tactics *)

(** Expose the next statement after a sequence step. *)
Ltac wp_reduce := cbn [wp_k wp_loop_k returns negb orb andb Z.eqb Pos.eqb].
Ltac wp_side := first [done | lia | idtac].
Tactic Notation "wp_bind" := iApply wp_bind.
(** Run a load, a store of a word; of a byte; naming the points-to used. *)
Tactic Notation "wp_ld" constr(H) :=
  (first [iApply wp_bind; iApply (wp_ld32 with H) | iApply (wp_ld32 with H)]);
  [wp_side|]; iIntros H; wp_reduce.
Tactic Notation "wp_st" constr(H) :=
  (first [iApply wp_bind; iApply (wp_st32 with H) | iApply (wp_st32 with H)]);
  [wp_side|]; iIntros H; wp_reduce.
Tactic Notation "wp_ldb" constr(H) :=
  (first [iApply wp_bind; iApply (wp_ld8 with H) | iApply (wp_ld8 with H)]);
  [wp_side|]; iIntros H; wp_reduce.
Tactic Notation "wp_stb" constr(H) :=
  (first [iApply wp_bind; iApply (wp_st8 with H) | iApply (wp_st8 with H)]);
  [wp_side|]; iIntros H; wp_reduce.
Ltac wp_pure_head :=
  lazymatch goal with
  | |- environments.envs_entails _ (wp (ret _) _ _) => iApply wp_ret
  | |- environments.envs_entails _ (wp get_cpu _ _) => iApply wp_get_cpu
  | |- environments.envs_entails _ (wp (put_cpu _) _ _) => iApply wp_put_cpu
  | |- environments.envs_entails _ (wp (modify_cpu _) _ _) => iApply wp_modify_cpu
  | |- environments.envs_entails _ (wp (emit _) _ _) => iApply wp_emit
  end.
(** One statement that touches only locals and registers. *)
Ltac wp_pure :=
  wp_reduce;
  lazymatch goal with
  | |- environments.envs_entails _ (wp (bind _ _) _ _) => iApply wp_bind; wp_pure_head
  | _ => wp_pure_head
  end; wp_reduce.

(** ** Byte arrays *)

Definition word_bytes (v : Z) : list Z := [byte 0 v; byte 1 v; byte 2 v; byte 3 v].

Lemma bytes_nil a : a ↦∗ [] ⊣⊢ emp.
Proof. done. Qed.

Lemma bytes_cons a b bs : a ↦∗ (b :: bs) ⊣⊢ a ↦ b ∗ (a + 1) ↦∗ bs.
Proof.
  unfold bytes. rewrite big_sepL_cons Z.add_0_r. f_equiv.
  apply big_sepL_proper. intros k x _. by replace (a + 1 + k) with (a + S k) by lia.
Qed.

Lemma bytes_app a bs1 bs2 :
  a ↦∗ (bs1 ++ bs2) ⊣⊢ a ↦∗ bs1 ∗ (a + Z.of_nat (length bs1)) ↦∗ bs2.
Proof.
  unfold bytes. rewrite big_sepL_app. f_equiv. apply big_sepL_proper. intros k x _.
  by replace (a + Z.of_nat (length bs1) + k) with (a + (length bs1 + k)%nat) by lia.
Qed.

Lemma bytes_acc a bs i b :
  bs !! i = Some b →
  a ↦∗ bs ⊢ (a + Z.of_nat i) ↦ b ∗
            (∀ b', (a + Z.of_nat i) ↦ b' -∗ a ↦∗ <[i := b']> bs).
Proof.
  intros Hi. unfold bytes.
  rewrite (big_sepL_insert_acc (λ k y, (a + Z.of_nat k) ↦ y)%I); [|done]. done.
Qed.

(** The block moves. *)
Lemma wp_ld_bytes k a bs c (Φ : res (list Z) → hPropI) :
  length bs = k → a ↦∗ bs -∗ (a ↦∗ bs -∗ Φ (RRet bs c)) -∗ wp (ld_bytes k a) c Φ.
Proof.
  intros <-. iIntros "Ha HΦ". iInduction bs as [|b bs IH] forall (a Φ); simpl.
  - iApply wp_ret. by iApply "HΦ".
  - rewrite bytes_cons. iDestruct "Ha" as "[Hb Ha]". wp_ldb "Hb". wp_bind.
    iApply ("IH" with "Ha"). iIntros "Ha". wp_reduce. wp_pure. iApply "HΦ". iFrame.
Qed.

Lemma wp_st_bytes a bs junk c (Φ : res unit → hPropI) :
  length junk = length bs → a ↦∗ junk -∗
  (a ↦∗ (w8 <$> bs) -∗ Φ (RRet tt c)) -∗ wp (st_bytes a bs) c Φ.
Proof.
  iIntros (Hl) "Ha HΦ". iInduction bs as [|b bs IH] forall (a junk Φ Hl); simpl.
  - destruct junk; [|done]. iApply wp_ret. by iApply "HΦ".
  - destruct junk as [|j junk]; [done|]. rewrite bytes_cons. iDestruct "Ha" as "[Hb Ha]".
    wp_stb "Hb". iApply ("IH" with "[%] Ha"); [simpl in Hl; lia|]. iIntros "Ha". iApply "HΦ".
    rewrite bytes_cons. iFrame.
Qed.

Lemma bytes_range a bs : a ↦∗ bs ⊢ ⌜Forall (λ b, 0 <= b < 256) bs⌝.
Proof.
  iInduction bs as [|b bs IH] forall (a); [by iIntros "_"; iPureIntro|].
  rewrite bytes_cons. iIntros "[H1 H2]".
  iDestruct (pt_range with "H1") as %?. iDestruct ("IH" with "H2") as %?.
  iPureIntro. by constructor.
Qed.

Lemma bytes_word a v : 0 <= v < 2 ^ 32 → a ↦∗ word_bytes v ⊣⊢ a ↦w v.
Proof.
  intros Hv. rewrite /word_bytes !bytes_cons bytes_nil /pt32 right_id.
  replace (a + 1 + 1 + 1) with (a + 3) by lia. replace (a + 1 + 1) with (a + 2) by lia.
  iSplit; [iIntros "($&$&$&$)"; done|iIntros "(_&$&$&$&$)"].
Qed.

(** Any four bytes are some word. *)
Lemma bytes_some_word a bs : length bs = 4%nat → a ↦∗ bs ⊢ a ↦w -.
Proof.
  iIntros (Hl) "H". iDestruct (bytes_range with "H") as %Hr.
  destruct bs as [|b0 [|b1 [|b2 [|b3 [|]]]]]; try done.
  repeat match goal with H : Forall _ (_ :: _) |- _ => apply Forall_cons_1 in H as [? H] end.
  destruct (word_of_bytes b0 b1 b2 b3) as (Hv & E0 & E1 & E2 & E3); [done..|].
  set (v := b0 + _ + _ + _) in *. iExists v.
  rewrite -(bytes_word _ v) // /word_bytes E0 E1 E2 E3. done.
Qed.

Lemma bytes_ne a bs a' b i :
  (i < length bs)%nat → a ↦∗ bs -∗ a' ↦ b -∗ ⌜a' ≠ (a + Z.of_nat i)%Z⌝.
Proof.
  iIntros (Hi) "H1 H2". apply lookup_lt_is_Some_2 in Hi as [x Hx].
  rewrite bytes_acc //. iDestruct "H1" as "[H1 _]". iApply (pt_ne with "H2 H1").
Qed.

(** ** Zeroed memory *)

(** The zero bytes of [p] from offset [o] to offset [e], taken from the front. *)
Definition zeros (p e o : Z) : hPropI := ((p + o) ↦∗ replicate (Z.to_nat (e - o)) 0)%I.

Lemma zeros_take o' p e o :
  o <= o' <= e → zeros p e o ⊢ (p + o) ↦∗ replicate (Z.to_nat (o' - o)) 0 ∗ zeros p e o'.
Proof.
  intros Ho. unfold zeros. replace (Z.to_nat (e - o)) with (Z.to_nat (o' - o) + Z.to_nat (e - o'))%nat by lia.
  rewrite replicate_add bytes_app length_replicate.
  by replace (p + o + Z.to_nat (o' - o)) with (p + o') by lia.
Qed.

Lemma zeros_byte o' p e o :
  o' = o + 1 → o' <= e → zeros p e o ⊢ (p + o) ↦ 0 ∗ zeros p e o'.
Proof.
  intros -> Ho. rewrite (zeros_take (o + 1)); [|lia]. replace (o + 1 - o) with 1 by lia.
  by rewrite /= bytes_cons bytes_nil right_id.
Qed.

Lemma zeros_half o' p e o :
  o' = o + 2 → o' <= e → zeros p e o ⊢ (p + o) ↦ₕ 0 ∗ zeros p e o'.
Proof.
  intros -> Ho. rewrite (zeros_take (o + 2)); [|lia]. replace (o + 2 - o) with 2 by lia.
  rewrite /= !bytes_cons bytes_nil right_id /pt16. iIntros "[[$ $] $]". done.
Qed.

Lemma zeros_word o' p e o :
  o' = o + 4 → o' <= e → zeros p e o ⊢ (p + o) ↦w 0 ∗ zeros p e o'.
Proof.
  intros -> Ho. rewrite (zeros_take (o + 4)); [|lia]. replace (o + 4 - o) with 4 by lia.
  by rewrite -(bytes_word (p + o) 0).
Qed.

(** ** Arrays of words *)

Fixpoint words (a : Z) (vs : list Z) : hPropI :=
  match vs with
  | [] => emp
  | v :: vs => a ↦w v ∗ words (a + 4) vs
  end%I.

Lemma words_at a xs x ys :
  words a (xs ++ x :: ys) ⊣⊢
  words a xs ∗ (a + 4 * Z.of_nat (length xs)) ↦w x ∗ words (a + 4 * Z.of_nat (length xs) + 4) ys.
Proof.
  revert a. induction xs as [|y xs IH]; intros a; cbn [app words length].
  - rewrite Z.mul_0_r Z.add_0_r left_id //.
  - rewrite IH Nat2Z.inj_succ -(assoc bi_sep).
    replace (a + 4 * Z.succ (length xs)) with (a + 4 + 4 * length xs) by lia. done.
Qed.

Lemma words_acc a vs (i : nat) v :
  vs !! i = Some v →
  words a vs ⊢ (a + 4 * Z.of_nat i) ↦w v ∗
               (∀ v', (a + 4 * Z.of_nat i) ↦w v' -∗ words a (<[i := v']> vs)).
Proof.
  intros Hv. pose proof (lookup_lt_Some _ _ _ Hv) as Hl.
  rewrite -{1}(take_drop_middle vs i v Hv) words_at length_take Nat.min_l; [|lia].
  iIntros "(H1 & $ & H2)". iIntros (v') "Hv".
  rewrite insert_take_drop // words_at length_take Nat.min_l; [|lia]. iFrame.
Qed.

Lemma words_bytes a vs :
  Forall word_ok vs → words a vs ⊣⊢ a ↦∗ concat (word_bytes <$> vs).
Proof.
  intros Hv. revert a. induction Hv as [|v vs Hv _ IH]; intros a; [done|].
  cbn [words fmap list_fmap concat]. by rewrite bytes_app bytes_word // IH.
Qed.

(** ** Concrete memories *)

(** A CPU running on the boot stack, with interrupts on. *)
Definition cpu0 : cpu := Cpu 0xc009eff0 0x202 0x00100000 [] [].

(** A memory given as regions: a start address and its bytes. *)
Definition region_cells (r : Z * list Z) : list (Z * Z) :=
  imap (λ i b, (r.1 + Z.of_nat i, b)) r.2.
Definition mem_of (rs : list (Z * list Z)) : memory :=
  list_to_map (rs ≫= region_cells).

Definition apart (r1 r2 : Z * list Z) : bool :=
  bool_decide (r1.1 + Z.of_nat (length r1.2) <= r2.1 ∨ r2.1 + Z.of_nat (length r2.2) <= r1.1).
Fixpoint regions_ok (rs : list (Z * list Z)) : bool :=
  match rs with
  | [] => true
  | r :: rs => forallb (λ b, bool_decide (0 <= b < 256)) r.2 && forallb (apart r) rs &&
               regions_ok rs
  end.

Lemma elem_of_region_cells r x b :
  (x, b) ∈ region_cells r → r.1 <= x < r.1 + Z.of_nat (length r.2) ∧ b ∈ r.2.
Proof.
  destruct r as [a bs]. unfold region_cells. simpl. intros H.
  apply list_elem_of_lookup in H as [i Hi]. rewrite list_lookup_imap in Hi.
  destruct (bs !! i) as [b'|] eqn:E; [|done]. simplify_eq/=.
  pose proof (lookup_lt_Some _ _ _ E). split; [lia|]. by eapply list_elem_of_lookup_2.
Qed.

Lemma regions_nodup rs : regions_ok rs → NoDup ((rs ≫= region_cells).*1).
Proof.
  induction rs as [|r rs IH]; [constructor|].
  cbn [regions_ok]. intros H. apply andb_prop_elim in H as [[Hb Ha]%andb_prop_elim Hr].
  rewrite bind_cons fmap_app. apply NoDup_app. split_and!; [| |by apply IH].
  - destruct r as [a bs]. unfold region_cells. simpl. rewrite fmap_imap.
    apply NoDup_alt. intros i j x. rewrite !list_lookup_imap.
    destruct (bs !! i), (bs !! j); simpl; intros ??; simplify_eq. lia.
  - intros x (p & -> & Hp)%list_elem_of_fmap (q & Eq & Hq)%list_elem_of_fmap.
    destruct p as [x b], q as [x' b']. simpl in *. subst x'.
    apply elem_of_region_cells in Hp as [Hp _].
    apply list_elem_of_bind in Hq as (r' & Hq & Hr').
    apply elem_of_region_cells in Hq as [Hq _].
    assert (apart r r' = true) as Hap.
    { apply Is_true_true in Ha. eapply forallb_forall in Ha; [done|].
      by apply list_elem_of_In. }
    unfold apart in Hap. apply bool_decide_eq_true in Hap. lia.
Qed.

Lemma big_sepL_imap' {A B} (Φ : B → hPropI) (f : nat → A → B) (l : list A) :
  ([∗ list] y ∈ imap f l, Φ y) ⊣⊢ [∗ list] i ↦ x ∈ l, Φ (f i x).
Proof.
  revert f. induction l as [|x l IH]; intros f; [done|].
  rewrite imap_cons !big_sepL_cons. f_equiv. rewrite IH. done.
Qed.

(** The bytes of the regions. *)
Definition cells (rs : list (Z * list Z)) : hPropI := ([∗ list] r ∈ rs, r.1 ↦∗ r.2)%I.

Lemma cells_cons a bs rs : cells ((a, bs) :: rs) ⊣⊢ a ↦∗ bs ∗ cells rs.
Proof. done. Qed.

Lemma cells_app rs1 rs2 : cells (rs1 ++ rs2) ⊣⊢ cells rs1 ∗ cells rs2.
Proof. apply big_sepL_app. Qed.

Lemma cells_word a v rs :
  0 <= v < 2 ^ 32 → cells ((a, word_bytes v) :: rs) ⊣⊢ a ↦w v ∗ cells rs.
Proof. intros Hv. by rewrite cells_cons bytes_word. Qed.

Lemma mem_of_models rs :
  regions_ok rs → mem_of rs ⊨ cells rs.
Proof.
  intros Hok. pose proof (regions_nodup _ Hok) as Hnd.
  assert (∀ h : memory, (∀ x b, h !! x = Some b → 0 <= b < 256) → h ⊨ [∗ map] x ↦ b ∈ h, x ↦ b)
    as Hmap.
  { intros h. induction h as [|x b h Hx Hf IH] using map_first_key_ind; intros Hr.
    - apply (models_mono _ emp%I); [by rewrite big_sepM_empty|exact I].
    - eapply models_mono; [by rewrite big_sepM_insert|].
      assert (∀ y c, h !! y = Some c → 0 <= c < 256) as Hr'.
      { intros y c Hy. apply (Hr y). rewrite lookup_insert_ne; [done|congruence]. }
      exists {[x := b]}, h. split_and!.
      + by apply map_disjoint_singleton_l.
      + by rewrite insert_union_singleton_l.
      + split; [apply lookup_singleton_eq|]. apply (Hr x), lookup_insert_eq.
      + by apply IH. }
  eapply models_mono; [|apply (Hmap (mem_of rs))].
  - unfold mem_of. rewrite big_sepM_list_to_map //.
    clear Hok Hnd Hmap. unfold cells. induction rs as [|r rs IH]; [done|].
    rewrite bind_cons big_sepL_app big_sepL_cons IH. f_equiv.
    unfold region_cells, bytes. by rewrite (big_sepL_imap' (λ p, p.1 ↦ p.2)%I).
  - unfold mem_of. intros x b Hx%elem_of_list_to_map_2.
    apply list_elem_of_bind in Hx as (r & Hx & Hr).
    apply elem_of_region_cells in Hx as [_ Hb]. clear Hnd Hmap.
    induction rs as [|r' rs IH]; [by apply elem_of_nil in Hr|].
    cbn [regions_ok] in Hok. apply andb_prop_elim in Hok as [[Hbs _]%andb_prop_elim Hok].
    apply elem_of_cons in Hr as [->|Hr]; [|by apply IH].
    apply Is_true_true in Hbs. eapply forallb_forall in Hbs; [|by apply list_elem_of_In].
    by apply bool_decide_eq_true in Hbs.
Qed.

(** ** Triples *)

(** [triple P m c Q]: from any memory that contains [P], and whatever else it
    contains ([R]), running [m] on [c] comes to a result [r]; the memory then
    contains [Q r], and [R] as it was.  Faults, panics and divergence are
    excluded unless [Q] allows them. *)
Definition triple {A} (P : hPropI) (m : M A) (c : cpu) (Q : res A → hPropI) : Prop :=
  ∀ h R, h ⊨ (P ∗ R) → ∃ r h', exec m c h r h' ∧ h' ⊨ (Q r ∗ R).

Notation "'{{' P '}}' m '@' c '{{' a c' , Q '}}'" :=
  (triple P%I m c (returns (λ a c', Q%I)))
  (at level 0, P at level 200, m at level 100, c at level 9, a name, c' name,
   Q at level 200, only parsing) : stdpp_scope.

(** Postconditions of code that does not return to its caller. *)
Definition switches {A} (Q : cpu → hPropI) (r : res A) : hPropI :=
  match r with RSwitch c => Q c | _ => False end.
Definition panics {A} (Q : cpu → hPropI) (r : res A) : hPropI :=
  match r with RPanic c => Q c | _ => False end.
Definition faults {A} (Q : Z → cpu → hPropI) (r : res A) : hPropI :=
  match r with RFault a c => Q a c | _ => False end.

Notation "'{{' P '}}' m '@' c '{{' 'switch' c' , Q '}}'" :=
  (triple P%I m c (switches (λ c', Q%I)))
  (at level 0, P at level 200, m at level 100, c at level 9, c' name,
   Q at level 200, only parsing) : stdpp_scope.
Notation "'{{' P '}}' m '@' c '{{' 'panic' c' , Q '}}'" :=
  (triple P%I m c (panics (λ c', Q%I)))
  (at level 0, P at level 200, m at level 100, c at level 9, c' name,
   Q at level 200, only parsing) : stdpp_scope.

Lemma triple_wp {A} (P : hPropI) (m : M A) c Q :
  (P ⊢ wp m c Q) → triple P m c Q.
Proof.
  intros H h R HP. apply (wp_sound m c (λ r, Q r ∗ R)%I (P ∗ R)%I); [|done].
  iIntros "[HP HR]". iApply (wp_wand with "[HP]"); [by iApply H|].
  iIntros (r) "$". done.
Qed.

(** Applying a triple to a concrete memory. *)
Lemma triple_run {A} (P : hPropI) (m : M A) c Q h :
  triple P m c Q → h ⊨ P → ∃ r h', exec m c h r h' ∧ h' ⊨ Q r.
Proof.
  intros H HP. destruct (H h emp%I) as (r & h' & Hx & HQ).
  - eapply models_mono; [|apply HP]. by iIntros "$".
  - exists r, h'. split; [done|]. eapply models_mono; [|apply HQ]. by iIntros "[$ _]".
Qed.
