(* ===== verification/Refine.v ===== *)
(** What a component promises its clients: each of its calls, made in a state
    that represents an abstract one, does what an abstract function says.  Any
    sequence of calls then does, too. *)
From S2P Require Export Heap.

Section refinement.
(** The calls, their results, the abstract states. *)
Context {C V S : Type}.

(** [spec x s] is the result of [x] and the state it leaves, if [x] may be
    called in [s]; [repr s c] is the memory, and the processor, that represent [s]. *)
Class Refines (prog : C → M V) (spec : C → S → option (V * S)) (repr : S → cpu → hPropI) :=
  refines_call : ∀ x s v s' c (Φ : res V → hPropI),
    spec x s = Some (v, s') →
    repr s c -∗ (∀ c', repr s' c' -∗ Φ (RRet v c')) -∗ wp (prog x) c Φ.

Fixpoint run_all (prog : C → M V) (xs : list C) : M (list V) :=
  match xs with
  | [] => ret []
  | x :: xs => v <- prog x; vs <- run_all prog xs; ret (v :: vs)
  end.

Fixpoint spec_all (spec : C → S → option (V * S)) (xs : list C) (s : S) : option (list V * S) :=
  match xs with
  | [] => Some ([], s)
  | x :: xs =>
      '(v, s) ← spec x s;
      '(vs, s) ← spec_all spec xs s;
      Some (v :: vs, s)
  end.

Lemma refines_all `{!Refines prog spec repr} xs s vs s' c (Φ : res (list V) → hPropI) :
  spec_all spec xs s = Some (vs, s') →
  repr s c -∗ (∀ c', repr s' c' -∗ Φ (RRet vs c')) -∗ wp (run_all prog xs) c Φ.
Proof.
  iIntros (Hs) "HR HΦ".
  iInduction xs as [|x xs IH] forall (s vs c Φ Hs); cbn [run_all spec_all] in *.
  - injection Hs as <- <-. iApply wp_ret. by iApply "HΦ".
  - destruct (spec x s) as [[v s1]|] eqn:Hx; cbn [mbind option_bind] in Hs; [|done].
    destruct (spec_all spec xs s1) as [[vs1 s2]|] eqn:Hxs; simplify_eq/=.
    wp_bind. iApply (refines_call with "HR"); [done|]. iIntros (c1) "HR". wp_reduce.
    wp_bind. iApply ("IH" with "[//] HR"). iIntros (c2) "HR". wp_reduce.
    iApply wp_ret. by iApply "HΦ".
Qed.

End refinement.
#[global] Arguments Refines {C V S} prog spec repr.
