(* ===== verification/Symbols.v ===== *)
(** Link-time addresses: where the linker puts the C globals and functions.
    The code only relies on distinct objects being at distinct addresses, which
    the separating conjunctions of the specifications say.  [Frames]: where the
    compiler puts arrays and parameters that functions take the address of. *)
From S2P Require Import Prelude.

Class Symbols := {
  (* kernel/memory.c *)
  g_kernel_pool : Z;
  g_user_pool : Z;
  g_kernel_vaddr : Z;
  g_k_mem_block_descs : Z;
  (* thread/thread.c *)
  g_ready_thread_list : Z;
  g_all_thread_list : Z;
  g_pid_lock : Z;
  g_main_thread_pcb_ptr : Z;
  g_thread_tag : Z;
  g_idle_thread : Z;
  g_next_pid : Z;
  (* userprog/tss.c, userprog/syscall-init.c *)
  g_tss : Z;
  g_syscall_table : Z;
  (* kernel/interrupt.c, kernel/kernel.asm *)
  g_idt : Z;
  g_interrupt_table : Z;
  g_exception_funcptr_table : Z;
  g_exception_names : Z;
  (* device/ *)
  g_console_lock : Z;
  g_kdb_buf : Z;
  g_ctrl_status : Z;
  g_shift_status : Z;
  g_alt_status : Z;
  g_ext_scancode : Z;
  g_ticks : Z;
  g_channel_cnt : Z;
  g_ide_channels : Z;
  g_extra_lba_base : Z;
  g_primary_idx : Z;
  g_logic_idx : Z;
  g_partition_list : Z;
  (* fs/ *)
  g_curr_part : Z;
  g_root_dir : Z;
  g_file_table : Z;
  (* code *)
  fn_kernel_thread : Z;
  fn_idle : Z;
  fn_start_process : Z;
  fn_general_exception_handler : Z;
  fn_intr_timer_handler : Z;
  fn_intr_keyboard_handler : Z;
  fn_intr_hd_handler : Z;
  fn_system_call_handler : Z;
  fn_sys_get_pid : Z;
  fn_sys_write : Z;
  fn_sys_malloc : Z;
  fn_sys_free : Z;
  (* the string literal a [char *] table entry points to *)
  str_lit : string → Z
}.

(** One possible link map, for running the definitions. *)
Definition link_map : Symbols := {|
  g_kernel_pool := 0xc0010000;
  g_user_pool := 0xc0011000;
  g_kernel_vaddr := 0xc0012000;
  g_k_mem_block_descs := 0xc0013000;
  g_ready_thread_list := 0xc0014000;
  g_all_thread_list := 0xc0015000;
  g_pid_lock := 0xc0016000;
  g_main_thread_pcb_ptr := 0xc0017000;
  g_thread_tag := 0xc0018000;
  g_idle_thread := 0xc0019000;
  g_next_pid := 0xc001a000;
  g_tss := 0xc001b000;
  g_syscall_table := 0xc001c000;
  g_idt := 0xc001d000;
  g_interrupt_table := 0xc001e000;
  g_exception_funcptr_table := 0xc001f000;
  g_exception_names := 0xc0020000;
  g_console_lock := 0xc0021000;
  g_kdb_buf := 0xc0022000;
  g_ctrl_status := 0xc0023000;
  g_shift_status := 0xc0024000;
  g_alt_status := 0xc0025000;
  g_ext_scancode := 0xc0026000;
  g_ticks := 0xc0027000;
  g_channel_cnt := 0xc0028000;
  g_ide_channels := 0xc0029000;
  g_extra_lba_base := 0xc002a000;
  g_primary_idx := 0xc002b000;
  g_logic_idx := 0xc002c000;
  g_partition_list := 0xc002d000;
  g_curr_part := 0xc002e000;
  g_root_dir := 0xc002f000;
  g_file_table := 0xc0030000;
  fn_kernel_thread := 0xc0001840;
  fn_idle := 0xc0001880;
  fn_start_process := 0xc00018c0;
  fn_general_exception_handler := 0xc0001900;
  fn_intr_timer_handler := 0xc0001940;
  fn_intr_keyboard_handler := 0xc0001980;
  fn_intr_hd_handler := 0xc00019c0;
  fn_system_call_handler := 0xc0001a00;
  fn_sys_get_pid := 0xc0001a40;
  fn_sys_write := 0xc0001a80;
  fn_sys_malloc := 0xc0001ac0;
  fn_sys_free := 0xc0001b00;
  str_lit := λ _, 0xc0008000
|}.

(** ** Locals and parameters *)

(** Where the running thread's stack holds the arrays functions declare, a
    parameter whose address is used, and the outgoing arguments of a variadic
    call. *)
Class Frames := {
  fr_vir_addr : Z;   (* the parameter of page_table_pte_remove *)
  fr_args : Z;       (* the pushed arguments, the format first *)
  fr_printk : Z;     (* char buf[1024] of printk *)
  fr_error : Z;      (* char error[64] *)
  fr_hd_info : Z;    (* char hd_info[512] of identify_disk *)
  fr_buf : Z;        (* char buf[64] of identify_disk *)
  fr_pure_inode : Z; (* struct inode pure_inode of inode_sync *)
  fr_all_blocks : Z; (* uint32_t all_blocks[140] of sync_dir_entry *)
  fr_sb : Z;         (* struct super_block sb of partition_format *)
  fr_default_part : Z;  (* char default_part[8] of filesys_init *)
  fr_depth_name : Z; (* char name[16] of path_deepth_cnt *)
  fr_name : Z;       (* char name[512] of search_file *)
  fr_p_de : Z        (* struct dir_entry p_de of search_file *)
}.

(** One place for them, for running the definitions. *)
Definition demo_frames : Frames := {|
  fr_args := 0xc009e800; fr_printk := 0xc009e000; fr_error := 0xc009e900;
  fr_hd_info := 0xc009ea00; fr_buf := 0xc009ec00; fr_pure_inode := 0xc009ec40;
  fr_all_blocks := 0xc009e500; fr_sb := 0xc009e600; fr_default_part := 0xc009ed00;
  fr_depth_name := 0xc009ed10; fr_name := 0xc009e400; fr_p_de := 0xc009ed20;
  fr_vir_addr := 0xc009ee00
|}.
