(* ===== verification/Interrupt.v ===== *)
(** kernel/interrupt.c, kernel/debug.c and kernel/io.h: the interrupt flag, the
    descriptor table and handler table, ports, and assertion failure. *)
From S2P Require Export Heap Symbols.

(** ** kernel/io.h *)

Definition out_byte (port data : Z) : M unit := emit (EvOut (w16 port) (w8 data)).

(** [rep outsw]: [count] words, from [addr] up. *)
Definition out_multibyte (port addr count : Z) : M unit :=
  data <- ld_bytes (Z.to_nat (2 * count)) addr;
  emit (EvOutWords (w16 port) data).

(** The ports deliver [inputs]; with nothing left to deliver the model stops. *)
Definition in_byte (port : Z) : M Z :=
  c <- get_cpu;
  match inputs c with
  | [] => out_of_fuel
  | b :: rest =>
      put_cpu (set_inputs rest c) ;;
      emit (EvIn (w16 port) (w8 b)) ;;
      ret (w8 b)
  end.

(** [rep insw]: the next [count] words of the input. *)
Definition in_multibyte (port addr count : Z) : M unit :=
  c <- get_cpu;
  let k := Z.to_nat (2 * count) in
  if (length (inputs c) <? k)%nat then out_of_fuel
  else
    let data := w8 <$> take k (inputs c) in
    put_cpu (set_inputs (drop k (inputs c)) c) ;;
    emit (EvInWords (w16 port) data) ;;
    st_bytes addr data.

(** lib/kernel/print.asm, as the calls made to it ([Screen] has what they do). *)
Definition putStr (s : string) : M unit := emit (EvStr s).
Definition putStrAt (addr : Z) : M unit := emit (EvStrAt addr).
Definition putChar (ch : Z) : M unit := emit (EvChar (w8 ch)).
Definition putInt (n : Z) : M unit := emit (EvInt (w32 n)).
Definition set_cursor (n : Z) : M unit := emit (EvCursor (w32 n)).

(** ** The interrupt flag *)

Definition INTR_OFF : Z := 0.
Definition INTR_ON : Z := 1.
Definition EFLAG_IF_ON : Z := 0x200.

Definition sti_cpu (c : cpu) : cpu := set_eflags (Z.lor (eflags c) EFLAG_IF_ON) c.
Definition cli_cpu (c : cpu) : cpu := set_eflags (Z.ldiff (eflags c) EFLAG_IF_ON) c.
Definition sti : M unit := modify_cpu sti_cpu.
Definition cli : M unit := modify_cpu cli_cpu.
Definition GET_EFLAGS : M Z := c <- get_cpu; ret (eflags c).

Definition get_intr_status : M Z :=
  eflag <- GET_EFLAGS;
  ret (if negb (Z.land eflag EFLAG_IF_ON =? 0) then INTR_ON else INTR_OFF).

Definition intr_get_status : M Z :=
  eflags <- GET_EFLAGS;
  ret (if negb (Z.land EFLAG_IF_ON eflags =? 0) then INTR_ON else INTR_OFF).

Definition intr_open : M unit :=
  curr_status <- get_intr_status;
  if negb (curr_status =? 0) then ret tt else sti.

Definition intr_close : M unit :=
  status <- get_intr_status;
  when (negb (status =? 0)) cli.

Definition set_intr_status (status : Z) : M unit :=
  if negb (status =? 0) then intr_open else intr_close.

Definition intr_enable : M Z :=
  status <- intr_get_status;
  if INTR_ON =? status then ret INTR_ON else sti ;; ret INTR_OFF.

Definition intr_disable : M Z :=
  status <- intr_get_status;
  if INTR_ON =? status then cli ;; ret INTR_ON else ret INTR_OFF.

Definition intr_set_status (status : Z) : M Z :=
  if negb (Z.land status INTR_ON =? 0) then intr_enable else intr_disable.

(** ** kernel/debug.c *)

Definition exception_report (file : string) (line : Z) (func error_source : string) : M unit :=
  intr_close ;;
  putStr "\n\n\n!!!!! error !!!!!!\n" ;;
  putStr "filename: " ;; putStr file ;; putChar 10 ;;
  putStr "error line: " ;; putStr "0x" ;; putInt line ;; putChar 10 ;;
  putStr "error function: " ;; putStr func ;; putChar 10 ;;
  putStr "error_source: " ;; putStr error_source ;; putChar 10 ;;
  panic.

(** [EXCEPTION_REPORT] of a message that is a string in memory. *)
Definition exception_report_at (file : string) (line : Z) (func : string) (error_source : Z) :
    M unit :=
  intr_close ;;
  putStr "\n\n\n!!!!! error !!!!!!\n" ;;
  putStr "filename: " ;; putStr file ;; putChar 10 ;;
  putStr "error line: " ;; putStr "0x" ;; putInt line ;; putChar 10 ;;
  putStr "error function: " ;; putStr func ;; putChar 10 ;;
  putStr "error_source: " ;; putStrAt error_source ;; putChar 10 ;;
  panic.

(** [ASSERT(CONDITION)] at a source line. *)
Definition ASSERT (condition : bool) (file : string) (line : Z) (func src : string) : M unit :=
  if condition then ret tt else exception_report file line func src.

(** ** The handler table and the interrupt descriptor table *)

Section tables.
Context `{Symbols}.

Definition INT_DESC_NUM : Z := 0x81.

Definition register_handler (vec_num func : Z) : M unit :=
  st32 (g_exception_funcptr_table + 4 * w8 vec_num) func.

(** struct interrupt_gate_desc: code_offset_low_word, selector, n_count,
    attribute, code_offset_high_word *)
Definition CODE_SELECTOR : Z := Z.shiftl 1 3 + Z.shiftl 0 2 + 0.
Definition IDT_DESC_32_TYPE : Z := 0xe.
Definition IDT_DESC_ATTR_DPL0 : Z := Z.shiftl 1 7 + Z.shiftl 0 5 + IDT_DESC_32_TYPE.
Definition IDT_DESC_ATTR_DPL3 : Z := Z.shiftl 1 7 + Z.shiftl 3 5 + IDT_DESC_32_TYPE.

Definition set_inerrupt_gate_desc (intr_ptr attr func : Z) : M unit :=
  st8 (intr_ptr + 4) 0 ;;
  st8 (intr_ptr + 5) attr ;;
  st16 (intr_ptr + 2) CODE_SELECTOR ;;
  st16 intr_ptr (Z.land func 0xffff) ;;
  st16 (intr_ptr + 6) (Z.shiftr (Z.land func 0xffff0000) 16).

Definition idt_desc_init : M unit :=
  for_ 0 INT_DESC_NUM (λ i,
    f <- ld32 (g_interrupt_table + 4 * i);
    set_inerrupt_gate_desc (g_idt + 8 * i) IDT_DESC_ATTR_DPL0 f) ;;
  set_inerrupt_gate_desc (g_idt + 8 * (INT_DESC_NUM - 1)) IDT_DESC_ATTR_DPL3
    fn_system_call_handler ;;
  putStr "idt init done!\n".

Definition exception_name (i : Z) (s : string) : M unit :=
  st32 (g_exception_names + 4 * i) (str_lit s).

Definition exception_init : M unit :=
  for_ 0 INT_DESC_NUM (λ i,
    st32 (g_exception_funcptr_table + 4 * i) fn_general_exception_handler ;;
    exception_name i "name") ;;
  exception_name 0 "#DF Divide Error" ;;
  exception_name 1 "#DB Debug Exception" ;;
  exception_name 2 "NMI Interrupt" ;;
  exception_name 3 "#BP Breakpoint Exception" ;;
  exception_name 4 "#OF Overflow Exception" ;;
  exception_name 5 "#BR BOUND Range Exceeded Exception" ;;
  exception_name 6 "#UD Invalid Opcode Exception" ;;
  exception_name 7 "#NM Device Not Available Exception" ;;
  exception_name 8 "#DF Double Fault Exception" ;;
  exception_name 9 "Coprocessor Segment Overrun" ;;
  exception_name 10 "#TS Invalid TSS Excrption" ;;
  exception_name 11 "#NP Segment Not Present" ;;
  exception_name 12 "#SS Stack Fault Exception" ;;
  exception_name 13 "#GP General Protection Exception" ;;
  exception_name 14 "#PF Page-Fault Exception" ;;
  exception_name 16 "#MF x87 FPU Floating-Point Error" ;;
  exception_name 17 "#AC Alignment Check Exception" ;;
  exception_name 18 "#MC Machine-Check Exception" ;;
  exception_name 19 "#XF SIMD Floating-Point Exception" ;;
  exception_name 0x20 "#clock".

Definition pic_init : M unit :=
  out_byte 0x20 0x11 ;; out_byte 0x21 0x20 ;; out_byte 0x21 0x04 ;; out_byte 0x21 0x01 ;;
  out_byte 0xa0 0x11 ;; out_byte 0xa1 0x28 ;; out_byte 0xa1 0x02 ;; out_byte 0xa1 0x01 ;;
  out_byte 0x21 0xf8 ;; out_byte 0xa1 0xbf ;;
  putStr "pic init done \n".

Definition idt_init : M unit :=
  idt_desc_init ;; exception_init ;; pic_init ;;
  emit (EvLidt (Z.lor (8 * INT_DESC_NUM - 1) (Z.shiftl (w32 g_idt) 16))) ;;
  putStr "idt init done \n".

(** The page fault address register is not part of the CPU model: [cr2] is an
    argument.  The handler never returns, except for the two spurious vectors. *)
Definition general_exception_handler (cr2 vec_number : Z) : M unit :=
  let vec_number := w8 vec_number in
  if (vec_number =? 0x27) || (vec_number =? 0x2f) then ret tt
  else
    set_cursor 0 ;;
    for_ 0 320 (λ _, putChar 32) ;;
    set_cursor 0 ;;
    putStr "!!!!   exception message begin  !!!!\n" ;;
    set_cursor 88 ;;
    putInt vec_number ;;
    (name <- ld32 (g_exception_names + 4 * vec_number); putStrAt name) ;;
    when (vec_number =? 14)
      (putStr "\npage fault addr is " ;; putInt cr2) ;;
    putStr "\n!!!!   exception message end    !!!!\n" ;;
    panic.
End tables.

(** ** The flag as a boolean *)

Definition if_on (c : cpu) : bool := Z.testbit (eflags c) 9.

(** The CPU with the interrupt flag set to the given status. *)
Definition with_status (status : Z) (c : cpu) : cpu :=
  if negb (Z.land status INTR_ON =? 0) then sti_cpu c else cli_cpu c.

Lemma cpu_eta c : set_eflags (eflags c) c = c.
Proof. by destruct c. Qed.

Lemma cli_cpu_off c : if_on c = false → cli_cpu c = c.
Proof.
  intros E. unfold cli_cpu, EFLAG_IF_ON. change 0x200 with (2 ^ 9).
  rewrite ldiff_pow2_id //. apply cpu_eta.
Qed.

Lemma sti_cpu_on c : if_on c = true → sti_cpu c = c.
Proof.
  intros E. unfold sti_cpu, EFLAG_IF_ON. change 0x200 with (2 ^ 9).
  rewrite lor_pow2_id //. apply cpu_eta.
Qed.

Lemma if_on_cli c : if_on (cli_cpu c) = false.
Proof. unfold if_on, cli_cpu. simpl. rewrite Z.ldiff_spec. apply andb_false_r. Qed.

Lemma if_on_sti c : if_on (sti_cpu c) = true.
Proof. unfold if_on, sti_cpu. simpl. rewrite Z.lor_spec. apply orb_true_r. Qed.

Lemma cli_cli c : cli_cpu (cli_cpu c) = cli_cpu c.
Proof. apply cli_cpu_off, if_on_cli. Qed.

(** Setting the flag back to what it was undoes the disabling. *)
Lemma with_status_restore c : with_status (b2z (if_on c)) (cli_cpu c) = c.
Proof.
  destruct (if_on c) eqn:E; unfold with_status; simpl.
  - destruct c as [e f cr i t]. unfold sti_cpu, cli_cpu, EFLAG_IF_ON, set_eflags. simpl.
    change 0x200 with (2 ^ 9). by rewrite lor_ldiff_pow2.
  - by rewrite !cli_cpu_off // cli_cpu_off.
Qed.

Section wp.
Implicit Types (c : cpu).

Lemma status_on c : negb (Z.land (eflags c) EFLAG_IF_ON =? 0) = if_on c.
Proof.
  unfold EFLAG_IF_ON, if_on. change 0x200 with (2 ^ 9).
  rewrite land_pow2_eqb //. apply negb_involutive.
Qed.

Lemma wp_intr_get_status c (Φ : res Z → hPropI) :
  Φ (RRet (b2z (if_on c)) c) ⊢ wp intr_get_status c Φ.
Proof.
  iIntros "HΦ". rewrite /intr_get_status /GET_EFLAGS.
  iApply wp_bind. wp_pure. wp_pure. wp_pure.
  rewrite Z.land_comm status_on. by destruct (if_on c).
Qed.

Lemma wp_get_intr_status c (Φ : res Z → hPropI) :
  Φ (RRet (b2z (if_on c)) c) ⊢ wp get_intr_status c Φ.
Proof.
  iIntros "HΦ". rewrite /get_intr_status /GET_EFLAGS.
  iApply wp_bind. wp_pure. wp_pure. wp_pure.
  rewrite status_on. by destruct (if_on c).
Qed.

Lemma wp_intr_disable c (Φ : res Z → hPropI) :
  Φ (RRet (b2z (if_on c)) (cli_cpu c)) ⊢ wp intr_disable c Φ.
Proof.
  iIntros "HΦ". rewrite /intr_disable. wp_bind. iApply wp_intr_get_status. wp_reduce.
  destruct (if_on c) eqn:E; simpl.
  - rewrite /cli. wp_pure. by wp_pure.
  - wp_pure. by rewrite cli_cpu_off.
Qed.

Lemma wp_intr_enable c (Φ : res Z → hPropI) :
  Φ (RRet (b2z (if_on c)) (sti_cpu c)) ⊢ wp intr_enable c Φ.
Proof.
  iIntros "HΦ". rewrite /intr_enable. wp_bind. iApply wp_intr_get_status. wp_reduce.
  destruct (if_on c) eqn:E; simpl.
  - wp_pure. by rewrite sti_cpu_on.
  - rewrite /sti. wp_pure. by wp_pure.
Qed.

Lemma wp_intr_set_status status c (Φ : res Z → hPropI) :
  Φ (RRet (b2z (if_on c)) (with_status status c)) ⊢ wp (intr_set_status status) c Φ.
Proof.
  rewrite /intr_set_status /with_status. destruct (negb _).
  - apply wp_intr_enable.
  - apply wp_intr_disable.
Qed.

(** The pattern of every critical section. *)
Lemma wp_intr_restore c (Φ : res Z → hPropI) :
  Φ (RRet (b2z (if_on (cli_cpu c))) c) ⊢ wp (intr_set_status (b2z (if_on c))) (cli_cpu c) Φ.
Proof. by rewrite -wp_intr_set_status with_status_restore. Qed.

Lemma wp_assert b file line func src c (Φ : res unit → hPropI) :
  b = true → Φ (RRet tt c) ⊢ wp (ASSERT b file line func src) c Φ.
Proof. intros ->. apply wp_ret. Qed.
End wp.

(** The console output of a failed assertion. *)
Definition report_cpu (file : string) (line : Z) (func src : string) (c : cpu) : cpu :=
  fold_left (λ c e, log_event e c)
    [EvStr "\n\n\n!!!!! error !!!!!!\n"; EvStr "filename: "; EvStr file; EvChar 10;
     EvStr "error line: "; EvStr "0x"; EvInt (w32 line); EvChar 10;
     EvStr "error function: "; EvStr func; EvChar 10;
     EvStr "error_source: "; EvStr src; EvChar 10] (cli_cpu c).

Lemma wp_exception_report file line func src c (Φ : res unit → hPropI) :
  Φ (RPanic (report_cpu file line func src c)) ⊢ wp (exception_report file line func src) c Φ.
Proof.
  iIntros "HΦ". rewrite /exception_report /intr_close.
  iApply wp_bind. iApply wp_bind. iApply wp_get_intr_status. wp_reduce.
  iApply wp_when.
  assert (∀ c' : cpu, c' = cli_cpu c → Φ (RPanic (report_cpu file line func src c)) ⊢
    wp (putStr "\n\n\n!!!!! error !!!!!!\n" ;;
        putStr "filename: " ;; putStr file ;; putChar 10 ;;
        putStr "error line: " ;; putStr "0x" ;; putInt line ;; putChar 10 ;;
        putStr "error function: " ;; putStr func ;; putChar 10 ;;
        putStr "error_source: " ;; putStr src ;; putChar 10 ;; panic) c' Φ) as Hrest.
  { intros c' ->. iIntros "HΦ". rewrite /putStr /putChar /putInt.
    do 14 wp_pure. by iApply wp_panic. }
  destruct (if_on c) eqn:E; simpl.
  - rewrite /cli. wp_pure. by iApply Hrest.
  - iApply Hrest; [|done]. by rewrite cli_cpu_off.
Qed.

Lemma if_on_report file line func src c : if_on (report_cpu file line func src c) = false.
Proof. unfold report_cpu, if_on. simpl. rewrite Z.ldiff_spec. apply andb_false_r. Qed.
