(* ===== verification/Klist.v ===== *)
(** lib/kernel/list.c: the intrusive doubly linked lists of the kernel, with
    sentinel head and tail.  [is_list l xs]: the list object at [l] links the
    elements [xs], in order.  The operations are specified as those of
    functional lists, and each leaves the interrupt flag as it found it. *)
From S2P Require Export Interrupt Refine.

(** ** Layout: struct list_elem, struct list *)

Definition list_elem_prev (e : Z) : Z := e.
Definition list_elem_next (e : Z) : Z := e + 4.
Definition list_head (l : Z) : Z := l.
Definition list_tail (l : Z) : Z := l + 8.

(** ** Operations *)

Definition list_init (plist : Z) : M unit :=
  st32 (list_elem_prev (list_head plist)) 0 ;;
  st32 (list_elem_next (list_tail plist)) 0 ;;
  st32 (list_elem_next (list_head plist)) (list_tail plist) ;;
  st32 (list_elem_prev (list_tail plist)) (list_head plist).

Definition list_insert_before (before elem : Z) : M unit :=
  old_status <- intr_disable;
  before_prev <- ld32 (list_elem_prev before);
  st32 (list_elem_next before_prev) elem ;;
  before_prev <- ld32 (list_elem_prev before);
  st32 (list_elem_prev elem) before_prev ;;
  st32 (list_elem_next elem) before ;;
  st32 (list_elem_prev before) elem ;;
  intr_set_status old_status ;; ret tt.

Definition list_push (plist elem : Z) : M unit :=
  first <- ld32 (list_elem_next (list_head plist));
  list_insert_before first elem.

Definition list_append (plist elem : Z) : M unit :=
  list_insert_before (list_tail plist) elem.

Definition list_remove (elem : Z) : M unit :=
  old_status <- intr_disable;
  p <- ld32 (list_elem_prev elem);
  n <- ld32 (list_elem_next elem);
  st32 (list_elem_next p) n ;;
  n <- ld32 (list_elem_next elem);
  p <- ld32 (list_elem_prev elem);
  st32 (list_elem_prev n) p ;;
  intr_set_status old_status ;; ret tt.

Definition list_pop (plist : Z) : M Z :=
  pop_elem <- ld32 (list_elem_next (list_head plist));
  list_remove pop_elem ;;
  ret pop_elem.

Definition elem_find (plist obj_elem : Z) : M bool :=
  help_elem <- ld32 (list_elem_next (list_head plist));
  loop (λ help_elem,
    if negb (help_elem =? list_tail plist) then
      if help_elem =? obj_elem then ret (inr true)
      else help_elem <- ld32 (list_elem_next help_elem); ret (inl help_elem)
    else ret (inr false)) help_elem.

Definition list_len (plist : Z) : M Z :=
  help_elem <- ld32 (list_elem_next (list_head plist));
  loop (λ '(help_elem, len),
    if negb (help_elem =? list_tail plist) then
      let len := w32 (len + 1) in
      help_elem <- ld32 (list_elem_next help_elem); ret (inl (help_elem, len))
    else ret (inr len)) (help_elem, 0).

Definition list_empty (plist : Z) : M bool :=
  first <- ld32 (list_elem_next (list_head plist));
  ret (first =? list_tail plist).

(** The callback is the Rocq function the C function pointer stands for. *)
Definition list_traveral (plist : Z) (func : Z → Z → M bool) (arg : Z) : M Z :=
  e <- list_empty plist;
  if e : bool then ret 0
  else
    help_elem <- ld32 (list_elem_next (list_head plist));
    loop (λ help_elem,
      if negb (help_elem =? list_tail plist) then
        found <- func help_elem arg;
        if found : bool then ret (inr help_elem)
        else help_elem <- ld32 (list_elem_next help_elem); ret (inl help_elem)
      else ret (inr 0)) help_elem.

(** ** Representation *)

(** [link a b]: [a->next == b] and [b->prev == a]. *)
Definition link (a b : Z) : hPropI := (list_elem_next a ↦w b ∗ list_elem_prev b ↦w a)%I.

(** The links from [a] through [xs] to [z]. *)
Fixpoint chain (a : Z) (xs : list Z) (z : Z) : hPropI :=
  match xs with
  | [] => link a z
  | x :: xs => (link a x ∗ chain x xs z)%I
  end.

Definition is_list (l : Z) (xs : list Z) : hPropI :=
  (⌜0 <= l ∧ l + 16 <= 2 ^ 32⌝ ∗
   list_elem_prev (list_head l) ↦w 0 ∗ list_elem_next (list_tail l) ↦w 0 ∗
   chain (list_head l) xs (list_tail l))%I.

(** An element that is in no list. *)
Definition node (e : Z) : hPropI :=
  (⌜0 <= e < 2 ^ 32⌝ ∗ list_elem_prev e ↦w - ∗ list_elem_next e ↦w -)%I.

Lemma node_zero p o o' :
  o' = o + 4 → 0 <= p + o < 2 ^ 32 → (p + o) ↦w 0 -∗ (p + o') ↦w 0 -∗ node (p + o).
Proof.
  iIntros (-> Hr) "H1 H2". rewrite /node /list_elem_prev /list_elem_next Z.add_assoc.
  iSplit; [done|]. iSplitL "H1"; by iExists _.
Qed.

Lemma chain_app a xs x ys z :
  chain a (xs ++ x :: ys) z ⊣⊢ chain a xs x ∗ chain x ys z.
Proof.
  revert a. induction xs as [|y xs IH]; intros a; simpl; [done|].
  by rewrite IH assoc.
Qed.

Lemma chain_first a xs z :
  chain a xs z ⊢ ∃ x, list_elem_next a ↦w x ∗ ⌜x = default z (head xs)⌝ ∗
                      (list_elem_next a ↦w x -∗ chain a xs z).
Proof.
  destruct xs as [|x xs]; simpl.
  - iIntros "[H1 H2]". iExists z. iFrame. iSplit; [done|]. iIntros "$".
  - iIntros "[[H1 H2] H3]". iExists x. iFrame. iSplit; [done|]. iIntros "$".
Qed.

(** The first word of the element after [a] is its [prev]. *)
Lemma chain_ends a xs z : chain a xs z ⊢ ∃ p, link p z ∗ (link p z -∗ chain a xs z).
Proof.
  revert a. induction xs as [|x xs IH]; intros a; simpl.
  - iIntros "H". iExists a. iFrame. iIntros "$".
  - iIntros "[H1 H2]". iDestruct (IH with "H2") as (p) "[Hp HW]". iExists p.
    iFrame "Hp". iIntros "H". iFrame "H1". by iApply "HW".
Qed.

(** Every element is at another address than the end of its chain. *)
Lemma chain_ne a xs z : chain a xs z ⊢ ⌜z ∉ xs⌝.
Proof.
  revert a. induction xs as [|x xs IH]; intros a; simpl.
  - iIntros "_". iPureIntro. apply not_elem_of_nil.
  - iIntros "[[_ H1] H2]". iDestruct (IH with "H2") as %Hn.
    iDestruct (chain_ends with "H2") as (p) "[[_ Hz] _]".
    iDestruct (pt32_ne with "H1 Hz") as %Hne.
    iPureIntro. apply not_elem_of_cons. split; [|done]. intros ->. done.
Qed.

(** No element is linked twice. *)
Lemma chain_nodup a xs z : chain a xs z ⊢ ⌜NoDup xs⌝.
Proof.
  revert z. induction xs as [|x xs IH] using rev_ind; intros z.
  - iIntros "_". iPureIntro. constructor.
  - rewrite chain_app. iIntros "[H1 H2]".
    iDestruct (chain_ne with "H1") as %Hn. iDestruct (IH with "H1") as %Hd.
    iPureIntro. apply NoDup_app. split_and!; [done| |apply NoDup_singleton].
    intros y Hy ->%list_elem_of_singleton. done.
Qed.

Lemma chain_range a xs z x : x ∈ xs → chain a xs z ⊢ ⌜0 <= x < 2 ^ 32⌝.
Proof.
  revert a. induction xs as [|y xs IH]; intros a; [by intros ?%elem_of_nil|].
  intros [->|Hx]%elem_of_cons; simpl.
  - iIntros "[[H _] _]". iApply (pt32_range with "H").
  - iIntros "[_ H]". by iApply IH.
Qed.

(** An element that is owned outside a chain is not in it. *)
Lemma chain_node_ne a xs z e : chain a xs z -∗ node e -∗ ⌜e ∉ xs⌝.
Proof.
  iIntros "H (_ & [%v He] & _)".
  iInduction xs as [|x xs IH] forall (a); simpl.
  - iPureIntro. apply not_elem_of_nil.
  - iDestruct "H" as "[[_ H1] H2]". iDestruct (pt32_ne with "H1 He") as %Hne.
    iDestruct ("IH" with "H2 He") as %Hn. iPureIntro. set_solver.
Qed.


(** ** Specifications of the operations *)

Section spec.
Implicit Types (c : cpu) (l e x : Z) (xs : list Z).

Lemma list_init_wp l vh vt vp vn c (Φ : res unit → hPropI) :
  0 <= l ∧ l + 16 <= 2 ^ 32 →
  list_elem_prev (list_head l) ↦w vh -∗ list_elem_next (list_head l) ↦w vn -∗
  list_elem_prev (list_tail l) ↦w vp -∗ list_elem_next (list_tail l) ↦w vt -∗
  (is_list l [] -∗ Φ (RRet tt c)) -∗ wp (list_init l) c Φ.
Proof.
  iIntros (Hl) "H1 H2 H3 H4 HΦ". rewrite /list_init.
  wp_st "H1". wp_st "H4". wp_st "H2". wp_st "H3".
  iApply "HΦ". rewrite /is_list /link /= !w32_small; [|unfold list_tail, list_head; lia..].
  by iFrame.
Qed.

(** Linking [e] in front of [z], after whatever was there. *)
Lemma list_insert_before_wp p z e c (Φ : res unit → hPropI) :
  0 <= z < 2 ^ 32 →
  link p z -∗ node e -∗ (link p e -∗ link e z -∗ Φ (RRet tt c)) -∗
  wp (list_insert_before z e) c Φ.
Proof.
  iIntros (Hz) "[H1 H2] (%He & [%ep H3] & [%en H4]) HΦ". rewrite /list_insert_before.
  iDestruct (pt32_range with "H2") as %Hp.
  wp_bind. iApply wp_intr_disable. wp_reduce.
  wp_ld "H2". wp_st "H1". wp_ld "H2". wp_st "H3". wp_st "H4". wp_st "H2".
  wp_bind. iApply wp_intr_restore. wp_reduce. wp_pure.
  rewrite !w32_small //. iApply ("HΦ" with "[$H1 $H3] [$H4 $H2]").
Qed.

(** Unlinking [e]: its neighbours are linked to each other; [e] keeps its
    stale pointers. *)
Lemma list_remove_wp p e n c (Φ : res unit → hPropI) :
  0 <= e < 2 ^ 32 →
  link p e -∗ link e n -∗ (link p n -∗ node e -∗ Φ (RRet tt c)) -∗
  wp (list_remove e) c Φ.
Proof.
  iIntros (He) "[H1 H2] [H3 H4] HΦ". rewrite /list_remove.
  iDestruct (pt32_range with "H2") as %Hp. iDestruct (pt32_range with "H3") as %Hn.
  wp_bind. iApply wp_intr_disable. wp_reduce.
  wp_ld "H2". wp_ld "H3". wp_st "H1". wp_ld "H3". wp_ld "H2". wp_st "H4".
  wp_bind. iApply wp_intr_restore. wp_reduce. wp_pure.
  rewrite !w32_small //. iApply ("HΦ" with "[$H1 $H4]"). rewrite /node. by iFrame.
Qed.

Lemma is_list_tail_range l xs : is_list l xs ⊢ ⌜0 <= list_tail l < 2 ^ 32⌝.
Proof. iIntros "(%H & _)". iPureIntro. unfold list_tail. lia. Qed.

Lemma list_append_wp l xs e c (Φ : res unit → hPropI) :
  is_list l xs -∗ node e -∗ (is_list l (xs ++ [e]) -∗ Φ (RRet tt c)) -∗
  wp (list_append l e) c Φ.
Proof.
  iIntros "HL He HΦ". iDestruct (is_list_tail_range with "HL") as %Ht.
  iDestruct "HL" as (Hl) "(Hh & Htn & HC)". rewrite /list_append.
  destruct xs as [|x xs _] using rev_ind.
  - iApply (list_insert_before_wp with "HC He"); [done|]. iIntros "H1 H2".
    iApply "HΦ". by iFrame.
  - rewrite chain_app. iDestruct "HC" as "[HC1 HC2]".
    iApply (list_insert_before_wp with "HC2 He"); [done|]. iIntros "H1 H2".
    iApply "HΦ". rewrite /is_list -assoc chain_app. by iFrame.
Qed.

Lemma list_push_wp l xs e c (Φ : res unit → hPropI) :
  is_list l xs -∗ node e -∗ (is_list l (e :: xs) -∗ Φ (RRet tt c)) -∗
  wp (list_push l e) c Φ.
Proof.
  iIntros "HL He HΦ". iDestruct (is_list_tail_range with "HL") as %Ht.
  iDestruct "HL" as (Hl) "(Hh & Htn & HC)". rewrite /list_push.
  destruct xs as [|x xs]; simpl.
  - iDestruct "HC" as "[H1 H2]". wp_ld "H1".
    iApply (list_insert_before_wp with "[$H1 $H2] He"); [done|]. iIntros "H1 H2".
    iApply "HΦ". by iFrame.
  - iDestruct "HC" as "[[H1 H2] HC]". wp_ld "H1".
    iDestruct (pt32_range with "H1") as %Hx.
    iApply (list_insert_before_wp with "[$H1 $H2] He"); [done|]. iIntros "H1 H2".
    iApply "HΦ". by iFrame.
Qed.

Lemma list_remove_mid_wp l xs x ys c (Φ : res unit → hPropI) :
  is_list l (xs ++ x :: ys) -∗
  (is_list l (xs ++ ys) -∗ node x -∗ Φ (RRet tt c)) -∗
  wp (list_remove x) c Φ.
Proof.
  iIntros "(%Hl & Hh & Htn & HC) HΦ".
  iDestruct (chain_range _ _ _ x with "HC") as %Hx; [set_solver|].
  rewrite chain_app. iDestruct "HC" as "[HC1 HC2]".
  iDestruct (chain_first with "HC2") as (n) "(Hn & %En & HC2)".
  destruct ys as [|y ys].
  - simpl in En. subst n. iDestruct ("HC2" with "Hn") as "HC2".
    destruct xs as [|w xs _] using rev_ind; simpl.
    + iApply (list_remove_wp with "HC1 HC2"); [done|]. iIntros "H1 H2".
      iApply ("HΦ" with "[-H2] H2"). by iFrame.
    + rewrite chain_app. iDestruct "HC1" as "[HC0 HC1]".
      iApply (list_remove_wp with "HC1 HC2"); [done|]. iIntros "H1 H2".
      iApply ("HΦ" with "[-H2] H2"). rewrite app_nil_r /is_list chain_app. by iFrame.
  - iDestruct ("HC2" with "Hn") as "[HC2 HC3]".
    destruct xs as [|w xs _] using rev_ind; simpl.
    + iApply (list_remove_wp with "HC1 HC2"); [done|]. iIntros "H1 H2".
      iApply ("HΦ" with "[-H2] H2"). by iFrame.
    + rewrite chain_app. iDestruct "HC1" as "[HC0 HC1]".
      iApply (list_remove_wp with "HC1 HC2"); [done|]. iIntros "H1 H2".
      iApply ("HΦ" with "[-H2] H2"). rewrite /is_list -assoc /= !chain_app /=. by iFrame.
Qed.

Lemma list_pop_wp l x xs c (Φ : res Z → hPropI) :
  is_list l (x :: xs) -∗ (is_list l xs -∗ node x -∗ Φ (RRet x c)) -∗
  wp (list_pop l) c Φ.
Proof.
  iIntros "(%Hl & Hh & Htn & [[H1 H2] HC]) HΦ". rewrite /list_pop.
  wp_ld "H1". wp_bind.
  iApply (list_remove_mid_wp l [] x xs with "[-HΦ]"); [by iFrame|].
  iIntros "HL Hx". wp_reduce. wp_pure. iApply ("HΦ" with "HL Hx").
Qed.

Lemma list_empty_wp l xs c (Φ : res bool → hPropI) :
  is_list l xs -∗ (is_list l xs -∗ Φ (RRet (bool_decide (xs = [])) c)) -∗
  wp (list_empty l) c Φ.
Proof.
  iIntros "(%Hl & Hh & Htn & HC) HΦ". rewrite /list_empty.
  iDestruct (chain_ne with "HC") as %Hne.
  iDestruct (chain_first with "HC") as (n) "(Hn & %En & HC)".
  wp_ld "Hn". wp_pure. iDestruct ("HC" with "Hn") as "HC".
  replace (n =? list_tail l) with (bool_decide (xs = [])); [iApply "HΦ"; by iFrame|].
  subst n. destruct xs as [|x xs]; simpl.
  - by rewrite Z.eqb_refl.
  - symmetry. apply Z.eqb_neq. set_solver.
Qed.
End spec.

(** ** Traversals *)

Section walk.
Implicit Types (c : cpu) (l e x : Z) (xs : list Z).

(** Reading the [next] of the element before a chain gives its first. *)
Lemma wp_chain_next a xs z c (Φ : res Z → hPropI) :
  chain a xs z -∗ (chain a xs z -∗ Φ (RRet (default z (head xs)) c)) -∗
  wp (ld32 (list_elem_next a)) c Φ.
Proof.
  iIntros "HC HΦ". iDestruct (chain_first with "HC") as (n) "(Hn & -> & HC)".
  wp_ld "Hn". iApply "HΦ". by iApply "HC".
Qed.

(** [elem_find] is membership. *)
Lemma elem_find_wp l xs e c (Φ : res bool → hPropI) :
  is_list l xs -∗ (is_list l xs -∗ Φ (RRet (bool_decide (e ∈ xs)) c)) -∗
  wp (elem_find l e) c Φ.
Proof.
  iIntros "(%Hl & Hh & Htn & HC) HΦ". rewrite /elem_find.
  wp_bind. iApply (wp_chain_next with "HC"). iIntros "HC". wp_reduce.
  iApply wp_loop_start.
  iAssert (chain (list_head l) xs (list_tail l) -∗
    Φ (RRet (bool_decide (e ∈ xs)) c))%I with "[-HC]" as "HΦ".
  { iIntros "HC". iApply "HΦ". by iFrame. }
  generalize (list_head l). intros a.
  iInduction xs as [|x xs IH] forall (a); iApply wp_loop_step; simpl.
  - rewrite Z.eqb_refl /=. wp_pure. by iApply "HΦ".
  - iDestruct (chain_ne _ (x :: xs) with "HC") as %[Hx Hxs]%not_elem_of_cons.
    destruct (Z.eqb_spec x (list_tail l)) as [->|_]; [done|]. simpl.
    destruct (Z.eqb_spec x e) as [->|Hne].
    + wp_pure. rewrite (bool_decide_true (e ∈ e :: xs)); [|by apply elem_of_cons; left].
      by iApply "HΦ".
    + iDestruct "HC" as "[Hlk HC]". wp_bind. iApply (wp_chain_next with "HC").
      iIntros "HC". wp_reduce. wp_pure. iApply ("IH" with "HC [HΦ Hlk]").
      iIntros "HC". iSpecialize ("HΦ" with "[$Hlk $HC]").
      by rewrite (bool_decide_ext (e ∈ x :: xs) (e ∈ xs)); [|set_solver].
Qed.

(** An element that is in no list is found in none. *)
Lemma elem_find_node_wp l xs e c (Φ : res bool → hPropI) :
  is_list l xs -∗ node e -∗ (is_list l xs -∗ node e -∗ Φ (RRet false c)) -∗
  wp (elem_find l e) c Φ.
Proof.
  iIntros "(%Hl & H1 & H2 & HC) Hn HΦ". iDestruct (chain_node_ne with "HC Hn") as %Hne.
  iApply (elem_find_wp with "[$H1 $H2 $HC //]"). iIntros "HL".
  rewrite bool_decide_false //. iApply ("HΦ" with "HL Hn").
Qed.

(** [list_len] is the length, modulo 2^32. *)
Lemma list_len_wp l xs c (Φ : res Z → hPropI) :
  is_list l xs -∗ (is_list l xs -∗ Φ (RRet (w32 (Z.of_nat (length xs))) c)) -∗
  wp (list_len l) c Φ.
Proof.
  iIntros "(%Hl & Hh & Htn & HC) HΦ". rewrite /list_len.
  wp_bind. iApply (wp_chain_next with "HC"). iIntros "HC". wp_reduce.
  iApply wp_loop_start.
  replace (w32 (length xs)) with (w32 (0 + length xs)) by done.
  iAssert (chain (list_head l) xs (list_tail l) -∗
    Φ (RRet (w32 (0 + length xs)) c))%I with "[-HC]" as "HΦ".
  { iIntros "HC". iApply "HΦ". by iFrame. }
  generalize (list_head l). change 0 with (w32 0). generalize 0. intros k a.
  iInduction xs as [|x xs IH] forall (k a); iApply wp_loop_step; simpl.
  - rewrite Z.eqb_refl /=. wp_pure. rewrite Z.add_0_r w32_w32. by iApply "HΦ".
  - iDestruct (chain_ne _ (x :: xs) with "HC") as %[Hx Hxs]%not_elem_of_cons.
    destruct (Z.eqb_spec x (list_tail l)) as [->|_]; [done|]. simpl.
    iDestruct "HC" as "[Hlk HC]". wp_bind. iApply (wp_chain_next with "HC").
    iIntros "HC". wp_reduce. wp_pure.
    iApply ("IH" with "HC [HΦ Hlk]").
    iIntros "HC". iSpecialize ("HΦ" with "[$Hlk $HC]").
    replace (w32 (w32 (w32 k + 1) + length xs)) with (w32 (w32 k + S (length xs))); [done|].
    unfold w32. rewrite (Zplus_mod_idemp_l (k mod 2 ^ 32 + 1)). f_equal. lia.
Qed.

(** [list_traveral] returns the first element the callback accepts, or 0.
    The callback [func] decides [p] from what it owns, [R]. *)
Lemma list_traveral_wp (R : hPropI) (p : Z → bool) func arg l xs c (Φ : res Z → hPropI) :
  (∀ x, x ∈ xs → R ⊢ wp (func x arg) c (returns (λ b c', ⌜b = p x ∧ c' = c⌝ ∗ R))) →
  R -∗ is_list l xs -∗
  (R -∗ is_list l xs -∗ Φ (RRet (default 0 (head (filter p xs))) c)) -∗
  wp (list_traveral l func arg) c Φ.
Proof.
  intros Hf. iIntros "HR HL HΦ". rewrite /list_traveral. wp_bind.
  iApply (list_empty_wp with "HL"). iIntros "HL". wp_reduce.
  case_bool_decide as Hnil.
  { subst xs. wp_pure. iApply ("HΦ" with "HR HL"). }
  clear Hnil. iDestruct "HL" as (Hl) "(Hh & Htn & HC)".
  wp_bind. iApply (wp_chain_next with "HC"). iIntros "HC". wp_reduce.
  iApply wp_loop_start.
  iAssert (R -∗ chain (list_head l) xs (list_tail l) -∗
    Φ (RRet (default 0 (head (filter p xs))) c))%I with "[-HC HR]" as "HΦ".
  { iIntros "HR HC". iApply ("HΦ" with "HR"). by iFrame. }
  generalize (list_head l). intros a.
  iInduction xs as [|x xs IH] forall (a Hf); iApply wp_loop_step; simpl.
  - rewrite Z.eqb_refl /=. wp_pure. iApply ("HΦ" with "HR HC").
  - iDestruct (chain_ne _ (x :: xs) with "HC") as %[Hx Hxs]%not_elem_of_cons.
    destruct (Z.eqb_spec x (list_tail l)) as [->|_]; [done|]. simpl.
    wp_bind. iApply (wp_wand with "[HR]"); [iApply (Hf with "HR"); apply elem_of_cons; by left|].
    iIntros ([b c'| | |]) "H //=". iDestruct "H" as "[[-> ->] HR]".
    destruct (p x) eqn:Ep.
    + wp_pure. rewrite filter_cons_True; [|by rewrite Ep]. iApply ("HΦ" with "HR HC").
    + iDestruct "HC" as "[Hlk HC]". wp_bind. iApply (wp_chain_next with "HC").
      iIntros "HC". wp_reduce. wp_pure. rewrite filter_cons_False; [|rewrite Ep; by intros []].
      iApply ("IH" with "[%] HC HR"); [intros; apply Hf, elem_of_cons; by right|].
      iIntros "HR HC". iApply ("HΦ" with "HR [$Hlk $HC]").
Qed.
End walk.

(** ** Lists as their elements *)

(** The calls, with the element they are given. *)
Inductive list_call :=
  | Append (e : Z) | Push (e : Z) | Pop | Remove (e : Z) | Find (e : Z) | IsEmpty | Length.

Definition list_prog (l : Z) (x : list_call) : M Z :=
  match x with
  | Append e => list_append l e ;; ret 0
  | Push e => list_push l e ;; ret 0
  | Pop => list_pop l
  | Remove e => list_remove e ;; ret 0
  | Find e => b <- elem_find l e; ret (b2z b)
  | IsEmpty => b <- list_empty l; ret (b2z b)
  | Length => list_len l
  end.

(** On the elements in the list, in order, and those in none. *)
Definition list_spec (x : list_call) (s : list Z * gset Z) : option (Z * (list Z * gset Z)) :=
  let '(xs, out) := s in
  match x with
  | Append e => if decide (e ∈ out) then Some (0, (xs ++ [e], out ∖ {[e]})) else None
  | Push e => if decide (e ∈ out) then Some (0, (e :: xs, out ∖ {[e]})) else None
  | Pop => match xs with [] => None | e :: xs => Some (e, (xs, {[e]} ∪ out)) end
  | Remove e =>
      if decide (e ∈ xs) then Some (0, (filter (λ y, y ≠ e) xs, {[e]} ∪ out)) else None
  | Find e => Some (b2z (bool_decide (e ∈ xs)), s)
  | IsEmpty => Some (b2z (bool_decide (xs = [])), s)
  | Length => Some (w32 (Z.of_nat (length xs)), s)
  end.

Definition list_repr (l : Z) (c0 : cpu) (s : list Z * gset Z) (c : cpu) : hPropI :=
  (⌜c = c0⌝ ∗ is_list l s.1 ∗ ([∗ set] e ∈ s.2, node e))%I.

Lemma node_in l xs out e :
  is_list l xs -∗ node e -∗ ([∗ set] y ∈ out, node y) -∗
  ⌜e ∉ out⌝ ∗ ([∗ set] y ∈ ({[e]} ∪ out), node y) ∗ is_list l xs.
Proof.
  iIntros "HL Hn HO". destruct (decide (e ∈ out)) as [Hin|Hin].
  - iDestruct (big_sepS_elem_of with "HO") as "Hn'"; [done|].
    iDestruct "Hn" as "(_ & [%v H] & _)". iDestruct "Hn'" as "(_ & [%v' H'] & _)".
    by iDestruct (pt32_ne with "H H'") as %?.
  - iFrame "HL". iSplit; [done|]. rewrite big_sepS_insert //. iFrame.
Qed.

Lemma filter_mid (xs ys : list Z) e :
  NoDup (xs ++ e :: ys) → filter (λ y, y ≠ e) (xs ++ e :: ys) = xs ++ ys.
Proof.
  intros Hd. assert (∀ zs : list Z, e ∉ zs → filter (λ y, y ≠ e) zs = zs) as Hz.
  { induction zs as [|z zs IH]; [done|]. intros [Hz Hzs]%not_elem_of_cons.
    rewrite filter_cons_True; [|done]. by rewrite IH. }
  apply NoDup_app in Hd as (_ & Hx & [Hy _]%NoDup_cons).
  rewrite filter_app filter_cons_False; [|intros H; by apply H].
  rewrite !Hz //. intros He. by apply (Hx e He); left.
Qed.

#[export] Instance list_refines l c0 : Refines (list_prog l) list_spec (list_repr l c0).
Proof.
  intros x [xs out] v s' c Φ Hs. unfold list_spec, list_repr, list_prog in *. cbn [fst snd].
  iIntros "(-> & HL & HO) HΦ".
  destruct x as [e|e| |e|e| |]; try (destruct (decide _) as [Hin|]; [|done]); simplify_eq; cbn [fst snd].
  - rewrite (big_sepS_delete _ out e) //. iDestruct "HO" as "[He HO]".
    wp_bind. iApply (list_append_wp with "HL He"). iIntros "HL". wp_reduce. wp_pure.
    iApply "HΦ". by iFrame.
  - rewrite (big_sepS_delete _ out e) //. iDestruct "HO" as "[He HO]".
    wp_bind. iApply (list_push_wp with "HL He"). iIntros "HL". wp_reduce. wp_pure.
    iApply "HΦ". by iFrame.
  - destruct xs as [|e xs]; simplify_eq. cbn [fst snd].
    iApply (list_pop_wp with "HL"). iIntros "HL He".
    iDestruct (node_in with "HL He HO") as (Hne) "[HO HL]". iApply "HΦ". by iFrame.
  - iAssert ⌜NoDup xs⌝%I as %Hd.
    { iDestruct "HL" as "(_ & _ & _ & HC)". iApply (chain_nodup with "HC"). }
    apply list_elem_of_split in Hin as (ys & zs & ->). rewrite filter_mid //.
    wp_bind. iApply (list_remove_mid_wp with "HL"). iIntros "HL He". wp_reduce. wp_pure.
    iDestruct (node_in with "HL He HO") as (Hne) "[HO HL]". iApply "HΦ". by iFrame.
  - wp_bind. iApply (elem_find_wp with "HL"). iIntros "HL". wp_reduce. wp_pure. iApply "HΦ". by iFrame.
  - wp_bind. iApply (list_empty_wp with "HL"). iIntros "HL". wp_reduce. wp_pure. iApply "HΦ". by iFrame.
  - iApply (list_len_wp with "HL"). iIntros "HL". iApply "HΦ". by iFrame.
Qed.

(** ** Concrete lists *)

Fixpoint chain_cells (a : Z) (xs : list Z) (z : Z) : list (Z * list Z) :=
  match xs with
  | [] => [(list_elem_next a, word_bytes z); (list_elem_prev z, word_bytes a)]
  | x :: xs => (list_elem_next a, word_bytes x) :: (list_elem_prev x, word_bytes a) ::
               chain_cells x xs z
  end.

Definition list_cells (l : Z) (xs : list Z) : list (Z * list Z) :=
  (list_elem_prev (list_head l), word_bytes 0) :: (list_elem_next (list_tail l), word_bytes 0) ::
  chain_cells (list_head l) xs (list_tail l).

Definition addr_ok (x : Z) : bool := bool_decide (0 <= x < 2 ^ 32).

Lemma chain_cells_models a xs z :
  forallb addr_ok (a :: z :: xs) = true → cells (chain_cells a xs z) ⊢ chain a xs z.
Proof.
  revert a. induction xs as [|x xs IH]; intros a Hok; simpl in Hok.
  - apply andb_true_iff in Hok as [Ha%bool_decide_eq_true Hz].
    apply andb_true_iff in Hz as [Hz%bool_decide_eq_true _]. simpl.
    rewrite !cells_word //. iIntros "($ & $ & _)".
  - apply andb_true_iff in Hok as [Ha Hok]. apply andb_true_iff in Hok as [Hz Hok].
    apply andb_true_iff in Hok as [Hx Hok]. simpl.
    pose proof (bool_decide_eq_true_1 _ Ha). pose proof (bool_decide_eq_true_1 _ Hx).
    rewrite !cells_word // IH; [|by rewrite /= Hx Hz Hok].
    iIntros "($ & $ & $)".
Qed.

Lemma list_cells_models l xs :
  bool_decide (0 <= l ∧ l + 16 <= 2 ^ 32) = true → forallb addr_ok xs = true →
  cells (list_cells l xs) ⊢ is_list l xs.
Proof.
  intros Hl%bool_decide_eq_true Hxs. unfold list_cells.
  rewrite !cells_word // chain_cells_models.
  - rewrite /is_list. iIntros "($ & $ & $)". done.
  - simpl. unfold list_head, list_tail, addr_ok. rewrite !bool_decide_true; [done|lia|lia].
Qed.

Definition node_cells (e : Z) : list (Z * list Z) :=
  [(list_elem_prev e, word_bytes 0); (list_elem_next e, word_bytes 0)].

Lemma node_cells_models e : addr_ok e = true → cells (node_cells e) ⊢ node e.
Proof.
  intros He%bool_decide_eq_true. unfold node_cells. rewrite !cells_word //.
  iIntros "(H1 & H2 & _)". rewrite /node. by iFrame.
Qed.

(** ** Properties *)

Section properties.
Implicit Types (c : cpu) (l e x : Z) (xs : list Z).

(** A list is a queue: what is appended last comes out last. *)
Theorem list_append_pop_fifo l x xs e c :
  {{ is_list l (x :: xs) ∗ node e }}
    (list_append l e ;; list_pop l) @ c
  {{ r c', ⌜r = x ∧ c' = c⌝ ∗ is_list l (xs ++ [e]) ∗ node x }}.
Proof.
  apply triple_wp. iIntros "[HL He]". wp_bind.
  iApply (list_append_wp with "HL He"). iIntros "HL". wp_reduce.
  iApply (list_pop_wp with "HL"). iIntros "HL Hx /=". by iFrame.
Qed.

(** A list is a stack for [list_push]: what is pushed comes out first. *)
Theorem list_push_pop_lifo l xs e c :
  {{ is_list l xs ∗ node e }}
    (list_push l e ;; list_pop l) @ c
  {{ r c', ⌜r = e ∧ c' = c⌝ ∗ is_list l xs ∗ node e }}.
Proof.
  apply triple_wp. iIntros "[HL He]". wp_bind.
  iApply (list_push_wp with "HL He"). iIntros "HL". wp_reduce.
  iApply (list_pop_wp with "HL"). iIntros "HL Hx /=". by iFrame.
Qed.

(** Removing an element that is in a list: a search then misses it, whatever
    its position, and the others keep their order. *)
Theorem list_remove_find l xs x ys c :
  {{ is_list l (xs ++ x :: ys) }}
    (list_remove x ;; elem_find l x) @ c
  {{ r c', ⌜r = false ∧ c' = c⌝ ∗ is_list l (xs ++ ys) ∗ node x }}.
Proof.
  apply triple_wp. iIntros "HL". wp_bind.
  iApply (list_remove_mid_wp with "HL"). iIntros "HL Hx". wp_reduce.
  iDestruct "HL" as "(%Hl & Hh & Ht & HC)".
  iDestruct (chain_node_ne with "HC Hx") as %Hn.
  iApply (elem_find_wp l _ x with "[Hh Ht HC]"); [by iFrame|]. iIntros "HL /=".
  rewrite bool_decide_false //. by iFrame.
Qed.

(** C21: The intrusive lists are lists: any calls, in any order, give what they
    would on the list of the elements, and leave the links of the list that is
    left; elements come and go between the list and those that are in none. *)
Theorem list_calls_refine l calls s vs s' c :
  spec_all list_spec calls s = Some (vs, s') →
  {{ list_repr l c s c }} (run_all (list_prog l) calls) @ c
  {{ r c', ⌜r = vs⌝ ∗ list_repr l c s' c' }}.
Proof.
  intros Hs. apply triple_wp. iIntros "HR". iApply (refines_all with "HR"); [done|].
  iIntros (c') "HR". cbn [returns]. by iFrame.
Qed.

End properties.

(** ** Example: an element moved from the middle to the front *)

Definition demo_cpu : cpu := Cpu 0xc009ef00 0x2 0x00100000 [] [].
Definition demo_calls : list list_call :=
  [Append 0x3000; Find 0x2000; Remove 0x2000; Find 0x2000; Push 0x2000; Length; Pop; Pop; Pop; IsEmpty].

Definition demo_out : gset Z := {[0x3000]}.
Definition demo_end : gset Z := {[0x1000; 0x2000; 0x3000]}.

Lemma demo_calls_spec :
  spec_all list_spec demo_calls ([0x1000; 0x2000], demo_out) =
  Some ([0; 1; 0; 0; 0; 3; 0x2000; 0x1000; 0x3000; 1], ([], demo_end)).
Proof. vm_compute. reflexivity. Qed.

Lemma list_calls_refine_witness :
  ∃ r h', exec (run_all (list_prog 0x4000) demo_calls) demo_cpu
      (mem_of (list_cells 0x4000 [0x1000; 0x2000] ++ node_cells 0x3000)) r h' ∧
    h' ⊨ (returns (λ vs _, ⌜vs = [0; 1; 0; 0; 0; 3; 0x2000; 0x1000; 0x3000; 1]⌝)%I r).
Proof.
  edestruct (triple_run _ _ _ _ (mem_of (list_cells 0x4000 [0x1000; 0x2000] ++ node_cells 0x3000))
    (list_calls_refine 0x4000 demo_calls ([0x1000; 0x2000], demo_out) _ _ demo_cpu demo_calls_spec)) as (r & h' & Hx & Hq).
  - eapply models_mono; [|apply mem_of_models; vm_compute; reflexivity].
    rewrite cells_app list_cells_models; [|vm_compute; reflexivity..].
    rewrite node_cells_models; [|vm_compute; reflexivity].
    unfold list_repr, demo_out. cbn [fst snd]. rewrite big_sepS_singleton. by iIntros "[$ $]".
  - exists r, h'. split; [exact Hx|]. eapply models_mono; [|apply Hq].
    destruct r; cbn [returns]; [|by iIntros "[]"..]. iIntros "[%Hr _]". by iPureIntro.
Defined.
