(* ===== verification/CString.v ===== *)
(** lib/string.c: memory blocks and NUL-terminated strings.  Blocks are lists
    of bytes; [cstr a s] is the string with the (non-zero) bytes [s] at [a]. *)
From S2P Require Export Interrupt.

(** ** Operations *)

Definition memset (dst value num : Z) : M unit :=
  ASSERT (negb (dst =? 0)) "lib/string.c" 5 "memset" "dst != 0" ;;
  for_ 0 num (λ index, st8 (dst + index) value).

Definition memcpy (dst src size : Z) : M unit :=
  ASSERT (negb (dst =? 0) && negb (src =? 0)) "lib/string.c" 16 "memcpy"
    "dst != 0 && src != 0" ;;
  for_ 0 size (λ index, b <- ld8 (src + index); st8 (dst + index) b).

Definition memcmp (a_ b_ size : Z) : M Z :=
  ASSERT (negb (a_ =? 0) && negb (b_ =? 0)) "lib/string.c" 26 "memcmp"
    "a_ != 0 && b_ != 0" ;;
  loop (λ '(a, b, size),
    if size >? 0 then
      let size := w32 (size - 1) in
      x <- ld8 a; y <- ld8 b;
      if negb (x =? y) then ret (inr (if x >? y then 1 else -1))
      else ret (inl (a + 1, b + 1, size))
    else ret (inr 0)) (a_, b_, size).

Definition strcpy (dst_ src_ : Z) : M Z :=
  ASSERT (negb (dst_ =? 0) && negb (src_ =? 0)) "lib/string.c" 40 "strcpy"
    "dst_ != 0 && src_ != 0" ;;
  dst <- loop (λ '(dst, src),
    ch <- ld8 src;
    if negb (ch =? 0) then st8 dst ch ;; ret (inl (dst + 1, src + 1))
    else ret (inr dst)) (dst_, src_);
  st8 dst 0 ;;
  ret dst_.

Definition strlen (str : Z) : M Z :=
  ASSERT (negb (str =? 0)) "lib/string.c" 53 "strlen" "str != 0" ;;
  loop (λ '(str, len),
    ch <- ld8 str;
    if negb (ch =? 0) then ret (inl (str + 1, w32 (len + 1)))
    else ret (inr len)) (str, 0).

Definition strcmp (a b : Z) : M Z :=
  ASSERT (negb (a =? 0) && negb (b =? 0)) "lib/string.c" 62 "strcmp" "a != 0 && b != 0" ;;
  ab <- loop (λ '(a, b),
    x <- ld8 a; y <- ld8 b;
    if negb (s8 x =? 0) && (s8 x =? s8 y) then ret (inl (a + 1, b + 1))
    else ret (inr (a, b))) (a, b);
  let '(a, b) := (ab : Z * Z) in
  x <- ld8 a; y <- ld8 b;
  ret (if s8 x <? s8 y then -1 else b2z (s8 x >? s8 y)).

(** [ch] is a [uint8_t], compared with a (signed) [char]. *)
Definition strchr (str ch : Z) : M Z :=
  ASSERT (negb (str =? 0)) "lib/string.c" 73 "strchr" "str != 0" ;;
  loop (λ str,
    x <- ld8 str;
    if negb (x =? 0) then
      if s8 x =? ch then ret (inr str) else ret (inl (str + 1))
    else ret (inr 0)) str.

(** The loop ends at the character ['0'] (48), and [res] starts uninitialised:
    its indeterminate value is the argument [uninit]. *)
Definition strrchr (uninit str ch : Z) : M Z :=
  ASSERT (negb (str =? 0)) "lib/string.c" 85 "strrchr" "str != 0" ;;
  loop (λ '(str, res),
    x <- ld8 str;
    if negb (x =? 48) then
      ret (inl (str + 1, if s8 x =? ch then str else res))
    else ret (inr res)) (str, uninit).

Definition strcat (dst src : Z) : M Z :=
  ASSERT (negb (dst =? 0) && negb (src =? 0)) "lib/string.c" 98 "strcat"
    "dst != 0 && src != 0" ;;
  let dst_ := dst in
  dst <- loop (λ dst,
    ch <- ld8 dst;
    if negb (ch =? 0) then ret (inl (dst + 1)) else ret (inr dst)) dst;
  dst <- loop (λ '(dst, src),
    ch <- ld8 src;
    if negb (ch =? 0) then st8 dst ch ;; ret (inl (dst + 1, src + 1))
    else ret (inr dst)) (dst, src);
  st8 dst 0 ;;
  ret dst_.

Definition strchrs (dst ch : Z) : M Z :=
  loop (λ '(dst, counter),
    x <- ld8 dst;
    if negb (x =? 0) then
      ret (inl (dst + 1, if s8 x =? s8 (w8 ch) then w32 (counter + 1) else counter))
    else ret (inr counter)) (dst, 0).

(** ** Representation *)

Definition cstr (a : Z) (s : list Z) : hPropI :=
  (⌜Forall (λ b, 0 < b < 256) s⌝ ∗ a ↦∗ (s ++ [0]))%I.

Lemma cstr_nil a : cstr a [] ⊣⊢ a ↦ 0.
Proof.
  rewrite /cstr /= bytes_cons bytes_nil right_id. iSplit; [by iIntros "[_ $]"|].
  iIntros "$". iPureIntro. constructor.
Qed.

Lemma cstr_cons a b s : cstr a (b :: s) ⊣⊢ ⌜0 < b < 256⌝ ∗ a ↦ b ∗ cstr (a + 1) s.
Proof.
  rewrite /cstr /= bytes_cons Forall_cons. iSplit.
  - iIntros "([% %] & $ & $)". done.
  - iIntros "(% & $ & % & $)". done.
Qed.

(** What comes before the first zero byte. *)
Fixpoint till_zero (bs : list Z) : list Z :=
  match bs with
  | [] => []
  | b :: bs => if b =? 0 then [] else b :: till_zero bs
  end.

Lemma till_zero_length bs : (length (till_zero bs) <= length bs)%nat.
Proof. induction bs as [|b bs IH]; simpl; [done|]. case_match; simpl; lia. Qed.

Lemma till_zero_snoc bs : till_zero (bs ++ [0]) = till_zero bs.
Proof. induction bs as [|b bs IH]; simpl; [done|]. by rewrite IH. Qed.

(** It is a string in memory. *)
Lemma till_zero_cstr a bs :
  0 ∈ bs → a ↦∗ bs ⊢ cstr a (till_zero bs) ∗ (cstr a (till_zero bs) -∗ a ↦∗ bs).
Proof.
  intros He. induction bs as [|b bs IH] in a, He |- *; [by apply not_elem_of_nil in He|].
  iIntros "H". iDestruct (bytes_range with "H") as %[Hb _]%Forall_cons.
  rewrite bytes_cons. iDestruct "H" as "[Hb He]". cbn [till_zero].
  destruct (Z.eqb_spec b 0) as [->|Hne].
  - rewrite cstr_nil. iFrame. iIntros "$".
  - rewrite cstr_cons. iDestruct (IH with "He") as "[He HW]"; [apply elem_of_cons in He as [E|]; [by destruct Hne|done]|].
    iFrame "Hb He". iSplit; [iPureIntro; lia|]. iIntros "(_ & $ & He)". by iApply "HW".
Qed.

Lemma s8_inj x y : 0 <= x < 256 → 0 <= y < 256 → s8 x = s8 y → x = y.
Proof. unfold s8. intros ??. do 2 case_match; lia. Qed.

Lemma s8_zero x : 0 <= x < 256 → (s8 x =? 0) = (x =? 0).
Proof. unfold s8. intros ?. case_match; lia. Qed.

(** ** Blocks *)

Section blocks.
Implicit Types (c : cpu) (bs : list Z).

Lemma memset_wp dst value num bs c (Φ : res unit → hPropI) :
  dst ≠ 0 → Z.of_nat (length bs) = num →
  dst ↦∗ bs -∗ (dst ↦∗ replicate (length bs) (w8 value) -∗ Φ (RRet tt c)) -∗
  wp (memset dst value num) c Φ.
Proof.
  iIntros (Hd Hn) "H HΦ". rewrite /memset.
  wp_bind. iApply wp_assert; [by apply negb_true_iff, Z.eqb_neq|]. wp_reduce.
  iApply (wp_for (λ i, dst ↦∗ (replicate (Z.to_nat i) (w8 value) ++ drop (Z.to_nat i) bs))%I
    with "[H] [HΦ]").
  - lia.
  - intros i Hi. iIntros "H".
    assert (Z.to_nat i < length bs)%nat as Hlt by lia.
    destruct (lookup_lt_is_Some_2 _ _ Hlt) as [b Hb].
    rewrite (drop_S _ b) // bytes_app bytes_cons length_replicate.
    iDestruct "H" as "(H1 & Hb & H2)".
    wp_stb "Hb". iSplit; [done|].
    replace (Z.to_nat (i + 1)) with (S (Z.to_nat i)) by lia.
    rewrite replicate_S_end -app_assoc bytes_app /= bytes_cons length_replicate. iFrame.
  - done.
  - rewrite -Hn Nat2Z.id drop_ge // app_nil_r. iIntros "H". by iApply "HΦ".
Qed.

Lemma memcpy_wp dst src size bs bd c (Φ : res unit → hPropI) :
  dst ≠ 0 → src ≠ 0 → Z.of_nat (length bs) = size → length bd = length bs →
  src ↦∗ bs -∗ dst ↦∗ bd -∗
  (src ↦∗ bs -∗ dst ↦∗ bs -∗ Φ (RRet tt c)) -∗
  wp (memcpy dst src size) c Φ.
Proof.
  iIntros (Hd Hs Hn Hl) "Hs Hd HΦ". rewrite /memcpy.
  wp_bind. iApply wp_assert; [by rewrite (proj2 (Z.eqb_neq _ _) Hd) (proj2 (Z.eqb_neq _ _) Hs)|].
  wp_reduce.
  iApply (wp_for (λ i, src ↦∗ bs ∗ dst ↦∗ (take (Z.to_nat i) bs ++ drop (Z.to_nat i) bd))%I
    with "[Hs Hd] [HΦ]").
  - lia.
  - intros i Hi. iIntros "[Hs H]".
    assert (Z.to_nat i < length bs)%nat as Hlt by lia.
    destruct (lookup_lt_is_Some_2 _ _ Hlt) as [b Hb].
    destruct (lookup_lt_is_Some_2 bd (Z.to_nat i)) as [b' Hb']; [lia|].
    iDestruct (bytes_range with "Hs") as %Hr.
    pose proof (Forall_lookup_1 _ _ _ _ Hr Hb) as Hbr. simpl in Hbr.
    rewrite (drop_S _ b') // bytes_app bytes_cons length_take.
    iDestruct "H" as "(H1 & Hb & H2)".
    iDestruct (bytes_acc with "Hs") as "[Hsb Hs]"; [done|].
    wp_ldb "Hsb". iDestruct ("Hs" with "Hsb") as "Hs". rewrite list_insert_id //.
    wp_stb "Hb". iSplit; [done|]. rewrite w8_small //. iFrame "Hs".
    replace (Z.to_nat (i + 1)) with (S (Z.to_nat i)) by lia.
    rewrite (take_S_r _ _ b) // -app_assoc bytes_app /= bytes_cons length_take. iFrame.
  - change (Z.to_nat 0) with O. simpl. iFrame.
  - rewrite -Hn Nat2Z.id take_ge // drop_ge ?app_nil_r; [|lia].
    iIntros "[Hs Hd]". iApply ("HΦ" with "Hs Hd").
Qed.
End blocks.

(** ** Strings *)

Definition cmp8 (x y : Z) : Z := if s8 x <? s8 y then -1 else b2z (s8 x >? s8 y).

(** The order of [strcmp] on the bytes before the terminators. *)
Fixpoint strcmp_spec (s t : list Z) : Z :=
  match s, t with
  | [], _ => cmp8 0 (default 0 (head t))
  | x :: _, [] => cmp8 x 0
  | x :: s, y :: t => if x =? y then strcmp_spec s t else cmp8 x y
  end.

Section strings.
Implicit Types (c : cpu) (s t : list Z).

(** The byte at the start of a string. *)
Lemma cstr_head a s :
  cstr a s ⊢ ∃ b, ⌜b = default 0 (head s)⌝ ∗ ⌜0 <= b < 256⌝ ∗ a ↦ b ∗ (a ↦ b -∗ cstr a s).
Proof.
  destruct s as [|b s].
  - iIntros "H". iExists 0. rewrite cstr_nil. iFrame. iSplit; [done|]. iSplit; [|iIntros "$"].
    iPureIntro. lia.
  - iIntros "H". iExists b. rewrite cstr_cons. iDestruct "H" as "(%Hb & H & Hs)". iFrame. iSplit; [done|].
    iSplit; [iPureIntro; lia|]. iIntros "$". done.
Qed.

Lemma strlen_loop_wp a s k (Φ : res Z → hPropI) c step :
  step = (λ '(str, len), ch <- ld8 str;
    if negb (ch =? 0) then ret (inl (str + 1, w32 (len + 1))) else ret (inr len)) →
  cstr a s -∗ (cstr a s -∗ Φ (RRet (w32 (k + Z.of_nat (length s))) c)) -∗
  wp_loop step (a, w32 k) c Φ.
Proof.
  iIntros (->) "H HΦ".
  iInduction s as [|b s IH] forall (a k); iApply wp_loop_step; cbn beta iota.
  - rewrite cstr_nil. wp_ldb "H". wp_pure. rewrite Z.add_0_r. by iApply "HΦ".
  - rewrite cstr_cons. iDestruct "H" as "(%Hb & H & Hs)". wp_ldb "H".
    rewrite (proj2 (Z.eqb_neq b 0)); [|lia]. wp_pure.
    replace (w32 (w32 k + 1)) with (w32 (k + 1)); last first.
    { unfold w32. by rewrite Zplus_mod_idemp_l. }
    iApply ("IH" with "Hs"). iIntros "Hs".
    replace (k + 1 + length s) with (k + length (b :: s)) by (simpl; lia).
    iApply "HΦ". by iFrame.
Qed.

Lemma strlen_wp a s c (Φ : res Z → hPropI) :
  a ≠ 0 → cstr a s -∗ (cstr a s -∗ Φ (RRet (w32 (Z.of_nat (length s))) c)) -∗
  wp (strlen a) c Φ.
Proof.
  iIntros (Ha) "H HΦ". rewrite /strlen.
  wp_bind. iApply wp_assert; [by apply negb_true_iff, Z.eqb_neq|]. wp_reduce.
  iApply wp_loop_start. by iApply (strlen_loop_wp a s 0 with "H HΦ").
Qed.

Lemma strcmp_loop_wp a b s t (Φ : res (Z * Z) → hPropI) c step :
  step = (λ '(a, b), x <- ld8 a; y <- ld8 b;
    if negb (s8 x =? 0) && (s8 x =? s8 y) then ret (inl (a + 1, b + 1))
    else ret (inr (a, b))) →
  cstr a s -∗ cstr b t -∗
  (∀ a' b' x y, ⌜strcmp_spec s t = cmp8 x y⌝ -∗ a' ↦ x -∗ b' ↦ y -∗
     (a' ↦ x -∗ b' ↦ y -∗ cstr a s ∗ cstr b t) -∗ Φ (RRet (a', b') c)) -∗
  wp_loop step (a, b) c Φ.
Proof.
  iIntros (->) "Hs Ht HΦ".
  iInduction s as [|x s IH] forall (a b t); iApply wp_loop_step; cbn beta iota.
  - iEval (rewrite cstr_nil) in "Hs". wp_ldb "Hs".
    iDestruct (cstr_head with "Ht") as (y) "(% & % & Hy & Ht)". wp_ldb "Hy". simpl. wp_pure.
    iApply ("HΦ" with "[%] Hs Hy [Ht]"); [by subst y|].
    rewrite cstr_nil. iIntros "$ Hy". by iApply "Ht".
  - iEval (rewrite cstr_cons) in "Hs". iDestruct "Hs" as "(%Hx & Hx & Hs)". wp_ldb "Hx".
    rewrite s8_zero; [|lia]. rewrite (proj2 (Z.eqb_neq x 0)); [|lia].
    destruct t as [|y t].
    + iEval (rewrite cstr_nil) in "Ht". wp_ldb "Ht". simpl.
      rewrite (proj2 (Z.eqb_neq (s8 x) (s8 0))); last first.
      { intros E. apply s8_inj in E; lia. }
      wp_pure. iApply ("HΦ" with "[//] Hx Ht [Hs]"). rewrite cstr_cons cstr_nil. iIntros "$ $". by iFrame.
    + iEval (rewrite cstr_cons) in "Ht". iDestruct "Ht" as "(%Hy & Hy & Ht)". wp_ldb "Hy". simpl.
      destruct (Z.eqb_spec (s8 x) (s8 y)) as [E|E].
      * apply s8_inj in E; [|lia..]. subst y. wp_pure.
        iApply ("IH" with "Hs Ht"). iIntros (a' b' x' y') "%E H1 H2 HW".
        iApply ("HΦ" with "[%] H1 H2 [-]"); [by rewrite Z.eqb_refl|].
        rewrite !cstr_cons. iIntros "H1 H2". iDestruct ("HW" with "H1 H2") as "[$ $]". by iFrame.
      * wp_pure. iApply ("HΦ" with "[%] Hx Hy [-]").
        { rewrite (proj2 (Z.eqb_neq x y)); [done|]. intros ->. done. }
        rewrite !cstr_cons. iIntros "$ Hy". by iFrame.
Qed.

Lemma strcmp_wp a b s t c (Φ : res Z → hPropI) :
  a ≠ 0 → b ≠ 0 → cstr a s -∗ cstr b t -∗
  (cstr a s -∗ cstr b t -∗ Φ (RRet (strcmp_spec s t) c)) -∗ wp (strcmp a b) c Φ.
Proof.
  iIntros (Ha Hb) "Hs Ht HΦ". rewrite /strcmp.
  wp_bind. iApply wp_assert; [by rewrite (proj2 (Z.eqb_neq _ _) Ha) (proj2 (Z.eqb_neq _ _) Hb)|].
  wp_reduce. wp_bind. iApply wp_loop_start.
  iApply (strcmp_loop_wp with "Hs Ht"); [done|]. iIntros (a' b' x y) "%E H1 H2 HW". wp_reduce.
  wp_ldb "H1". wp_ldb "H2". wp_pure. rewrite E.
  iDestruct ("HW" with "H1 H2") as "[H1 H2]". iApply ("HΦ" with "H1 H2").
Qed.

(** The copying loop shared by [strcpy] and [strcat]: it stops at the
    terminator, before writing one. *)
Lemma strcpy_loop_wp dst src s bd (Φ : res Z → hPropI) c step :
  step = (λ '(dst, src), ch <- ld8 src;
    if negb (ch =? 0) then st8 dst ch ;; ret (inl (dst + 1, src + 1))
    else ret (inr dst)) →
  length bd = S (length s) →
  cstr src s -∗ dst ↦∗ bd -∗
  (∀ b d, ⌜d = (dst + Z.of_nat (length s))%Z⌝ -∗ cstr src s -∗ d ↦ b -∗
     (d ↦ 0 -∗ cstr dst s) -∗ Φ (RRet d c)) -∗
  wp_loop step (dst, src) c Φ.
Proof.
  iIntros (-> Hl) "Hs Hd HΦ".
  iInduction s as [|b s IH] forall (dst src bd Hl); iApply wp_loop_step; cbn beta iota.
  - iEval (rewrite cstr_nil) in "Hs". wp_ldb "Hs". wp_pure.
    destruct bd as [|b [|]]; [done| |done]. rewrite bytes_cons bytes_nil.
    iDestruct "Hd" as "[Hd _]". iApply ("HΦ" with "[%] [Hs] Hd"); [simpl; lia|by rewrite cstr_nil|].
    rewrite cstr_nil. iIntros "$".
  - iEval (rewrite cstr_cons) in "Hs". iDestruct "Hs" as "(%Hb & Hx & Hs)". wp_ldb "Hx".
    rewrite (proj2 (Z.eqb_neq b 0)); [|lia]. wp_reduce.
    destruct bd as [|b' bd]; [done|]. rewrite bytes_cons. iDestruct "Hd" as "[Hb Hd]".
    wp_stb "Hb". wp_pure. rewrite w8_small; [|lia].
    iApply ("IH" with "[%] Hs Hd"); [simpl in *; lia|].
    iIntros (b'' d ->) "Hs Hd HW".
    iApply ("HΦ" with "[%] [Hx Hs] Hd"); [simpl; lia|rewrite cstr_cons; by iFrame|].
    iIntros "Hd". rewrite cstr_cons. iDestruct ("HW" with "Hd") as "$". by iFrame.
Qed.

(** [strcpy] needs room for the bytes and the terminator. *)
Lemma strcpy_wp dst src s bd c (Φ : res Z → hPropI) :
  dst ≠ 0 → src ≠ 0 → length bd = S (length s) →
  cstr src s -∗ dst ↦∗ bd -∗ (cstr src s -∗ cstr dst s -∗ Φ (RRet dst c)) -∗
  wp (strcpy dst src) c Φ.
Proof.
  iIntros (Hd Hs Hl) "Hs Hd HΦ". rewrite /strcpy.
  wp_bind. iApply wp_assert; [by rewrite (proj2 (Z.eqb_neq _ _) Hd) (proj2 (Z.eqb_neq _ _) Hs)|].
  wp_reduce. wp_bind. iApply wp_loop_start.
  iApply (strcpy_loop_wp with "Hs Hd"); [done|done|]. iIntros (b d _) "Hs Hd HW". wp_reduce.
  wp_stb "Hd". wp_pure. iApply ("HΦ" with "Hs"). by iApply "HW".
Qed.
End strings.

Lemma strcmp_spec_refl s : strcmp_spec s s = 0.
Proof. induction s as [|x s IH]; simpl; [done|]. by rewrite Z.eqb_refl. Qed.

(** ** Properties *)

Section properties.
Implicit Types (c : cpu) (s t : list Z).

(** Copying a string and comparing: the copy is the string. *)
Theorem strcpy_strcmp_equal dst src s bd c :
  dst ≠ 0 → src ≠ 0 → length bd = S (length s) →
  {{ cstr src s ∗ dst ↦∗ bd }}
    (p <- strcpy dst src; strcmp p src) @ c
  {{ r c', ⌜r = 0 ∧ c' = c⌝ ∗ cstr src s ∗ cstr dst s }}.
Proof.
  intros Hd Hs Hl. apply triple_wp. iIntros "[Hs Hd]". wp_bind.
  iApply (strcpy_wp with "Hs Hd"); [done..|]. iIntros "Hs Hd". wp_reduce.
  iApply (strcmp_wp with "Hd Hs"); [done..|]. iIntros "Hd Hs /=".
  rewrite strcmp_spec_refl. by iFrame.
Qed.

Lemma strcpy_strcmp_equal_witness :
  ∃ r h', exec (p <- strcpy 0x2000 0x1000; strcmp p 0x1000) cpu0
            (mem_of [(0x1000, [104; 105; 0]); (0x2000, [7; 7; 7])]) r h' ∧
          h' ⊨ (returns (λ r c', ⌜r = 0 ∧ c' = cpu0⌝ ∗ cstr 0x1000 [104; 105] ∗
                                 cstr 0x2000 [104; 105]) r).
Proof.
  eapply triple_run.
  - apply (strcpy_strcmp_equal 0x2000 0x1000 [104; 105] [7; 7; 7]); [lia|lia|reflexivity].
  - eapply models_mono; [|apply mem_of_models; vm_compute; reflexivity].
    iIntros "(Hs & Hd & _)". iFrame. iPureIntro. repeat constructor; lia.
Defined.
End properties.
