(* ===== verification/Bitmap.v ===== *)
(** lib/bitmap.c: bitmaps, the first-fit scan, and the functional view
    [used bs i] (bit [i] of the bytes [bs]) all allocators reason with. *)
From S2P Require Export CString.

(** ** Layout: struct bitmap { bitmap_len; bits } *)

Definition bitmap_len_of (b : Z) : Z := b.
Definition bitmap_bits_of (b : Z) : Z := b + 4.
Definition BIT_MASK : Z := 1.

(** ** Operations *)

Definition bitmap_init (btmp : Z) : M unit :=
  bits <- ld32 (bitmap_bits_of btmp);
  len <- ld32 (bitmap_len_of btmp);
  memset bits 0 len.

Definition bitmap_scan_test (btmp index : Z) : M Z :=
  let base := index / 8 in
  let offset := index mod 8 in
  bits <- ld32 (bitmap_bits_of btmp);
  b <- ld8 (bits + base);
  ret (w8 (Z.land b (Z.shiftl BIT_MASK offset))).

(** The first byte that is not full, from [index] on. *)
Definition scan_byte (btmp : Z) (index : Z) : M (Z + Z) :=
  len <- ld32 (bitmap_len_of btmp);
  if index <? len then
    bits <- ld32 (bitmap_bits_of btmp);
    b <- ld8 (bits + index);
    if 0xff =? b then ret (inl (w32 (index + 1))) else ret (inr index)
  else ret (inr index).

(** The first clear bit of that byte. *)
Definition scan_bit (btmp index : Z) (offset : Z) : M (Z + Z) :=
  bits <- ld32 (bitmap_bits_of btmp);
  b <- ld8 (bits + index);
  if negb (Z.land (Z.shiftl BIT_MASK offset) b =? 0) then ret (inl (offset + 1))
  else ret (inr offset).

(** One more bit of the search for [cnt] clear bits in a row. *)
Definition scan_run (btmp cnt : Z) : Z * Z * Z → M (Z * Z * Z + Z) :=
  λ '(bit_left, counter, bit_index),
    if bit_left >? 0 then
      t <- bitmap_scan_test btmp bit_index;
      if t =? 0 then
        let counter := counter + 1 in
        let bit_index := bit_index + 1 in
        if w32 counter =? cnt then ret (inr (s32 (bit_index - cnt)))
        else ret (inl (bit_left - 1, counter, bit_index))
      else ret (inl (bit_left - 1, 0, bit_index + 1))
    else ret (inr (-1)).

Definition bitmap_scan (btmp cnt : Z) : M Z :=
  index <- loop (scan_byte btmp) 0;
  len <- ld32 (bitmap_len_of btmp);
  if index =? len then ret (-1)
  else
    offset <- loop (scan_bit btmp index) 0;
    let bit_index := s32 (index * 8 + offset) in
    len <- ld32 (bitmap_len_of btmp);
    let bit_left := s32 (len * 8 - bit_index) in
    if cnt =? 1 then ret bit_index
    else loop (scan_run btmp cnt) (bit_left, 1, bit_index + 1).

Definition bitmap_set (btmp index value : Z) : M unit :=
  ASSERT ((value =? 1) || (value =? 0)) "lib/bitmap.c" 69 "bitmap_set"
    "value == 1 || value == 0" ;;
  let base := index / 8 in
  let offset := index mod 8 in
  bits <- ld32 (bitmap_bits_of btmp);
  b <- ld8 (bits + base);
  if negb (value =? 0) then st8 (bits + base) (Z.lor b (Z.shiftl BIT_MASK offset))
  else st8 (bits + base) (Z.land b (Z.lnot (Z.shiftl BIT_MASK offset))).

(** ** Functional view *)

(** Bit [i]; beyond the bytes there is nothing free. *)
Definition used (bs : list Z) (i : Z) : bool :=
  match bs !! Z.to_nat (i / 8) with
  | Some b => Z.testbit b (i mod 8)
  | None => true
  end.

Definition bm_set (bs : list Z) (i : Z) (v : bool) : list Z :=
  alter (λ b, if v then Z.lor b (2 ^ (i mod 8)) else Z.ldiff b (2 ^ (i mod 8)))
    (Z.to_nat (i / 8)) bs.

(** The first fit of [cnt] clear bits below [limit]. *)
Definition first_fit (u : Z → bool) (limit cnt r : Z) : Prop :=
  0 <= r ∧ r + cnt <= limit ∧ (∀ i, r <= i < r + cnt → u i = false) ∧
  (∀ r', 0 <= r' < r → ∃ i, r' <= i < r' + cnt ∧ u i = true).

Definition no_fit (u : Z → bool) (limit cnt : Z) : Prop :=
  ∀ r, 0 <= r → r + cnt <= limit → ∃ i, r <= i < r + cnt ∧ u i = true.

(** What a scan for [cnt] clear bits answers. *)
Definition scan_result (u : Z → bool) (limit cnt r : Z) : Prop :=
  first_fit u limit cnt r ∨ (r = -1 ∧ no_fit u limit cnt).

Definition bits_of (bs : list Z) : Z := 8 * Z.of_nat (length bs).

Definition is_bitmap (b addr : Z) (bs : list Z) : hPropI :=
  (⌜bits_of bs < 2 ^ 31 - 8⌝ ∗ bitmap_len_of b ↦w Z.of_nat (length bs) ∗
   bitmap_bits_of b ↦w addr ∗ addr ↦∗ bs)%I.

Lemma byte_not_full b : 0 <= b < 256 → b ≠ 255 → ∃ k, 0 <= k < 8 ∧ Z.testbit b k = false.
Proof.
  intros Hb Hne.
  destruct (decide (Exists (λ k, Z.testbit b k = false) (seqZ 0 8))) as [H|H].
  - apply Exists_exists in H as (k & Hk%elem_of_seqZ & H). exists k. split; [lia|done].
  - exfalso. apply Hne. apply not_Exists_Forall in H; [|apply _].
    rewrite Forall_forall in H. apply Z.bits_inj'. intros n Hn.
    destruct (decide (n < 8)).
    + change 255 with (Z.ones 8). rewrite Z.ones_spec_low; [|lia].
      destruct (Z.testbit b n) eqn:En; [done|]. exfalso. apply (H n); [|done].
      apply elem_of_seqZ. lia.
    + change 255 with (Z.ones 8). rewrite Z.ones_spec_high; [|lia].
      rewrite -(Z.mod_small b (2 ^ 8)); [|lia]. rewrite Z.mod_pow2_bits_high; [done|lia].
Qed.

Lemma testbit_byte_high b k : 0 <= b < 256 → 8 <= k → Z.testbit b k = false.
Proof.
  intros Hb Hk. rewrite -(Z.mod_small b (2 ^ 8)); [|lia].
  rewrite Z.mod_pow2_bits_high; [done|lia].
Qed.

Lemma byte_by_bits b : 0 <= b → (∀ k, 8 <= k → Z.testbit b k = false) → 0 <= b < 256.
Proof.
  intros Hb H. assert (b = b mod 2 ^ 8) as ->.
  { apply Z.bits_inj'. intros n Hn. destruct (decide (n < 8)).
    - rewrite Z.mod_pow2_bits_low; [done|lia].
    - rewrite Z.mod_pow2_bits_high; [|lia]. apply H. lia. }
  change 256 with (2 ^ 8). apply Z.mod_pos_bound. lia.
Qed.

Lemma lor_byte b k : 0 <= b < 256 → 0 <= k < 8 → 0 <= Z.lor b (2 ^ k) < 256.
Proof.
  intros Hb Hk. apply byte_by_bits; [apply Z.lor_nonneg; lia|]. intros n Hn.
  rewrite Z.lor_spec testbit_byte_high // Z.pow2_bits_false //. lia.
Qed.

Lemma ldiff_byte b k : 0 <= b < 256 → 0 <= k < 8 → 0 <= Z.ldiff b (2 ^ k) < 256.
Proof.
  intros Hb Hk. apply byte_by_bits; [apply Z.ldiff_nonneg; lia|]. intros n Hn.
  rewrite Z.ldiff_spec testbit_byte_high //.
Qed.

Lemma div_mod_8 i j : 0 <= i → 0 <= j → i / 8 = j / 8 → i mod 8 = j mod 8 → i = j.
Proof. intros. rewrite (Z.div_mod i 8) // (Z.div_mod j 8) //. lia. Qed.

Lemma length_bm_set bs i v : length (bm_set bs i v) = length bs.
Proof. apply length_alter. Qed.

Lemma bits_of_bm_set bs i v : bits_of (bm_set bs i v) = bits_of bs.
Proof. unfold bits_of. by rewrite length_bm_set. Qed.

(** Setting one bit changes that bit and no other. *)
Lemma used_bm_set bs i v j :
  0 <= i < bits_of bs → 0 <= j →
  used (bm_set bs i v) j = if decide (j = i) then v else used bs j.
Proof.
  intros [Hi0 Hi] Hj. unfold used, bm_set, bits_of in *.
  destruct (decide (i / 8 = j / 8)) as [E|E].
  - rewrite E list_lookup_alter_eq.
    destruct (bs !! Z.to_nat (j / 8)) as [b|] eqn:Eb; simpl.
    2:{ apply lookup_ge_None in Eb. exfalso. rewrite -E in Eb. Z.div_mod_to_equations. lia. }
    assert (0 <= i mod 8 < 8) by (apply Z.mod_pos_bound; lia).
    assert (0 <= j mod 8 < 8) by (apply Z.mod_pos_bound; lia).
    case_decide as D.
    + subst j. destruct v.
      * by rewrite Z.lor_spec Z.pow2_bits_true ?orb_true_r; [|lia].
      * by rewrite Z.ldiff_spec Z.pow2_bits_true ?andb_false_r; [|lia].
    + assert (i mod 8 ≠ j mod 8) by (intros ?; apply D; symmetry; by apply div_mod_8).
      destruct v.
      * by rewrite Z.lor_spec Z.pow2_bits_false // orb_false_r.
      * by rewrite Z.ldiff_spec Z.pow2_bits_false // andb_true_r.
  - rewrite list_lookup_alter_ne.
    + rewrite decide_False; [done|]. intros ->. done.
    + intros E'. apply E. assert (0 <= i / 8) by (apply Z.div_pos; lia).
      assert (0 <= j / 8) by (apply Z.div_pos; lia). lia.
Qed.

Lemma bitmap_byte bs i : 0 <= i < bits_of bs → ∃ b, bs !! Z.to_nat (i / 8) = Some b.
Proof.
  intros H. apply lookup_lt_is_Some_2. unfold bits_of in H. Z.div_mod_to_equations. lia.
Qed.

Lemma used_byte bs j x k :
  bs !! j = Some x → 0 <= k < 8 → used bs (8 * Z.of_nat j + k) = Z.testbit x k.
Proof.
  intros Hx Hk. unfold used.
  replace ((8 * j + k) / 8) with (Z.of_nat j) by (Z.div_mod_to_equations; lia).
  replace ((8 * j + k) mod 8) with k by (Z.div_mod_to_equations; lia).
  by rewrite Nat2Z.id Hx.
Qed.

Lemma used_app bs nx i : 0 <= i < bits_of bs → used (bs ++ [nx]) i = used bs i.
Proof.
  intros Hi. unfold used. rewrite lookup_app_l; [done|].
  unfold bits_of in Hi. Z.div_mod_to_equations. lia.
Qed.

Lemma full_bytes_used bs j i :
  (∀ n, (n < j)%nat → bs !! n = Some 255) → 0 <= i < 8 * Z.of_nat j → used bs i = true.
Proof.
  intros Hfull Hi. unfold used. rewrite Hfull.
  - change 255 with (Z.ones 8). apply Z.ones_spec_low. apply Z.mod_pos_bound. lia.
  - Z.div_mod_to_equations. lia.
Qed.

(** The first clear bit of a byte that is not full. *)
Lemma first_clear x :
  0 <= x < 256 → x ≠ 255 →
  ∃ k, 0 <= k < 8 ∧ Z.testbit x k = false ∧ ∀ i, 0 <= i < k → Z.testbit x i = true.
Proof.
  intros Hx Hne. destruct (byte_not_full x Hx Hne) as (k & Hk & Hclr).
  remember (Z.to_nat k) as n eqn:En. revert k En Hk Hclr.
  induction n as [n IH] using lt_wf_ind. intros k -> Hk Hclr.
  destruct (decide (Exists (λ i, Z.testbit x i = false) (seqZ 0 k))) as [H|H].
  - apply Exists_exists in H as (i & Hi%elem_of_seqZ & H).
    apply (IH (Z.to_nat i) ltac:(lia) i); [done|lia|done].
  - exists k. split_and!; [lia|lia|done|]. intros i Hi.
    apply not_Exists_Forall in H; [|apply _]. rewrite Forall_forall in H.
    destruct (Z.testbit x i) eqn:E; [done|]. exfalso. apply (H i); [|done].
    apply elem_of_seqZ. lia.
Qed.

(** ** Specifications *)

Section spec.
Implicit Types (c : cpu) (bs : list Z).

(** Reading the byte that holds bit [i]. *)
Lemma wp_bitmap_byte addr bs i b c (Φ : res Z → hPropI) :
  0 <= i → bs !! Z.to_nat (i / 8) = Some b →
  addr ↦∗ bs -∗ (⌜0 <= b < 256⌝ -∗ addr ↦∗ bs -∗ Φ (RRet b c)) -∗
  wp (ld8 (addr + i / 8)) c Φ.
Proof.
  iIntros (Hi Hb) "H HΦ". assert (0 <= i / 8) by (apply Z.div_pos; lia).
  iDestruct (bytes_acc with "H") as "[Hb H]"; [done|].
  iDestruct (pt_range with "Hb") as %Hr.
  iApply (wp_ld8 with "Hb"); [lia|]. iIntros "Hb". iApply ("HΦ" with "[//]").
  iDestruct ("H" with "Hb") as "H". by rewrite list_insert_id.
Qed.

Lemma bitmap_scan_test_wp b addr bs i len c (Φ : res Z → hPropI) :
  0 <= i < bits_of bs →
  bitmap_len_of b ↦w len -∗ bitmap_bits_of b ↦w addr -∗ addr ↦∗ bs -∗
  (∀ t, ⌜(t =? 0) = negb (used bs i)⌝ -∗
     bitmap_len_of b ↦w len -∗ bitmap_bits_of b ↦w addr -∗ addr ↦∗ bs -∗ Φ (RRet t c)) -∗
  wp (bitmap_scan_test b i) c Φ.
Proof.
  iIntros (Hi) "Hl Hb Hbs HΦ". rewrite /bitmap_scan_test. wp_ld "Hb".
  destruct (bitmap_byte _ _ Hi) as [x Hx].
  wp_bind. iApply (wp_bitmap_byte with "Hbs"); [lia|done|]. iIntros (Hr) "Hbs". wp_reduce.
  wp_pure. iApply ("HΦ" with "[%] Hl Hb Hbs").
  assert (0 <= i mod 8 < 8) by (apply Z.mod_pos_bound; lia).
  rewrite /BIT_MASK Z.shiftl_1_l land_pow2; [|lia]. unfold used. rewrite Hx.
  destruct (Z.testbit x (i mod 8)); [|done]. simpl.
  assert (2 ^ (i mod 8) < 2 ^ 8) by (apply Z.pow_lt_mono_r; lia).
  rewrite w8_small; [|lia]. apply Z.eqb_neq. lia.
Qed.

(** [bitmap_set] does not look at the length: any byte behind [addr] will do. *)
Lemma bitmap_set_raw_wp b addr bs i (v : bool) c (Φ : res unit → hPropI) :
  0 <= i < bits_of bs →
  bitmap_bits_of b ↦w addr -∗ addr ↦∗ bs -∗
  (bitmap_bits_of b ↦w addr -∗ addr ↦∗ bm_set bs i v -∗ Φ (RRet tt c)) -∗
  wp (bitmap_set b i (b2z v)) c Φ.
Proof.
  iIntros (Hi) "Hb Hbs HΦ". rewrite /bitmap_set.
  wp_bind. iApply wp_assert; [by destruct v|]. wp_reduce. wp_ld "Hb".
  destruct (bitmap_byte _ _ Hi) as [x Hx].
  wp_bind. iApply (wp_bitmap_byte with "Hbs"); [lia|done|]. iIntros (Hr) "Hbs". wp_reduce.
  iDestruct (bytes_acc with "Hbs") as "[Hx Hbs]"; [done|].
  assert (0 <= i / 8) by (apply Z.div_pos; lia).
  assert (0 <= i mod 8 < 8) by (apply Z.mod_pos_bound; lia).
  assert (<[Z.to_nat (i / 8) := if v then Z.lor x (2 ^ (i mod 8))
                                else Z.ldiff x (2 ^ (i mod 8))]> bs = bm_set bs i v) as E.
  { unfold bm_set. apply list_eq. intros k.
    destruct (decide (k = Z.to_nat (i / 8))) as [->|Hk].
    - rewrite list_lookup_insert_eq; [|by eapply lookup_lt_Some].
      by rewrite list_lookup_alter_eq Hx.
    - by rewrite list_lookup_insert_ne // list_lookup_alter_ne. }
  destruct v; simpl; rewrite /BIT_MASK Z.shiftl_1_l.
  - wp_stb "Hx". rewrite w8_small; [|by apply lor_byte].
    iDestruct ("Hbs" with "Hx") as "Hbs". rewrite E. iApply ("HΦ" with "Hb Hbs").
  - rewrite -Z.ldiff_land. wp_stb "Hx". rewrite w8_small; [|by apply ldiff_byte].
    iDestruct ("Hbs" with "Hx") as "Hbs". rewrite E. iApply ("HΦ" with "Hb Hbs").
Qed.

Lemma bitmap_set_wp b addr bs i (v : bool) c (Φ : res unit → hPropI) :
  0 <= i < bits_of bs →
  is_bitmap b addr bs -∗ (is_bitmap b addr (bm_set bs i v) -∗ Φ (RRet tt c)) -∗
  wp (bitmap_set b i (b2z v)) c Φ.
Proof.
  iIntros (Hi) "(%Hs & Hl & Hb & Hbs) HΦ".
  iApply (bitmap_set_raw_wp with "Hb Hbs"); [done|]. iIntros "Hb Hbs". iApply "HΦ".
  rewrite /is_bitmap length_bm_set bits_of_bm_set. by iFrame.
Qed.

Lemma bitmap_init_wp b addr bs c (Φ : res unit → hPropI) :
  addr ≠ 0 → is_bitmap b addr bs -∗
  (is_bitmap b addr (replicate (length bs) 0) -∗ Φ (RRet tt c)) -∗
  wp (bitmap_init b) c Φ.
Proof.
  iIntros (Ha) "(%Hs & Hl & Hb & Hbs) HΦ". rewrite /bitmap_init. wp_ld "Hb". wp_ld "Hl".
  iApply (memset_wp with "Hbs"); [done|done|]. iIntros "Hbs". iApply "HΦ".
  rewrite /is_bitmap /bits_of length_replicate. by iFrame.
Qed.

(** The first loop stops at the first byte with a clear bit. *)
Lemma scan_byte_wp b addr bs k c (Φ : res Z → hPropI) :
  bits_of bs < 2 ^ 31 - 8 → (k <= length bs)%nat →
  bitmap_len_of b ↦w Z.of_nat (length bs) -∗ bitmap_bits_of b ↦w addr -∗ addr ↦∗ bs -∗
  (∀ j, ⌜(k <= j <= length bs)%nat⌝ -∗ ⌜∀ i, (k <= i < j)%nat → bs !! i = Some 255⌝ -∗
     ⌜bs !! j ≠ Some 255⌝ -∗
     bitmap_len_of b ↦w Z.of_nat (length bs) -∗ bitmap_bits_of b ↦w addr -∗ addr ↦∗ bs -∗
     Φ (RRet (Z.of_nat j) c)) -∗
  wp_loop (scan_byte b) (Z.of_nat k) c Φ.
Proof.
  iIntros (Hs Hk) "Hl Hb Hbs HΦ". unfold bits_of in Hs.
  remember (length bs - k)%nat as m eqn:Em.
  iInduction m as [|m IH] forall (k Hk Em); iApply wp_loop_step; rewrite /scan_byte; wp_ld "Hl".
  - rewrite (proj2 (Z.ltb_ge _ _)); [|lia]. wp_pure.
    iApply ("HΦ" $! k with "[%] [%] [%] Hl Hb Hbs"); [lia|lia|].
    rewrite lookup_ge_None_2; [done|lia].
  - rewrite (proj2 (Z.ltb_lt _ _)); [|lia]. wp_ld "Hb".
    destruct (lookup_lt_is_Some_2 bs k) as [x Hx]; [lia|].
    iDestruct (bytes_acc with "Hbs") as "[Hx Hbs]"; [done|]. wp_ldb "Hx".
    iDestruct ("Hbs" with "Hx") as "Hbs". rewrite list_insert_id //.
    destruct (Z.eqb_spec 0xff x) as [<-|Hne].
    + wp_pure. rewrite w32_small; [|lia]. replace (k + 1) with (Z.of_nat (S k)) by lia.
      iApply ("IH" with "[%] [%] Hl Hb Hbs"); [lia|lia|].
      iIntros (j Hj Hall Hstop) "Hl Hb Hbs". iApply ("HΦ" with "[%] [%] [//] Hl Hb Hbs"); [lia|].
      intros i Hi. destruct (decide (i = k)) as [->|]; [done|]. apply Hall. lia.
    + wp_pure. iApply ("HΦ" $! k with "[%] [%] [%] Hl Hb Hbs"); [lia|lia|]. congruence.
Qed.

(** The second loop stops at the first clear bit of the byte. *)
Lemma scan_bit_wp b addr bs j x o k c (Φ : res Z → hPropI) :
  bs !! j = Some x → 0 <= o <= k → k < 8 → Z.testbit x k = false →
  (∀ i, o <= i < k → Z.testbit x i = true) →
  bitmap_bits_of b ↦w addr -∗ addr ↦∗ bs -∗
  (bitmap_bits_of b ↦w addr -∗ addr ↦∗ bs -∗ Φ (RRet k c)) -∗
  wp_loop (scan_bit b (Z.of_nat j)) o c Φ.
Proof.
  iIntros (Hx Ho Hk Hclr Hset) "Hb Hbs HΦ".
  remember (Z.to_nat (k - o)) as m eqn:Em.
  iInduction m as [|m IH] forall (o Ho Hset Em); iApply wp_loop_step; rewrite /scan_bit;
    wp_ld "Hb"; (iDestruct (bytes_acc with "Hbs") as "[Hx Hbs]"; [done|]); wp_ldb "Hx";
    iDestruct ("Hbs" with "Hx") as "Hbs"; rewrite list_insert_id //;
    rewrite /BIT_MASK Z.shiftl_1_l Z.land_comm land_pow2_eqb; try lia.
  - replace o with k by lia. rewrite Hclr. wp_pure. iApply ("HΦ" with "Hb Hbs").
  - rewrite Hset; [|lia]. wp_pure.
    iApply ("IH" with "[%] [%] [%] Hb Hbs HΦ"); [lia| |lia]. intros i Hi. apply Hset. lia.
Qed.

(** The run search, from bit [p] with the [k] bits before it clear. *)
Lemma scan_run_wp b addr bs nx cnt k p c (Φ : res Z → hPropI) :
  let u := used (bs ++ [nx]) in
  bits_of bs < 2 ^ 31 - 8 → 0 <= k < cnt → cnt < 2 ^ 32 → k <= p <= bits_of bs + 1 →
  (∀ i, p - k <= i < p → u i = false) →
  (∀ r, 0 <= r < p - k → ∃ i, r <= i < r + cnt ∧ i < p ∧ u i = true) →
  bitmap_len_of b ↦w Z.of_nat (length bs) -∗ bitmap_bits_of b ↦w addr -∗
  addr ↦∗ (bs ++ [nx]) -∗
  (∀ r, ⌜scan_result u (bits_of bs + 1) cnt r⌝ -∗
     bitmap_len_of b ↦w Z.of_nat (length bs) -∗ bitmap_bits_of b ↦w addr -∗
     addr ↦∗ (bs ++ [nx]) -∗ Φ (RRet r c)) -∗
  wp_loop (scan_run b cnt) (bits_of bs + 1 - p, k, p) c Φ.
Proof.
  iIntros (u Hs Hk Hcnt Hp Hfree Hno) "Hl Hb Hbs HΦ".
  remember (Z.to_nat (bits_of bs + 1 - p)) as m eqn:Em.
  iInduction m as [|m IH] forall (k p Hk Hp Hfree Hno Em); iApply wp_loop_step;
    rewrite /scan_run Z.gtb_ltb.
  - rewrite (proj2 (Z.ltb_ge _ _)); [|lia]. wp_pure.
    iApply ("HΦ" with "[%] Hl Hb Hbs"). right. split; [done|]. intros r Hr Hrc.
    destruct (Hno r) as (i & ? & ? & ?); [lia|]. by exists i.
  - rewrite (proj2 (Z.ltb_lt _ _)); [|lia]. wp_bind.
    assert (0 <= p < bits_of (bs ++ [nx])).
    { unfold bits_of in *. rewrite length_app. simpl. lia. }
    iApply (bitmap_scan_test_wp with "Hl Hb Hbs"); [done|]. iIntros (t Ht) "Hl Hb Hbs".
    wp_reduce. rewrite Ht. fold u. destruct (u p) eqn:Eu; wp_reduce.
    + wp_pure. replace (bits_of bs + 1 - p - 1) with (bits_of bs + 1 - (p + 1)) by lia.
      iApply ("IH" with "[%] [%] [%] [%] [%] Hl Hb Hbs HΦ"); [lia|lia|lia| |lia].
      intros r Hr. destruct (decide (r < p - k)).
      * destruct (Hno r) as (i & ? & ? & ?); [lia|]. exists i. split_and!; [lia..|done].
      * exists p. split_and!; [lia..|done].
    + assert (∀ i, p - k <= i < p + 1 → u i = false) as Hfree'.
      { intros i Hi. destruct (decide (i = p)) as [->|]; [done|]. apply Hfree. lia. }
      rewrite w32_small; [|lia]. destruct (Z.eqb_spec (k + 1) cnt) as [<-|Hne]; wp_pure.
      * rewrite s32_small; [|lia]. iApply ("HΦ" with "[%] Hl Hb Hbs"). left.
        split_and!; [lia|lia| |].
        -- intros i Hi. apply Hfree'. lia.
        -- intros r Hr. destruct (Hno r) as (i & ? & ? & ?); [lia|]. by exists i.
      * replace (bits_of bs + 1 - p - 1) with (bits_of bs + 1 - (p + 1)) by lia.
        iApply ("IH" with "[%] [%] [%] [%] [%] Hl Hb Hbs HΦ"); [lia|lia| | |lia].
        -- intros i Hi. apply Hfree'. lia.
        -- intros r Hr. destruct (Hno r) as (i & ? & ? & ?); [lia|].
           exists i. split_and!; [lia..|done].
Qed.

(** For one bit the scan stays inside the bitmap; for more it also looks at,
    and may answer with, the bit right after its end. *)
Lemma bitmap_scan_wp b addr bs nx cnt c (Φ : res Z → hPropI) :
  1 <= cnt < 2 ^ 32 →
  is_bitmap b addr bs -∗
  (if cnt =? 1 then emp else (addr + Z.of_nat (length bs)) ↦ nx) -∗
  (∀ r, ⌜scan_result (used (bs ++ [nx])) (bits_of bs + b2z (negb (cnt =? 1))) cnt r⌝ -∗
     is_bitmap b addr bs -∗
     (if cnt =? 1 then emp else (addr + Z.of_nat (length bs)) ↦ nx) -∗ Φ (RRet r c)) -∗
  wp (bitmap_scan b cnt) c Φ.
Proof.
  iIntros (Hc) "(%Hs & Hl & Hb & Hbs) Hnx HΦ". rewrite /bitmap_scan.
  wp_bind. iApply wp_loop_start.
  iApply (scan_byte_wp b addr bs 0 with "Hl Hb Hbs"); [done|lia|].
  iIntros (j Hj Hfull Hstop) "Hl Hb Hbs". wp_reduce. wp_ld "Hl".
  assert (∀ i, 0 <= i < 8 * Z.of_nat j → used (bs ++ [nx]) i = true) as Hbelow.
  { intros i Hi. apply full_bytes_used with j; [|done]. intros n Hn.
    rewrite lookup_app_l; [|lia]. apply Hfull. lia. }
  destruct (Z.eqb_spec j (length bs)) as [Ej|Ej].
  { wp_pure. iApply ("HΦ" with "[%] [$Hl $Hb $Hbs //] Hnx"). right. split; [done|].
    intros r Hr Hrc. exists r. split; [lia|]. apply Hbelow.
    unfold bits_of in *. destruct (Z.eqb_spec cnt 1); simpl in *; lia. }
  destruct (lookup_lt_is_Some_2 bs j) as [x Hx]; [lia|].
  iDestruct (bytes_range with "Hbs") as %Hrange.
  assert (0 <= x < 256) by (rewrite Forall_lookup in Hrange; by apply (Hrange j)).
  destruct (first_clear x) as (o & Ho & Hclr & Hset); [done|congruence|].
  wp_bind. iApply wp_loop_start.
  iApply (scan_bit_wp b addr bs j x 0 o with "Hb Hbs"); [done|lia|lia|done|done|].
  iIntros "Hb Hbs". wp_reduce. wp_ld "Hl".
  assert (j * 8 + o < bits_of bs) by (unfold bits_of; lia).
  assert (used (bs ++ [nx]) (j * 8 + o) = false) as Hfree.
  { rewrite (Z.mul_comm j) used_app; [|lia]. by erewrite used_byte. }
  assert (∀ i, 0 <= i < j * 8 + o → used (bs ++ [nx]) i = true) as Hfirst.
  { intros i Hi. destruct (decide (i < 8 * j)); [apply Hbelow; lia|].
    rewrite used_app; [|lia]. replace i with (8 * j + (i - 8 * j)) by lia.
    erewrite used_byte; [apply Hset; lia|done|lia]. }
  rewrite (s32_small (j * 8 + o)); [|lia].
  rewrite s32_small; [|unfold bits_of in *; lia].
  destruct (Z.eqb_spec cnt 1) as [->|Hne].
  - wp_pure. iApply ("HΦ" with "[%] [$Hl $Hb $Hbs //] Hnx"). left.
    split_and!; [lia|simpl; lia| |].
    + intros i Hi. by replace i with (j * 8 + o) by lia.
    + intros r Hr. exists r. split; [lia|]. apply Hfirst. lia.
  - iApply wp_loop_start.
    replace (length bs * 8 - (j * 8 + o)) with (bits_of bs + 1 - (j * 8 + o + 1))
      by (unfold bits_of; lia).
    iApply (scan_run_wp b addr bs nx cnt 1 with "Hl Hb [Hbs Hnx]"); [done|lia|lia|lia| | | |].
    + intros i Hi. by replace i with (j * 8 + o) by lia.
    + intros r Hr. exists r. split_and!; [lia|lia|lia|]. apply Hfirst. lia.
    + rewrite bytes_app. iFrame "Hbs". rewrite bytes_cons bytes_nil. by iFrame.
    + iIntros (r Hr) "Hl Hb Hbs". rewrite bytes_app bytes_cons. iDestruct "Hbs" as "(Hbs & Hnx & _)".
      iApply ("HΦ" with "[%] [$Hl $Hb $Hbs //] Hnx"). done.
Qed.
End spec.

(** Two first fits are the same. *)
Lemma first_fit_unique u limit cnt r r' :
  first_fit u limit cnt r → first_fit u limit cnt r' → r = r'.
Proof.
  intros (H1 & H2 & H3 & H4) (H1' & H2' & H3' & H4').
  destruct (Z.lt_trichotomy r r') as [Hlt|[->|Hlt]]; [|done|].
  - destruct (H4' r) as (i & Hi & E); [lia|]. rewrite H3 // in E.
  - destruct (H4 r') as (i & Hi & E); [lia|]. rewrite H3' // in E.
Qed.

Lemma scan_result_fit u limit cnt r r' :
  first_fit u limit cnt r' → scan_result u limit cnt r → r = r'.
Proof.
  intros Hf [Hr|[_ Hno]]; [by eapply first_fit_unique|].
  destruct Hf as (H1 & H2 & H3 & _). destruct (Hno r') as (i & Hi & E); [lia|lia|].
  rewrite H3 // in E.
Qed.

(** The bits of a bitmap whose only clear bit is its last. *)
Lemma used_last_free n nx i :
  Z.testbit nx 0 = false → 0 <= i < 8 * Z.of_nat n + 9 →
  used (replicate n 255 ++ [127; nx]) i = (i <? 8 * Z.of_nat n + 7).
Proof.
  intros Hnx Hi. destruct (decide (i < 8 * n)).
  { rewrite (full_bytes_used _ n); [symmetry; apply Z.ltb_lt; lia| |lia].
    intros k Hk. rewrite lookup_app_l; [|by rewrite length_replicate].
    by apply lookup_replicate_2. }
  assert (∃ o, 0 <= o <= 8 ∧ i = 8 * n + o) as (o & Ho & ->) by (exists (i - 8 * n); lia).
  destruct (decide (o = 8)) as [->|].
  - replace (8 * n + 8) with (8 * Z.of_nat (S n) + 0) by lia. erewrite used_byte; [|rewrite lookup_app_r ?length_replicate; [|lia]; by replace (S n - n)%nat with 1%nat by lia|lia].
    rewrite Hnx. symmetry. apply Z.ltb_ge. lia.
  - erewrite used_byte; [|rewrite lookup_app_r ?length_replicate //; by rewrite Nat.sub_diag|lia].
    assert (o = 0 ∨ o = 1 ∨ o = 2 ∨ o = 3 ∨ o = 4 ∨ o = 5 ∨ o = 6 ∨ o = 7) as
      [-> | [-> | [-> | [-> | [-> | [-> | [-> | ->]]]]]]] by lia;
      symmetry; first [apply Z.ltb_lt; lia | apply Z.ltb_ge; lia].
Qed.

(** ** Runs of bits, and the first clear bit as a function *)

Definition bm_set_run (bs : list Z) (r : Z) (n : nat) (v : bool) : list Z :=
  foldl (λ bs i, bm_set bs i v) bs (seqZ r (Z.of_nat n)).

Definition first_free (bs : list Z) : option Z :=
  head (filter (λ i, used bs i = false) (seqZ 0 (bits_of bs))).

Lemma bm_set_run_S bs r n v :
  bm_set_run bs r (S n) v = bm_set (bm_set_run bs r n v) (r + Z.of_nat n) v.
Proof.
  unfold bm_set_run. replace (Z.of_nat (S n)) with (Z.of_nat n + 1) by lia.
  rewrite seqZ_app; [|lia..]. rewrite foldl_app (seqZ_cons (r + n)); [|lia].
  by rewrite (seqZ_nil _ (Z.pred 1)); [|lia].
Qed.

Lemma bits_of_bm_set_run bs r n v : bits_of (bm_set_run bs r n v) = bits_of bs.
Proof.
  induction n as [|n IH]; [done|]. by rewrite bm_set_run_S bits_of_bm_set.
Qed.

Lemma length_bm_set_run bs r n v : length (bm_set_run bs r n v) = length bs.
Proof. pose proof (bits_of_bm_set_run bs r n v) as E. unfold bits_of in E. lia. Qed.

Lemma used_bm_set_run bs r n v j :
  0 <= r → r + Z.of_nat n <= bits_of bs → 0 <= j →
  used (bm_set_run bs r n v) j = if decide (r <= j < r + Z.of_nat n) then v else used bs j.
Proof.
  intros Hr Hn Hj. induction n as [|n IH].
  - unfold bm_set_run. simpl. rewrite decide_False; [done|lia].
  - rewrite bm_set_run_S used_bm_set; [|rewrite bits_of_bm_set_run; lia|done].
    rewrite IH; [|lia]. repeat case_decide; done || lia.
Qed.

(** Bitmaps of the same length with the same bits are the same. *)
Lemma used_ext bs bs' :
  Forall (λ b, 0 <= b < 256) bs → Forall (λ b, 0 <= b < 256) bs' → length bs = length bs' →
  (∀ i, 0 <= i < bits_of bs → used bs i = used bs' i) → bs = bs'.
Proof.
  intros Hb Hb' Hl Hu. apply list_eq_same_length with (length bs); [done|done|].
  intros k x y Hk Hx Hy. apply Z.bits_inj'. intros n Hn.
  pose proof (Forall_lookup_1 _ _ _ _ Hb Hx) as Hrx. pose proof (Forall_lookup_1 _ _ _ _ Hb' Hy) as Hry.
  simpl in *. destruct (decide (n < 8)); [|by rewrite !testbit_byte_high; [|lia..]].
  specialize (Hu (8 * Z.of_nat k + n)). unfold bits_of in Hu.
  rewrite (used_byte _ _ _ _ Hx) ?(used_byte _ _ _ _ Hy) in Hu; [|lia..]. apply Hu. lia.
Qed.

Lemma bm_set_byte_range bs i v :
  0 <= i → Forall (λ b, 0 <= b < 256) bs → Forall (λ b, 0 <= b < 256) (bm_set bs i v).
Proof.
  intros Hi Hb. unfold bm_set. apply Forall_alter; [done|].
  intros x Hx Hr. assert (0 <= i mod 8 < 8) by (apply Z.mod_pos_bound; lia).
  destruct v; [by apply lor_byte|by apply ldiff_byte].
Qed.

Lemma bm_set_run_byte_range bs r n v :
  0 <= r → Forall (λ b, 0 <= b < 256) bs → Forall (λ b, 0 <= b < 256) (bm_set_run bs r n v).
Proof.
  intros Hr Hb. induction n as [|n IH]; [done|]. rewrite bm_set_run_S.
  apply bm_set_byte_range; [lia|done].
Qed.

Lemma first_free_Some bs r :
  first_free bs = Some r →
  0 <= r < bits_of bs ∧ used bs r = false ∧ ∀ i, 0 <= i < r → used bs i = true.
Proof.
  unfold first_free. generalize (bits_of bs). intros n Hh.
  assert (∀ lo m, (∀ i, 0 <= i < lo → used bs i = true) → 0 <= lo →
    head (filter (λ i, used bs i = false) (seqZ lo (Z.of_nat m))) = Some r →
    0 <= r < lo + Z.of_nat m ∧ used bs r = false ∧ ∀ i, 0 <= i < r → used bs i = true) as Hgen.
  { intros lo m. revert lo. induction m as [|m IH]; intros lo Hlo Hlo0; [done|].
    rewrite seqZ_cons; [|lia]. destruct (used bs lo) eqn:E.
    - rewrite filter_cons_False; [|by rewrite E].
      replace (Z.pred (S m)) with (Z.of_nat m) by lia. intros Hr.
      apply IH in Hr as (? & ? & ?); [split_and!; [lia|lia|done|done]| |lia].
      intros i Hi. destruct (decide (i = lo)) as [->|]; [done|]. apply Hlo. lia.
    - rewrite filter_cons_True //=. intros [= <-]. split_and!; [lia|lia|done|done]. }
  destruct (decide (0 <= n)); [|by rewrite seqZ_nil in Hh; [|lia]].
  specialize (Hgen 0 (Z.to_nat n)). rewrite Z2Nat.id // in Hgen.
  apply Hgen; [lia|lia|done].
Qed.

Lemma first_free_None bs : first_free bs = None → ∀ i, 0 <= i < bits_of bs → used bs i = true.
Proof.
  unfold first_free. intros Hh%head_None i Hi. destruct (used bs i) eqn:E; [done|].
  assert (i ∈ filter (λ i, used bs i = false) (seqZ 0 (bits_of bs))) as Hin.
  { apply list_elem_of_filter. split; [done|]. apply elem_of_seqZ. lia. }
  rewrite Hh in Hin. by apply elem_of_nil in Hin.
Qed.

Lemma first_free_scan bs nx r :
  scan_result (used (bs ++ [nx])) (bits_of bs) 1 r → r = default (-1) (first_free bs).
Proof.
  intros Hr. destruct (first_free bs) as [r'|] eqn:E; simpl.
  - apply first_free_Some in E as (H1 & H2 & H3). eapply scan_result_fit; [|done].
    split_and!; [lia|lia| |].
    + intros i Hi. rewrite used_app; [|lia]. by replace i with r' by lia.
    + intros i Hi. exists i. split; [lia|]. rewrite used_app; [|lia]. apply H3. lia.
  - destruct Hr as [(H1 & H2 & H3 & _)|[-> _]]; [|done].
    specialize (H3 r ltac:(lia)). rewrite used_app in H3; [|lia].
    rewrite (first_free_None bs E) in H3; [done|lia].
Qed.

(** A fit inside the map is what a scan finds, whatever follows the map. *)
Lemma first_fit_inside bs nx cnt r k :
  1 <= cnt → 0 <= k → first_fit (used bs) (bits_of bs) cnt r →
  first_fit (used (bs ++ [nx])) (bits_of bs + k) cnt r.
Proof.
  intros Hc Hk (H1 & H2 & H3 & H4). split_and!; [lia|lia| |].
  - intros i Hi. rewrite used_app; [|lia]. apply H3. lia.
  - intros r' Hr'. destruct (H4 r' Hr') as (i & Hi & E). exists i. split; [done|].
    rewrite used_app; [done|lia].
Qed.

(** ** Properties *)

Section properties.
Implicit Types (c : cpu) (bs : list Z).

(** Scanning for one bit: the first clear bit, or -1 when the map is full. *)
Theorem bitmap_scan_first_free b addr bs c :
  {{ is_bitmap b addr bs }} (bitmap_scan b 1) @ c
  {{ r c', ⌜c' = c ∧ ((0 <= r < bits_of bs ∧ used bs r = false ∧
                       ∀ i, 0 <= i < r → used bs i = true) ∨
                      (r = -1 ∧ ∀ i, 0 <= i < bits_of bs → used bs i = true))⌝ ∗
           is_bitmap b addr bs }}.
Proof.
  apply triple_wp. iIntros "H". iApply (bitmap_scan_wp b addr bs 0 1 with "H []"); [lia|done|].
  iIntros (r Hr) "H _ /=". iFrame. iPureIntro. split; [done|].
  simpl in Hr. rewrite Z.add_0_r in Hr. destruct Hr as [(H1 & H2 & H3 & H4)|[-> Hno]].
  - left. split_and!; [lia|lia| |].
    + rewrite -(used_app bs 0); [|lia]. apply H3. lia.
    + intros i Hi. destruct (H4 i) as (j & Hj & E); [lia|].
      rewrite used_app in E; [|lia]. by replace i with j by lia.
  - right. split; [done|]. intros i Hi. destruct (Hno i) as (j & Hj & E); [lia|lia|].
    rewrite used_app in E; [|lia]. by replace i with j by lia.
Qed.

(** C34: Scanning for a longer run: the first fit, or -1 when there is none, in
    the bits of the map and the one bit that follows it in memory. *)
Theorem bitmap_scan_first_fit b addr bs nx cnt c :
  2 <= cnt < 2 ^ 32 →
  {{ is_bitmap b addr bs ∗ (addr + Z.of_nat (length bs)) ↦ nx }} (bitmap_scan b cnt) @ c
  {{ r c', ⌜c' = c ∧ scan_result (used (bs ++ [nx])) (bits_of bs + 1) cnt r⌝ ∗
           is_bitmap b addr bs ∗ (addr + Z.of_nat (length bs)) ↦ nx }}.
Proof.
  intros Hc. apply triple_wp. iIntros "[H Hnx]".
  assert ((cnt =? 1) = false) as E by lia.
  iApply (bitmap_scan_wp b addr bs nx cnt with "H [Hnx]"); [lia|by rewrite E|].
  rewrite E. iIntros (r Hr) "H Hnx /=". by iFrame.
Qed.

Lemma bitmap_scan_first_fit_witness :
  ∃ r h', exec (bitmap_scan 0x1000 3) cpu0
            (mem_of [(0x1000, word_bytes 2); (0x1004, word_bytes 0x2000);
                     (0x2000, [0xdf; 0xf1; 255])]) r h' ∧
          h' ⊨ (returns (λ r c', ⌜c' = cpu0 ∧ scan_result (used ([0xdf; 0xf1] ++ [255])) 17 3 r⌝ ∗
                  is_bitmap 0x1000 0x2000 [0xdf; 0xf1] ∗ 0x2002 ↦ 255) r).
Proof.
  eapply triple_run.
  - apply (bitmap_scan_first_fit 0x1000 0x2000 [0xdf; 0xf1] 255 3). lia.
  - eapply models_mono; [|apply mem_of_models; vm_compute; reflexivity].
    iIntros "(H1 & H2 & H3 & _)". rewrite /= !bytes_word; [|lia..].
    rewrite (bytes_app _ [_; _] [_]) (bytes_cons _ 255). iDestruct "H3" as "(H3 & H4 & _)". iFrame.
    iPureIntro. unfold bits_of. simpl. lia.
Defined.

(** C35: The extra bit is not harmless: asked for two bits in a map whose only
    clear bit is the last one, the scan answers with that bit although the
    second bit of the run lies outside the map. *)
Theorem bitmap_scan_overruns b addr n nx c :
  Z.testbit nx 0 = false →
  {{ is_bitmap b addr (replicate n 255 ++ [127]) ∗ (addr + Z.of_nat n + 1) ↦ nx }}
    (bitmap_scan b 2) @ c
  {{ r c', ⌜c' = c ∧ (r + 2 = bits_of (replicate n 255 ++ [127]) + 1)%Z⌝ ∗
           is_bitmap b addr (replicate n 255 ++ [127]) ∗ (addr + Z.of_nat n + 1) ↦ nx }}.
Proof.
  intros Hnx. apply triple_wp. iIntros "[H Hnx]".
  replace (addr + n + 1) with (addr + length (replicate n 255 ++ [127]))
    by (rewrite length_app length_replicate /=; lia).
  iApply (bitmap_scan_wp b addr _ nx 2 with "H Hnx"); [lia|]. simpl.
  iIntros (r Hr) "H Hnx". iFrame. iPureIntro. split; [done|].
  rewrite -app_assoc /= in Hr. unfold bits_of in *. rewrite length_app length_replicate /= in Hr |- *.
  rewrite (scan_result_fit _ _ _ _ (8 * n + 7) _ Hr); [lia|].
  split_and!; [lia|lia| |].
  - intros i Hi. rewrite used_last_free //; [|lia]. apply Z.ltb_ge. lia.
  - intros r' Hr'. exists r'. split; [lia|]. rewrite used_last_free //; [|lia]. apply Z.ltb_lt. lia.
Qed.

Lemma bitmap_scan_overruns_witness :
  ∃ r h', exec (bitmap_scan 0x1000 2) cpu0
            (mem_of [(0x1000, word_bytes 2); (0x1004, word_bytes 0x2000);
                     (0x2000, [255; 127; 0])]) r h' ∧
          h' ⊨ (returns (λ r c', ⌜c' = cpu0 ∧ (r + 2 = 17)%Z⌝ ∗
                  is_bitmap 0x1000 0x2000 [255; 127] ∗ 0x2002 ↦ 0) r).
Proof.
  eapply triple_run.
  - apply (bitmap_scan_overruns 0x1000 0x2000 1 0). reflexivity.
  - eapply models_mono; [|apply mem_of_models; vm_compute; reflexivity].
    iIntros "(H1 & H2 & H3 & _)". rewrite /= !bytes_word; [|lia..].
    rewrite (bytes_app _ [_; _] [_]) (bytes_cons _ 0). iDestruct "H3" as "(H3 & H4 & _)". iFrame.
    iPureIntro. unfold bits_of. simpl. lia.
Defined.

(** A bit that was set or cleared reads back as such, every other bit as it
    was before. *)
Theorem bitmap_set_test b addr bs i (v : bool) j c :
  0 <= i < bits_of bs → 0 <= j < bits_of bs →
  {{ is_bitmap b addr bs }}
    (bitmap_set b i (b2z v) ;; bitmap_scan_test b j) @ c
  {{ r c', ⌜c' = c ∧ (r =? 0) = negb (if decide (j = i) then v else used bs j)⌝ ∗
           is_bitmap b addr (bm_set bs i v) }}.
Proof.
  intros Hi Hj. apply triple_wp. iIntros "H". wp_bind.
  iApply (bitmap_set_wp with "H"); [done|]. iIntros "(%Hs & Hl & Hb & Hbs)". wp_reduce.
  iApply (bitmap_scan_test_wp with "Hl Hb Hbs"); [by rewrite bits_of_bm_set|].
  iIntros (t Ht) "Hl Hb Hbs /=". iSplit; [|by iFrame]. iPureIntro. split; [done|].
  by rewrite Ht used_bm_set; [|lia..].
Qed.

Lemma bitmap_set_test_witness :
  ∃ r h', exec (bitmap_set 0x1000 11 1 ;; bitmap_scan_test 0x1000 11) cpu0
            (mem_of [(0x1000, word_bytes 2); (0x1004, word_bytes 0x2000);
                     (0x2000, [255; 0x47])]) r h' ∧
          h' ⊨ (returns (λ r c', ⌜c' = cpu0 ∧ (r =? 0) = false⌝ ∗
                  is_bitmap 0x1000 0x2000 [255; 0x4f]) r).
Proof.
  eapply triple_run.
  - apply (bitmap_set_test 0x1000 0x2000 [255; 0x47] 11 true 11); unfold bits_of; simpl; lia.
  - eapply models_mono; [|apply mem_of_models; vm_compute; reflexivity].
    iIntros "(H1 & H2 & H3 & _)". rewrite /= !bytes_word; [|lia..]. iFrame.
    iPureIntro. unfold bits_of. simpl. lia.
Defined.
End properties.
