(* ===== verification/Paging.v ===== *)
(** Paging: the recursive page-table window of kernel/memory.c ([pte_addr],
    [pde_addr], [addr_virtual_to_phy], [page_table_pte_remove]), against the
    processor's two-level page walk and the translations it caches. *)
From S2P Require Export Interrupt.

(** ** kernel/memory.h, kernel/memory.c *)

Definition PG_P_1 : Z := 1.
Definition PG_RW_W : Z := 2.
Definition PG_US_U : Z := 4.
Definition PAGE_SIZE : Z := 4096.

(** The virtual address of the page-table entry that maps [ptr]. *)
Definition pte_addr (ptr : Z) : Z :=
  Z.lor (Z.lor 0xffc00000 (Z.shiftr (Z.land ptr 0xffc00000) 10))
        (4 * Z.shiftr (Z.land ptr 0x003ff000) 12).

(** The virtual address of the page-directory entry of [ptr]. *)
Definition pde_addr (ptr : Z) : Z :=
  Z.lor 0xfffff000 (Z.shiftr (Z.land ptr 0xffc00000) 22 * 4).

Definition addr_virtual_to_phy (vaddr : Z) : M Z :=
  pte <- ld32 (pte_addr vaddr);
  ret (w32 (Z.land pte 0xfffff000 + Z.land vaddr 0x00000fff)).

(** The operand of [invlpg] is the parameter itself, in memory: what is
    invalidated is the translation of the stack it is on, not of [vir_addr]. *)
Definition page_table_pte_remove `{Frames} (vir_addr : Z) : M unit :=
  let pte := pte_addr vir_addr in
  v <- ld32 pte;
  st32 pte (Z.land v (not32 PG_P_1)) ;;
  emit (EvInvlpg fr_vir_addr).

(** ** The page walk *)

(** The word of a physical memory at an address. *)
Definition mem_word (h : memory) (a : Z) : option Z :=
  b0 ← h !! a; b1 ← h !! (a + 1); b2 ← h !! (a + 2); b3 ← h !! (a + 3);
  Some (b0 + 2 ^ 8 * b1 + 2 ^ 16 * b2 + 2 ^ 24 * b3).

Definition frame_of (entry : Z) : Z := entry / 4096 * 4096.
Definition present (entry : Z) : bool := Z.testbit entry 0.

(** The entry of table (or directory) [base] selected by [i]. *)
Definition walk_entry (phys : memory) (base i : Z) : option Z :=
  e ← mem_word phys (frame_of base + 4 * i);
  if present e then Some e else None.

(** Where directory [dir] (the value of cr3) maps the virtual address [v]. *)
Definition translate (phys : memory) (dir v : Z) : option Z :=
  pde ← walk_entry phys dir (v / 2 ^ 22);
  pte ← walk_entry phys pde ((v / 2 ^ 12) mod 2 ^ 10);
  Some (frame_of pte + v mod 2 ^ 12).

(** The directory's last entry maps the directory itself, as the loader and
    [create_page_dir] set it up. *)
Definition self_mapped (phys : memory) (dir : Z) : Prop :=
  ∃ e, walk_entry phys dir 1023 = Some e ∧ frame_of e = frame_of dir.

(** A virtual memory [h] is what the directory shows of the physical one. *)
Definition view (phys : memory) (dir : Z) (h : memory) : Prop :=
  ∀ v b, h !! v = Some b → ∃ p, translate phys dir v = Some p ∧ phys !! p = Some b.

(** ** Arithmetic of the window *)

Lemma lor_disjoint_add a b n : 0 <= n → 0 <= b < 2 ^ n → a mod 2 ^ n = 0 → Z.lor a b = a + b.
Proof.
  intros Hn Hb Ha. symmetry. rewrite -Z.lxor_lor; [|apply Z.bits_inj'; intros k Hk].
  - apply Z.add_nocarry_lxor. apply Z.bits_inj'. intros k Hk.
    rewrite Z.land_spec Z.bits_0. destruct (decide (k < n)).
    + rewrite -(Z.mod_pow2_bits_low a n); [|lia]. by rewrite Ha Z.bits_0.
    + rewrite -(Z.mod_small b (2 ^ n)) // Z.mod_pow2_bits_high ?andb_false_r //. lia.
  - rewrite Z.land_spec Z.bits_0. destruct (decide (k < n)).
    + rewrite -(Z.mod_pow2_bits_low a n); [|lia]. by rewrite Ha Z.bits_0.
    + rewrite -(Z.mod_small b (2 ^ n)) // Z.mod_pow2_bits_high ?andb_false_r //. lia.
Qed.

(** Masking the bits from [lo] up to [hi]. *)
Lemma land_field z lo n :
  0 <= lo → 0 <= n →
  Z.land z (Z.ones n * 2 ^ lo) = z / 2 ^ lo mod 2 ^ n * 2 ^ lo.
Proof.
  intros Hlo Hn. rewrite -!Z.shiftl_mul_pow2 // -Z.shiftr_div_pow2 //.
  apply Z.bits_inj'. intros k Hk. rewrite Z.land_spec !Z.shiftl_spec //.
  destruct (decide (k < lo)); [rewrite !(Z.testbit_neg_r _ (k - lo)); [|lia..]; by rewrite andb_false_r|].
  rewrite -Z.land_ones // Z.land_spec Z.shiftr_spec; [|lia].
  by replace (k - lo + lo) with k by lia.
Qed.

Lemma land_dir z : 0 <= z < 2 ^ 32 → Z.land z 0xffc00000 = z / 2 ^ 22 * 2 ^ 22.
Proof.
  intros Hz. change 0xffc00000 with (Z.ones 10 * 2 ^ 22). rewrite land_field //.
  rewrite (Z.mod_small (z / 2 ^ 22)) //. split; [apply Z.div_pos; lia|].
  apply Z.div_lt_upper_bound; lia.
Qed.

Lemma land_frame z : 0 <= z < 2 ^ 32 → Z.land z 0xfffff000 = frame_of z.
Proof.
  intros Hz. change 0xfffff000 with (Z.ones 20 * 2 ^ 12). rewrite land_field //.
  rewrite (Z.mod_small (z / 2 ^ 12)) //. split; [apply Z.div_pos; lia|].
  apply Z.div_lt_upper_bound; lia.
Qed.

Lemma land_offset z : Z.land z 0xfff = z mod 2 ^ 12.
Proof. change 0xfff with (Z.ones 12). by apply Z.land_ones. Qed.

Lemma pte_addr_eq v :
  0 <= v < 2 ^ 32 →
  pte_addr v = 0xffc00000 + v / 2 ^ 22 * 2 ^ 12 + 4 * ((v / 2 ^ 12) mod 2 ^ 10).
Proof.
  intros Hv. unfold pte_addr. rewrite land_dir //.
  change 0x003ff000 with (Z.ones 10 * 2 ^ 12). rewrite land_field //.
  rewrite !Z.shiftr_div_pow2 //.
  assert (0 <= v / 2 ^ 22 < 2 ^ 10).
  { split; [apply Z.div_pos; lia|apply Z.div_lt_upper_bound; lia]. }
  assert (0 <= (v / 2 ^ 12) mod 2 ^ 10 < 2 ^ 10) by (apply Z.mod_pos_bound; lia).
  replace (v / 2 ^ 22 * 2 ^ 22 / 2 ^ 10) with (v / 2 ^ 22 * 2 ^ 12)
    by (Z.div_mod_to_equations; lia).
  rewrite (Z.div_mul _ (2 ^ 12)) //.
  rewrite (lor_disjoint_add 0xffc00000 _ 22); [|lia|lia|done].
  rewrite (lor_disjoint_add _ (4 * _) 12); [done|lia|lia|]. Z.div_mod_to_equations; lia.
Qed.

Lemma pde_addr_eq v : 0 <= v < 2 ^ 32 → pde_addr v = 0xfffff000 + 4 * (v / 2 ^ 22).
Proof.
  intros Hv. unfold pde_addr. rewrite land_dir // Z.shiftr_div_pow2 // Z.div_mul //.
  assert (0 <= v / 2 ^ 22 < 2 ^ 10).
  { split; [apply Z.div_pos; lia|apply Z.div_lt_upper_bound; lia]. }
  rewrite (lor_disjoint_add 0xfffff000 _ 12); [lia|lia|lia|done].
Qed.

(** ** The window shows the tables *)

Lemma walk_entry_frame phys b b' i :
  frame_of b = frame_of b' → walk_entry phys b i = walk_entry phys b' i.
Proof. intros E. unfold walk_entry. by rewrite E. Qed.

(** The last 4 MB of the address space: page [i] of it is table [i]. *)
Lemma translate_window phys dir i o :
  self_mapped phys dir → 0 <= i < 2 ^ 10 → 0 <= o < 2 ^ 12 →
  translate phys dir (0xffc00000 + i * 2 ^ 12 + o) =
    pde ← walk_entry phys dir i; Some (frame_of pde + o).
Proof.
  intros (e & He & Ee) Hi Ho. unfold translate.
  replace ((0xffc00000 + i * 2 ^ 12 + o) / 2 ^ 22) with 1023 by (Z.div_mod_to_equations; lia).
  replace (((0xffc00000 + i * 2 ^ 12 + o) / 2 ^ 12) mod 2 ^ 10) with i
    by (Z.div_mod_to_equations; lia).
  replace ((0xffc00000 + i * 2 ^ 12 + o) mod 2 ^ 12) with o by (Z.div_mod_to_equations; lia).
  rewrite He /=. by rewrite (walk_entry_frame phys e dir).
Qed.

(** The physical address of the page-table entry of [v], [k] bytes in. *)
Lemma translate_pte phys dir v k :
  self_mapped phys dir → 0 <= v < 2 ^ 32 → 0 <= k < 4 →
  translate phys dir (pte_addr v + k) =
    pde ← walk_entry phys dir (v / 2 ^ 22);
    Some (frame_of pde + 4 * ((v / 2 ^ 12) mod 2 ^ 10) + k).
Proof.
  intros Hs Hv Hk. rewrite pte_addr_eq // -Z.add_assoc translate_window //.
  - destruct (walk_entry phys dir (v / 2 ^ 22)); simpl; [f_equal; lia|done].
  - split; [apply Z.div_pos; lia|apply Z.div_lt_upper_bound; lia].
  - Z.div_mod_to_equations; lia.
Qed.

Lemma translate_pde phys dir v k :
  self_mapped phys dir → 0 <= v < 2 ^ 32 → 0 <= k < 4 →
  translate phys dir (pde_addr v + k) = Some (frame_of dir + 4 * (v / 2 ^ 22) + k).
Proof.
  intros Hs Hv Hk. rewrite pde_addr_eq //.
  assert (0 <= v / 2 ^ 22 < 2 ^ 10).
  { split; [apply Z.div_pos; lia|apply Z.div_lt_upper_bound; lia]. }
  replace (0xfffff000 + 4 * (v / 2 ^ 22) + k)
    with (0xffc00000 + 1023 * 2 ^ 12 + (4 * (v / 2 ^ 22) + k)) by lia.
  rewrite translate_window //; [|lia]. destruct Hs as (e & -> & He). simpl. f_equal. lia.
Qed.

(** A word the virtual memory shows at an entry is the physical word there. *)
Lemma view_word phys dir h va pa w :
  view phys dir h → 0 <= w < 2 ^ 32 →
  (∀ k, 0 <= k < 4 → translate phys dir (va + k) = Some (pa + k)) →
  (∀ k, 0 <= k < 4 → h !! (va + k) = Some (byte k w)) →
  mem_word phys pa = Some w.
Proof.
  intros Hv Hw Ht Hb.
  assert (∀ k, 0 <= k < 4 → phys !! (pa + k) = Some (byte k w)) as Hp.
  { intros k Hk. destruct (Hv _ _ (Hb k Hk)) as (p & Hp & E). rewrite Ht // in Hp. by simplify_eq. }
  pose proof (Hp 0 ltac:(lia)) as H0. rewrite Z.add_0_r in H0.
  unfold mem_word. rewrite H0 !Hp //=. by rewrite bytes_of_word.
Qed.

Lemma models_pt32 h a v (R : hPropI) :
  h ⊨ (a ↦w v ∗ R) → 0 <= v < 2 ^ 32 ∧ ∀ k, 0 <= k < 4 → h !! (a + k) = Some (byte k v).
Proof.
  intros H.
  assert (h ⊨ a ↦w v) as H' by (eapply models_mono; [|apply H]; by iIntros "[$ _]"). clear H.
  assert (∀ (P Q : hPropI) h', h' ⊨ (P ∗ Q) → h' ⊨ P ∧ h' ⊨ Q) as Hand.
  { intros P Q h' HPQ. split; (eapply models_mono; [|apply HPQ]); by iIntros "[??]". }
  apply Hand in H' as [Hv H']. split; [done|].
  apply Hand in H' as [[H0 _] H']. apply Hand in H' as [[H1 _] H'].
  apply Hand in H' as [[H2 _] [H3 _]]. intros k Hk.
  assert (k = 0 ∨ k = 1 ∨ k = 2 ∨ k = 3) as [-> | [-> | [-> | ->]]] by lia; try done.
  by rewrite Z.add_0_r.
Qed.

(** ** Stores through the window *)

Definition phys_store32 (phys : memory) (p w : Z) : memory :=
  <[p + 3 := byte 3 w]> (<[p + 2 := byte 2 w]> (<[p + 1 := byte 1 w]> (<[p := byte 0 w]> phys))).

(** What a word store to the virtual address [va] does to physical memory
    (for a word that does not cross a page). *)
Definition virt_store32 (phys : memory) (dir va w : Z) : option memory :=
  p ← translate phys dir va; Some (phys_store32 phys p w).

Lemma mem_word_store_eq phys p w :
  0 <= w < 2 ^ 32 → mem_word (phys_store32 phys p w) p = Some w.
Proof.
  intros Hw. unfold mem_word, phys_store32.
  rewrite !lookup_insert.
  repeat (case_decide; try lia; simpl). by rewrite bytes_of_word.
Qed.

Lemma mem_word_store_ne phys p w q :
  q + 4 <= p ∨ p + 4 <= q → mem_word (phys_store32 phys p w) q = mem_word phys q.
Proof.
  intros Hd. unfold mem_word, phys_store32. by rewrite !lookup_insert_ne; [|lia..].
Qed.

Lemma frame_of_mod z : frame_of z mod 4096 = 0.
Proof. unfold frame_of. by rewrite Z.mod_mul. Qed.

(** Writing the page-table entry of [v] changes where [v] goes and nothing
    else, when [v] is outside the window and no two directory entries share a
    table. *)
Lemma translate_store_pte phys dir v pde w phys' :
  self_mapped phys dir → 0 <= v < 2 ^ 32 → 0 <= w < 2 ^ 32 →
  walk_entry phys dir (v / 2 ^ 22) = Some pde → frame_of pde ≠ frame_of dir →
  virt_store32 phys dir (pte_addr v) w = Some phys' →
  translate phys' dir v = if present w then Some (frame_of w + v mod 2 ^ 12) else None.
Proof.
  intros Hs Hv Hw Hpde Hne Hst. unfold virt_store32 in Hst.
  pose proof (translate_pte phys dir v 0 Hs Hv) as Ht. rewrite !Z.add_0_r Hpde /= in Ht.
  rewrite Ht // in Hst. simpl in Hst. rewrite Z.add_0_r in Hst. simplify_eq.
  assert (0 <= v / 2 ^ 22 < 2 ^ 10).
  { split; [apply Z.div_pos; lia|apply Z.div_lt_upper_bound; lia]. }
  assert (0 <= (v / 2 ^ 12) mod 2 ^ 10 < 2 ^ 10) by (apply Z.mod_pos_bound; lia).
  pose proof (frame_of_mod pde). pose proof (frame_of_mod dir).
  unfold translate. assert (walk_entry (phys_store32 phys (frame_of pde + 4 * ((v / 2 ^ 12) mod 2 ^ 10)) w)
    dir (v / 2 ^ 22) = Some pde) as ->.
  { rewrite -Hpde. unfold walk_entry. rewrite mem_word_store_ne; [done|].
    Z.div_mod_to_equations. lia. }
  simpl. unfold walk_entry. rewrite mem_word_store_eq //=. by destruct (present w).
Qed.

Lemma land_not1 w : 0 <= w < 2 ^ 32 → Z.land w (not32 PG_P_1) = Z.ldiff w (2 ^ 0).
Proof.
  intros Hw. unfold not32, PG_P_1. rewrite w32_small //. apply Z.bits_inj'. intros k Hk.
  change (2 ^ 32 - 1 - 1) with (Z.ldiff (Z.ones 32) (2 ^ 0)).
  rewrite Z.land_spec !Z.ldiff_spec. destruct (decide (k < 32)).
  - rewrite Z.ones_spec_low; [|lia]. done.
  - rewrite -(Z.mod_small w (2 ^ 32)) // Z.mod_pow2_bits_high //. lia.
Qed.

Lemma ldiff_1 w : Z.ldiff w 1 = w - w mod 2.
Proof.
  change (Z.ldiff w 1) with (Z.ldiff w (Z.ones 1)). rewrite Z.ldiff_ones_r //.
  rewrite Z.shiftl_mul_pow2 // Z.shiftr_div_pow2 //. Z.div_mod_to_equations. lia.
Qed.

Lemma ldiff_1_range w : 0 <= w < 2 ^ 32 → 0 <= Z.ldiff w 1 < 2 ^ 32.
Proof. rewrite ldiff_1. Z.div_mod_to_equations. lia. Qed.

Section spec.
Context `{Frames}.
Implicit Types (c : cpu).

Lemma addr_virtual_to_phy_wp v pte c (Φ : res Z → hPropI) :
  0 <= v < 2 ^ 32 →
  pte_addr v ↦w pte -∗ (pte_addr v ↦w pte -∗ Φ (RRet (frame_of pte + v mod 2 ^ 12) c)) -∗
  wp (addr_virtual_to_phy v) c Φ.
Proof.
  iIntros (Hv) "H HΦ". rewrite /addr_virtual_to_phy.
  iDestruct (pt32_range with "H") as %Hp. wp_ld "H". wp_pure.
  rewrite land_frame // land_offset w32_small; [by iApply "HΦ"|].
  unfold frame_of. Z.div_mod_to_equations. lia.
Qed.

Lemma page_table_pte_remove_wp v pte c (Φ : res unit → hPropI) :
  pte_addr v ↦w pte -∗
  (pte_addr v ↦w Z.ldiff pte 1 -∗ Φ (RRet tt (log_event (EvInvlpg fr_vir_addr) c))) -∗
  wp (page_table_pte_remove v) c Φ.
Proof.
  iIntros "H HΦ". rewrite /page_table_pte_remove.
  iDestruct (pt32_range with "H") as %Hp. wp_ld "H". wp_st "H". wp_pure.
  rewrite land_not1 // w32_small; [by iApply "HΦ"|]. by apply ldiff_1_range.
Qed.
End spec.

(** ** Properties *)

Section properties.
Context `{Frames}.
Implicit Types (c : cpu) (phys h : memory).

(** C30: What [addr_virtual_to_phy] computes from the window is what the
    processor's page walk gives, offset included. *)
Theorem addr_virtual_to_phy_walk phys dir h v p w c :
  view phys dir h → self_mapped phys dir → 0 <= v < 2 ^ 32 →
  translate phys dir v = Some p → h ⊨ (pte_addr v ↦w w) →
  exec (addr_virtual_to_phy v) c h (RRet p c) h.
Proof.
  intros Hview Hs Hv Ht Hw.
  assert (h ⊨ (pte_addr v ↦w w ∗ emp)) as Hb by (eapply models_mono; [|apply Hw]; by iIntros "$").
  apply models_pt32 in Hb as [Hr Hb].
  assert (∃ pde, walk_entry phys dir (v / 2 ^ 22) = Some pde) as [pde Hpde].
  { unfold translate in Ht. destruct (walk_entry phys dir (v / 2 ^ 22)) as [pde|]; [by exists pde|done]. }
  assert (mem_word phys (frame_of pde + 4 * ((v / 2 ^ 12) mod 2 ^ 10)) = Some w) as Hm.
  { apply (view_word phys dir h (pte_addr v) _ w Hview Hr); [|done].
    intros k Hk. by rewrite translate_pte // Hpde. }
  unfold translate in Ht. rewrite Hpde /= {1}/walk_entry Hm /= in Ht.
  destruct (present w); simpl in Ht; [|done]. simplify_eq.
  exists O. intros n _. unfold addr_virtual_to_phy, ld32, bind, ret, ld8. simpl.
  pose proof (Hb 0 ltac:(lia)) as H0. rewrite Z.add_0_r in H0.
  rewrite H0 /= (Hb 1) //= (Hb 2) //= (Hb 3) //=. rewrite !w8_small; [|apply byte_range..].
  rewrite bytes_of_word // land_frame // land_offset w32_small; [done|].
  unfold frame_of. Z.div_mod_to_equations. lia.
Qed.

(** The translations that a processor keeps, by page, and what [invlpg] does to them
    (a load of cr3 drops them all; it is not in the trace); [t0] are those it had
    before the trace. *)
Definition tlb_step (t : gmap Z Z) (e : io_event) : gmap Z Z :=
  if e is EvInvlpg a then delete (a / 4096) t else t.
Definition cached (t0 : gmap Z Z) (c : cpu) : gmap Z Z := foldl tlb_step t0 (trace c).

(** C39: [page_table_pte_remove] takes the page out of the tables and leaves every
    other bit of its entry; but a translation of the page that the processor has
    kept stays.  What is invalidated is the page of the stack that the parameter is
    on, which is the one it should be only if the page removed is that one. *)
Theorem page_table_pte_remove_stale v pte t0 c :
  0 <= v < 2 ^ 32 → fr_vir_addr / 4096 ≠ v / 4096 →
  {{ pte_addr v ↦w pte }} (page_table_pte_remove v) @ c
  {{ r c', ⌜cached t0 c' !! (v / 4096) = cached t0 c !! (v / 4096) ∧
            cached t0 c' !! (fr_vir_addr / 4096) = None ∧
            ∀ phys phys' dir pde,
              self_mapped phys dir → walk_entry phys dir (v / 2 ^ 22) = Some pde →
              frame_of pde ≠ frame_of dir →
              virt_store32 phys dir (pte_addr v) (Z.ldiff pte 1) = Some phys' →
              translate phys' dir v = None⌝ ∗
           pte_addr v ↦w (pte - pte mod 2) }}.
Proof.
  intros Hv Hne. apply triple_wp. iIntros "H". iDestruct (pt32_range with "H") as %Hp.
  iApply (page_table_pte_remove_wp with "H"). iIntros "H /=". rewrite -ldiff_1. iFrame. iPureIntro.
  unfold cached. cbn [log_event trace]. rewrite foldl_app. cbn [foldl tlb_step].
  split_and!; [by rewrite lookup_delete_ne|by rewrite lookup_delete_eq|].
  intros phys phys' dir pde Hs Hpde Hd Hst.
  rewrite (translate_store_pte phys dir v pde (Z.ldiff pte 1)) //; [|by apply ldiff_1_range].
  unfold present. change 1 with (2 ^ 0). by rewrite Z.ldiff_spec Z.pow2_bits_true ?andb_false_r.
Qed.

End properties.

#[local] Existing Instance demo_frames.

Lemma demo_apart : fr_vir_addr / 4096 ≠ 0xc0100000 / 4096.
Proof. done. Qed.

(** The first page of the heap was used, and is still cached. *)
Lemma page_table_pte_remove_stale_witness :
  ∃ r h', exec (page_table_pte_remove 0xc0100000) cpu0
            (mem_of [(0xfff00400, word_bytes 0x00200007)]) r h' ∧
          h' ⊨ (returns (λ _ c', ⌜cached {[0xc0100 := 0x200]} c' !! 0xc0100 = Some 0x200⌝ ∗
                  0xfff00400 ↦w 0x00200006) r).
Proof.
  destruct (triple_run _ _ _ _ (mem_of [(0xfff00400, word_bytes 0x00200007)])
    (page_table_pte_remove_stale 0xc0100000 0x00200007 {[0xc0100 := 0x200]} cpu0 ltac:(lia)
       demo_apart)) as (r & h' & Hx & Hq).
  - eapply models_mono; [|apply mem_of_models; vm_compute; reflexivity].
    iIntros "(H1 & _)". by rewrite /= bytes_word; [|lia].
  - exists r, h'. split; [done|]. eapply models_mono; [|apply Hq].
    destruct r; simpl; [|by iIntros "[]"..]. iIntros "[(%Hc & _) H]". by iFrame.
Defined.

(** ** A concrete address space *)

Lemma view_check phys dir h :
  bool_decide (map_Forall (λ v b, translate phys dir v ≫= (phys !!.) = Some b) h) = true →
  view phys dir h.
Proof.
  intros H%bool_decide_eq_true v b Hb. apply H in Hb. simpl in Hb.
  destruct (translate phys dir v) as [p|]; simpl in Hb; [by exists p|done].
Qed.

(** The directory at 0x100000, with the kernel's first table and itself. *)
Definition demo_phys : memory :=
  mem_of [(0x100c00, word_bytes 0x101007); (0x100ffc, word_bytes 0x100007);
          (0x101000, word_bytes 0x5007)].

Lemma addr_virtual_to_phy_walk_witness :
  exec (addr_virtual_to_phy 0xc0000123) cpu0 (mem_of [(0xfff00000, word_bytes 0x5007)])
    (RRet 0x5123 cpu0) (mem_of [(0xfff00000, word_bytes 0x5007)]).
Proof.
  apply (addr_virtual_to_phy_walk demo_phys 0x100000 _ 0xc0000123 0x5123 0x5007).
  - apply view_check. vm_compute. reflexivity.
  - exists 0x100007. split; vm_compute; reflexivity.
  - lia.
  - vm_compute. reflexivity.
  - eapply models_mono; [|apply mem_of_models; vm_compute; reflexivity].
    rewrite cells_word //. iIntros "[$ _]".
Defined.

