(* ===== verification/Tss.v ===== *)
(** thread/thread.h: the layout of a thread's control block; userprog/tss.c:
    the task state segment and segment descriptors; and the address-space
    switch of userprog/process.c. *)
From S2P Require Export CString Paging.

(** ** struct pcb_struct *)

Definition pcb_self_kernel_stack (p : Z) : Z := p.
Definition pcb_status (p : Z) : Z := p + 4.
Definition pcb_priority (p : Z) : Z := p + 8.              (* uint8_t *)
Definition pcb_pid (p : Z) : Z := p + 10.                  (* uint16_t *)
Definition pcb_name (p : Z) : Z := p + 12.                 (* char[16] *)
Definition pcb_ticks (p : Z) : Z := p + 28.                (* uint8_t *)
Definition pcb_elapsed_ticks (p : Z) : Z := p + 32.
Definition pcb_fd_table (p i : Z) : Z := p + 36 + 4 * i.   (* int32_t[8] *)
Definition pcb_general_tag (p : Z) : Z := p + 68.
Definition pcb_all_list_tag (p : Z) : Z := p + 76.
Definition pcb_pgdir (p : Z) : Z := p + 84.
Definition pcb_userprog_vaddr (p : Z) : Z := p + 88.
Definition pcb_u_mem_block_desc (p : Z) : Z := p + 100.    (* 7 of 24 bytes *)
Definition pcb_stack_magic (p : Z) : Z := p + 268.
Definition sizeof_pcb : Z := 272.

(** [get_pcb(struct pcb_struct, general_tag, addr)] *)
Definition pcb_of_general_tag (addr : Z) : Z := addr - 68.

(** ** struct tss *)

Definition tss_esp0 (t : Z) : Z := t + 4.
Definition tss_ss0 (t : Z) : Z := t + 8.
Definition tss_io_base (t : Z) : Z := t + 104.
Definition sizeof_tss : Z := 108.

(** ** kernel/global.h: selectors and descriptor attributes *)

Definition SELECTOR_K_CODE : Z := Z.shiftl 1 3 + Z.shiftl 0 2 + 0.
Definition SELECTOR_K_STACK : Z := Z.shiftl 2 3 + Z.shiftl 0 2 + 0.
Definition SELECTOR_U_CODE : Z := Z.shiftl 5 3 + Z.shiftl 0 2 + 3.
Definition SELECTOR_U_DATA : Z := Z.shiftl 6 3 + Z.shiftl 0 2 + 3.
Definition SELECTOR_TSS : Z := Z.shiftl 4 3 + Z.shiftl 0 2 + 0.
Definition GDT_ATTR_HIGH : Z := Z.shiftl 1 7 + Z.shiftl 1 6 + Z.shiftl 0 5 + Z.shiftl 0 4.
Definition GDT_ATTR_CODE_LOW_DPL_3 : Z := Z.shiftl 1 7 + Z.shiftl 3 5 + Z.shiftl 1 4 + 8.
Definition GDT_ATTR_DATA_LOW_DPL_3 : Z := Z.shiftl 1 7 + Z.shiftl 3 5 + Z.shiftl 1 4 + 2.
Definition TSS_ATTR_HIGH : Z := Z.shiftl 1 7 + Z.shiftl 0 6 + Z.shiftl 0 5 + Z.shiftl 0 4 + 0.
Definition TSS_ATTR_LOW : Z := Z.shiftl 1 7 + Z.shiftl 0 5 + Z.shiftl 0 4 + 9.

Record gdt_desc := GdtDesc {
  limit_low_word : Z;
  base_low_word : Z;
  base_mid_byte : Z;
  attr_low_byte : Z;
  limit_high_attr_high : Z;
  base_high_byte : Z
}.

(** The fields are 16, 16, 8, 8, 8 and 8 bits wide. *)
Definition make_gdt_desc (desc_addr limit attr_low attr_high : Z) : gdt_desc :=
  {| limit_low_word := w16 (Z.land limit 0x0000ffff);
     base_low_word := w16 (Z.land desc_addr 0x0000ffff);
     base_mid_byte := w8 (Z.shiftr (Z.land desc_addr 0x00ff0000) 16);
     attr_low_byte := w8 attr_low;
     limit_high_attr_high := w8 (w8 attr_high + Z.shiftr (Z.land limit 0x000f0000) 16);
     base_high_byte := w8 (Z.shiftr (Z.land desc_addr 0xff000000) 24) |}.

(** Structure assignment to a descriptor in memory. *)
Definition st_gdt_desc (a : Z) (d : gdt_desc) : M unit :=
  st16 a (limit_low_word d) ;;
  st16 (a + 2) (base_low_word d) ;;
  st8 (a + 4) (base_mid_byte d) ;;
  st8 (a + 5) (attr_low_byte d) ;;
  st8 (a + 6) (limit_high_attr_high d) ;;
  st8 (a + 7) (base_high_byte d).

Section tss.
Context `{Symbols}.

Definition update_tss_esp0 (pthread : Z) : M unit :=
  st32 (tss_esp0 g_tss) (pthread + 4096).

Definition tss_init : M unit :=
  putStr "tss init start \n" ;;
  memset g_tss 0 sizeof_tss ;;
  st32 (tss_ss0 g_tss) SELECTOR_K_STACK ;;
  st32 (tss_io_base g_tss) sizeof_tss ;;
  st_gdt_desc 0xc0000923 (make_gdt_desc g_tss (sizeof_tss - 1) TSS_ATTR_LOW TSS_ATTR_HIGH) ;;
  st_gdt_desc 0xc000092b (make_gdt_desc 0 0xfffff GDT_ATTR_CODE_LOW_DPL_3 GDT_ATTR_HIGH) ;;
  st_gdt_desc 0xc0000933 (make_gdt_desc 0 0xfffff GDT_ATTR_DATA_LOW_DPL_3 GDT_ATTR_HIGH) ;;
  emit (EvLgdt (Z.lor (Z.shiftl 0xc0000903 16) (8 * 7 - 1))) ;;
  emit (EvLtr SELECTOR_TSS) ;;
  putStr "tss init done \n".

(** ** userprog/process.c: the address-space switch *)

Definition page_dir_activate (pthread : Z) : M unit :=
  pgdir <- ld32 (pcb_pgdir pthread);
  pg_dir <- (if negb (pgdir =? 0) then
               pgdir <- ld32 (pcb_pgdir pthread);
               addr_virtual_to_phy pgdir
             else ret 0x00100000);
  modify_cpu (set_cr3 pg_dir).

Definition process_activate (pcb : Z) : M unit :=
  when (pcb =? 0) (putStr "process_activate error \n") ;;
  page_dir_activate pcb ;;
  pgdir <- ld32 (pcb_pgdir pcb);
  when (negb (pgdir =? 0)) (update_tss_esp0 pcb).

End tss.

(** ** What the processor reads from a descriptor *)

Definition desc_base (d : gdt_desc) : Z :=
  base_low_word d + Z.shiftl (base_mid_byte d) 16 + Z.shiftl (base_high_byte d) 24.
Definition desc_limit (d : gdt_desc) : Z :=
  limit_low_word d + Z.shiftl (Z.land (limit_high_attr_high d) 0xf) 16.
Definition desc_flags (d : gdt_desc) : Z := Z.shiftr (limit_high_attr_high d) 4.
