(* ===== verification/Sched.v ===== *)
(** thread/thread.c, the scheduler: which thread runs, which are ready, and
    how control passes between them. *)
From S2P Require Export Klist Tss.

(** ** enum task_status *)

Definition TASK_RUNNING : Z := 0.
Definition TASK_READY : Z := 1.
Definition TASK_BLOCKED : Z := 2.
Definition TASK_WAITING : Z := 3.
Definition TASK_HANGING : Z := 4.
Definition TASK_DIED : Z := 5.

(** The kernel stack of a thread is the page of its control block. *)
Definition running_thread : M Z := c <- get_cpu; ret (Z.land (esp c) 0xfffff000).

Definition may_stop (status : Z) : bool :=
  (status =? TASK_BLOCKED) || (status =? TASK_WAITING) || (status =? TASK_HANGING).

(** thread/switch.asm: the stack pointer is saved in [curr]'s
    [self_kernel_stack] (its first word) and loaded from [next]'s.  The callee
    registers are saved on the stack, which the model does not represent: what
    remains of the caller is the continuation of [yield]. *)
Definition switch_to (curr next : Z) : M unit :=
  c <- get_cpu;
  st32 curr (esp c) ;;
  sp <- ld32 next;
  modify_cpu (set_esp sp) ;;
  yield.

Section sched.
Context `{Symbols}.

Definition thread_unlock (unlock_thread : Z) : M unit :=
  old_status <- intr_disable;
  status <- ld32 (pcb_status unlock_thread);
  ASSERT (may_stop status) "thread/thread.c" 180 "thread_unlock"
    "status == TASK_BLOCKED || status == TASK_WAITING || status == TASK_HANGING" ;;
  status <- ld32 (pcb_status unlock_thread);
  when (negb (status =? TASK_READY))
    (found <- elem_find g_ready_thread_list (pcb_general_tag unlock_thread);
     ASSERT (negb found) "thread/thread.c" 183 "thread_unlock"
       "!elem_find(&ready_thread_list, &(unlock_thread->general_tag))" ;;
     found <- elem_find g_ready_thread_list (pcb_general_tag unlock_thread);
     when found (exception_report "thread/thread.c" 186 "thread_unlock"
       "blocked list is ready list\n") ;;
     st32 (pcb_status unlock_thread) TASK_READY ;;
     list_push g_ready_thread_list (pcb_general_tag unlock_thread)) ;;
  intr_set_status old_status ;; ret tt.

Definition schedule : M unit :=
  status <- intr_get_status;
  ASSERT (status =? INTR_OFF) "thread/thread.c" 117 "schedule" "intr_get_status() == INTR_OFF" ;;
  curr <- running_thread;
  status <- ld32 (pcb_status curr);
  when (status =? TASK_RUNNING)
    (found <- elem_find g_ready_thread_list (pcb_general_tag curr);
     ASSERT (negb found) "thread/thread.c" 122 "schedule"
       "!elem_find(&ready_thread_list, &curr->general_tag)" ;;
     priority <- ld8 (pcb_priority curr);
     st8 (pcb_ticks curr) priority ;;
     st32 (pcb_status curr) TASK_READY ;;
     list_append g_ready_thread_list (pcb_general_tag curr)) ;;
  empty <- list_empty g_ready_thread_list;
  when empty (idle_thread <- ld32 g_idle_thread; thread_unlock idle_thread) ;;
  empty <- list_empty g_ready_thread_list;
  ASSERT (negb empty) "thread/thread.c" 136 "schedule" "!list_empty(&ready_thread_list)" ;;
  st32 g_thread_tag 0 ;;
  tag <- list_pop g_ready_thread_list;
  st32 g_thread_tag tag ;;
  thread_tag <- ld32 g_thread_tag;
  let next := pcb_of_general_tag thread_tag in
  st32 (pcb_status next) TASK_RUNNING ;;
  process_activate next ;;
  switch_to curr next.

Definition thread_lock (status : Z) : M unit :=
  old_status <- intr_disable;
  ASSERT (may_stop status) "thread/thread.c" 167 "thread_lock"
    "status == TASK_BLOCKED || status == TASK_WAITING || status == TASK_HANGING" ;;
  curr_ptr <- running_thread;
  st32 (pcb_status curr_ptr) status ;;
  schedule ;;
  intr_set_status old_status ;; ret tt.

(** The assertion looks for the control block itself, not for its tag. *)
Definition thread_yield : M unit :=
  curr_thread <- running_thread;
  old_status <- intr_disable;
  found <- elem_find g_ready_thread_list curr_thread;
  ASSERT (negb found) "thread/thread.c" 216 "thread_yield"
    "!elem_find(&ready_thread_list, curr_thread)" ;;
  list_append g_ready_thread_list (pcb_general_tag curr_thread) ;;
  st32 (pcb_status curr_thread) TASK_READY ;;
  schedule ;;
  intr_set_status old_status ;; ret tt.

(** [sti; hlt]: opens interrupts and waits for one. *)
Definition sti_hlt : M unit := sti ;; emit EvHlt.

Definition idle : M unit :=
  loop (λ _ : unit, thread_lock TASK_BLOCKED ;; sti_hlt ;; ret (inl tt)) tt.

(** device/timer.c: the clock interrupt. *)
Definition intr_timer_handler : M unit :=
  curr_thread <- running_thread;
  magic <- ld32 (pcb_stack_magic curr_thread);
  ASSERT (magic =? 0x00007c00) "device/timer.c" 31 "intr_timer_handler"
    "curr_thread->stack_magic == 0x00007c00" ;;
  elapsed <- ld32 (pcb_elapsed_ticks curr_thread);
  st32 (pcb_elapsed_ticks curr_thread) (elapsed + 1) ;;
  t <- ld32 g_ticks;
  st32 g_ticks (t + 1) ;;
  t <- ld8 (pcb_ticks curr_thread);
  if t =? 0 then schedule
  else t <- ld8 (pcb_ticks curr_thread); st8 (pcb_ticks curr_thread) (t - 1).

End sched.

(** ** Abstract scheduler *)

(** The part of a control block the scheduler uses. *)
Record tcb := Tcb {
  t_status : Z;
  t_priority : Z;
  t_ticks : Z;
  t_sp : Z;
  t_pgdir : Z
}.

Definition set_t_status (st : Z) (t : tcb) : tcb :=
  Tcb st (t_priority t) (t_ticks t) (t_sp t) (t_pgdir t).
Definition set_t_sp (sp : Z) (t : tcb) : tcb :=
  Tcb (t_status t) (t_priority t) (t_ticks t) sp (t_pgdir t).
(** A thread whose time slice is over. *)
Definition preempted (t : tcb) : tcb :=
  Tcb TASK_READY (t_priority t) (t_priority t) (t_sp t) (t_pgdir t).

Implicit Types (m : gmap Z tcb) (q : list Z) (t : tcb).

(** The three decisions of [schedule]: requeue the current thread if it is
    still running; fall back on the idle thread when nobody is ready; take the
    first ready thread. *)
Definition abs_requeue (curr : Z) (m : gmap Z tcb) (q : list Z) : option (gmap Z tcb * list Z) :=
  tc ← m !! curr;
  if t_status tc =? TASK_RUNNING then Some (<[curr := preempted tc]> m, q ++ [curr])
  else Some (m, q).

Definition abs_fallback (idle : Z) (m : gmap Z tcb) (q : list Z) : option (gmap Z tcb * list Z) :=
  match q with
  | [] => ti ← m !! idle;
          if may_stop (t_status ti) then Some (<[idle := set_t_status TASK_READY ti]> m, [idle])
          else None
  | _ => Some (m, q)
  end.

Definition abs_pick (m : gmap Z tcb) (q : list Z) : option (Z * tcb * gmap Z tcb * list Z) :=
  match q with
  | [] => None
  | n :: q => tn ← m !! n; let tn := set_t_status TASK_RUNNING tn in
              Some (n, tn, <[n := tn]> m, q)
  end.

Definition abs_schedule (idle curr : Z) (m : gmap Z tcb) (q : list Z) :
    option (Z * tcb * gmap Z tcb * list Z) :=
  mq ← abs_requeue curr m q;
  mq ← abs_fallback idle mq.1 mq.2;
  abs_pick mq.1 mq.2.

(** No decision loses a thread. *)
Lemma requeue_dom curr m q m' q' p :
  abs_requeue curr m q = Some (m', q') → is_Some (m !! p) → is_Some (m' !! p).
Proof.
  unfold abs_requeue. intros Hq Hp. destruct (m !! curr) as [tc|]; simpl in Hq; [|done].
  destruct (t_status tc =? TASK_RUNNING); simplify_eq; [|done].
  apply lookup_insert_is_Some'. by right.
Qed.

Lemma fallback_dom idle m q m' q' p :
  abs_fallback idle m q = Some (m', q') → is_Some (m !! p) → is_Some (m' !! p).
Proof.
  unfold abs_fallback. intros Hq Hp. destruct q; [|by simplify_eq].
  destruct (m !! idle) as [ti|]; simpl in Hq; [|done].
  destruct (may_stop (t_status ti)); simplify_eq. apply lookup_insert_is_Some'. by right.
Qed.

(** The stack pointer saved for the thread that leaves, and the one taken. *)
Definition abs_switch (curr sp : Z) (m : gmap Z tcb) : gmap Z tcb :=
  alter (set_t_sp (w32 sp)) curr m.
Definition resume_sp (n : Z) (m : gmap Z tcb) : Z := from_option t_sp 0 (m !! n).

(** ** Representation *)

Definition tcb_at (p : Z) (t : tcb) : hPropI :=
  (⌜0 < p ∧ p + 4096 < 2 ^ 32 ∧ p mod 4096 = 0⌝ ∗
   pcb_self_kernel_stack p ↦w t_sp t ∗ pcb_status p ↦w t_status t ∗
   pcb_priority p ↦ t_priority t ∗ pcb_ticks p ↦ t_ticks t ∗ pcb_pgdir p ↦w t_pgdir t)%I.

Definition tcbs (m : gmap Z tcb) : hPropI := ([∗ map] p ↦ t ∈ m, tcb_at p t)%I.

(** The threads [q] queued, by their general tags, in the list at [l]. *)
Definition is_queue (l : Z) (q : list Z) : hPropI := is_list l (pcb_general_tag <$> q).

(** What the address-space switch to a thread needs: for a process, the entry
    that maps its page directory, and the TSS. *)
Definition aspace `{Symbols} (t : tcb) (pte esp0 : Z) : hPropI :=
  if t_pgdir t =? 0 then emp%I
  else (pte_addr (t_pgdir t) ↦w pte ∗ tss_esp0 g_tss ↦w esp0)%I.
Definition directory_of (t : tcb) (pte : Z) : Z :=
  if t_pgdir t =? 0 then 0x00100000 else frame_of pte + t_pgdir t mod 2 ^ 12.

Lemma tcbs_acc m p t :
  m !! p = Some t →
  tcbs m ⊢ tcb_at p t ∗ (∀ t', tcb_at p t' -∗ tcbs (<[p := t']> m)).
Proof.
  intros Hp. unfold tcbs. by rewrite (big_sepM_insert_acc (λ p t, tcb_at p t)); [|done].
Qed.

Lemma tcbs_put m p t t' :
  m !! p = Some t → tcbs m -∗ (tcb_at p t -∗ tcb_at p t' ) -∗ tcbs (<[p := t']> m).
Proof.
  iIntros (Hp) "H HW". iDestruct (tcbs_acc with "H") as "[Ht H]"; [done|].
  iApply "H". by iApply "HW".
Qed.

Lemma pcb_of_tag p : pcb_of_general_tag (pcb_general_tag p) = p.
Proof. unfold pcb_of_general_tag, pcb_general_tag. lia. Qed.

Lemma queue_node_ne l q p : is_queue l q -∗ node (pcb_general_tag p) -∗ ⌜p ∉ q⌝.
Proof.
  iIntros "(_ & _ & _ & HC) Hn". iDestruct (chain_node_ne with "HC Hn") as %H.
  iPureIntro. intros Hp. apply H. apply list_elem_of_fmap. by exists p.
Qed.

(** ** Specifications *)

Section spec.
Context `{Symbols}.
Implicit Types (c : cpu).

Lemma running_thread_wp c (Φ : res Z → hPropI) :
  Φ (RRet (Z.land (esp c) 0xfffff000) c) ⊢ wp running_thread c Φ.
Proof. iIntros "H". rewrite /running_thread. wp_pure. by wp_pure. Qed.

(** Searching for a thread that is in no queue. *)
Lemma elem_find_queue_wp l q p c (Φ : res bool → hPropI) :
  is_queue l q -∗ node (pcb_general_tag p) -∗
  (is_queue l q -∗ node (pcb_general_tag p) -∗ Φ (RRet false c)) -∗
  wp (elem_find l (pcb_general_tag p)) c Φ.
Proof.
  iIntros "HL Hn HΦ". iDestruct (queue_node_ne with "HL Hn") as %Hp.
  iApply (elem_find_wp with "HL"). iIntros "HL".
  rewrite bool_decide_false; [iApply ("HΦ" with "HL Hn")|].
  intros (p' & E & Hp')%list_elem_of_fmap. apply Hp.
  by replace p with p' by (unfold pcb_general_tag in E; lia).
Qed.

Lemma thread_unlock_wp m q u tu c (Φ : res unit → hPropI) :
  m !! u = Some tu → may_stop (t_status tu) = true →
  is_queue g_ready_thread_list q -∗ node (pcb_general_tag u) -∗ tcbs m -∗
  (is_queue g_ready_thread_list (u :: q) -∗
   tcbs (<[u := set_t_status TASK_READY tu]> m) -∗ Φ (RRet tt c)) -∗
  wp (thread_unlock u) c Φ.
Proof.
  iIntros (Hu Hst) "HL Hn HT HΦ". rewrite /thread_unlock.
  wp_bind. iApply wp_intr_disable. wp_reduce.
  iDestruct (tcbs_acc with "HT") as "[(%Hp & Hsp & Hs & Hrest) HT]"; [done|].
  wp_ld "Hs". wp_bind. iApply wp_assert; [done|]. wp_reduce. wp_ld "Hs".
  assert ((t_status tu =? TASK_READY) = false) as ->.
  { unfold may_stop, TASK_BLOCKED, TASK_WAITING, TASK_HANGING, TASK_READY in *. lia. }
  wp_bind. iApply wp_when. simpl.
  wp_bind. iApply (elem_find_queue_wp with "HL Hn"). iIntros "HL Hn". wp_reduce.
  wp_bind. iApply wp_assert; [done|]. wp_reduce.
  wp_bind. iApply (elem_find_queue_wp with "HL Hn"). iIntros "HL Hn". wp_reduce.
  wp_bind. iApply wp_when. wp_reduce. wp_st "Hs".
  iApply (list_push_wp with "HL Hn"). iIntros "HL". wp_reduce.
  wp_bind. iApply wp_intr_restore. wp_reduce. wp_pure.
  iApply ("HΦ" with "HL"). iApply "HT". iFrame. done.
Qed.

Lemma process_activate_wp p t pte esp0 c (Φ : res unit → hPropI) :
  0 <= t_pgdir t < 2 ^ 32 →
  tcb_at p t -∗ aspace t pte esp0 -∗
  (tcb_at p t -∗ aspace t pte (p + 4096) -∗ Φ (RRet tt (set_cr3 (directory_of t pte) c))) -∗
  wp (process_activate p) c Φ.
Proof.
  iIntros (Hdir) "(%Hp & Hsp & Hs & Hpr & Ht & Hd) HA HΦ".
  rewrite /process_activate /page_dir_activate /aspace /directory_of.
  wp_bind. iApply wp_when. rewrite (proj2 (Z.eqb_neq p 0)); [|lia]. wp_reduce.
  wp_bind. wp_ld "Hd". destruct (Z.eqb_spec (t_pgdir t) 0) as [E|E].
  - wp_pure. wp_pure. wp_ld "Hd". iApply wp_when.
    rewrite (proj2 (Z.eqb_eq _ 0)) //. wp_reduce. iApply ("HΦ" with "[-HA] HA"). iFrame. done.
  - iDestruct "HA" as "[Hpte Htss]". wp_bind. wp_ld "Hd".
    iApply (addr_virtual_to_phy_wp with "Hpte"); [done|]. iIntros "Hpte". wp_reduce. wp_pure.
    wp_ld "Hd". iApply wp_when. rewrite (proj2 (Z.eqb_neq _ 0)) //. wp_reduce.
    rewrite /update_tss_esp0. wp_st "Htss". rewrite w32_small; [|lia].
    iApply ("HΦ" with "[-Hpte Htss] [$Hpte $Htss]"). iFrame. done.
Qed.


(** First decision of [schedule]. *)
Lemma requeue_wp m q curr tc m' q' c (Φ : res unit → hPropI) :
  m !! curr = Some tc → abs_requeue curr m q = Some (m', q') →
  is_queue g_ready_thread_list q -∗ tcbs m -∗
  (if t_status tc =? TASK_RUNNING then node (pcb_general_tag curr) else emp) -∗
  (is_queue g_ready_thread_list q' -∗ tcbs m' -∗ Φ (RRet tt c)) -∗
  wp (when (t_status tc =? TASK_RUNNING)
    (found <- elem_find g_ready_thread_list (pcb_general_tag curr);
     ASSERT (negb found) "thread/thread.c" 122 "schedule"
       "!elem_find(&ready_thread_list, &curr->general_tag)" ;;
     priority <- ld8 (pcb_priority curr);
     st8 (pcb_ticks curr) priority ;;
     st32 (pcb_status curr) TASK_READY ;;
     list_append g_ready_thread_list (pcb_general_tag curr))) c Φ.
Proof.
  iIntros (Hc Hq) "HL HT Hn HΦ". iApply wp_when. unfold abs_requeue in Hq. rewrite Hc /= in Hq.
  destruct (t_status tc =? TASK_RUNNING); simplify_eq; [|iApply ("HΦ" with "HL HT")].
  wp_bind. iApply (elem_find_queue_wp with "HL Hn"). iIntros "HL Hn". wp_reduce.
  wp_bind. iApply wp_assert; [done|]. wp_reduce.
  iDestruct (tcbs_acc with "HT") as "[(%Hp & Hsp & Hs & Hpr & Ht & Hd) HT]"; [done|].
  iDestruct (pt_range with "Hpr") as %Hr. wp_ldb "Hpr". wp_stb "Ht". rewrite w8_small //.
  wp_st "Hs". iApply (list_append_wp with "HL Hn"). iIntros "HL".
  iApply ("HΦ" with "[HL]"); [by rewrite /is_queue fmap_app|].
  iApply "HT". iFrame. done.
Qed.

(** Second decision. *)
Lemma fallback_wp m q idle m' q' c (Φ : res unit → hPropI) :
  abs_fallback idle m q = Some (m', q') →
  is_queue g_ready_thread_list q -∗ tcbs m -∗ g_idle_thread ↦w idle -∗
  (if decide (q = []) then node (pcb_general_tag idle) else emp) -∗
  (is_queue g_ready_thread_list q' -∗ tcbs m' -∗ g_idle_thread ↦w idle -∗ Φ (RRet tt c)) -∗
  wp (when (bool_decide (pcb_general_tag <$> q = []))
    (idle_thread <- ld32 g_idle_thread; thread_unlock idle_thread)) c Φ.
Proof.
  iIntros (Hq) "HL HT Hi Hn HΦ". iApply wp_when. destruct q as [|n q]; simpl in *.
  - destruct (m !! idle) as [ti|] eqn:Ei; simpl in Hq; [|done].
    destruct (may_stop (t_status ti)) eqn:Es; simplify_eq. wp_ld "Hi".
    iApply (thread_unlock_wp with "HL Hn HT"); [done|done|].
    iIntros "HL HT". iApply ("HΦ" with "HL HT Hi").
  - simplify_eq. iApply ("HΦ" with "HL HT Hi").
Qed.

(** The switch itself. *)
Lemma switch_to_wp m curr tc n c (Q : cpu → hPropI) :
  m !! curr = Some tc → is_Some (m !! n) →
  tcbs m -∗
  (tcbs (abs_switch curr (esp c) m) -∗
   Q (set_esp (resume_sp n (abs_switch curr (esp c) m)) c)) -∗
  wp (switch_to curr n) c (switches Q).
Proof.
  iIntros (Hc [tn Hn]) "HT HQ". rewrite /switch_to. wp_pure.
  iDestruct (tcbs_acc m curr tc with "HT") as "[(%Hp & Hsp & Hr) HT]"; [done|].
  iEval (rewrite /pcb_self_kernel_stack) in "Hsp". wp_st "Hsp".
  iDestruct ("HT" $! (set_t_sp (w32 (esp c)) tc) with "[$Hsp $Hr //]") as "HT".
  assert (<[curr := set_t_sp (w32 (esp c)) tc]> m = abs_switch curr (esp c) m) as ->.
  { unfold abs_switch. apply map_eq. intros i. destruct (decide (i = curr)) as [->|].
    - by rewrite lookup_insert_eq lookup_alter_eq Hc.
    - by rewrite lookup_insert_ne // lookup_alter_ne. }
  assert (is_Some (abs_switch curr (esp c) m !! n)) as [tn' Hn'].
  { unfold abs_switch. destruct (decide (n = curr)) as [->|];
      [rewrite lookup_alter_eq Hn; by eexists|rewrite lookup_alter_ne //; by eexists]. }
  iDestruct (tcbs_acc _ n tn' with "HT") as "[(%Hp' & Hsp & Hr) HT]"; [done|].
  iEval (rewrite /pcb_self_kernel_stack) in "Hsp". wp_ld "Hsp". wp_pure.
  iApply wp_yield. simpl. rewrite /resume_sp Hn' /=. iApply "HQ".
  iDestruct ("HT" $! tn' with "[$Hsp $Hr //]") as "HT". by rewrite insert_id.
Qed.

Definition sched_globals (idle tag : Z) : hPropI :=
  (g_idle_thread ↦w idle ∗ g_thread_tag ↦w tag)%I.

Lemma schedule_wp m q curr tc idle tag n tn m' q' pte esp0 c (Q : cpu → hPropI) :
  if_on c = false → Z.land (esp c) 0xfffff000 = curr → m !! curr = Some tc →
  abs_schedule idle curr m q = Some (n, tn, m', q') →
  is_queue g_ready_thread_list q -∗ tcbs m -∗ sched_globals idle tag -∗
  (if t_status tc =? TASK_RUNNING then node (pcb_general_tag curr) else emp) -∗
  (if decide (q = [] ∧ t_status tc ≠ TASK_RUNNING) then node (pcb_general_tag idle) else emp) -∗
  aspace tn pte esp0 -∗
  (is_queue g_ready_thread_list q' -∗ tcbs (abs_switch curr (esp c) m') -∗
   sched_globals idle (pcb_general_tag n) -∗ node (pcb_general_tag n) -∗
   aspace tn pte (n + 4096) -∗
   Q (set_esp (resume_sp n (abs_switch curr (esp c) m')) (set_cr3 (directory_of tn pte) c))) -∗
  wp schedule c (switches Q).
Proof.
  iIntros (Hoff Hcurr Hm Habs) "HL HT [Hi Htag] Hn Hni HA HQ". rewrite /schedule.
  wp_bind. iApply wp_intr_get_status. rewrite Hoff. wp_reduce.
  wp_bind. iApply wp_assert; [done|]. wp_reduce.
  wp_bind. iApply running_thread_wp. rewrite Hcurr. clear Hcurr. wp_reduce.
  iDestruct (tcbs_acc with "HT") as "[(%Hp & Hsp & Hs & Hr) HT]"; [done|]. wp_ld "Hs".
  iDestruct ("HT" $! tc with "[$Hsp $Hs $Hr //]") as "HT". rewrite insert_id //.
  unfold abs_schedule in Habs.
  destruct (abs_requeue curr m q) as [[m1 q1]|] eqn:E1; simpl in Habs; [|done].
  destruct (abs_fallback idle m1 q1) as [[m2 q2]|] eqn:E2; simpl in Habs; [|done].
  wp_bind. iApply (requeue_wp with "HL HT Hn"); [done|done|]. iIntros "HL HT". wp_reduce.
  wp_bind. iApply (list_empty_wp with "HL"). iIntros "HL". wp_reduce.
  wp_bind. iApply (fallback_wp with "HL HT Hi [Hni]"); [done| |].
  { unfold abs_requeue in E1. rewrite Hm /= in E1.
    destruct (Z.eqb_spec (t_status tc) TASK_RUNNING); simplify_eq.
    - rewrite (decide_False (P := q ++ [curr] = [])); [done|by destruct q].
    - do 2 case_decide; first [done | naive_solver]. }
  iIntros "HL HT Hi". wp_reduce.
  destruct q2 as [|n' q2]; simpl in Habs; [done|].
  destruct (m2 !! n') as [tn0|] eqn:En; simpl in Habs; [|done]. simplify_eq.
  wp_bind. iApply (list_empty_wp with "HL"). iIntros "HL". wp_reduce.
  wp_bind. iApply wp_assert; [done|]. wp_reduce. wp_st "Htag".
  wp_bind. iApply (list_pop_wp with "HL"). iIntros "HL Hn". wp_reduce.
  iDestruct "Hn" as "(%Hrange & Hn)". wp_st "Htag". rewrite w32_small //. wp_ld "Htag".
  rewrite pcb_of_tag.
  iDestruct (tcbs_acc with "HT") as "[(%Hpn & Hsp & Hs & Hr) HT]"; [done|].
  iDestruct "Hr" as "(Hpr & Ht & Hd)". iDestruct (pt32_range with "Hd") as %Hdir.
  wp_st "Hs".
  wp_bind. iApply (process_activate_wp n (set_t_status TASK_RUNNING tn0) with "[Hsp Hs Hpr Ht Hd] HA");
    [done|by iFrame|]. iIntros "Hn' HA". wp_reduce.
  iDestruct ("HT" with "Hn'") as "HT".
  assert (is_Some (<[n := set_t_status TASK_RUNNING tn0]> m2 !! n)) by (rewrite lookup_insert_eq; by eexists).
  assert (is_Some (<[n := set_t_status TASK_RUNNING tn0]> m2 !! curr)) as [tc' Hc'].
  { apply lookup_insert_is_Some'. right. eapply fallback_dom; [done|].
    eapply requeue_dom; [done|by eexists]. }
  iApply (switch_to_wp with "HT"); [done|done|]. iIntros "HT".
  iApply ("HQ" with "HL HT [$Hi $Htag] [$Hn //] HA").
Qed.

(** Blocking: the current thread leaves in state [st] and is in no queue of the
    scheduler; the interrupt flag is off in the thread that takes over. *)
Lemma thread_lock_wp m q curr tc st idle tag n tn m' q' pte esp0 c (Q : cpu → hPropI) :
  Z.land (esp c) 0xfffff000 = curr → m !! curr = Some tc → may_stop st = true →
  abs_schedule idle curr (<[curr := set_t_status st tc]> m) q = Some (n, tn, m', q') →
  is_queue g_ready_thread_list q -∗ tcbs m -∗ sched_globals idle tag -∗
  (if decide (q = []) then node (pcb_general_tag idle) else emp) -∗
  aspace tn pte esp0 -∗
  (is_queue g_ready_thread_list q' -∗ tcbs (abs_switch curr (esp c) m') -∗
   sched_globals idle (pcb_general_tag n) -∗ node (pcb_general_tag n) -∗
   aspace tn pte (n + 4096) -∗
   Q (set_esp (resume_sp n (abs_switch curr (esp c) m'))
        (set_cr3 (directory_of tn pte) (cli_cpu c)))) -∗
  wp (thread_lock st) c (switches Q).
Proof.
  iIntros (Hcurr Hm Hst Habs) "HL HT HG Hni HA HQ". rewrite /thread_lock.
  wp_bind. iApply wp_intr_disable. wp_reduce.
  wp_bind. iApply wp_assert; [done|]. wp_reduce.
  wp_bind. iApply running_thread_wp. change (esp (cli_cpu c)) with (esp c). rewrite Hcurr. wp_reduce.
  iDestruct (tcbs_acc with "HT") as "[(%Hp & Hsp & Hs & Hr) HT]"; [done|]. wp_st "Hs".
  iDestruct ("HT" $! (set_t_status st tc) with "[Hsp Hs Hr]") as "HT".
  { iFrame "Hsp Hr". iSplit; [done|]. rewrite w32_small; [done|].
    unfold may_stop, TASK_BLOCKED, TASK_WAITING, TASK_HANGING in Hst. lia. }
  assert (st ≠ TASK_RUNNING) as Hne.
  { intros ->. done. }
  wp_bind. iApply (wp_wand _ _ (switches Q) with "[-]"); last first.
  { iIntros ([? ?|?|?|? ?]) "H //=". }
  iApply (schedule_wp _ _ curr _ _ _ _ _ _ _ _ _ (cli_cpu c) Q
    with "HL HT HG [] [Hni] HA HQ").
  - apply if_on_cli.
  - done.
  - by rewrite lookup_insert_eq.
  - done.
  - simpl. by rewrite (proj2 (Z.eqb_neq st _)).
  - simpl. do 2 case_decide; first [done | naive_solver].
Qed.

End spec.

(** The scheduler's own state: ready queue, control blocks, globals. *)
Definition sched `{Symbols} (m : gmap Z tcb) (q : list Z) (idle tag : Z) : hPropI :=
  (is_queue g_ready_thread_list q ∗ tcbs m ∗ sched_globals idle tag)%I.

(** ** Time slices *)

(** [k] time slices: each ends with a call of [schedule], on the CPU of the
    thread the previous one switched to. *)
Inductive slices `{Symbols} : nat → cpu → memory → cpu → memory → Prop :=
  | slices_O c h : slices O c h c h
  | slices_S k c h c1 h1 c2 h2 :
      exec schedule c h (RSwitch c1) h1 → slices k c1 h1 c2 h2 → slices (S k) c h c2 h2.

(** Only kernel threads, the current one running and in no queue, the others
    suspended on their own stacks. *)
Definition kernel_threads (curr : Z) (q : list Z) (m : gmap Z tcb) : Prop :=
  (∃ t, m !! curr = Some t ∧ t_status t = TASK_RUNNING) ∧
  (∀ p, p ∈ curr :: q → ∃ t, m !! p = Some t ∧ t_pgdir t = 0) ∧
  (∀ p t, p ∈ q → m !! p = Some t → Z.land (t_sp t) 0xfffff000 = p).

Definition on_cpu (curr : Z) (c : cpu) : Prop :=
  if_on c = false ∧ Z.land (esp c) 0xfffff000 = curr ∧ 0 <= esp c < 2 ^ 32.

Definition round_robin `{Symbols} (idle curr : Z) (q : list Z) : hPropI :=
  (∃ m tag, ⌜kernel_threads curr q m⌝ ∗ sched m q idle tag ∗ node (pcb_general_tag curr))%I.

Section slices.
Context `{Symbols}.
Implicit Types (c : cpu).

Lemma kernel_threads_next curr n q m t tn c :
  kernel_threads curr (n :: q) m → curr ∉ n :: q → NoDup (n :: q) → on_cpu curr c →
  m !! curr = Some t → m !! n = Some tn →
  kernel_threads n (q ++ [curr])
    (abs_switch curr (esp c) (<[n := set_t_status TASK_RUNNING tn]> (<[curr := preempted t]> m))).
Proof.
  intros (_ & Hall & Hsp) [Hne Hq]%not_elem_of_cons [Hnq Hnd]%NoDup_cons (_ & Hc & Hr) Ht Htn.
  assert (t_pgdir t = 0 ∧ t_pgdir tn = 0) as [E1 E2].
  { destruct (Hall curr) as (? & ? & ?); [set_solver|]. destruct (Hall n) as (? & ? & ?); [set_solver|].
    by simplify_eq. }
  unfold abs_switch. split_and!.
  - exists (set_t_status TASK_RUNNING tn). split; [|done].
    by rewrite lookup_alter_ne // lookup_insert_eq.
  - intros p Hp. destruct (decide (p = curr)) as [->|].
    + exists (set_t_sp (w32 (esp c)) (preempted t)). split; [|done].
      by rewrite lookup_alter_eq lookup_insert_ne // lookup_insert_eq.
    + rewrite lookup_alter_ne //. destruct (decide (p = n)) as [->|].
      * exists (set_t_status TASK_RUNNING tn). by rewrite lookup_insert_eq.
      * rewrite !lookup_insert_ne //. apply Hall. set_solver.
  - intros p u Hp. destruct (decide (p = curr)) as [->|].
    + rewrite lookup_alter_eq lookup_insert_ne // lookup_insert_eq. intros [= <-].
      simpl. by rewrite w32_small.
    + assert (p ∈ q) by set_solver. assert (p ≠ n) by (intros ->; done).
      rewrite lookup_alter_ne // !lookup_insert_ne //. apply Hsp. by apply elem_of_cons; right.
Qed.

Lemma queue_nodup l q : is_queue l q ⊢ ⌜NoDup q⌝.
Proof.
  iIntros "(_ & _ & _ & HC)". iDestruct (chain_nodup with "HC") as %Hn. iPureIntro.
  by eapply NoDup_fmap_1.
Qed.

(** One slice: the head of the queue runs next, the current thread goes last. *)
Lemma round_robin_wp idle curr n q c :
  on_cpu curr c →
  round_robin idle curr (n :: q) ⊢
  wp schedule c (switches (λ c', ⌜on_cpu n c'⌝ ∗ round_robin idle n (q ++ [curr]))).
Proof.
  iIntros (Hc) "(%m & %tag & %Hk & (HL & HT & HG) & Hn)".
  pose proof Hk as ((t & Ht & Hrun) & Hall & Hsp).
  iDestruct (queue_node_ne with "HL Hn") as %Hnin. iDestruct (queue_nodup with "HL") as %Hnd.
  assert (n ≠ curr) by (intros ->; apply Hnin; by apply elem_of_cons; left).
  destruct (Hall n) as (tn & Htn & Hdir); [set_solver|].
  iDestruct (tcbs_acc m n tn with "HT") as "[(%Hp & Hs & Hr) HT]"; [done|].
  iDestruct (pt32_range with "Hs") as %Hspr.
  iDestruct ("HT" $! tn with "[$Hs $Hr //]") as "HT". rewrite insert_id //.
  pose proof Hc as (Hoff & Hcurr & Hr).
  iApply (schedule_wp m (n :: q) curr t idle tag n (set_t_status TASK_RUNNING tn) _ _ 0 0
    with "HL HT HG [Hn] [] []").
  - done.
  - done.
  - done.
  - unfold abs_schedule, abs_requeue. rewrite Ht /= Hrun /=. rewrite lookup_insert_ne // Htn. done.
  - rewrite Hrun. done.
  - done.
  - by rewrite /aspace /= Hdir.
  - iIntros "HL HT HG Hn _". unfold resume_sp, abs_switch.
    rewrite lookup_alter_ne // lookup_insert_eq /=. iSplit.
    { iPureIntro. split_and!; [done| |simpl; lia|simpl; lia].
      simpl. apply (Hsp n); [by apply elem_of_cons; left|done]. }
    iExists _, _. iFrame. iPureIntro. by apply kernel_threads_next.
Qed.

End slices.

(** ** Concrete threads *)

Definition tcb_cells (pt : Z * tcb) : list (Z * list Z) :=
  let '(p, t) := pt in
  [(pcb_self_kernel_stack p, word_bytes (t_sp t)); (pcb_status p, word_bytes (t_status t));
   (pcb_priority p, [t_priority t]); (pcb_ticks p, [t_ticks t]);
   (pcb_pgdir p, word_bytes (t_pgdir t))].

Definition tcb_ok (pt : Z * tcb) : bool :=
  let '(p, t) := pt in
  bool_decide (0 < p ∧ p + 4096 < 2 ^ 32 ∧ p mod 4096 = 0) && addr_ok (t_sp t) &&
  addr_ok (t_status t) && addr_ok (t_pgdir t).

Lemma tcb_cells_models pt : tcb_ok pt = true → cells (tcb_cells pt) ⊢ tcb_at pt.1 pt.2.
Proof.
  destruct pt as [p t]. simpl. intros (((H1%bool_decide_eq_true & H2%bool_decide_eq_true)%andb_true_iff &
    H3%bool_decide_eq_true)%andb_true_iff & H4%bool_decide_eq_true)%andb_true_iff.
  rewrite !cells_cons !bytes_word // !bytes_cons !bytes_nil.
  iIntros "(H1 & H2 & [H3 _] & [H4 _] & H5 & _)". rewrite /tcb_at. by iFrame.
Qed.

Lemma tcbs_cells_models ts :
  forallb tcb_ok ts = true → NoDup ts.*1 →
  cells (ts ≫= tcb_cells) ⊢ tcbs (list_to_map ts).
Proof.
  intros Hok Hnd. unfold tcbs. rewrite big_sepM_list_to_map //. clear Hnd.
  induction ts as [|pt ts IH]; [by iIntros "_"|].
  simpl in Hok. apply andb_true_iff in Hok as [Hpt Hok].
  rewrite bind_cons cells_app tcb_cells_models // IH //.
Qed.

(** The scheduler with the threads [ts], of which those of [q] are ready. *)
Definition sched_cells `{Symbols} (ts : list (Z * tcb)) (q : list Z) (idle tag : Z) :
    list (Z * list Z) :=
  list_cells g_ready_thread_list (pcb_general_tag <$> q) ++ (ts ≫= tcb_cells) ++
  [(g_idle_thread, word_bytes idle); (g_thread_tag, word_bytes tag)].

Definition sched_ok `{Symbols} (ts : list (Z * tcb)) (q : list Z) (idle tag : Z) : bool :=
  bool_decide (0 <= g_ready_thread_list ∧ g_ready_thread_list + 16 <= 2 ^ 32) &&
  forallb addr_ok (pcb_general_tag <$> q) && forallb tcb_ok ts && bool_decide (NoDup ts.*1) &&
  addr_ok idle && addr_ok tag.

Lemma sched_cells_models `{Symbols} ts q idle tag :
  sched_ok ts q idle tag = true →
  cells (sched_cells ts q idle tag) ⊢ sched (list_to_map ts) q idle tag.
Proof.
  unfold sched_ok, sched_cells. rewrite !andb_true_iff.
  intros (((((H1 & H2) & H3) & H4%bool_decide_eq_true) & H5%bool_decide_eq_true) & H6%bool_decide_eq_true).
  rewrite !cells_app list_cells_models // tcbs_cells_models // !cells_word //.
  iIntros "($ & $ & $ & $ & _)".
Qed.

(** Two threads: the first runs, the second is ready. *)
Definition thread_a : Z * tcb := (0xc009e000, Tcb TASK_RUNNING 31 0 0 0).
Definition thread_b : Z * tcb := (0xc0101000, Tcb TASK_READY 10 10 0xc0101f00 0).
Definition thread_idle : Z * tcb := (0xc0102000, Tcb TASK_BLOCKED 10 10 0xc0102f00 0).
(** The first one's CPU, in an interrupt handler. *)
Definition cpu_a : cpu := Cpu 0xc009ef00 0x2 0x00100000 [] [].

Definition two_threads : list (Z * list Z) :=
  @sched_cells link_map [thread_a; thread_b] [0xc0101000] 0xc0102000 0 ++
  node_cells (pcb_general_tag 0xc009e000).

Lemma two_threads_cells :
  cells two_threads ⊢
    @sched link_map (list_to_map [thread_a; thread_b]) [0xc0101000] 0xc0102000 0 ∗
    node (pcb_general_tag 0xc009e000).
Proof.
  unfold two_threads. rewrite cells_app sched_cells_models; [|vm_compute; reflexivity].
  rewrite node_cells_models //.
Qed.

Lemma two_threads_models :
  mem_of two_threads ⊨
    (@sched link_map (list_to_map [thread_a; thread_b]) [0xc0101000] 0xc0102000 0 ∗
     node (pcb_general_tag 0xc009e000)).
Proof.
  eapply models_mono; [apply two_threads_cells|apply mem_of_models; vm_compute; reflexivity].
Qed.

(** ** Properties *)

Section properties.
Context `{Symbols}.
Implicit Types (c : cpu).

(** C1: [schedule] does to memory what the abstract scheduler does to its state,
    whoever is current and whatever is queued: the chosen thread runs on its
    saved stack, in its address space, and the stack pointer of the thread that
    leaves is saved. *)
Theorem schedule_refines m q curr tc idle tag n tn m' q' pte esp0 c :
  if_on c = false → Z.land (esp c) 0xfffff000 = curr → m !! curr = Some tc →
  abs_schedule idle curr m q = Some (n, tn, m', q') →
  {{ sched m q idle tag ∗
          (if t_status tc =? TASK_RUNNING then node (pcb_general_tag curr) else emp) ∗
          (if decide (q = [] ∧ t_status tc ≠ TASK_RUNNING) then node (pcb_general_tag idle)
           else emp) ∗ aspace tn pte esp0 }}
    schedule @ c
  {{ switch c',
       ⌜c' = set_esp (resume_sp n (abs_switch curr (esp c) m')) (set_cr3 (directory_of tn pte) c)⌝ ∗
       sched (abs_switch curr (esp c) m') q' idle (pcb_general_tag n) ∗
       node (pcb_general_tag n) ∗ aspace tn pte (n + 4096) }}.
Proof.
  intros Hoff Hcurr Hm Habs. apply triple_wp. iIntros "((HL & HT & HG) & Hn & Hni & HA)".
  iApply (schedule_wp with "HL HT HG Hn Hni HA"); [done..|].
  iIntros "HL HT HG Hn HA". by iFrame.
Qed.

(** C2: Round robin: with kernel threads only, the thread at position [i] of the
    ready queue gets the processor after exactly [i + 1] time slices. *)
Theorem round_robin_fair idle curr q i p c h :
  on_cpu curr c → h ⊨ round_robin idle curr q → q !! i = Some p →
  ∃ c' h', slices (S i) c h c' h' ∧ on_cpu p c'.
Proof.
  revert curr q c h. induction i as [|i IH]; intros curr q c h Hc Hh Hi;
    (destruct q as [|n q]; [done|]);
    destruct (triple_run _ _ _ _ h (triple_wp _ _ _ _ (round_robin_wp idle curr n q c Hc)) Hh)
      as ([|c1| |] & h1 & Hx & Hq); simpl in Hq; try by destruct Hq.
  - simpl in Hi. simplify_eq.
    exists c1, h1. split; [by eapply slices_S; [|constructor]|].
    by destruct Hq as (? & ? & _ & _ & ? & _).
  - assert (on_cpu n c1 ∧ h1 ⊨ round_robin idle n (q ++ [curr])) as [Hc1 Hh1].
    { split; [by destruct Hq as (? & ? & _ & _ & ? & _)|].
      eapply models_mono; [|apply Hq]. by iIntros "[_ $]". }
    destruct (IH n (q ++ [curr]) c1 h1 Hc1 Hh1) as (c2 & h2 & Hs & Hp).
    { by apply lookup_app_l_Some. }
    exists c2, h2. split; [by eapply slices_S|done].
Qed.

(** A thread that blocks leaves the ready queue to the others: it is switched
    away from in the state it asked for, with its stack pointer saved, and is
    not queued unless it is the idle thread with nobody else ready. *)
Theorem thread_lock_blocks m q curr tc st idle tag n tn m' q' pte esp0 c :
  Z.land (esp c) 0xfffff000 = curr → m !! curr = Some tc → may_stop st = true →
  abs_schedule idle curr (<[curr := set_t_status st tc]> m) q = Some (n, tn, m', q') →
  {{ sched m q idle tag ∗ node (pcb_general_tag curr) ∗
          (if decide (q = []) then ⌜idle ≠ curr⌝ ∗ node (pcb_general_tag idle) else emp) ∗
          aspace tn pte esp0 }}
    (thread_lock st) @ c
  {{ switch c',
       ⌜(if_on c' = false) ∧ esp c' = resume_sp n m' ∧ n ≠ curr ∧ (curr ∉ q') ∧
        m' !! curr = Some (set_t_status st tc)⌝ ∗
       sched (abs_switch curr (esp c) m') q' idle (pcb_general_tag n) ∗
       node (pcb_general_tag curr) ∗ node (pcb_general_tag n) ∗ aspace tn pte (n + 4096) }}.
Proof.
  intros Hcurr Hm Hst Habs. apply triple_wp. iIntros "((HL & HT & HG) & Hc & Hni & HA)".
  iDestruct (queue_node_ne with "HL Hc") as %Hnin.
  iAssert ⌜n ≠ curr ∧ m' !! curr = Some (set_t_status st tc)⌝%I with "[Hni]" as %[Hne Hm'].
  { unfold abs_schedule, abs_requeue in Habs. rewrite lookup_insert_eq /= in Habs.
    rewrite (proj2 (Z.eqb_neq st TASK_RUNNING)) in Habs; [|by intros ->]. simpl in Habs.
    destruct q as [|n' q]; simpl in Habs.
    - iDestruct "Hni" as "[%Hi _]". rewrite lookup_insert_ne // in Habs.
      destruct (m !! idle) as [ti|]; simpl in Habs; [|done].
      destruct (may_stop (t_status ti)); simpl in Habs; [|done].
      rewrite lookup_insert_eq /= in Habs. simplify_eq. iPureIntro.
      do 2 (rewrite lookup_insert_ne; [|done]). by rewrite lookup_insert_eq.
    - iPureIntro. assert (n' ≠ curr) by (intros ->; apply Hnin; by apply elem_of_cons; left).
      rewrite lookup_insert_ne // in Habs. destruct (m !! n'); simpl in Habs; [|done]. simplify_eq.
      split; [done|]. by rewrite lookup_insert_ne // lookup_insert_eq. }
  iApply (thread_lock_wp with "HL HT HG [Hni] HA"); [done..| |].
  { case_decide; [|done]. by iDestruct "Hni" as "[_ $]". }
  iIntros "HL HT HG Hn HA". iDestruct (queue_node_ne with "HL Hc") as %Hnq. iFrame.
  iPureIntro. split_and!; [by rewrite /= /if_on /= Z.ldiff_spec andb_false_r| |done|done|done].
  simpl. unfold resume_sp, abs_switch. by rewrite lookup_alter_ne.
Qed.

End properties.

Lemma two_threads_a :
  (list_to_map [thread_a; thread_b] : gmap Z tcb) !! 0xc009e000 = Some thread_a.2.
Proof. vm_compute. reflexivity. Qed.

Lemma two_threads_schedule st :
  st ∈ [TASK_RUNNING; TASK_BLOCKED] →
  ∃ m' q', abs_schedule 0xc0102000 0xc009e000
    (<[0xc009e000 := set_t_status st thread_a.2]> (list_to_map [thread_a; thread_b])) [0xc0101000] =
    Some (0xc0101000, set_t_status TASK_RUNNING thread_b.2, m', q') ∧
    t_sp <$> m' !! 0xc0101000 = Some 0xc0101f00.
Proof.
  intros Hst.
  assert ((λ r, (r.1.1, t_sp <$> r.1.2 !! 0xc0101000)) <$> abs_schedule 0xc0102000 0xc009e000
    (<[0xc009e000 := set_t_status st thread_a.2]> (list_to_map [thread_a; thread_b])) [0xc0101000] =
    Some (0xc0101000, set_t_status TASK_RUNNING thread_b.2, Some 0xc0101f00)) as E.
  { apply elem_of_cons in Hst as [-> | ->%list_elem_of_singleton]; vm_compute; reflexivity. }
  destruct (abs_schedule _ _ _ _) as [[[[n tn] m'] q']|]; simplify_eq/=. eauto.
Qed.

Lemma schedule_refines_witness :
  ∃ r h', exec (@schedule link_map) cpu_a (mem_of two_threads) r h' ∧
    h' ⊨ (switches (λ c', ⌜esp c' = 0xc0101f00 ∧ cr3 c' = 0x00100000⌝)%I r).
Proof.
  destruct (two_threads_schedule TASK_RUNNING) as (m' & q' & E & Hsp); [set_solver|].
  rewrite (insert_id _ 0xc009e000 thread_a.2) in E; [|apply two_threads_a].
  edestruct (triple_run _ _ _ _ (mem_of two_threads)
    (@schedule_refines link_map (list_to_map [thread_a; thread_b]) [0xc0101000] 0xc009e000
       thread_a.2 0xc0102000 0 _ _ _ _ 0 0 cpu_a eq_refl eq_refl
       two_threads_a E)) as (r & h' & Hx & Hq).
  - eapply models_mono; [|apply two_threads_models]. iIntros "[$ $]". by iSplit.
  - exists r, h'. split; [done|]. eapply models_mono; [|apply Hq].
    destruct r; simpl; [by iIntros "[]"| |by iIntros "[]"..]. iIntros "(-> & _)". iPureIntro.
    split; [|done]. simpl. unfold resume_sp, abs_switch. rewrite lookup_alter_ne //.
    destruct (m' !! 0xc0101000); by simplify_eq/=.
Defined.

Lemma round_robin_fair_witness :
  ∃ c' h', @slices link_map 1 cpu_a (mem_of two_threads) c' h' ∧ on_cpu 0xc0101000 c'.
Proof.
  apply (@round_robin_fair link_map 0xc0102000 0xc009e000 [0xc0101000] 0).
  - split_and!; [reflexivity|reflexivity|simpl; lia|simpl; lia].
  - eapply models_mono; [|apply two_threads_models]. iIntros "[HS $]". iExists _, _. iFrame "HS".
    iPureIntro. split_and!.
    + exists thread_a.2. split; reflexivity.
    + intros p Hp. assert (p = 0xc009e000 ∨ p = 0xc0101000) as [-> | ->] by set_solver.
      * exists thread_a.2. split; reflexivity.
      * exists thread_b.2. split; reflexivity.
    + intros p t ->%list_elem_of_singleton Ht. vm_compute in Ht. simplify_eq. reflexivity.
  - reflexivity.
Defined.

Lemma thread_lock_blocks_witness :
  ∃ r h', exec (@thread_lock link_map TASK_BLOCKED) cpu_a (mem_of two_threads) r h' ∧
    h' ⊨ (switches (λ c', ⌜esp c' = 0xc0101f00⌝)%I r).
Proof.
  destruct (two_threads_schedule TASK_BLOCKED) as (m' & q' & E & Hsp); [set_solver|].
  edestruct (triple_run _ _ _ _ (mem_of two_threads)
    (@thread_lock_blocks link_map (list_to_map [thread_a; thread_b]) [0xc0101000] 0xc009e000
       thread_a.2 TASK_BLOCKED 0xc0102000 0 _ _ _ _ 0 0 cpu_a eq_refl
       two_threads_a eq_refl E)) as (r & h' & Hx & Hq).
  - eapply models_mono; [|apply two_threads_models]. iIntros "[$ $]". by iSplit.
  - exists r, h'. split; [done|]. eapply models_mono; [|apply Hq].
    destruct r; simpl; [by iIntros "[]"| |by iIntros "[]"..]. iIntros "((_ & -> & _) & _)". iPureIntro.
    unfold resume_sp. destruct (m' !! 0xc0101000); by simplify_eq/=.
Defined.
