(* ===== verification/Resume.v ===== *)
(** Running a thread past its context switches.  [interleave me others m] runs
    [m] on the thread whose stack page is [me]; each time [m] switches away,
    [others] runs on the processor, until it switches in its turn; if that
    brings [me] back, [m] is resumed where it was. *)
From S2P Require Export Sched.

(** ** Definition *)

Definition on_page (me : Z) (s : state) : bool := Z.land (esp (st_cpu s)) 0xfffff000 =? me.

(** A switch that nobody takes back: the thread is never resumed. *)
Definition abandoned {A} (s : state) : outcome A := Switch s (λ _, NoFuel).

Fixpoint drive {A} (me : Z) (others : M unit) (n : nat) (o : outcome A) : outcome A :=
  match o with
  | Switch s k =>
      match others n s with
      | Switch s' _ => if on_page me s' then drive me others n (k s') else abandoned s'
      | Ret _ s' => abandoned s'
      | Panic s' => Panic s'
      | Fault a s' => Fault a s'
      | NoFuel => NoFuel
      end
  | _ => o
  end.

Definition interleave {A} (me : Z) (others : M unit) (m : M A) : M A :=
  λ n s, drive me others n (m n s).

(** It acts on each statement of a sequence, and on each turn of a loop. *)
Lemma drive_bind {A B} me others n (o : outcome A) (f : A → state → outcome B) :
  drive me others n (obind o f) =
  obind (drive me others n o) (λ a s, drive me others n (f a s)).
Proof.
  induction o as [a s|s k IH|s|x s|]; simpl; [done| |done..].
  destruct (others n s) as [| s' ? | | |]; [done| |done..].
  destruct (on_page me s'); [apply IH|done].
Qed.

Lemma interleave_bind {A B} me others (m : M A) (f : A → M B) :
  same_program (interleave me others (bind m f))
    (bind (interleave me others m) (λ a, interleave me others (f a))).
Proof. intros n s. apply drive_bind. Qed.

(** A driven program has no continuation left. *)
Lemma drive_obind_ext {A B} me others n (o : outcome A) (f g : A → state → outcome B) :
  (∀ a s, f a s = g a s) → obind (drive me others n o) f = obind (drive me others n o) g.
Proof.
  intros E. induction o as [a s|s k IH|s|x s|]; simpl; [apply E| |done..].
  destruct (others n s) as [| s' ? | | |]; [done| |done..].
  destruct (on_page me s'); [apply IH|done].
Qed.

(** ** Programs that do not switch *)

Definition quiet {A} (m : M A) : Prop := ∀ n s s' k, m n s ≠ Switch s' k.

(** Programs whose only switch is their last action. *)
Definition switches_last {A} (m : M A) : Prop :=
  ∀ n s s' k, m n s = Switch s' k → ∃ a, ∀ s'', k s'' = Ret a s''.

Section quiet.
Context {A B : Type}.

Lemma quiet_ret (a : A) : quiet (ret a).
Proof. done. Qed.

Lemma quiet_panic : quiet (@panic A).
Proof. done. Qed.

Lemma quiet_out_of_fuel : quiet (@out_of_fuel A).
Proof. done. Qed.

Lemma quiet_bind (m : M A) (f : A → M B) :
  quiet m → (∀ a, quiet (f a)) → quiet (bind m f).
Proof.
  intros Hm Hf n s s' k. unfold bind. specialize (Hm n s).
  destruct (m n s); simpl; try done; [apply Hf|]. by edestruct Hm.
Qed.

Lemma quiet_if (b : bool) (m1 m2 : M A) : quiet m1 → quiet m2 → quiet (if b then m1 else m2).
Proof. by destruct b. Qed.

Lemma quiet_loop {S} (step : S → M (S + A)) x : (∀ x, quiet (step x)) → quiet (loop step x).
Proof.
  intros Hs n s. unfold loop. generalize n at 1. intros j.
  revert x s. induction j as [|j IH]; intros x s s' k; [done|].
  simpl. unfold bind. specialize (Hs x n s). destruct (step x n s) as [r s1|s1 k1| | |]; simpl;
    try done; [|by edestruct Hs].
  destruct r; [apply IH|done].
Qed.

Lemma switches_last_bind (m : M A) (f : A → M B) :
  quiet m → (∀ a, switches_last (f a)) → switches_last (bind m f).
Proof.
  intros Hm Hf n s s' k. unfold bind. specialize (Hm n s).
  destruct (m n s); simpl; try done; [apply Hf|]. by edestruct Hm.
Qed.

End quiet.

Lemma quiet_when b m : quiet m → quiet (when b m).
Proof. intros. by apply quiet_if. Qed.

Lemma quiet_for i0 i1 body : (∀ i, quiet (body i)) → quiet (for_ i0 i1 body).
Proof.
  intros Hb. unfold for_. generalize (Z.to_nat (i1 - i0)). intros k. revert i0.
  induction k; intros i0; simpl; [done|]. apply quiet_bind; [done|]. intros _. apply IHk.
Qed.

Lemma quiet_ld8 a : quiet (ld8 a).
Proof. intros n s s' k. unfold ld8. by destruct (st_mem s !! a). Qed.

Lemma quiet_st8 a v : quiet (st8 a v).
Proof. intros n s s' k. unfold st8. by destruct (st_mem s !! a). Qed.

Create HintDb quiet.
#[export] Hint Resolve quiet_ret quiet_panic quiet_out_of_fuel quiet_ld8 quiet_st8 : quiet.

Ltac term_head t := lazymatch t with ?f _ => term_head f | _ => t end.

(** Statement by statement; a function the database does not know is unfolded. *)
Ltac quiet :=
  intros;
  first
    [ solve [auto 1 with quiet nocore]
    | lazymatch goal with
      | |- quiet (bind _ _) => apply quiet_bind; [quiet|intros; quiet]
      | |- quiet (loop _ _) => apply quiet_loop; intros; quiet
      | |- quiet (for_ _ _ _) => apply quiet_for; intros; quiet
      | |- quiet (when _ _) => apply quiet_when; quiet
      | |- quiet (if ?b then _ else _) => apply quiet_if; quiet
      | |- quiet (match ?x with _ => _ end) => destruct x; quiet
      | |- quiet (let _ := _ in _) => cbv zeta; quiet
      | |- quiet ?m => let h := term_head m in unfold h; cbv beta; quiet
      end ].

Lemma quiet_get_cpu : quiet get_cpu.
Proof. done. Qed.
Lemma quiet_put_cpu c : quiet (put_cpu c).
Proof. done. Qed.
#[export] Hint Resolve quiet_get_cpu quiet_put_cpu : quiet.

Lemma quiet_modify_cpu f : quiet (modify_cpu f).
Proof. quiet. Qed.
Lemma quiet_ld16 a : quiet (ld16 a).
Proof. quiet. Qed.
Lemma quiet_st16 a v : quiet (st16 a v).
Proof. quiet. Qed.
Lemma quiet_ld32 a : quiet (ld32 a).
Proof. quiet. Qed.
Lemma quiet_st32 a v : quiet (st32 a v).
Proof. quiet. Qed.
#[export] Hint Resolve quiet_modify_cpu quiet_ld16 quiet_st16 quiet_ld32 quiet_st32 : quiet.

Lemma quiet_intr_disable : quiet intr_disable.
Proof. quiet. Qed.
Lemma quiet_intr_set_status v : quiet (intr_set_status v).
Proof. quiet. Qed.
Lemma quiet_assert b file line func src : quiet (ASSERT b file line func src).
Proof. quiet. Qed.
#[export] Hint Resolve quiet_intr_disable quiet_intr_set_status quiet_assert : quiet.

Lemma quiet_list_insert_before b e : quiet (list_insert_before b e).
Proof. quiet. Qed.
Lemma quiet_list_remove e : quiet (list_remove e).
Proof. quiet. Qed.
#[export] Hint Resolve quiet_list_insert_before quiet_list_remove : quiet.
Lemma quiet_list_pop l : quiet (list_pop l).
Proof. quiet. Qed.
Lemma quiet_list_empty l : quiet (list_empty l).
Proof. quiet. Qed.
Lemma quiet_elem_find l e : quiet (elem_find l e).
Proof. quiet. Qed.
#[export] Hint Resolve quiet_list_pop quiet_list_empty quiet_elem_find : quiet.

(** The scheduler switches, as its last action. *)
Lemma schedule_switches_last `{Symbols} : switches_last schedule.
Proof.
  unfold schedule, switch_to.
  repeat (apply switches_last_bind; [quiet|intros; cbv beta zeta]).
  intros n s s' k E. unfold yield in E. injection E as _ <-. by exists tt.
Qed.

(** ** Weakest preconditions past switches *)

Definition wpi {A} (me : Z) (others : M unit) (m : M A) (c : cpu) (Φ : res A → hPropI) : hPropI :=
  wp (interleave me others m) c Φ.

(** Code whose result is not a switch. *)
Definition stays {A} (Φ : res A → hPropI) : Prop := ∀ c, Φ (RSwitch c) ⊢ False.

Definition wpi_k {A B} (me : Z) (others : M unit) (f : A → M B) (Φ : res B → hPropI)
    (r : res A) : hPropI :=
  match r with
  | RRet a c => wpi me others (f a) c Φ
  | RSwitch c => Φ (RSwitch c)
  | RPanic c => Φ (RPanic c)
  | RFault a c => Φ (RFault a c)
  end.

Lemma stays_returns {A} (Q : A → cpu → hPropI) : stays (returns Q).
Proof. by intros c. Qed.

Lemma stays_wpi_k {A B} me others (f : A → M B) Φ : stays Φ → stays (wpi_k me others f Φ).
Proof. intros H c. apply H. Qed.
#[export] Hint Resolve stays_returns stays_wpi_k : core.

Section rules.
Context (me : Z) (others : M unit).

Lemma wpi_bind {A B} (m : M A) (f : A → M B) c (Φ : res B → hPropI) :
  wpi me others m c (wpi_k me others f Φ) ⊢ wpi me others (bind m f) c Φ.
Proof.
  unfold wpi. rewrite interleave_bind -wp_bind. iIntros "H".
  iApply (wp_wand with "H"). iIntros ([]) "H"; iApply "H".
Qed.

(** What returns without switching is not concerned. *)
Lemma wpi_wp {A} (m : M A) c (Φ : res A → hPropI) :
  stays Φ → wp m c Φ ⊢ wpi me others m c Φ.
Proof.
  intros Hns. split. intros h H hf Hd. destruct (H hf Hd) as (r & h' & Hd' & HΦ & n0 & Hx).
  exists r, h'. split_and!; [done..|]. exists n0. intros n Hn. specialize (Hx n Hn).
  unfold interleave. destruct r as [a c'|c'|c'|x c'].
  2: { exfalso. by apply (in_entails _ _ (Hns c') h'). }
  all: destruct (m n _) as [? [? ?]|[? ?] ?|[? ?]|? [? ?]|]; simplify_eq/=; done.
Qed.

Lemma wpi_bind_wp {A B} (m : M A) (f : A → M B) c (Φ : res B → hPropI) :
  stays Φ → wp m c (wpi_k me others f Φ) ⊢ wpi me others (bind m f) c Φ.
Proof. intros Hns. rewrite -wpi_bind -wpi_wp; [done|]. by apply stays_wpi_k. Qed.

(** A switch hands the memory to the others, who switch back. *)
Lemma wpi_switch (m : M unit) c (Φ : res unit → hPropI) :
  switches_last m →
  wp m c (switches (λ c1, wp others c1 (switches (λ c2,
    ⌜Z.land (esp c2) 0xfffff000 = me⌝ ∗ Φ (RRet tt c2))))) ⊢
  wpi me others m c Φ.
Proof.
  intros Hl. split. intros h H hf Hd. destruct (H hf Hd) as (r & h1 & Hd1 & HΦ & n0 & Hx).
  destruct r as [?|c1|?|?]; try (by destruct HΦ).
  destruct (HΦ hf Hd1) as (r2 & h2 & Hd2 & HΦ2 & n1 & Hx2).
  destruct r2 as [?|c2|?|?]; try (by destruct HΦ2).
  destruct HΦ2 as (g1 & g2 & Hg & Hs & Hpage & HΦ2).
  exists (RRet tt c2), h2. split_and!; [done| |].
  { eapply holds_mono; [done|]. etrans; [|done]. by apply map_union_subseteq_r. }
  exists (n0 `max` n1)%nat. intros n Hn. specialize (Hx n ltac:(lia)). specialize (Hx2 n ltac:(lia)).
  unfold interleave. destruct (m n _) as [? [? ?]|[c1' g] k|[? ?]|? [? ?]|] eqn:Em; simplify_eq/=.
  destruct (Hl _ _ _ _ Em) as [[] Hk].
  destruct (others n _) as [? [? ?]|[c2' g'] k'|[? ?]|? [? ?]|]; simplify_eq/=.
  unfold on_page. simpl. rewrite (proj2 (Z.eqb_eq _ me)) //. by rewrite Hk.
Qed.

(** Loops, turn by turn. *)
Lemma interleave_loop {S B} (step : S → M (S + B)) x :
  same_program (interleave me others (loop step x)) (loop (λ x, interleave me others (step x)) x).
Proof.
  intros n s. unfold interleave, loop. generalize n at 2 4. intros j.
  revert x s. induction j as [|j IH]; intros x s; [done|]. simpl. unfold bind.
  rewrite drive_bind. apply drive_obind_ext. intros [x'|b] s'; [apply IH|done].
Qed.

Definition wpi_loop {S B} (step : S → M (S + B)) (x : S) (c : cpu) (Φ : res B → hPropI) : hPropI :=
  wp_loop (λ x, interleave me others (step x)) x c Φ.
Definition wpi_loop_k {S B} (step : S → M (S + B)) (Φ : res B → hPropI)
    (r : res (S + B)) : hPropI :=
  wp_loop_k (λ x, interleave me others (step x)) Φ r.

Lemma wpi_loop_start {S B} (step : S → M (S + B)) x c (Φ : res B → hPropI) :
  wpi_loop step x c Φ ⊢ wpi me others (loop step x) c Φ.
Proof.
  unfold wpi, wpi_loop. by rewrite interleave_loop wp_loop_start.
Qed.

Lemma wpi_loop_step {S B} (step : S → M (S + B)) x c (Φ : res B → hPropI) :
  wpi me others (step x) c (wpi_loop_k step Φ) ⊢ wpi_loop step x c Φ.
Proof. unfold wpi, wpi_loop. by rewrite -wp_loop_step. Qed.

Lemma stays_wpi_loop_k {S B} (step : S → M (S + B)) Φ : stays Φ → stays (wpi_loop_k step Φ).
Proof. intros H c. apply H. Qed.

Lemma wpi_wand {A} (m : M A) c (Φ Ψ : res A → hPropI) :
  wpi me others m c Φ -∗ (∀ r, Φ r -∗ Ψ r) -∗ wpi me others m c Ψ.
Proof. apply wp_wand. Qed.

End rules.
#[export] Hint Resolve stays_wpi_loop_k : core.

(** Expose the next statement; run one that does not switch. *)
Ltac wpi_reduce := unfold wpi_loop_k; cbn [wpi_k wp_loop_k returns negb orb andb Z.eqb Pos.eqb].
Tactic Notation "wpi_bind" := iApply wpi_bind_wp; [auto|].
Tactic Notation "wpi_ld" constr(H) :=
  wpi_bind; iApply (wp_ld32 with H); [wp_side|]; iIntros H; wpi_reduce.
Tactic Notation "wpi_st" constr(H) :=
  wpi_bind; iApply (wp_st32 with H); [wp_side|]; iIntros H; wpi_reduce.
Tactic Notation "wpi_ldb" constr(H) :=
  wpi_bind; iApply (wp_ld8 with H); [wp_side|]; iIntros H; wpi_reduce.
Tactic Notation "wpi_stb" constr(H) :=
  wpi_bind; iApply (wp_st8 with H); [wp_side|]; iIntros H; wpi_reduce.

(** ** Blocking and being resumed *)

Section spec.
Context `{Symbols}.
Implicit Types (c : cpu) (m : gmap Z tcb).

(** The scheduler gives the processor away and gets it back. *)
Lemma thread_lock_resume_wp me others m q tc st idle tag n tn m' q' pte esp0 c
    (Φ : res unit → hPropI) :
  Z.land (esp c) 0xfffff000 = me → m !! me = Some tc → may_stop st = true →
  abs_schedule idle me (<[me := set_t_status st tc]> m) q = Some (n, tn, m', q') → stays Φ →
  is_queue g_ready_thread_list q -∗ tcbs m -∗ sched_globals idle tag -∗
  (if decide (q = []) then node (pcb_general_tag idle) else emp) -∗
  aspace tn pte esp0 -∗
  (is_queue g_ready_thread_list q' -∗ tcbs (abs_switch me (esp c) m') -∗
   sched_globals idle (pcb_general_tag n) -∗ node (pcb_general_tag n) -∗
   aspace tn pte (n + 4096) -∗
   wp others (set_esp (resume_sp n (abs_switch me (esp c) m'))
                (set_cr3 (directory_of tn pte) (cli_cpu c)))
     (switches (λ c2, ⌜Z.land (esp c2) 0xfffff000 = me⌝ ∗
                      Φ (RRet tt (with_status (b2z (if_on c)) c2))))) -∗
  wpi me others (thread_lock st) c Φ.
Proof.
  iIntros (Hcurr Hm Hst Habs Hstays) "HL HT HG Hni HA HQ". rewrite /thread_lock.
  wpi_bind. iApply wp_intr_disable. wpi_reduce.
  wpi_bind. iApply wp_assert; [done|]. wpi_reduce.
  wpi_bind. iApply running_thread_wp. change (esp (cli_cpu c)) with (esp c). rewrite Hcurr. wpi_reduce.
  iDestruct (tcbs_acc with "HT") as "[(%Hp & Hsp & Hs & Hr) HT]"; [done|]. wpi_st "Hs".
  iDestruct ("HT" $! (set_t_status st tc) with "[Hsp Hs Hr]") as "HT".
  { iFrame "Hsp Hr". iSplit; [done|]. rewrite w32_small; [done|].
    unfold may_stop, TASK_BLOCKED, TASK_WAITING, TASK_HANGING in Hst. lia. }
  assert (st ≠ TASK_RUNNING) as Hne by (by intros ->).
  iApply wpi_bind. iApply wpi_switch; [apply schedule_switches_last|].
  iApply (schedule_wp _ _ me _ _ _ _ _ _ _ _ _ (cli_cpu c)
    with "HL HT HG [] [Hni] HA [HQ]"); [apply if_on_cli|done|by rewrite lookup_insert_eq|done|..].
  - simpl. by rewrite (proj2 (Z.eqb_neq st _)).
  - simpl. do 2 case_decide; first [done | naive_solver].
  - iIntros "HL HT HG Hn HA". iDestruct ("HQ" with "HL HT HG Hn HA") as "HQ".
    iApply (wp_wand with "HQ"). iIntros ([? ?|c2|?|? ?]) "HQ //=".
    iDestruct "HQ" as "[$ HQ]". wpi_bind. iApply wp_intr_set_status. wpi_reduce.
    by iApply wpi_wp; [|iApply wp_ret].
Qed.

End spec.
