(* ===== verification/Sync.v ===== *)
(** thread/sync.c: semaphores and locks. *)
From S2P Require Export Resume.

(** ** struct semaphore, struct lock *)

Definition sem_value (s : Z) : Z := s.           (* uint8_t *)
Definition sem_waiter (s : Z) : Z := s + 4.
Definition lock_holder (l : Z) : Z := l.
Definition lock_sem (l : Z) : Z := l + 4.
Definition lock_holder_repeat_num (l : Z) : Z := l + 24.

Definition sem_init (sem value : Z) : M unit :=
  st8 (sem_value sem) value ;;
  list_init (sem_waiter sem).

Definition lock_init (plock : Z) : M unit :=
  sem_init (lock_sem plock) 1 ;;
  st32 (lock_holder plock) 0 ;;
  st32 (lock_holder_repeat_num plock) 0.

Section sync.
Context `{Symbols}.

(** One turn of the loop in [sem_down]. *)
Definition sem_wait (sem : Z) : M (unit + unit) :=
  value <- ld8 (sem_value sem);
  if value =? 0 then
    curr <- running_thread;
    found <- elem_find (sem_waiter sem) (pcb_general_tag curr);
    when found (exception_report "thread/sync.c" 26 "sem_down" "sem is in waiter\n") ;;
    curr <- running_thread;
    list_append (sem_waiter sem) (pcb_general_tag curr) ;;
    thread_lock TASK_BLOCKED ;;
    ret (inl tt)
  else ret (inr tt).

Definition sem_down (sem : Z) : M unit :=
  old_status <- intr_disable;
  loop (λ _, sem_wait sem) tt ;;
  value <- ld8 (sem_value sem);
  st8 (sem_value sem) (value - 1) ;;
  value <- ld8 (sem_value sem);
  ASSERT (value =? 0) "thread/sync.c" 32 "sem_down" "sem->value == 0" ;;
  intr_set_status old_status ;; ret tt.

Definition sem_up (sem : Z) : M unit :=
  old_status <- intr_disable;
  value <- ld8 (sem_value sem);
  ASSERT (value =? 0) "thread/sync.c" 39 "sem_up" "sem->value == 0" ;;
  empty <- list_empty (sem_waiter sem);
  when (negb empty)
    (tag <- list_pop (sem_waiter sem);
     thread_unlock (pcb_of_general_tag tag)) ;;
  value <- ld8 (sem_value sem);
  st8 (sem_value sem) (value + 1) ;;
  value <- ld8 (sem_value sem);
  ASSERT (value =? 1) "thread/sync.c" 53 "sem_up" "sem->value == 1" ;;
  intr_set_status old_status ;; ret tt.

Definition lock_acquire (plock : Z) : M unit :=
  holder <- ld32 (lock_holder plock);
  curr <- running_thread;
  if negb (holder =? curr) then
    sem_down (lock_sem plock) ;;
    curr <- running_thread;
    st32 (lock_holder plock) curr ;;
    n <- ld32 (lock_holder_repeat_num plock);
    ASSERT (n =? 0) "thread/sync.c" 64 "lock_acquire" "plock->holder_repeat_num == 0" ;;
    st32 (lock_holder_repeat_num plock) 1
  else
    n <- ld32 (lock_holder_repeat_num plock);
    st32 (lock_holder_repeat_num plock) (n + 1).

Definition lock_release (plock : Z) : M unit :=
  holder <- ld32 (lock_holder plock);
  curr <- running_thread;
  ASSERT (holder =? curr) "thread/sync.c" 77 "lock_release" "plock->holder == running_thread()" ;;
  n <- ld32 (lock_holder_repeat_num plock);
  if n >? 1 then
    n <- ld32 (lock_holder_repeat_num plock);
    st32 (lock_holder_repeat_num plock) (n - 1)
  else
    n <- ld32 (lock_holder_repeat_num plock);
    st32 (lock_holder_repeat_num plock) (n - 1) ;;
    st32 (lock_holder plock) 0 ;;
    st32 (lock_holder_repeat_num plock) 0 ;;
    sem_up (lock_sem plock).

End sync.

(** ** Representation *)

(** A semaphore with value [v] on which the threads [ws] wait, in order. *)
Definition is_sem (s v : Z) (ws : list Z) : hPropI :=
  (sem_value s ↦ v ∗ is_queue (sem_waiter s) ws)%I.

(** A lock held [n] times by [holder] (0: free). *)
Definition is_lock (l holder v n : Z) (ws : list Z) : hPropI :=
  (lock_holder l ↦w holder ∗ is_sem (lock_sem l) v ws ∗ lock_holder_repeat_num l ↦w n)%I.

Section spec.
Context `{Symbols}.
Implicit Types (c : cpu) (ws q : list Z).

Lemma sem_init_wp s v b h1 h2 t1 t2 c (Φ : res unit → hPropI) :
  0 <= sem_waiter s ∧ sem_waiter s + 16 <= 2 ^ 32 →
  sem_value s ↦ b -∗ list_elem_prev (list_head (sem_waiter s)) ↦w h1 -∗
  list_elem_next (list_head (sem_waiter s)) ↦w h2 -∗
  list_elem_prev (list_tail (sem_waiter s)) ↦w t1 -∗
  list_elem_next (list_tail (sem_waiter s)) ↦w t2 -∗
  (is_sem s (w8 v) [] -∗ Φ (RRet tt c)) -∗ wp (sem_init s v) c Φ.
Proof.
  iIntros (Hr) "Hv H1 H2 H3 H4 HΦ". rewrite /sem_init. wp_stb "Hv".
  iApply (list_init_wp with "H1 H2 H3 H4"); [done|]. iIntros "HL". iApply "HΦ". by iFrame.
Qed.

(** A free semaphore is taken without blocking. *)
Lemma sem_down_free_wp s ws c (Φ : res unit → hPropI) :
  is_sem s 1 ws -∗ (is_sem s 0 ws -∗ Φ (RRet tt c)) -∗ wp (sem_down s) c Φ.
Proof.
  iIntros "[Hv HL] HΦ". rewrite /sem_down. wp_bind. iApply wp_intr_disable. wp_reduce.
  wp_bind. iApply wp_loop_start. iApply wp_loop_step. rewrite /sem_wait. wp_ldb "Hv". wp_pure.
  wp_ldb "Hv". wp_stb "Hv". change (w8 (1 - 1)) with 0. wp_ldb "Hv".
  wp_bind. iApply wp_assert; [done|]. wp_reduce.
  wp_bind. iApply wp_intr_restore. wp_reduce. wp_pure. iApply "HΦ". iFrame.
Qed.

(** A taken semaphore queues the thread behind the other waiters and switches
    to another one. *)
Lemma sem_down_block_wp s ws m q curr tc idle tag n tn m' q' pte esp0 c (Q : cpu → hPropI) :
  Z.land (esp c) 0xfffff000 = curr → m !! curr = Some tc →
  abs_schedule idle curr (<[curr := set_t_status TASK_BLOCKED tc]> m) q = Some (n, tn, m', q') →
  is_sem s 0 ws -∗ node (pcb_general_tag curr) -∗ sched m q idle tag -∗
  (if decide (q = []) then node (pcb_general_tag idle) else emp) -∗ aspace tn pte esp0 -∗
  (is_sem s 0 (ws ++ [curr]) -∗
   sched (abs_switch curr (esp c) m') q' idle (pcb_general_tag n) -∗ node (pcb_general_tag n) -∗
   aspace tn pte (n + 4096) -∗
   Q (set_esp (resume_sp n (abs_switch curr (esp c) m'))
        (set_cr3 (directory_of tn pte) (cli_cpu c)))) -∗
  wp (sem_down s) c (switches Q).
Proof.
  iIntros (Hcurr Hm Habs) "[Hv HL] Hn (HR & HT & HG) Hni HA HQ". rewrite /sem_down.
  wp_bind. iApply wp_intr_disable. wp_reduce.
  wp_bind. iApply wp_loop_start. iApply wp_loop_step. rewrite /sem_wait. wp_ldb "Hv".
  wp_bind. iApply running_thread_wp. change (esp (cli_cpu c)) with (esp c). rewrite Hcurr. wp_reduce.
  wp_bind. iApply (elem_find_queue_wp with "HL Hn"). iIntros "HL Hn". wp_reduce.
  wp_bind. iApply wp_when. wp_reduce.
  wp_bind. iApply running_thread_wp. change (esp (cli_cpu c)) with (esp c). rewrite Hcurr. wp_reduce.
  wp_bind. iApply (list_append_wp with "HL Hn"). iIntros "HL". wp_reduce.
  wp_bind. iApply (wp_wand _ _ (switches Q) with "[-]"); last first.
  { iIntros ([? ?|?|?|? ?]) "H //=". }
  iApply (thread_lock_wp with "HR HT HG Hni HA"); [done|done|done|done|].
  rewrite cli_cli. iIntros "HR HT HG Hn HA". iApply ("HQ" with "[Hv HL] [$HR $HT $HG] Hn HA").
  rewrite /is_sem /is_queue fmap_app. iFrame.
Qed.

(** Waiting on a taken semaphore, to the end: the thread is queued and blocked;
    if the others free the semaphore and switch back, the thread takes it and
    goes on, with the interrupt flag it came with. *)
Lemma sem_down_resume_wp me others s m q tc idle tag n tn m' q' pte esp0 c (Φ : res unit → hPropI) :
  Z.land (esp c) 0xfffff000 = me → m !! me = Some tc →
  abs_schedule idle me (<[me := set_t_status TASK_BLOCKED tc]> m) q = Some (n, tn, m', q') →
  stays Φ →
  is_sem s 0 [] -∗ node (pcb_general_tag me) -∗ sched m q idle tag -∗
  (if decide (q = []) then node (pcb_general_tag idle) else emp) -∗ aspace tn pte esp0 -∗
  (is_sem s 0 [me] -∗
   sched (abs_switch me (esp c) m') q' idle (pcb_general_tag n) -∗ node (pcb_general_tag n) -∗
   aspace tn pte (n + 4096) -∗
   wp others (set_esp (resume_sp n (abs_switch me (esp c) m'))
                (set_cr3 (directory_of tn pte) (cli_cpu c)))
     (switches (λ c2, ⌜Z.land (esp c2) 0xfffff000 = me ∧ if_on c2 = false⌝ ∗
        is_sem s 1 [] ∗ (is_sem s 0 [] -∗ Φ (RRet tt (with_status (b2z (if_on c)) c2)))))) -∗
  wpi me others (sem_down s) c Φ.
Proof.
  iIntros (Hcurr Hm Habs Hstays) "[Hv HL] Hn (HR & HT & HG) Hni HA HQ". rewrite /sem_down.
  wpi_bind. iApply wp_intr_disable. wpi_reduce.
  iApply wpi_bind. iApply wpi_loop_start. iApply wpi_loop_step. rewrite /sem_wait. wpi_ldb "Hv".
  wpi_bind. iApply running_thread_wp. change (esp (cli_cpu c)) with (esp c). rewrite Hcurr. wpi_reduce.
  wpi_bind. iApply (elem_find_queue_wp with "HL Hn"). iIntros "HL Hn". wpi_reduce.
  wpi_bind. iApply wp_when. wpi_reduce.
  wpi_bind. iApply running_thread_wp. change (esp (cli_cpu c)) with (esp c). rewrite Hcurr. wpi_reduce.
  wpi_bind. iApply (list_append_wp with "HL Hn"). iIntros "HL". wpi_reduce.
  iApply wpi_bind. iApply (thread_lock_resume_wp with "HR HT HG Hni HA"); [done|done|done|done|auto|].
  rewrite cli_cli. iIntros "HR HT HG Hn HA".
  iDestruct ("HQ" with "[$Hv $HL] [$HR $HT $HG] Hn HA") as "HQ".
  iApply (wp_wand with "HQ"). iIntros ([? ?|c2|?|? ?]) "HQ //=".
  iDestruct "HQ" as "[[%Hpage %Hoff] [[Hv HL] HQ]]". iSplit; [done|].
  rewrite if_on_cli. change (with_status (b2z false) c2) with (cli_cpu c2). rewrite cli_cpu_off //.
  iApply wpi_wp; [auto|]. iApply wp_ret. wpi_reduce. iApply wpi_loop_step.
  rewrite /sem_wait. wpi_ldb "Hv". iApply wpi_wp; [auto|]. iApply wp_ret. wpi_reduce.
  wpi_ldb "Hv". wpi_stb "Hv". change (w8 (1 - 1)) with 0. wpi_ldb "Hv".
  wpi_bind. iApply wp_assert; [done|]. wpi_reduce.
  wpi_bind. iApply wp_intr_set_status. wpi_reduce.
  iApply wpi_wp; [done|]. iApply wp_ret. iApply "HQ". iFrame.
Qed.

(** Releasing a semaphore nobody waits on. *)
Lemma sem_up_idle_wp s c (Φ : res unit → hPropI) :
  is_sem s 0 [] -∗ (is_sem s 1 [] -∗ Φ (RRet tt c)) -∗ wp (sem_up s) c Φ.
Proof.
  iIntros "[Hv HL] HΦ". rewrite /sem_up. wp_bind. iApply wp_intr_disable. wp_reduce.
  wp_ldb "Hv". wp_bind. iApply wp_assert; [done|]. wp_reduce.
  wp_bind. iApply (list_empty_wp with "HL"). iIntros "HL". wp_reduce.
  wp_bind. iApply wp_when. wp_reduce.
  wp_ldb "Hv". wp_stb "Hv". change (w8 (0 + 1)) with 1. wp_ldb "Hv".
  wp_bind. iApply wp_assert; [done|]. wp_reduce.
  wp_bind. iApply wp_intr_restore. wp_reduce. wp_pure. iApply "HΦ". iFrame.
Qed.

(** Releasing it with waiters: the longest waiting becomes ready, ahead of the
    threads that were ready already. *)
Lemma sem_up_wake_wp s w ws m q tw c (Φ : res unit → hPropI) :
  m !! w = Some tw → may_stop (t_status tw) = true →
  is_sem s 0 (w :: ws) -∗ is_queue g_ready_thread_list q -∗ tcbs m -∗
  (is_sem s 1 ws -∗ is_queue g_ready_thread_list (w :: q) -∗
   tcbs (<[w := set_t_status TASK_READY tw]> m) -∗ Φ (RRet tt c)) -∗
  wp (sem_up s) c Φ.
Proof.
  iIntros (Hw Hst) "[Hv HL] HR HT HΦ". rewrite /sem_up.
  wp_bind. iApply wp_intr_disable. wp_reduce.
  wp_ldb "Hv". wp_bind. iApply wp_assert; [done|]. wp_reduce.
  wp_bind. iApply (list_empty_wp with "HL"). iIntros "HL". wp_reduce.
  wp_bind. iApply wp_when. wp_reduce.
  wp_bind. iApply (list_pop_wp with "HL"). iIntros "HL Hn". wp_reduce. rewrite pcb_of_tag.
  iApply (thread_unlock_wp with "HR Hn HT"); [done|done|]. iIntros "HR HT". wp_reduce.
  wp_ldb "Hv". wp_stb "Hv". change (w8 (0 + 1)) with 1. wp_ldb "Hv".
  wp_bind. iApply wp_assert; [done|]. wp_reduce.
  wp_bind. iApply wp_intr_restore. wp_reduce. wp_pure. iApply ("HΦ" with "[$Hv $HL] HR HT").
Qed.

(** Taking a lock whose semaphore is free, and taking again a lock one holds. *)
Lemma lock_acquire_take_wp l holder curr ws c (Φ : res unit → hPropI) :
  Z.land (esp c) 0xfffff000 = curr → holder ≠ curr → 0 <= curr < 2 ^ 32 →
  is_lock l holder 1 0 ws -∗ (is_lock l curr 0 1 ws -∗ Φ (RRet tt c)) -∗
  wp (lock_acquire l) c Φ.
Proof.
  iIntros (Hcurr Hne Hr) "(Hh & Hs & Hn) HΦ". rewrite /lock_acquire. wp_ld "Hh".
  wp_bind. iApply running_thread_wp. rewrite Hcurr. wp_reduce.
  rewrite (proj2 (Z.eqb_neq holder curr)) //. wp_reduce.
  wp_bind. iApply (sem_down_free_wp with "Hs"). iIntros "Hs". wp_reduce.
  wp_bind. iApply running_thread_wp. rewrite Hcurr. wp_reduce. wp_st "Hh".
  rewrite w32_small; [|lia]. wp_ld "Hn".
  wp_bind. iApply wp_assert; [done|]. wp_reduce. wp_st "Hn". iApply "HΦ". iFrame.
Qed.

Lemma lock_acquire_free_wp l curr ws c (Φ : res unit → hPropI) :
  Z.land (esp c) 0xfffff000 = curr → 0 < curr < 2 ^ 32 →
  is_lock l 0 1 0 ws -∗ (is_lock l curr 0 1 ws -∗ Φ (RRet tt c)) -∗ wp (lock_acquire l) c Φ.
Proof. intros Hcurr Hr. apply lock_acquire_take_wp; [done|lia|lia]. Qed.

Lemma lock_acquire_again_wp l curr v n ws c (Φ : res unit → hPropI) :
  Z.land (esp c) 0xfffff000 = curr →
  is_lock l curr v n ws -∗ (is_lock l curr v (w32 (n + 1)) ws -∗ Φ (RRet tt c)) -∗
  wp (lock_acquire l) c Φ.
Proof.
  iIntros (Hcurr) "(Hh & Hs & Hn) HΦ". rewrite /lock_acquire. wp_ld "Hh".
  wp_bind. iApply running_thread_wp. rewrite Hcurr. wp_reduce. rewrite Z.eqb_refl. wp_reduce.
  wp_ld "Hn". wp_st "Hn". iApply "HΦ". iFrame.
Qed.

(** Waiting for a lock somebody else holds. *)
Lemma lock_acquire_block_wp l holder rep ws m q curr tc idle tag n tn m' q' pte esp0 c
    (Q : cpu → hPropI) :
  Z.land (esp c) 0xfffff000 = curr → holder ≠ curr → m !! curr = Some tc →
  abs_schedule idle curr (<[curr := set_t_status TASK_BLOCKED tc]> m) q = Some (n, tn, m', q') →
  is_lock l holder 0 rep ws -∗ node (pcb_general_tag curr) -∗ sched m q idle tag -∗
  (if decide (q = []) then node (pcb_general_tag idle) else emp) -∗ aspace tn pte esp0 -∗
  (is_lock l holder 0 rep (ws ++ [curr]) -∗
   sched (abs_switch curr (esp c) m') q' idle (pcb_general_tag n) -∗ node (pcb_general_tag n) -∗
   aspace tn pte (n + 4096) -∗
   Q (set_esp (resume_sp n (abs_switch curr (esp c) m'))
        (set_cr3 (directory_of tn pte) (cli_cpu c)))) -∗
  wp (lock_acquire l) c (switches Q).
Proof.
  iIntros (Hcurr Hne Hm Habs) "(Hh & Hs & Hrep) Hn HS Hni HA HQ". rewrite /lock_acquire.
  wp_ld "Hh". wp_bind. iApply running_thread_wp. rewrite Hcurr. wp_reduce.
  rewrite (proj2 (Z.eqb_neq holder curr)) //. wp_reduce.
  wp_bind. iApply (wp_wand _ _ (switches Q) with "[-]"); last first.
  { iIntros ([? ?|?|?|? ?]) "H //=". }
  iApply (sem_down_block_wp with "Hs Hn HS Hni HA"); [done|done|done|].
  iIntros "Hs". iApply "HQ". iFrame.
Qed.

(** Giving up one of several holds; giving up the last one. *)
Lemma lock_release_inner_wp l curr v n ws c (Φ : res unit → hPropI) :
  Z.land (esp c) 0xfffff000 = curr → 1 < n →
  is_lock l curr v n ws -∗ (is_lock l curr v (n - 1) ws -∗ Φ (RRet tt c)) -∗
  wp (lock_release l) c Φ.
Proof.
  iIntros (Hcurr Hn1) "(Hh & Hs & Hn) HΦ". rewrite /lock_release. wp_ld "Hh".
  iDestruct (pt32_range with "Hn") as %Hr.
  wp_bind. iApply running_thread_wp. rewrite Hcurr. wp_reduce.
  wp_bind. iApply wp_assert; [by rewrite Z.eqb_refl|]. wp_reduce. wp_ld "Hn".
  rewrite Z.gtb_ltb (proj2 (Z.ltb_lt 1 n)) //. wp_ld "Hn". wp_st "Hn".
  rewrite w32_small; [|lia]. iApply "HΦ". iFrame.
Qed.

Lemma lock_release_idle_wp l curr n c (Φ : res unit → hPropI) :
  Z.land (esp c) 0xfffff000 = curr → n <= 1 →
  is_lock l curr 0 n [] -∗ (is_lock l 0 1 0 [] -∗ Φ (RRet tt c)) -∗
  wp (lock_release l) c Φ.
Proof.
  iIntros (Hcurr Hle) "(Hh & Hs & Hn) HΦ". rewrite /lock_release. wp_ld "Hh".
  wp_bind. iApply running_thread_wp. rewrite Hcurr. wp_reduce.
  wp_bind. iApply wp_assert; [by rewrite Z.eqb_refl|]. wp_reduce. wp_ld "Hn".
  rewrite Z.gtb_ltb (proj2 (Z.ltb_ge 1 n)) //.
  wp_ld "Hn". wp_st "Hn". wp_st "Hh". wp_st "Hn".
  iApply (sem_up_idle_wp with "Hs"). iIntros "Hs". iApply "HΦ". iFrame.
Qed.

Lemma lock_release_wake_wp l curr n w ws m q tw c (Φ : res unit → hPropI) :
  Z.land (esp c) 0xfffff000 = curr → n <= 1 → m !! w = Some tw → may_stop (t_status tw) = true →
  is_lock l curr 0 n (w :: ws) -∗ is_queue g_ready_thread_list q -∗ tcbs m -∗
  (is_lock l 0 1 0 ws -∗ is_queue g_ready_thread_list (w :: q) -∗
   tcbs (<[w := set_t_status TASK_READY tw]> m) -∗ Φ (RRet tt c)) -∗
  wp (lock_release l) c Φ.
Proof.
  iIntros (Hcurr Hle Hw Hst) "(Hh & Hs & Hn) HR HT HΦ". rewrite /lock_release. wp_ld "Hh".
  wp_bind. iApply running_thread_wp. rewrite Hcurr. wp_reduce.
  wp_bind. iApply wp_assert; [by rewrite Z.eqb_refl|]. wp_reduce. wp_ld "Hn".
  rewrite Z.gtb_ltb (proj2 (Z.ltb_ge 1 n)) //.
  wp_ld "Hn". wp_st "Hn". wp_st "Hh". wp_st "Hn".
  iApply (sem_up_wake_wp with "Hs HR HT"); [done|done|].
  iIntros "Hs HR HT". iApply ("HΦ" with "[$Hh $Hs $Hn] HR HT").
Qed.

End spec.

(** ** The interface of locks *)

(** What a lock promises to the code between its acquisition and its release:
    from free ([mutex l 0]) it becomes held by the running thread, and back,
    without blocking when nobody else wants it. *)
Class Mutex (acquire release : Z → M unit) (mutex : Z → Z → hPropI) : Prop := {
  mutex_acquire l curr c (Φ : res unit → hPropI) :
    Z.land (esp c) 0xfffff000 = curr → 0 < curr < 2 ^ 32 →
    mutex l 0 -∗ (mutex l curr -∗ Φ (RRet tt c)) -∗ wp (acquire l) c Φ;
  mutex_release l curr c (Φ : res unit → hPropI) :
    Z.land (esp c) 0xfffff000 = curr → 0 < curr < 2 ^ 32 →
    mutex l curr -∗ (mutex l 0 -∗ Φ (RRet tt c)) -∗ wp (release l) c Φ
}.

(** A lock nobody waits for, free or held once. *)
Definition quiet_lock (l holder : Z) : hPropI :=
  if holder =? 0 then is_lock l 0 1 0 [] else is_lock l holder 0 1 [].

#[export] Instance lock_mutex `{Symbols} : Mutex lock_acquire lock_release quiet_lock.
Proof.
  split; intros l curr c Φ Hcurr Hr; unfold quiet_lock;
    rewrite Z.eqb_refl (proj2 (Z.eqb_neq curr 0)); [|lia| |lia].
  - by apply lock_acquire_free_wp.
  - apply lock_release_idle_wp; [done|lia].
Qed.

(** The critical section: what runs between the two, on the same stack. *)
Lemma wp_critical `{Mutex acquire release mutex} l (body : M unit) c (Φ : res unit → hPropI) :
  0 < Z.land (esp c) 0xfffff000 < 2 ^ 32 →
  mutex l 0 -∗
  wp body c (returns (λ _ c', ⌜Z.land (esp c') 0xfffff000 = Z.land (esp c) 0xfffff000⌝ ∗
                      (mutex l 0 -∗ Φ (RRet tt c')))) -∗
  wp (acquire l ;; body ;; release l) c Φ.
Proof.
  iIntros (Hr) "HL HB". wp_bind. iApply (mutex_acquire with "HL"); [done|done|].
  iIntros "HL". wp_reduce. wp_bind. iApply (wp_wand with "HB").
  iIntros ([a c'|?|?|? ?]) "H //=". iDestruct "H" as "[%Hsp HK]".
  iApply (mutex_release with "HL"); [done|done|]. iIntros "HL". by iApply "HK".
Qed.

(** ** Concrete locks *)

Definition sem_cells (s v : Z) (ws : list Z) : list (Z * list Z) :=
  (sem_value s, [v]) :: list_cells (sem_waiter s) (pcb_general_tag <$> ws).

Definition lock_cells (l holder v n : Z) (ws : list Z) : list (Z * list Z) :=
  (lock_holder l, word_bytes holder) :: (lock_holder_repeat_num l, word_bytes n) ::
  sem_cells (lock_sem l) v ws.

Definition sem_ok (s : Z) (ws : list Z) : bool :=
  bool_decide (0 <= sem_waiter s ∧ sem_waiter s + 16 <= 2 ^ 32) &&
  forallb addr_ok (pcb_general_tag <$> ws).

Lemma sem_cells_models s v ws : sem_ok s ws = true → cells (sem_cells s v ws) ⊢ is_sem s v ws.
Proof.
  intros [H1 H2]%andb_true_iff. unfold sem_cells.
  rewrite cells_cons bytes_cons bytes_nil list_cells_models //.
  iIntros "([H1 _] & H2)". iFrame.
Qed.

Lemma lock_cells_models l holder v n ws :
  addr_ok holder && addr_ok n && sem_ok (lock_sem l) ws = true →
  cells (lock_cells l holder v n ws) ⊢ is_lock l holder v n ws.
Proof.
  intros [[H1%bool_decide_eq_true H2%bool_decide_eq_true]%andb_true_iff H3]%andb_true_iff.
  unfold lock_cells. rewrite !cells_word // sem_cells_models //. iIntros "($ & $ & $)".
Qed.

(** ** Properties *)

Section properties.
Context `{Symbols}.
Implicit Types (c : cpu) (ws q : list Z).

(** A lock is reentrant: its holder may take it again without blocking itself,
    and it is free again after as many releases, not before. *)
Theorem lock_reentrant l curr c :
  Z.land (esp c) 0xfffff000 = curr → 0 < curr < 2 ^ 32 →
  {{ is_lock l 0 1 0 [] }}
    (lock_acquire l ;; lock_acquire l ;; lock_release l ;;
     holder <- ld32 (lock_holder l); lock_release l ;; ret holder) @ c
  {{ r c', ⌜r = curr ∧ c' = c⌝ ∗ is_lock l 0 1 0 [] }}.
Proof.
  intros Hcurr Hr. apply triple_wp. iIntros "HL".
  wp_bind. iApply (lock_acquire_free_wp with "HL"); [done|done|]. iIntros "HL". wp_reduce.
  wp_bind. iApply (lock_acquire_again_wp with "HL"); [done|]. iIntros "HL". wp_reduce.
  wp_bind. iApply (lock_release_inner_wp with "HL"); [done|done|]. iIntros "HL". wp_reduce.
  iDestruct "HL" as "(Hh & HL)". wp_ld "Hh".
  wp_bind. iApply (lock_release_idle_wp with "[$Hh $HL]"); [done|done|]. iIntros "HL". wp_reduce.
  wp_pure. by iFrame.
Qed.

(** A contended lock: the thread that asks joins the end of the waiters,
    blocked, and another thread runs; the holder keeps the lock. *)
Theorem lock_acquire_contended l holder rep ws m q curr tc idle tag n tn m' q' pte esp0 c :
  Z.land (esp c) 0xfffff000 = curr → holder ≠ curr → m !! curr = Some tc →
  abs_schedule idle curr (<[curr := set_t_status TASK_BLOCKED tc]> m) q = Some (n, tn, m', q') →
  {{ is_lock l holder 0 rep ws ∗ node (pcb_general_tag curr) ∗ sched m q idle tag ∗
     (if decide (q = []) then node (pcb_general_tag idle) else emp) ∗ aspace tn pte esp0 }}
    (lock_acquire l) @ c
  {{ switch c',
     ⌜c' = set_esp (resume_sp n (abs_switch curr (esp c) m'))
             (set_cr3 (directory_of tn pte) (cli_cpu c))⌝ ∗
     is_lock l holder 0 rep (ws ++ [curr]) ∗
     sched (abs_switch curr (esp c) m') q' idle (pcb_general_tag n) ∗
     node (pcb_general_tag n) ∗ aspace tn pte (n + 4096) }}.
Proof.
  intros Hcurr Hne Hm Habs. apply triple_wp. iIntros "(HL & Hn & HS & Hni & HA)".
  iApply (lock_acquire_block_wp with "HL Hn HS Hni HA"); [done..|].
  iIntros "HL HS Hn HA". by iFrame.
Qed.

(** Releasing a lock frees it and makes the thread that has waited longest,
    and only that one, ready, in front of the others. *)
Theorem lock_release_wakes l curr w ws m q tw c :
  Z.land (esp c) 0xfffff000 = curr → m !! w = Some tw → may_stop (t_status tw) = true →
  {{ is_lock l curr 0 1 (w :: ws) ∗ is_queue g_ready_thread_list q ∗ tcbs m }}
    (lock_release l) @ c
  {{ r c', ⌜c' = c⌝ ∗ is_lock l 0 1 0 ws ∗ is_queue g_ready_thread_list (w :: q) ∗
           tcbs (<[w := set_t_status TASK_READY tw]> m) }}.
Proof.
  intros Hcurr Hw Hst. apply triple_wp. iIntros "(HL & HR & HT)".
  iApply (lock_release_wake_wp with "HL HR HT"); [done..|]. iIntros "HL HR HT /=". by iFrame.
Qed.

(** Releasing a lock one does not hold stops the system, and leaves the lock
    alone. *)
Theorem lock_release_not_holder l holder v n ws c :
  Z.land (esp c) 0xfffff000 ≠ holder →
  {{ is_lock l holder v n ws }} (lock_release l) @ c
  {{ panic c', ⌜if_on c' = false⌝ ∗ is_lock l holder v n ws }}.
Proof.
  intros Hne. apply triple_wp. iIntros "(Hh & HL)". rewrite /lock_release. wp_ld "Hh".
  wp_bind. iApply running_thread_wp. wp_reduce. wp_bind.
  rewrite (proj2 (Z.eqb_neq holder _)); [|done]. rewrite /ASSERT.
  iApply wp_exception_report. simpl. iFrame. iPureIntro. by rewrite if_on_report.
Qed.

End properties.

(** ** Witnesses *)

#[local] Existing Instance link_map.

(** A lock in the demonstration states. *)
Definition demo_lock : Z := 0xc0020000.

Lemma lock_reentrant_witness :
  ∃ r h', exec (lock_acquire demo_lock ;; lock_acquire demo_lock ;; lock_release demo_lock ;;
      holder <- ld32 (lock_holder demo_lock); lock_release demo_lock ;; ret holder)%prog cpu_a
      (mem_of (lock_cells demo_lock 0 1 0 [])) r h' ∧
    h' ⊨ (returns (λ r c', ⌜r = 0xc009e000 ∧ c' = cpu_a⌝ ∗ is_lock demo_lock 0 1 0 []) r).
Proof.
  eapply triple_run.
  - apply (@lock_reentrant link_map demo_lock 0xc009e000 cpu_a); [reflexivity|lia].
  - eapply models_mono; [|apply mem_of_models; vm_compute; reflexivity].
    by apply lock_cells_models.
Defined.

Lemma lock_acquire_contended_witness :
  ∃ r h', exec (@lock_acquire link_map demo_lock) cpu_a
      (mem_of (two_threads ++ lock_cells demo_lock 0xc0101000 0 1 [])) r h' ∧
    h' ⊨ (switches (λ c', is_lock demo_lock 0xc0101000 0 1 [0xc009e000]) r).
Proof.
  destruct (two_threads_schedule TASK_BLOCKED) as (m' & q' & E & Hsp); [set_solver|].
  edestruct (triple_run _ _ _ _ (mem_of (two_threads ++ lock_cells demo_lock 0xc0101000 0 1 []))
    (@lock_acquire_contended link_map demo_lock 0xc0101000 1 [] (list_to_map [thread_a; thread_b])
       [0xc0101000] 0xc009e000 thread_a.2 0xc0102000 0 _ _ _ _ 0 0 cpu_a eq_refl
       ltac:(done) two_threads_a E)) as (r & h' & Hx & Hq).
  - eapply models_mono; [|apply mem_of_models; vm_compute; reflexivity].
    rewrite cells_app two_threads_cells lock_cells_models //.
    iIntros "[[$ $] $]". by iSplit.
  - exists r, h'. split; [done|]. eapply models_mono; [|apply Hq].
    destruct r; simpl; [by iIntros "[]"| |by iIntros "[]"..]. by iIntros "(_ & $ & _)".
Defined.

Lemma idle_lookup :
  (list_to_map [thread_a; thread_idle] : gmap Z tcb) !! 0xc0102000 = Some thread_idle.2.
Proof. vm_compute. reflexivity. Qed.

Lemma lock_release_wakes_witness :
  ∃ r h', exec (@lock_release link_map demo_lock) cpu_a
      (mem_of (@sched_cells link_map [thread_a; thread_idle] [] 0xc0102000 0 ++
               lock_cells demo_lock 0xc009e000 0 1 [0xc0102000])) r h' ∧
    h' ⊨ (returns (λ _ c', ⌜c' = cpu_a⌝ ∗ is_lock demo_lock 0 1 0 [] ∗
                   @is_queue (@g_ready_thread_list link_map) [0xc0102000]) r).
Proof.
  edestruct (triple_run _ _ _ _ (mem_of (@sched_cells link_map [thread_a; thread_idle] [] 0xc0102000 0 ++
      lock_cells demo_lock 0xc009e000 0 1 [0xc0102000]))
    (@lock_release_wakes link_map demo_lock 0xc009e000 0xc0102000 []
       (list_to_map [thread_a; thread_idle]) [] thread_idle.2 cpu_a eq_refl
       idle_lookup eq_refl)) as (r & h' & Hx & Hq).
  - eapply models_mono; [|apply mem_of_models; vm_compute; reflexivity].
    rewrite cells_app sched_cells_models; [|vm_compute; reflexivity].
    rewrite lock_cells_models //. iIntros "[($ & $ & _) $]".
  - exists r, h'. split; [done|]. eapply models_mono; [|apply Hq].
    destruct r; simpl; [|by iIntros "[]"..]. by iIntros "($ & $ & $ & _)".
Defined.

Lemma lock_release_not_holder_witness :
  ∃ r h', exec (@lock_release link_map demo_lock) cpu_a
      (mem_of (lock_cells demo_lock 0xc0101000 0 1 [])) r h' ∧
    h' ⊨ (panics (λ c', ⌜if_on c' = false⌝ ∗ is_lock demo_lock 0xc0101000 0 1 [])%I r).
Proof.
  eapply triple_run.
  - apply (@lock_release_not_holder link_map demo_lock 0xc0101000 0 1 [] cpu_a). done.
  - eapply models_mono; [|apply mem_of_models; vm_compute; reflexivity].
    by apply lock_cells_models.
Defined.
