(* ===== verification/Handoff.v ===== *)
(** A lock from one thread to the next: a kernel thread that asks for a lock
    another one holds, followed past its blocking until it has the lock. *)
From S2P Require Export Sync.

(** ** Giving up the processor *)

Section yield.
Context `{Symbols}.
Implicit Types (c : cpu) (m : gmap Z tcb) (q : list Z).

(** Control blocks start pages, tags do not: the assertion of [thread_yield]
    holds whatever is queued. *)
Lemma control_block_no_tag q p :
  Forall (λ p, p mod 4096 = 0) (p :: q) → p ∉ pcb_general_tag <$> q.
Proof.
  intros [Hp Hq]%Forall_cons (p' & -> & Hp')%list_elem_of_fmap.
  rewrite Forall_forall in Hq. specialize (Hq p' Hp'). unfold pcb_general_tag in Hp.
  Z.div_mod_to_equations. lia.
Qed.

Lemma thread_yield_wp m q curr tc idle tag n tn m' q' pte esp0 c (Q : cpu → hPropI) :
  Z.land (esp c) 0xfffff000 = curr → m !! curr = Some tc →
  Forall (λ p, p mod 4096 = 0) (curr :: q) →
  abs_schedule idle curr (<[curr := set_t_status TASK_READY tc]> m) (q ++ [curr]) =
    Some (n, tn, m', q') →
  is_queue g_ready_thread_list q -∗ tcbs m -∗ sched_globals idle tag -∗
  node (pcb_general_tag curr) -∗ aspace tn pte esp0 -∗
  (is_queue g_ready_thread_list q' -∗ tcbs (abs_switch curr (esp c) m') -∗
   sched_globals idle (pcb_general_tag n) -∗ node (pcb_general_tag n) -∗
   aspace tn pte (n + 4096) -∗
   Q (set_esp (resume_sp n (abs_switch curr (esp c) m'))
        (set_cr3 (directory_of tn pte) (cli_cpu c)))) -∗
  wp thread_yield c (switches Q).
Proof.
  iIntros (Hcurr Hm Hpages Habs) "HL HT HG Hn HA HQ". rewrite /thread_yield.
  wp_bind. iApply running_thread_wp. rewrite Hcurr. wp_reduce.
  wp_bind. iApply wp_intr_disable. wp_reduce.
  wp_bind. iApply (elem_find_wp with "HL"). iIntros "HL".
  rewrite bool_decide_false; [|by apply control_block_no_tag]. wp_reduce.
  wp_bind. iApply wp_assert; [done|]. wp_reduce.
  wp_bind. iApply (list_append_wp with "HL Hn"). iIntros "HL". wp_reduce.
  iDestruct (tcbs_acc with "HT") as "[(%Hp & Hsp & Hs & Hr) HT]"; [done|]. wp_st "Hs".
  iDestruct ("HT" $! (set_t_status TASK_READY tc) with "[$Hsp $Hs $Hr //]") as "HT".
  wp_bind. iApply (wp_wand _ _ (switches Q) with "[-]"); last first.
  { iIntros ([? ?|?|?|? ?]) "H //=". }
  iApply (schedule_wp _ (q ++ [curr]) curr _ _ _ _ _ _ _ _ _ (cli_cpu c) Q
    with "[HL] HT HG [] [] HA HQ").
  - apply if_on_cli.
  - done.
  - by rewrite lookup_insert_eq.
  - done.
  - by rewrite /is_queue fmap_app.
  - done.
  - rewrite decide_False; [done|]. intros [E _]. by destruct q.
Qed.

End yield.

(** ** From holder to waiter *)

Lemma tcbs_pages m :
  tcbs m ⊢ ⌜map_Forall (λ p _, 0 < p ∧ p + 4096 < 2 ^ 32 ∧ p mod 4096 = 0) m⌝.
Proof.
  iIntros "HT" (p t Hp). by iDestruct (tcbs_acc with "HT") as "[(% & _) _]".
Qed.

(** A thread once it has been blocked by another one and woken. *)
Definition woken (sp : Z) (t : tcb) : tcb := set_t_status TASK_RUNNING (set_t_sp (w32 sp) t).

Section handoff.
Context `{Symbols}.
Implicit Types (c : cpu) (m : gmap Z tcb) (q : list Z).

Context (me h idle : Z) (tm th : tcb).
Hypothesis Hne : me ≠ h.

Definition blocked_map m : gmap Z tcb :=
  <[h := set_t_status TASK_RUNNING th]> (<[me := set_t_status TASK_BLOCKED tm]> m).

Lemma block_schedule m q :
  m !! h = Some th →
  abs_schedule idle me (<[me := set_t_status TASK_BLOCKED tm]> m) (h :: q) =
    Some (h, set_t_status TASK_RUNNING th, blocked_map m, q).
Proof.
  intros Hh. unfold abs_schedule, abs_requeue. rewrite lookup_insert_eq /=.
  by rewrite lookup_insert_ne // Hh.
Qed.

Lemma blocked_lookup m sp :
  abs_switch me sp (blocked_map m) !! me =
    Some (set_t_sp (w32 sp) (set_t_status TASK_BLOCKED tm)).
Proof.
  unfold abs_switch, blocked_map. by rewrite lookup_alter_eq lookup_insert_ne // lookup_insert_eq.
Qed.

Lemma holder_lookup m sp t :
  <[me := t]> (abs_switch me sp (blocked_map m)) !! h = Some (set_t_status TASK_RUNNING th).
Proof.
  unfold abs_switch, blocked_map. by rewrite lookup_insert_ne // lookup_alter_ne // lookup_insert_eq.
Qed.

(** The control blocks when the waiter is woken and the holder yields. *)
Definition back_map m (sp : Z) : gmap Z tcb :=
  <[me := woken sp tm]> (<[h := set_t_status TASK_READY th]> m).

Lemma yield_schedule m q sp :
  let ready := set_t_status TASK_READY (set_t_sp (w32 sp) (set_t_status TASK_BLOCKED tm)) in
  abs_schedule idle h
    (<[h := set_t_status TASK_READY (set_t_status TASK_RUNNING th)]>
       (<[me := ready]> (abs_switch me sp (blocked_map m)))) ((me :: q) ++ [h]) =
    Some (me, woken sp tm, back_map m sp, q ++ [h]).
Proof.
  intros ready. unfold abs_schedule, abs_requeue. rewrite lookup_insert_eq /=.
  rewrite lookup_insert_ne // lookup_insert_eq /=. do 4 f_equal.
  apply map_eq. intros p. unfold back_map, abs_switch, blocked_map.
  destruct (decide (p = me)) as [->|]; [by rewrite !lookup_insert_eq|].
  destruct (decide (p = h)) as [->|].
  - by rewrite lookup_insert_ne // lookup_insert_eq lookup_insert_ne // lookup_insert_eq.
  - by rewrite !lookup_insert_ne // lookup_alter_ne // !lookup_insert_ne.
Qed.

Lemma back_threads m q sp sp' :
  kernel_threads me (h :: q) m → m !! me = Some tm → m !! h = Some th →
  me ∉ q → h ∉ q → Z.land (w32 sp') 0xfffff000 = h →
  kernel_threads me (q ++ [h]) (abs_switch h sp' (back_map m sp)).
Proof.
  intros (_ & Hall & Hsp) Hm Hh Hmq Hhq Hpage.
  assert (t_pgdir tm = 0 ∧ t_pgdir th = 0) as [E1 E2].
  { destruct (Hall me) as (? & ? & ?); [set_solver|]. destruct (Hall h) as (? & ? & ?); [set_solver|].
    by simplify_eq. }
  assert (∀ p, p ≠ me → p ≠ h → abs_switch h sp' (back_map m sp) !! p = m !! p) as Hother.
  { intros p ??. unfold abs_switch, back_map. by rewrite lookup_alter_ne // !lookup_insert_ne. }
  assert (abs_switch h sp' (back_map m sp) !! me = Some (woken sp tm)) as Hme'.
  { unfold abs_switch, back_map. by rewrite lookup_alter_ne // lookup_insert_eq. }
  assert (abs_switch h sp' (back_map m sp) !! h =
    Some (set_t_sp (w32 sp') (set_t_status TASK_READY th))) as Hh'.
  { unfold abs_switch, back_map. by rewrite lookup_alter_eq lookup_insert_ne // lookup_insert_eq. }
  split_and!.
  - by exists (woken sp tm).
  - intros p Hp. destruct (decide (p = me)) as [->|]; [by exists (woken sp tm)|].
    destruct (decide (p = h)) as [->|]; [rewrite Hh'; eexists; split; [done|done]|].
    rewrite Hother //. apply Hall. set_solver.
  - intros p t Hp. destruct (decide (p = h)) as [->|]; [rewrite Hh'; intros [= <-]; done|].
    assert (p ≠ me) by set_solver. rewrite Hother //. apply Hsp. set_solver.
Qed.

End handoff.

Lemma esp_with_status st c : esp (with_status st c) = esp c.
Proof. unfold with_status. by destruct (negb _). Qed.

Lemma if_on_with_status b c : if_on (with_status (b2z b) c) = b.
Proof. destruct b; [apply if_on_sti|apply if_on_cli]. Qed.

(** ** Properties *)

Section properties.
Context `{Symbols}.
Implicit Types (c : cpu) (q : list Z).

(** C13: A contended lock is handed over: the thread that asks for it sleeps; when
    its holder, once it runs, releases the lock and gives up the processor, the
    waiter comes next, before all that were ready, takes the lock, and goes on
    with the stack and the interrupt flag it came with. *)
Theorem lock_handoff l me h idle q c :
  Z.land (esp c) 0xfffff000 = me → 0 <= esp c < 2 ^ 32 →
  {{ is_lock l h 0 1 [] ∗ round_robin idle me (h :: q) }}
    (interleave me (lock_release l ;; thread_yield) (lock_acquire l)) @ c
  {{ r c', ⌜esp c' = esp c ∧ if_on c' = if_on c⌝ ∗
           is_lock l me 0 1 [] ∗ round_robin idle me (q ++ [h]) }}.
Proof.
  intros Hme Hr. apply triple_wp. iIntros "[(Hh & Hs & Hrep) (%m & %tag & %Hk & (HL & HT & HG) & Hn)]".
  pose proof Hk as ((tm & Htm & Hrun) & Hall & Hsp).
  iDestruct (queue_node_ne with "HL Hn") as %[Hne Hmq]%not_elem_of_cons.
  iDestruct (queue_nodup with "HL") as %[Hhq Hnd]%NoDup_cons.
  iDestruct (tcbs_pages with "HT") as %Hpages.
  destruct (Hall h) as (th & Hth & Hdir); [set_solver|].
  destruct (Hall me) as (tm' & Htm' & Hdirm); [set_solver|].
  rewrite Htm in Htm'. injection Htm' as <-.
  assert (Forall (λ p, p mod 4096 = 0) (h :: me :: q)) as Hal.
  { apply Forall_forall. intros p Hp. destruct (Hall p) as (tp & Htp & _); [set_solver|].
    by apply (Hpages p tp). }
  iDestruct (tcbs_acc m h th with "HT") as "[(%Hp & Hsph & Hrh) HT]"; [done|].
  iDestruct (pt32_range with "Hsph") as %Hspr.
  iDestruct ("HT" $! th with "[$Hsph $Hrh //]") as "HT". rewrite insert_id //.
  assert (Z.land (t_sp th) 0xfffff000 = h) as Hpage by (apply (Hsp h); [set_solver|done]).
  iEval (rewrite -/(wpi _ _ _ _ _)). rewrite /lock_acquire.
  wpi_ld "Hh". wpi_bind. iApply running_thread_wp. rewrite Hme. wpi_reduce.
  rewrite (proj2 (Z.eqb_neq h me)) //. wpi_reduce. iApply wpi_bind.
  iApply (sem_down_resume_wp me _ _ m (h :: q) tm idle tag h _ _ q 0 0 with "Hs Hn [$HL $HT $HG] [] []");
    [done|done|by apply block_schedule|auto|done|by rewrite /aspace /= Hdir|].
  iIntros "Hs (HL & HT & HG) Hn _".
  assert (resume_sp h (abs_switch me (esp c) (blocked_map me h tm th m)) = t_sp th) as ->.
  { unfold resume_sp, abs_switch, blocked_map.
    by rewrite lookup_alter_ne // lookup_insert_eq. }
  wp_bind. iApply (lock_release_wake_wp l h 1 me [] _ q _ with "[$Hh $Hs $Hrep] HL HT");
    [done|done|by apply blocked_lookup|done|].
  iIntros "(Hh & Hs & Hrep) HL HT". wp_reduce.
  iApply (thread_yield_wp _ (me :: q) h _ _ _ _ _ _ _ 0 0 with "HL HT HG Hn []");
    [done|by apply holder_lookup|done|by apply yield_schedule|by rewrite /aspace /= Hdirm|].
  iIntros "HL HT HG Hn _".
  assert (resume_sp me (abs_switch h (t_sp th) (back_map me h tm th m (esp c))) = esp c) as Hre.
  { unfold resume_sp, abs_switch, back_map. rewrite lookup_alter_ne // lookup_insert_eq /=.
    by apply w32_small. }
  cbn [esp set_esp]. rewrite Hre. set (c2 := set_esp (esp c) _).
  iSplit; [iPureIntro; split; [exact Hme|apply if_on_cli]|]. iFrame "Hs". iIntros "Hs".
  wpi_reduce. wpi_bind. iApply running_thread_wp. rewrite esp_with_status. change (esp c2) with (esp c).
  rewrite Hme. wpi_reduce. wpi_st "Hh". wpi_ld "Hrep".
  wpi_bind. iApply wp_assert; [done|]. wpi_reduce. iApply wpi_wp; [auto|].
  wp_st "Hrep". simpl. iSplit; [by rewrite esp_with_status if_on_with_status|].
  rewrite (w32_small me); [|destruct (Hpages me tm Htm); lia]. iFrame "Hh Hs Hrep".
  iExists _, _. iFrame "HL HT HG Hn". iPureIntro.
  apply back_threads; [done..|]. rewrite w32_small; [done|lia].
Qed.

End properties.

(** ** Witnesses *)

#[local] Existing Instance link_map.

(** Thread a asks for the lock that thread b holds. *)
Lemma lock_handoff_witness :
  ∃ r h', exec (interleave 0xc009e000 (lock_release demo_lock ;; thread_yield)%prog
                  (lock_acquire demo_lock)) cpu_a
      (mem_of (two_threads ++ lock_cells demo_lock 0xc0101000 0 1 [])) r h' ∧
    h' ⊨ (returns (λ r c', ⌜esp c' = esp cpu_a ∧ if_on c' = if_on cpu_a⌝ ∗
            is_lock demo_lock 0xc009e000 0 1 [] ∗
            round_robin 0xc0102000 0xc009e000 ([] ++ [0xc0101000]))%I r).
Proof.
  eapply triple_run.
  - apply (lock_handoff demo_lock 0xc009e000 0xc0101000 0xc0102000 [] cpu_a);
      [reflexivity|simpl; lia].
  - eapply models_mono; [|apply mem_of_models; vm_compute; reflexivity].
    rewrite cells_app two_threads_cells lock_cells_models //. iIntros "[[HS Hn] $]".
    iExists _, _. iFrame. iPureIntro. split_and!.
    + exists thread_a.2. split; reflexivity.
    + intros p Hp. assert (p = 0xc009e000 ∨ p = 0xc0101000) as [-> | ->] by set_solver.
      * exists thread_a.2. split; reflexivity.
      * exists thread_b.2. split; reflexivity.
    + intros p t ->%list_elem_of_singleton Ht. vm_compute in Ht. simplify_eq. reflexivity.
Defined.
