(* ===== verification/Locks.v ===== *)
(** thread/sync.c under preemption: one lock used by any number of threads that
    may be interrupted between any two memory accesses.  The statements of
    [lock_acquire] and [lock_release] are the steps of a transition system;
    only [sem_down] and [sem_up], which run with interrupts off, are single
    steps, cut where [sem_down] blocks. *)
From S2P Require Export Sync.

Module Preempt.

(** ** States *)

(** Where a thread is in its call. *)
Inductive pc :=
  | Idle           (* in no call *)
  (* lock_acquire *)
  | AcqTest        (* if (plock->holder != running_thread()) *)
  | AcqDown        (* sem_down(&(plock->sem)) *)
  | Waiting        (* in sem_down, blocked in the list of waiters *)
  | Woken          (* in sem_down, ready again, about to test the value *)
  | AcqHolder      (* plock->holder = running_thread() *)
  | AcqCheck       (* ASSERT(plock->holder_repeat_num == 0) *)
  | AcqSet         (* plock->holder_repeat_num = 1 *)
  | AgainLd        (* ++(plock->holder_repeat_num), the load *)
  | AgainSt (n : Z)                               (* and the store *)
  (* lock_release *)
  | RelTest        (* ASSERT(plock->holder == running_thread()) *)
  | RelLd          (* if (plock->holder_repeat_num > 1) *)
  | InnerLd        (* --(plock->holder_repeat_num); return *)
  | InnerSt (n : Z)
  | LastLd         (* --(plock->holder_repeat_num) *)
  | LastSt (n : Z)
  | RelHolder      (* plock->holder = 0 *)
  | RelZero        (* plock->holder_repeat_num = 0 *)
  | RelUp.         (* sem_up(&plock->sem) *)

#[export] Instance pc_eq_dec : EqDecision pc.
Proof. solve_decision. Defined.

(** The lock: struct lock and the value and waiters of its semaphore. *)
Record lock_state := Lk {
  lk_holder : Z; lk_value : Z; lk_repeat : Z; lk_waiters : list Z
}.

(** What a statement does: go on at another one, perhaps having woken a
    thread, or fail an assertion. *)
Inductive turn :=
  | Go (p : pc) (l : lock_state) (woken : option Z)
  | Fails.

(** ** Statements *)

(** [sem_down] from the test of its loop, by thread [t]. *)
Definition down_turn (t : Z) (l : lock_state) : turn :=
  if lk_value l =? 0 then
    if decide (t ∈ lk_waiters l) then Fails
    else Go Waiting (Lk (lk_holder l) (lk_value l) (lk_repeat l) (lk_waiters l ++ [t])) None
  else
    let v := w8 (lk_value l - 1) in
    if v =? 0 then Go AcqHolder (Lk (lk_holder l) v (lk_repeat l) (lk_waiters l)) None
    else Fails.

Definition up_turn (l : lock_state) : turn :=
  if lk_value l =? 0 then
    let v := w8 (lk_value l + 1) in
    if v =? 1 then
      Go Idle (Lk (lk_holder l) v (lk_repeat l) (tail (lk_waiters l))) (head (lk_waiters l))
    else Fails
  else Fails.

(** The statement at [p], by thread [t]; [None] where there is none to run. *)
Definition turn_of (t : Z) (p : pc) (l : lock_state) : option turn :=
  let set_holder h := Lk h (lk_value l) (lk_repeat l) (lk_waiters l) in
  let set_repeat n := Lk (lk_holder l) (lk_value l) n (lk_waiters l) in
  match p with
  | Idle | Waiting => None
  | AcqTest => Some (Go (if lk_holder l =? t then AgainLd else AcqDown) l None)
  | AcqDown | Woken => Some (down_turn t l)
  | AcqHolder => Some (Go AcqCheck (set_holder t) None)
  | AcqCheck => Some (if lk_repeat l =? 0 then Go AcqSet l None else Fails)
  | AcqSet => Some (Go Idle (set_repeat 1) None)
  | AgainLd => Some (Go (AgainSt (lk_repeat l)) l None)
  | AgainSt n => Some (Go Idle (set_repeat (w32 (n + 1))) None)
  | RelTest => Some (if lk_holder l =? t then Go RelLd l None else Fails)
  | RelLd => Some (Go (if lk_repeat l >? 1 then InnerLd else LastLd) l None)
  | InnerLd => Some (Go (InnerSt (lk_repeat l)) l None)
  | InnerSt n => Some (Go Idle (set_repeat (w32 (n - 1))) None)
  | LastLd => Some (Go (LastSt (lk_repeat l)) l None)
  | LastSt n => Some (Go RelHolder (set_repeat (w32 (n - 1))) None)
  | RelHolder => Some (Go RelZero (set_holder 0) None)
  | RelZero => Some (Go RelUp (set_repeat 0) None)
  | RelUp => Some (up_turn l)
  end.

(** ** Steps *)

(** Each thread is at a statement, and has a number of acquisitions it has not
    yet released. *)
Abbreviation threads := (gmap Z (pc * nat)).
Record system := Sys { sys_lock : lock_state; sys_threads : threads }.

(** The count when a call that was at [p] returns. *)
Definition depth_after (p p' : pc) (d : nat) : nat :=
  match p' with
  | Idle => match p with InnerSt _ | RelUp => pred d | _ => S d end
  | _ => d
  end.

(** [thread_unlock] on the woken thread; it fails on one that is not blocked. *)
Definition wake (w : option Z) (T : threads) : option threads :=
  match w with
  | None => Some T
  | Some u => pd ← T !! u; if decide (pd.1 = Waiting) then Some (<[u := (Woken, pd.2)]> T) else None
  end.

(** Thread [t] runs; the outcome [None] is a failed assertion.  A client calls
    [lock_release] only as often as it has called [lock_acquire], and nests
    less than 2^32 calls. *)
Inductive step : system → option system → Prop :=
  | step_call_acquire l T t d :
      T !! t = Some (Idle, d) → Z.of_nat d + 1 < 2 ^ 32 →
      step (Sys l T) (Some (Sys l (<[t := (AcqTest, d)]> T)))
  | step_call_release l T t d :
      T !! t = Some (Idle, d) → (0 < d)%nat →
      step (Sys l T) (Some (Sys l (<[t := (RelTest, d)]> T)))
  | step_turn l T t p d p' l' w :
      T !! t = Some (p, d) → turn_of t p l = Some (Go p' l' w) →
      step (Sys l T) (Sys l' <$> wake w (<[t := (p', depth_after p p' d)]> T))
  | step_fails l T t p d :
      T !! t = Some (p, d) → turn_of t p l = Some Fails →
      step (Sys l T) None.

(** From a lock just initialised and threads in no call. *)
Definition initial (s : system) : Prop :=
  sys_lock s = Lk 0 1 0 [] ∧ sys_threads s !! 0 = None ∧
  ∀ t p d, sys_threads s !! t = Some (p, d) → p = Idle ∧ d = O.

Inductive reachable : system → Prop :=
  | reach_initial s : initial s → reachable s
  | reach_step s s' : reachable s → step s (Some s') → reachable s'.

(** Between the return of [lock_acquire] and the call of the last
    [lock_release]. *)
Definition in_section (s : system) (t : Z) : Prop :=
  ∃ d, sys_threads s !! t = Some (Idle, d) ∧ (0 < d)%nat.

(** ** Invariant *)

(** What holds of the thread that has taken the semaphore, and of the others. *)
Definition owner_ok (t : Z) (l : lock_state) (p : pc) (d : nat) : Prop :=
  let n := Z.of_nat d in
  match p with
  | Idle | RelTest | RelLd => (0 < n < 2 ^ 32) ∧ lk_holder l = t ∧ lk_repeat l = n
  | AcqTest | AgainLd => (0 < n) ∧ (n + 1 < 2 ^ 32) ∧ lk_holder l = t ∧ lk_repeat l = n
  | AgainSt k => (0 < n) ∧ (n + 1 < 2 ^ 32) ∧ lk_holder l = t ∧ lk_repeat l = n ∧ k = n
  | AcqHolder => d = O ∧ lk_holder l = 0 ∧ lk_repeat l = 0
  | AcqCheck | AcqSet => d = O ∧ lk_holder l = t ∧ lk_repeat l = 0
  | InnerLd => (1 < n < 2 ^ 32) ∧ lk_holder l = t ∧ lk_repeat l = n
  | InnerSt k => (1 < n < 2 ^ 32) ∧ lk_holder l = t ∧ lk_repeat l = n ∧ k = n
  | LastLd => d = 1%nat ∧ lk_holder l = t ∧ lk_repeat l = 1
  | LastSt k => d = 1%nat ∧ lk_holder l = t ∧ lk_repeat l = 1 ∧ k = 1
  | RelHolder => d = 1%nat ∧ lk_holder l = t ∧ lk_repeat l = 0
  | RelZero | RelUp => d = 1%nat ∧ lk_holder l = 0 ∧ lk_repeat l = 0
  | AcqDown | Waiting | Woken => False
  end.

Definition other_ok (p : pc) (d : nat) : Prop :=
  d = O ∧ (p = Idle ∨ p = AcqTest ∨ p = AcqDown ∨ p = Waiting ∨ p = Woken).

(** The list of waiters holds the blocked threads, each once. *)
Definition waiters_ok (ws : list Z) (T : threads) : Prop :=
  NoDup ws ∧ ∀ t, t ∈ ws ↔ ∃ d, T !! t = Some (Waiting, d).

(** [o] has taken the semaphore. *)
Record inv (s : system) (o : option Z) : Prop := Inv {
  inv_zero : sys_threads s !! 0 = None;
  inv_threads t p d : sys_threads s !! t = Some (p, d) →
    if decide (o = Some t) then owner_ok t (sys_lock s) p d else other_ok p d;
  inv_owner :
    match o with
    | None => lk_value (sys_lock s) = 1 ∧ lk_holder (sys_lock s) = 0 ∧ lk_repeat (sys_lock s) = 0
    | Some t => lk_value (sys_lock s) = 0 ∧ is_Some (sys_threads s !! t) ∧
                (lk_holder (sys_lock s) = 0 ∨ lk_holder (sys_lock s) = t)
    end;
  inv_waiters : waiters_ok (lk_waiters (sys_lock s)) (sys_threads s);
  inv_woken : o = None → lk_waiters (sys_lock s) ≠ [] →
    ∃ t d, sys_threads s !! t = Some (Woken, d)
}.

(** *** The list of waiters *)

Lemma waiters_same ws T t p d p' d' :
  T !! t = Some (p, d) → p ≠ Waiting → p' ≠ Waiting →
  waiters_ok ws T → waiters_ok ws (<[t := (p', d')]> T).
Proof.
  intros Ht Hp Hp' [Hnd Hw]. split; [done|]. intros u. rewrite Hw.
  destruct (decide (u = t)) as [->|Hne].
  - rewrite lookup_insert_eq. split; intros [e He]; simplify_eq.
  - by rewrite lookup_insert_ne.
Qed.

Lemma waiters_block ws T t p d d' :
  T !! t = Some (p, d) → t ∉ ws → waiters_ok ws T →
  waiters_ok (ws ++ [t]) (<[t := (Waiting, d')]> T).
Proof.
  intros Ht Hn [Hnd Hw]. split.
  - apply NoDup_app. split_and!; [done|set_solver|apply NoDup_singleton].
  - intros u. rewrite elem_of_app list_elem_of_singleton Hw.
    destruct (decide (u = t)) as [->|Hne].
    + rewrite lookup_insert_eq. split; [by eexists|by right].
    + rewrite lookup_insert_ne //. split; [by intros [?|?]|by left].
Qed.

Lemma waiters_wake w ws T d :
  T !! w = Some (Waiting, d) → waiters_ok (w :: ws) T → waiters_ok ws (<[w := (Woken, d)]> T).
Proof.
  intros Hw' [[Hn Hnd]%NoDup_cons Hw]. split; [done|]. intros u.
  destruct (decide (u = w)) as [->|Hne].
  - rewrite lookup_insert_eq. split; [done|by intros [? [=]]].
  - rewrite lookup_insert_ne // -Hw elem_of_cons. naive_solver.
Qed.

(** *** Preservation, by the kind of step *)

(** A step that keeps the semaphore, its waiters and who has taken it. *)
Lemma inv_stay l T o t p d l' p' d' :
  inv (Sys l T) o → T !! t = Some (p, d) →
  lk_value l' = lk_value l → lk_waiters l' = lk_waiters l →
  p ≠ Waiting → p ≠ Woken → p' ≠ Waiting →
  (if decide (o = Some t)
   then owner_ok t l' p' d' ∧ (lk_holder l' = 0 ∨ lk_holder l' = t)
   else other_ok p' d' ∧ l' = l) →
  inv (Sys l' (<[t := (p', d')]> T)) o.
Proof.
  intros [Hz Hthr Hown Hwait Hwk] Ht Hv Hws Hp Hp2 Hp' Hok; simpl in *.
  assert (t ≠ 0) by (intros ->; congruence).
  split; simpl.
  - by rewrite lookup_insert_ne.
  - intros u q e Hu. destruct (decide (u = t)) as [->|Hne].
    + rewrite lookup_insert_eq in Hu. injection Hu as <- <-.
      destruct (decide (o = Some t)); apply Hok.
    + rewrite lookup_insert_ne // in Hu. specialize (Hthr u q e Hu).
      destruct (decide (o = Some t)) as [->|]; [|by destruct Hok as [_ ->]].
      rewrite decide_False in Hthr; [|congruence]. by rewrite decide_False; [|congruence].
  - destruct (decide (o = Some t)) as [->|Hno].
    + destruct Hok as [_ Hh]. rewrite Hv lookup_insert_eq. split_and!; [apply Hown|by eexists|done].
    + destruct Hok as [_ ->]. destruct o as [o|]; [|done]. destruct Hown as (? & [x Hx] & ?).
      split_and!; [done| |done]. rewrite lookup_insert_ne; [by eexists|congruence].
  - rewrite Hws. by eapply waiters_same.
  - rewrite Hws. intros Ho Hne. destruct (Hwk Ho Hne) as (u & e & Hu). exists u, e.
    rewrite lookup_insert_ne //. intros ->. by simplify_eq.
Qed.

(** A thread finds the semaphore taken and blocks. *)
Lemma inv_block l T o t p d :
  inv (Sys l T) (Some o) → T !! t = Some (p, d) → o ≠ t → t ∉ lk_waiters l →
  inv (Sys (Lk (lk_holder l) 0 (lk_repeat l) (lk_waiters l ++ [t]))
         (<[t := (Waiting, O)]> T)) (Some o).
Proof.
  intros [Hz Hthr Hown Hwait Hwk] Ht Hne Hn; simpl in *.
  assert (t ≠ 0) by (intros ->; congruence).
  split; simpl; [by rewrite lookup_insert_ne| | |by eapply waiters_block|done].
  - intros u q e Hu. destruct (decide (u = t)) as [->|Hne'].
    + rewrite lookup_insert_eq in Hu. simplify_eq. rewrite decide_False; [|congruence].
      split; [done|]. tauto.
    + rewrite lookup_insert_ne // in Hu. specialize (Hthr u q e Hu). by case_decide.
  - destruct Hown as (? & [x Hx] & ?). split_and!; [done| |done].
    rewrite lookup_insert_ne; [by eexists|congruence].
Qed.

(** A thread finds the semaphore free and takes it. *)
Lemma inv_take l T t p d :
  inv (Sys l T) None → T !! t = Some (p, d) → p ≠ Waiting → d = O →
  inv (Sys (Lk (lk_holder l) 0 (lk_repeat l) (lk_waiters l)) (<[t := (AcqHolder, d)]> T)) (Some t).
Proof.
  intros [Hz Hthr (Hv & Hh & Hr) Hwait Hwk] Ht Hp Hd; simpl in *.
  assert (t ≠ 0) by (intros ->; congruence).
  split; simpl; [by rewrite lookup_insert_ne| | |by eapply waiters_same|done].
  - intros u q e Hu. destruct (decide (u = t)) as [->|Hne'].
    + rewrite lookup_insert_eq in Hu. simplify_eq. rewrite decide_True //.
    + rewrite lookup_insert_ne // in Hu. specialize (Hthr u q e Hu). simpl in *.
      by rewrite decide_False; [|congruence].
  - rewrite lookup_insert_eq. split_and!; [done|by eexists|by left].
Qed.

(** The owner gives it up and wakes the first waiter. *)
Lemma inv_give_up l T t T' :
  inv (Sys l T) (Some t) → T !! t = Some (RelUp, 1%nat) →
  wake (head (lk_waiters l)) (<[t := (Idle, O)]> T) = Some T' →
  inv (Sys (Lk (lk_holder l) 1 (lk_repeat l) (tail (lk_waiters l))) T') None.
Proof.
  intros [Hz Hthr (Hv & _ & Hho) Hwait Hwk] Ht Hwake; simpl in *.
  pose proof (Hthr t _ _ Ht) as Hme. rewrite decide_True // in Hme. destruct Hme as (_ & Hh & Hr).
  assert (t ≠ 0) as Ht0 by (intros ->; congruence).
  assert (∀ u q e, <[t := (Idle, O)]> T !! u = Some (q, e) → other_ok q e) as Hall.
  { intros u q e Hu. destruct (decide (u = t)) as [->|Hne].
    - rewrite lookup_insert_eq in Hu. simplify_eq. split; [done|by left].
    - rewrite lookup_insert_ne // in Hu. specialize (Hthr u q e Hu).
      by rewrite decide_False in Hthr; [|congruence]. }
  assert (waiters_ok (lk_waiters l) (<[t := (Idle, O)]> T)) as Hw'.
  { by eapply waiters_same. }
  destruct (lk_waiters l) as [|w ws]; simpl in *.
  - simplify_eq. split; simpl; [by rewrite lookup_insert_ne| |done|done|done].
    intros u q e Hu. by apply (Hall u).
  - destruct (<[t := (Idle, O)]> T !! w) as [[q e]|] eqn:Hw; simpl in Hwake; [|done].
    case_decide; simplify_eq/=.
    assert (w ≠ 0) by (intros ->; rewrite lookup_insert_ne in Hw; congruence).
    split; simpl; [by rewrite !lookup_insert_ne| |done|by eapply waiters_wake|].
    + intros u q' e' Hu. destruct (decide (u = w)) as [->|Hne].
      * rewrite lookup_insert_eq in Hu. simplify_eq. destruct (Hall w _ _ Hw). split; [done|tauto].
      * rewrite lookup_insert_ne // in Hu. by apply (Hall u).
    + intros _ _. exists w, e. by rewrite lookup_insert_eq.
Qed.

(** *** Every statement *)

(** What a statement must be shown to do: it does not fail, and leads to
    another state of the invariant. *)
Definition turn_ok (T : threads) (t : Z) (p : pc) (d : nat) (r : turn) : Prop :=
  ∃ p' l' w T' o', r = Go p' l' w ∧
    wake w (<[t := (p', depth_after p p' d)]> T) = Some T' ∧ inv (Sys l' T') o'.

Lemma turn_ok_owner l T t p d p' l' :
  inv (Sys l T) (Some t) → T !! t = Some (p, d) → owner_ok t l p d →
  lk_value l' = lk_value l → lk_waiters l' = lk_waiters l →
  owner_ok t l' p' (depth_after p p' d) → (lk_holder l' = 0 ∨ lk_holder l' = t) →
  turn_ok T t p d (Go p' l' None).
Proof.
  intros Hinv Ht Hp Hv Hw Hp' Hh. do 5 eexists. split_and!; [done|done|].
  eapply inv_stay; [done|done|done|done| | | |by rewrite decide_True];
    intros ->; simpl in *; done.
Qed.

(** The owner's statements. *)
Lemma owner_turn_ok l T t p d r :
  inv (Sys l T) (Some t) → T !! t = Some (p, d) → turn_of t p l = Some r →
  turn_ok T t p d r.
Proof.
  intros Hinv Ht Hr. pose proof (inv_threads _ _ Hinv t p d Ht) as Hp.
  rewrite decide_True //= in Hp. pose proof (inv_owner _ _ Hinv) as (Hv & _ & _); simpl in *.
  destruct (decide (p = RelUp)) as [->|Hne].
  { destruct Hp as (-> & Hh & Hrep). simpl in Hr. unfold up_turn in Hr. rewrite Hv /= in Hr.
    injection Hr as <-.
    destruct (wake (head (lk_waiters l)) (<[t := (Idle, O)]> T)) as [T'|] eqn:Hw.
    - do 5 eexists. split_and!; [done|done|]. by eapply inv_give_up.
    - exfalso. destruct (inv_waiters _ _ Hinv) as [_ Hws]; simpl in Hws.
      destruct (lk_waiters l) as [|w ws]; [done|]. simpl in Hw.
      destruct (proj1 (Hws w)) as [e He]; [by left|].
      rewrite lookup_insert_ne in Hw; [|intros ->; congruence]. by rewrite He /= in Hw. }
  destruct p; simpl in Hp, Hr; try done; simplify_eq; destruct_and?; simplify_eq/=.
  - rewrite Z.eqb_refl. eapply turn_ok_owner; [done|done|done|done|done|done|by right].
  - eapply turn_ok_owner; [done|done|done|done|done|done|by right].
  - rewrite (proj2 (Z.eqb_eq (lk_repeat l) 0)) //.
    eapply turn_ok_owner; [done|done|done|done|done|done|by right].
  - eapply turn_ok_owner; [done|done|done|done|done| |by right]. simpl. lia.
  - eapply turn_ok_owner; [done|done|done|done|done| |by right]. simpl. lia.
  - eapply turn_ok_owner; [done|done|done|done|done| |by right]. simpl.
    rewrite w32_small; lia.
  - rewrite Z.eqb_refl. eapply turn_ok_owner; [done|done|done|done|done| |by right]. simpl. lia.
  - rewrite Z.gtb_ltb. destruct (Z.ltb_spec 1 (lk_repeat l)).
    + eapply turn_ok_owner; [done|done|done|done|done| |by right]. simpl. lia.
    + eapply turn_ok_owner; [done|done|done|done|done| |by right]. simpl. lia.
  - eapply turn_ok_owner; [done|done|done|done|done| |by right]. simpl. lia.
  - eapply turn_ok_owner; [done|done|done|done|done| |by right]. simpl.
    rewrite w32_small; lia.
  - eapply turn_ok_owner; [done|done|done|done|done| |by right]. simpl. lia.
  - eapply turn_ok_owner; [done|done|done|done|done| |by right]. done.
  - eapply turn_ok_owner; [done|done|done|done|done| |by left]. done.
  - eapply turn_ok_owner; [done|done|done|done|done| |by left]. done.
Qed.

(** The statements of the others. *)
Lemma down_turn_ok l T o t p d :
  inv (Sys l T) o → T !! t = Some (p, d) → o ≠ Some t → d = O → p = AcqDown ∨ p = Woken →
  turn_ok T t p d (down_turn t l).
Proof.
  intros Hinv Ht Ho -> Hp. pose proof (inv_owner _ _ Hinv) as Hown; simpl in Hown.
  pose proof (inv_waiters _ _ Hinv) as [_ Hws]; simpl in Hws.
  unfold down_turn. destruct o as [o|].
  - destruct Hown as (-> & _). rewrite decide_False; last first.
    { rewrite Hws. intros [e He]. destruct Hp; congruence. }
    do 5 eexists. split_and!; [done|done|].
    destruct Hp as [-> | ->]; simpl; (eapply inv_block; [done|done|congruence|]);
      rewrite Hws; intros [e He]; congruence.
  - destruct Hown as (-> & _). simpl. do 5 eexists. split_and!; [done|done|].
    change (w8 (1 - 1)) with 0. destruct Hp as [-> | ->]; simpl; by eapply inv_take.
Qed.

Lemma other_turn_ok l T o t p d r :
  inv (Sys l T) o → T !! t = Some (p, d) → o ≠ Some t → turn_of t p l = Some r →
  turn_ok T t p d r.
Proof.
  intros Hinv Ht Ho Hr. pose proof (inv_threads _ _ Hinv t p d Ht) as Hp.
  rewrite decide_False //= in Hp. destruct Hp as [Hd Hp].
  destruct Hp as [->|[->|[->|[->| ->]]]]; simpl in Hr; simplify_eq.
  - assert ((lk_holder l =? t) = false) as ->.
    { apply Z.eqb_neq. pose proof (inv_owner _ _ Hinv) as Hown; simpl in Hown.
      assert (t ≠ 0) by (intros ->; pose proof (inv_zero _ _ Hinv); simpl in *; congruence).
      destruct o as [o|]; [|lia]. assert (o ≠ t) by congruence. lia. }
    do 5 eexists. split_and!; [done|done|].
    eapply inv_stay; [done|done|done|done|done|done|done|]. rewrite decide_False //.
    split; [split; [done|tauto]|done].
  - by eapply down_turn_ok; [..|left].
  - by eapply down_turn_ok; [..|right].
Qed.

Lemma step_ok s o r : inv s o → step s r → ∃ s' o', r = Some s' ∧ inv s' o'.
Proof.
  intros Hinv Hstep.
  assert (∀ l T t p d r, s = Sys l T → T !! t = Some (p, d) → turn_of t p l = Some r →
            turn_ok T t p d r) as Hturn.
  { intros l T t p d r' -> Ht Hr. destruct (decide (o = Some t)) as [->|Ho].
    - by eapply owner_turn_ok.
    - by eapply other_turn_ok. }
  destruct Hstep as [l T t d Ht Hd|l T t d Ht Hd|l T t p d p' l' w Ht Hr|l T t p d Ht Hr].
  - eexists _, o. split; [done|]. pose proof (inv_threads _ _ Hinv t _ _ Ht) as Hp.
    pose proof (inv_owner _ _ Hinv) as Hown; simpl in Hown.
    eapply inv_stay; [done|done|done|done|done|done|done|]. destruct (decide (o = Some t)) as [->|].
    + simpl in *. destruct Hp as (? & ? & ?). split; [|by right]. split_and!; [lia|lia|done|done].
    + split; [|done]. destruct Hp as [? _]. split; [done|tauto].
  - eexists _, o. split; [done|]. pose proof (inv_threads _ _ Hinv t _ _ Ht) as Hp.
    eapply inv_stay; [done|done|done|done|done|done|done|]. destruct (decide (o = Some t)) as [->|].
    + simpl in *. split; [done|]. right. apply Hp.
    + destruct Hp as [? _]. lia.
  - destruct (Hturn l T t p d _ eq_refl Ht Hr) as (q & k & u & T' & o' & E & Hw & Hi).
    injection E as -> -> ->. rewrite Hw /=. by exists (Sys k T'), o'.
  - by destruct (Hturn l T t p d _ eq_refl Ht Hr) as (? & ? & ? & ? & ? & [=] & _).
Qed.

Lemma initial_inv s : initial s → inv s None.
Proof.
  destruct s as [l T]. unfold initial; simpl. intros (-> & H0 & HT). split; simpl; try done.
  - intros t p d Ht. destruct (HT t p d Ht) as [-> ->]. split; [done|by left].
  - split; [apply NoDup_nil_2|]. intros t. split; [by intros ?%elem_of_nil|].
    intros [d Ht]. by destruct (HT t _ _ Ht).
Qed.

Lemma reachable_inv s : reachable s → ∃ o, inv s o.
Proof.
  induction 1 as [s Hs|s s' _ [o IH] Hstep]; [exists None; by apply initial_inv|].
  destruct (step_ok _ _ _ IH Hstep) as (? & o' & [=] & Hi). subst. by exists o'.
Qed.

(** ** Calls that are not interrupted *)

(** The statements of a call from [p] to its return, by thread [t] alone. *)
Fixpoint solo (n : nat) (t : Z) (p : pc) (l : lock_state) : option (lock_state * option Z) :=
  match n with
  | O => None
  | S n =>
      match turn_of t p l with
      | Some (Go Idle l' w) => Some (l', w)
      | Some (Go p' l' None) => solo n t p' l'
      | _ => None
      end
  end.

Definition is_lk (pl : Z) (l : lock_state) : hPropI :=
  is_lock pl (lk_holder l) (lk_value l) (lk_repeat l) (lk_waiters l).

Lemma solo_acquire n t l l' w :
  solo n t AcqTest l = Some (l', w) → 0 <= lk_value l < 256 →
  w = None ∧ lk_waiters l' = lk_waiters l ∧
  if lk_holder l =? t
  then l' = Lk (lk_holder l) (lk_value l) (w32 (lk_repeat l + 1)) (lk_waiters l)
  else lk_value l = 1 ∧ lk_repeat l = 0 ∧ l' = Lk t 0 1 (lk_waiters l).
Proof.
  intros Hn Hv. destruct n as [|n]; simpl in Hn; [done|].
  destruct (lk_holder l =? t) eqn:Hh.
  - destruct n as [|[|n]]; simpl in Hn; simplify_eq. done.
  - destruct n as [|n]; simpl in Hn; [done|]. unfold down_turn in Hn.
    destruct (Z.eqb_spec (lk_value l) 0) as [E|E].
    { case_decide; [done|]. by destruct n. }
    rewrite w8_small in Hn; [|lia]. destruct (Z.eqb_spec (lk_value l - 1) 0) as [E1|]; [|done].
    destruct n as [|[|[|n]]]; simpl in Hn; simplify_eq;
      destruct (Z.eqb_spec (lk_repeat l) 0); simplify_eq/=; split_and!; try done; [lia|].
    by rewrite E1.
Qed.

Lemma solo_release n t l l' w :
  solo n t RelTest l = Some (l', w) →
  lk_holder l = t ∧
  if lk_repeat l >? 1
  then w = None ∧ l' = Lk t (lk_value l) (w32 (lk_repeat l - 1)) (lk_waiters l)
  else lk_value l = 0 ∧ w = head (lk_waiters l) ∧ l' = Lk 0 1 0 (tail (lk_waiters l)).
Proof.
  intros Hn. destruct n as [|n]; simpl in Hn; [done|].
  destruct (Z.eqb_spec (lk_holder l) t) as [<-|]; [|done].
  destruct n as [|n]; simpl in Hn; [done|]. destruct (lk_repeat l >? 1).
  - destruct n as [|[|n]]; simpl in Hn; simplify_eq. done.
  - destruct n as [|[|[|[|[|n]]]]]; simpl in Hn; try done. unfold up_turn in Hn; simpl in Hn.
    destruct (Z.eqb_spec (lk_value l) 0) as [E|]; [|done]. rewrite E in Hn.
    change (w8 (0 + 1) =? 1) with true in Hn. by simplify_eq/=.
Qed.

(** ** Schedules *)

(** A schedule says which thread runs next and, where it is in no call, what
    it calls. *)
Inductive move := CallAcquire | CallRelease | Turn.

Definition play1 (s : system) (tm : Z * move) : option system :=
  pd ← sys_threads s !! tm.1;
  let start p := Some (Sys (sys_lock s) (<[tm.1 := (p, pd.2)]> (sys_threads s))) in
  match tm.2 with
  | CallAcquire =>
      if decide (pd.1 = Idle ∧ Z.of_nat pd.2 + 1 < 2 ^ 32) then start AcqTest else None
  | CallRelease => if decide (pd.1 = Idle ∧ (0 < pd.2)%nat) then start RelTest else None
  | Turn =>
      r ← turn_of tm.1 pd.1 (sys_lock s);
      match r with
      | Go p l w => Sys l <$> wake w (<[tm.1 := (p, depth_after pd.1 p pd.2)]> (sys_threads s))
      | Fails => None
      end
  end.

Fixpoint play (ms : list (Z * move)) (s : system) : option system :=
  match ms with
  | [] => Some s
  | m :: ms => s' ← play1 s m; play ms s'
  end.

Lemma play1_step s tm s' : play1 s tm = Some s' → step s (Some s').
Proof.
  destruct s as [l T], tm as [t mv]. unfold play1; simpl.
  destruct (T !! t) as [[p d]|] eqn:Ht; simpl; [|done]. intros Hp. destruct mv.
  - case_decide as Hd; simplify_eq. destruct Hd as [-> Hd]. by constructor.
  - case_decide as Hd; simplify_eq. destruct Hd as [-> Hd]. by constructor.
  - destruct (turn_of t p l) as [[p' l' w|]|] eqn:Hr; simpl in Hp; [|done..].
    rewrite -Hp. by eapply step_turn.
Qed.

Lemma play_reachable ms s s' : reachable s → play ms s = Some s' → reachable s'.
Proof.
  revert s. induction ms as [|m ms IH]; intros s Hs Hp; simpl in Hp; [by simplify_eq|].
  destruct (play1 s m) as [s1|] eqn:H1; simpl in Hp; [|done].
  eapply IH; [|done]. eapply reach_step; [done|]. by eapply play1_step.
Qed.

End Preempt.
Import Preempt.

(** ** Properties *)

(** The threads after a release: the woken one is ready. *)
Definition woken_tcbs (w : option Z) (m : gmap Z tcb) : gmap Z tcb :=
  match w with None => m | Some u => alter (set_t_status TASK_READY) u m end.

Section properties.
Context `{Symbols}.

(** C3: In every state threads can reach, preempted between any two accesses, no
    assertion of [lock_acquire], [lock_release], [sem_down], [sem_up] or
    [thread_unlock] fails, and at most one thread is in the critical section. *)
Theorem lock_mutual_exclusion s t1 t2 :
  reachable s →
  ¬ step s None ∧ (in_section s t1 → in_section s t2 → t1 = t2).
Proof.
  intros [o Hinv]%reachable_inv. split.
  - intros Hs. by destruct (step_ok _ _ _ Hinv Hs) as (? & ? & [=] & _).
  - assert (∀ t, in_section s t → o = Some t) as Ho.
    { intros t (d & Ht & Hd). pose proof (inv_threads _ _ Hinv _ _ _ Ht) as Hp.
      case_decide; [done|]. destruct Hp as [-> _]. lia. }
    intros H1%Ho H2%Ho. congruence.
Qed.

(** C4: No wake-up is lost: while a thread is blocked, another thread that is not
    blocked has the semaphore or has been woken to take it. *)
Theorem lock_no_lost_wakeup s t d :
  reachable s → sys_threads s !! t = Some (Waiting, d) →
  ∃ u p e, sys_threads s !! u = Some (p, e) ∧ p ≠ Waiting ∧
    if lk_value (sys_lock s) =? 0 then owner_ok u (sys_lock s) p e else p = Woken.
Proof.
  intros [o Hinv]%reachable_inv Ht. pose proof (inv_owner _ _ Hinv) as Hown.
  destruct o as [u|].
  - destruct Hown as (-> & [[p e] Hu] & _). exists u, p, e.
    pose proof (inv_threads _ _ Hinv _ _ _ Hu) as Hp. rewrite decide_True // in Hp.
    split_and!; [done| |done]. by intros ->.
  - destruct Hown as (-> & _). destruct (inv_woken _ _ Hinv) as (u & e & Hu); [done| |].
    + intros E. assert (t ∈ lk_waiters (sys_lock s)) as Hin.
      { apply (proj2 (inv_waiters _ _ Hinv)). by exists d. }
      rewrite E in Hin. by apply elem_of_nil in Hin.
    + by exists u, Woken, e.
Qed.

(** C16: The transition system is the code: a call of [lock_acquire] or
    [lock_release] that its steps take from a lock to another without blocking
    changes the lock in memory just so. *)
Theorem lock_calls_refine n m' pl l l' w q m t c :
  Z.land (esp c) 0xfffff000 = t → 0 <= t < 2 ^ 32 →
  (∀ u, w = Some u → ∃ tu, m !! u = Some tu ∧ may_stop (t_status tu) = true) →
  solo n t AcqTest l = Some (l', w) ∧ m' = lock_acquire pl ∨
  solo n t RelTest l = Some (l', w) ∧ m' = lock_release pl →
  {{ is_lk pl l ∗ is_queue g_ready_thread_list q ∗ tcbs m }} m' @ c
  {{ r c', ⌜c' = c⌝ ∗ is_lk pl l' ∗
           is_queue g_ready_thread_list (option_list w ++ q) ∗ tcbs (woken_tcbs w m) }}.
Proof.
  intros Ht Hr Hw Hcall. apply triple_wp. iIntros "(HL & HR & HT)". rewrite /is_lk.
  destruct Hcall as [[Hs ->]|[Hs ->]].
  - iDestruct "HL" as "(Hh & [Hv HQ] & Hn)". iDestruct (pt_range with "Hv") as %Hv.
    destruct (solo_acquire _ _ _ _ _ Hs Hv) as (-> & _ & Hl').
    destruct (Z.eqb_spec (lk_holder l) t) as [E|E].
    + rewrite Hl' E /=. iApply (lock_acquire_again_wp with "[$Hh $Hv $HQ $Hn]"); [done|].
      iIntros "HL /=". by iFrame.
    + destruct Hl' as (Hv1 & Hr0 & ->). rewrite Hv1 Hr0.
      iApply (lock_acquire_take_wp with "[$Hh $Hv $HQ $Hn]"); [done|done|done|].
      iIntros "HL /=". by iFrame.
  - destruct (solo_release _ _ _ _ _ Hs) as [E Hl']. rewrite E. rewrite Z.gtb_ltb in Hl'.
    destruct (Z.ltb_spec 1 (lk_repeat l)) as [H1|H1].
    + destruct Hl' as [-> ->]. iDestruct "HL" as "(Hh & HS & Hn)".
      iDestruct (pt32_range with "Hn") as %Hn. rewrite /= w32_small; [|lia].
      iApply (lock_release_inner_wp with "[$Hh $HS $Hn]"); [done|done|]. iIntros "HL /=". by iFrame.
    + destruct Hl' as (Hv & -> & ->). rewrite Hv /=. destruct (lk_waiters l) as [|u ws]; simpl.
      * iApply (lock_release_idle_wp with "HL"); [done|done|]. iIntros "HL /=". by iFrame.
      * destruct (Hw u eq_refl) as (tu & Hu & Hst).
        iApply (lock_release_wake_wp with "HL HR HT"); [done..|]. iIntros "HL HR HT /=".
        assert (alter (set_t_status TASK_READY) u m = <[u := set_t_status TASK_READY tu]> m) as ->.
        { apply map_eq. intros v. destruct (decide (v = u)) as [->|].
          - by rewrite lookup_alter_eq lookup_insert_eq Hu.
          - by rewrite lookup_alter_ne // lookup_insert_ne. }
        by iFrame.
Qed.

End properties.

(** ** Witnesses *)

(** Two threads.  The first is interrupted inside [lock_acquire], after
    [sem_down]; the second calls and blocks; the first goes on. *)
Definition idle_system : system :=
  Sys (Lk 0 1 0 []) {[0x1000 := (Idle, O); 0x2000 := (Idle, O)]}.

Definition contended_moves : list (Z * move) :=
  [(0x1000, CallAcquire); (0x1000, Turn); (0x2000, CallAcquire); (0x1000, Turn); (0x2000, Turn);
   (0x2000, Turn); (0x1000, Turn); (0x1000, Turn); (0x1000, Turn)].

Definition contended : system :=
  Sys (Lk 0x1000 0 1 [0x2000]) {[0x1000 := (Idle, 1%nat); 0x2000 := (Waiting, O)]}.

Lemma idle_system_reachable : reachable idle_system.
Proof.
  apply reach_initial. split_and!; [reflexivity|reflexivity|].
  intros t p d Ht. unfold idle_system in Ht; simpl in Ht.
  apply lookup_insert_Some in Ht as [[_ [= <- <-]]|[_ Ht]]; [done|].
  by apply lookup_singleton_Some in Ht as [_ [= <- <-]].
Qed.

Lemma contended_reachable : reachable contended.
Proof.
  apply (play_reachable contended_moves idle_system); [apply idle_system_reachable|].
  vm_compute. reflexivity.
Qed.

Lemma lock_mutual_exclusion_witness :
  reachable contended ∧ in_section contended 0x1000 ∧
  ¬ step contended None ∧ ∀ t, in_section contended t → t = 0x1000.
Proof.
  assert (in_section contended 0x1000) as H1 by (exists 1%nat; split; [reflexivity|lia]).
  split; [apply contended_reachable|]. split; [exact H1|].
  split; [by apply (lock_mutual_exclusion contended 0 0), contended_reachable|].
  intros t Ht. by apply (lock_mutual_exclusion contended t 0x1000 contended_reachable).
Defined.

Lemma lock_no_lost_wakeup_witness :
  ∃ u p e, sys_threads contended !! u = Some (p, e) ∧ p ≠ Waiting ∧
    owner_ok u (sys_lock contended) p e.
Proof.
  exact (lock_no_lost_wakeup contended 0x2000 O contended_reachable eq_refl).
Defined.

#[local] Existing Instance link_map.

(** Releasing the contended lock: the waiter is made ready. *)
Lemma lock_calls_refine_witness :
  ∃ r h', exec (lock_release demo_lock) cpu_a
      (mem_of (sched_cells [thread_a; thread_idle] [] 0xc0102000 0 ++
               lock_cells demo_lock 0xc009e000 0 1 [0xc0102000])) r h' ∧
    h' ⊨ (returns (λ _ c', ⌜c' = cpu_a⌝ ∗ is_lk demo_lock (Lk 0 1 0 []) ∗
                   is_queue g_ready_thread_list [0xc0102000]) r).
Proof.
  edestruct (triple_run _ _ _ _ (mem_of (sched_cells [thread_a; thread_idle] [] 0xc0102000 0 ++
      lock_cells demo_lock 0xc009e000 0 1 [0xc0102000]))
    (lock_calls_refine 7 (lock_release demo_lock) demo_lock (Lk 0xc009e000 0 1 [0xc0102000])
       (Lk 0 1 0 []) (Some 0xc0102000) [] (list_to_map [thread_a; thread_idle]) 0xc009e000 cpu_a
       eq_refl ltac:(lia)
       ltac:(intros u [= <-]; exists thread_idle.2; split; [exact idle_lookup|reflexivity])
       (or_intror (conj eq_refl eq_refl)))) as (r & h' & Hx & Hq).
  - eapply models_mono; [|apply mem_of_models; vm_compute; reflexivity].
    rewrite cells_app sched_cells_models; [|vm_compute; reflexivity].
    rewrite lock_cells_models //. iIntros "[($ & $ & _) $]".
  - exists r, h'. split; [done|]. eapply models_mono; [|apply Hq].
    destruct r; simpl; [|by iIntros "[]"..]. by iIntros "($ & $ & $ & _)".
Defined.
