(* ===== verification/Memory.v ===== *)
(** kernel/memory.c: the physical and virtual page pools, page mappings, and
    the allocation and release of runs of pages. *)
From S2P Require Export Bitmap Sync.

(** ** Layouts *)

(** struct pool *)
Definition pool_bitmap (p : Z) : Z := p.
Definition pool_phy_start_addr (p : Z) : Z := p + 8.
Definition pool_mem_size (p : Z) : Z := p + 12.
Definition pool_lock (p : Z) : Z := p + 16.

(** struct virtual_addrs *)
Definition vaddr_bitmap (v : Z) : Z := v.
Definition vaddr_start (v : Z) : Z := v + 8.

(** enum pool_flags *)
Definition PF_KERNEL : Z := 1.
Definition PF_USER : Z := 2.

Definition KERNEL_HEAP_START : Z := 0xc0100000.
Definition KERNEL_BITMAP_START : Z := 0xc009a000.
(** userprog/process.h *)
Definition DIV_ROUND_UP (x step : Z) : Z := w32 (x + step - 1) / step.

Section memory.
Context `{Symbols, Frames}.

(** ** Pages *)

Definition mem_pool_init (all_mem : Z) : M unit :=
  let page_table_size := PAGE_SIZE * 256 in
  let kernel_pool_start_addr := page_table_size + 0x00100000 in
  let free_mem := w32 (all_mem - kernel_pool_start_addr) in
  let free_mem_page := free_mem / PAGE_SIZE in
  let kernel_mem_page := w16 (free_mem_page / 2) in
  let user_mem_page := w16 (free_mem_page - kernel_mem_page) in
  let user_pool_start_addr := w32 (kernel_pool_start_addr + kernel_mem_page * PAGE_SIZE) in
  st32 (pool_phy_start_addr g_kernel_pool) kernel_pool_start_addr ;;
  st32 (pool_mem_size g_kernel_pool) (kernel_mem_page * PAGE_SIZE) ;;
  st32 (bitmap_len_of (pool_bitmap g_kernel_pool)) (kernel_mem_page / 8) ;;
  lock_init (pool_lock g_kernel_pool) ;;
  st32 (pool_phy_start_addr g_user_pool) user_pool_start_addr ;;
  st32 (pool_mem_size g_user_pool) (user_mem_page * PAGE_SIZE) ;;
  st32 (bitmap_len_of (pool_bitmap g_user_pool)) (user_mem_page / 8) ;;
  lock_init (pool_lock g_user_pool) ;;
  st32 (bitmap_bits_of (pool_bitmap g_kernel_pool)) KERNEL_BITMAP_START ;;
  len <- ld32 (bitmap_len_of (pool_bitmap g_kernel_pool));
  st32 (bitmap_bits_of (pool_bitmap g_user_pool)) (KERNEL_BITMAP_START + len) ;;
  putStr "    kernel_pool_bitmap_start: " ;;
  (x <- ld32 (bitmap_bits_of (pool_bitmap g_kernel_pool)); putInt x) ;;
  putStr "    kernel_pool_phy_start: " ;;
  (x <- ld32 (pool_phy_start_addr g_kernel_pool); putInt x) ;;
  putChar 10 ;;
  putStr "    user_pool_bitmap_start:   " ;;
  (x <- ld32 (bitmap_bits_of (pool_bitmap g_user_pool)); putInt x) ;;
  putStr "    user_pool_phy_start: " ;;
  (x <- ld32 (pool_phy_start_addr g_user_pool); putInt x) ;;
  putChar 10 ;;
  bitmap_init (pool_bitmap g_kernel_pool) ;;
  bitmap_init (pool_bitmap g_user_pool) ;;
  bits <- ld32 (bitmap_bits_of (pool_bitmap g_user_pool));
  len <- ld32 (bitmap_len_of (pool_bitmap g_user_pool));
  st32 (bitmap_bits_of (vaddr_bitmap g_kernel_vaddr)) (bits + len) ;;
  len <- ld32 (bitmap_len_of (pool_bitmap g_kernel_pool));
  st32 (bitmap_len_of (vaddr_bitmap g_kernel_vaddr)) len ;;
  st32 (vaddr_start g_kernel_vaddr) KERNEL_HEAP_START ;;
  bitmap_init (vaddr_bitmap g_kernel_vaddr) ;;
  putStr "mem pool init done\n".

(** The pages of a run, marked one by one. *)
Definition set_bits (btmp bitstart cnt value : Z) : M unit :=
  for_ 0 cnt (λ counter, bitmap_set btmp (w32 (bitstart + counter)) value).

Definition vaddr_get_pages (PF page_cnt : Z) : M Z :=
  if PF =? PF_KERNEL then
    r <- bitmap_scan (vaddr_bitmap g_kernel_vaddr) page_cnt;
    let bitstart := w32 r in
    if bitstart =? w32 (-1) then ret 0
    else
      set_bits (vaddr_bitmap g_kernel_vaddr) bitstart page_cnt 1 ;;
      start <- ld32 (vaddr_start g_kernel_vaddr);
      ret (w32 (start + PAGE_SIZE * bitstart))
  else
    curr <- running_thread;
    r <- bitmap_scan (vaddr_bitmap (pcb_userprog_vaddr curr)) page_cnt;
    let bitstart := w32 r in
    if bitstart =? w32 (-1) then ret 0
    else
      set_bits (vaddr_bitmap (pcb_userprog_vaddr curr)) bitstart page_cnt 1 ;;
      start <- ld32 (vaddr_start (pcb_userprog_vaddr curr));
      let alloced_pages_addr := w32 (start + PAGE_SIZE * bitstart) in
      ASSERT (alloced_pages_addr <? 0xc0000000 - PAGE_SIZE) "kernel/memory.c" 138
        "vaddr_get_pages" "(uint32_t)alloced_pages_addr < (0xc0000000 - PAGE_SIZE)" ;;
      ret alloced_pages_addr.

Definition palloc (mem_pool : Z) : M Z :=
  r <- bitmap_scan (pool_bitmap mem_pool) 1;
  let bit_index := w32 r in
  if bit_index =? w32 (-1) then ret 0
  else
    bitmap_set (pool_bitmap mem_pool) bit_index 1 ;;
    start <- ld32 (pool_phy_start_addr mem_pool);
    ret (w32 (start + PAGE_SIZE * bit_index)).

(** The attributes of a present, writable user page. *)
Definition page_entry (phy : Z) : Z := Z.lor (Z.lor (Z.lor phy PG_P_1) PG_RW_W) PG_US_U.

Definition page_table_add (vir_addr phy_addr : Z) : M unit :=
  let pte_ptr := pte_addr vir_addr in
  let pde_ptr := pde_addr vir_addr in
  pde <- ld32 pde_ptr;
  if negb (Z.land pde 0x00000001 =? 0) then
    pte <- ld32 pte_ptr;
    ASSERT (Z.land pte 0x00000001 =? 0) "kernel/memory.c" 187 "page_table_add"
      "!(*pte_ptr & 0x00000001)" ;;
    pte <- ld32 pte_ptr;
    when (Z.land pte 0x00000001 =? 0) (st32 pte_ptr (page_entry phy_addr))
  else
    alloc_pde <- palloc g_kernel_pool;
    st32 pde_ptr (page_entry alloc_pde) ;;
    memset (Z.land pte_ptr 0xfffff000) 0 PAGE_SIZE ;;
    pte <- ld32 pte_ptr;
    ASSERT (Z.land pte 0x00000001 =? 0) "kernel/memory.c" 205 "page_table_add"
      "!(*pte_ptr & 0x00000001)" ;;
    st32 pte_ptr (page_entry phy_addr).

(** One page of [malloc_pages]. *)
Definition map_page (mem_pool cnt_pages keep : Z) : Z * Z → M (Z * Z + Z) :=
  λ '(i, vir_alloc_addr),
    if i <? cnt_pages then
      phy_alloc_addr <- palloc mem_pool;
      if phy_alloc_addr =? 0 then ret (inr 0)
      else
        page_table_add vir_alloc_addr phy_alloc_addr ;;
        ret (inl (i + 1, w32 (vir_alloc_addr + PAGE_SIZE)))
    else ret (inr keep).

Definition malloc_pages (PF cnt_pages : Z) : M Z :=
  ASSERT ((cnt_pages >? 0) && (cnt_pages <? 3840)) "kernel/memory.c" 213 "malloc_pages"
    "cnt_pages > 0 && cnt_pages < 3840" ;;
  vir_alloc_addr <- vaddr_get_pages PF cnt_pages;
  if vir_alloc_addr =? 0 then ret 0
  else
    let mem_pool := if PF =? PF_KERNEL then g_kernel_pool else g_user_pool in
    loop (map_page mem_pool cnt_pages vir_alloc_addr) (0, vir_alloc_addr).

Definition malloc_kernel_pages (cnt : Z) : M Z :=
  vaddr <- malloc_pages PF_KERNEL cnt;
  when (negb (vaddr =? 0)) (memset vaddr 0 (w32 (PAGE_SIZE * cnt))) ;;
  ret vaddr.

Definition malloc_user_pages (cnt : Z) : M Z :=
  lock_acquire (pool_lock g_user_pool) ;;
  vaddr <- malloc_pages PF_USER cnt;
  memset vaddr 0 cnt ;;
  lock_release (pool_lock g_user_pool) ;;
  ret vaddr.

Definition get_a_page (PF vaddr : Z) : M Z :=
  let mem_pool := if PF =? PF_KERNEL then g_kernel_pool else g_user_pool in
  lock_acquire (pool_lock mem_pool) ;;
  curr <- running_thread;
  pgdir <- ld32 (pcb_pgdir curr);
  (if negb (pgdir =? 0) && (PF =? PF_USER) then
     start <- ld32 (vaddr_start (pcb_userprog_vaddr curr));
     let bit_index := s32 (w32 (vaddr - start) / PAGE_SIZE) in
     ASSERT (bit_index >? 0) "kernel/memory.c" 276 "get_a_page" "bit_index > 0" ;;
     bitmap_set (vaddr_bitmap (pcb_userprog_vaddr curr)) (w32 bit_index) 1
   else if (pgdir =? 0) && (PF =? PF_KERNEL) then
     start <- ld32 (vaddr_start g_kernel_vaddr);
     let bit_index := s32 (w32 (vaddr - start) / PAGE_SIZE) in
     ASSERT (bit_index >? 0) "kernel/memory.c" 282 "get_a_page" "bit_index > 0" ;;
     bitmap_set (vaddr_bitmap g_kernel_vaddr) (w32 bit_index) 1
   else ret tt) ;;
  phy_addr <- palloc mem_pool;
  page_table_add vaddr phy_addr ;;
  lock_release (pool_lock mem_pool) ;;
  ret vaddr.

Definition pfree (phy_addr : Z) : M unit :=
  ustart <- ld32 (pool_phy_start_addr g_user_pool);
  if phy_addr >? ustart then
    start <- ld32 (pool_phy_start_addr g_user_pool);
    bitmap_set (pool_bitmap g_user_pool) (w32 (phy_addr - start) / PAGE_SIZE) 0
  else
    start <- ld32 (pool_phy_start_addr g_kernel_pool);
    bitmap_set (pool_bitmap g_kernel_pool) (w32 (phy_addr - start) / PAGE_SIZE) 0.

Definition vaddr_remove_pages (PF cnt_pages vaddr : Z) : M unit :=
  if PF =? PF_KERNEL then
    start <- ld32 (vaddr_start g_kernel_vaddr);
    set_bits (vaddr_bitmap g_kernel_vaddr) (w32 (vaddr - start) / PAGE_SIZE) cnt_pages 0
  else
    curr_process <- running_thread;
    let vir_addrs := pcb_userprog_vaddr curr_process in
    start <- ld32 (vaddr_start vir_addrs);
    set_bits (vaddr_bitmap vir_addrs) (w32 (vaddr - start) / PAGE_SIZE) cnt_pages 0.

(** One page of the loops of [free_pages]; [ok] is the assertion of the branch. *)
Definition free_page (cnt_pages line : Z) (ok : Z → M bool) (src : string) :
    Z * Z * Z → M (Z * Z * Z + unit) :=
  λ '(counter, vaddr, phy_addr),
    if counter <? cnt_pages then
      b <- ok phy_addr;
      ASSERT b "kernel/memory.c" line "free_pages" src ;;
      pfree phy_addr ;;
      page_table_pte_remove vaddr ;;
      let vaddr := w32 (vaddr + PAGE_SIZE) in
      phy_addr <- addr_virtual_to_phy vaddr;
      ret (inl (counter + 1, vaddr, phy_addr))
    else ret (inr tt).

Definition user_frame (phy_addr : Z) : M bool :=
  ustart <- ld32 (pool_phy_start_addr g_user_pool);
  ret ((phy_addr mod PAGE_SIZE =? 0) && (phy_addr >=? ustart)).

Definition kernel_frame (phy_addr : Z) : M bool :=
  ustart <- ld32 (pool_phy_start_addr g_user_pool);
  kstart <- ld32 (pool_phy_start_addr g_kernel_pool);
  ret ((phy_addr mod PAGE_SIZE =? 0) && (phy_addr <? ustart) && (phy_addr >=? kstart)).

Definition free_pages (PF cnt_pages vaddr_ : Z) : M unit :=
  let vaddr := vaddr_ in
  ASSERT ((cnt_pages >=? 1) && (vaddr mod PAGE_SIZE =? 0)) "kernel/memory.c" 489 "free_pages"
    "cnt_pages >= 1 && vaddr % PAGE_SIZE == 0" ;;
  phy_addr <- addr_virtual_to_phy vaddr;
  ASSERT ((phy_addr mod PAGE_SIZE =? 0) && (phy_addr >=? 0x102000)) "kernel/memory.c" 491
    "free_pages" "(phy_addr % PAGE_SIZE) == 0 && phy_addr >= 0x102000" ;;
  ustart <- ld32 (pool_phy_start_addr g_user_pool);
  if phy_addr >? ustart then
    loop (free_page cnt_pages 497 user_frame
      "(phy_addr % PAGE_SIZE) == 0 && phy_addr >= user_pool.phy_start_addr") (0, vaddr, phy_addr) ;;
    vaddr_remove_pages PF cnt_pages vaddr_
  else
    loop (free_page cnt_pages 511 kernel_frame
      "(phy_addr % PAGE_SIZE) == 0 && phy_addr < user_pool.phy_start_addr && phy_addr >= kernel_pool.phy_start_addr")
      (0, vaddr, phy_addr) ;;
    vaddr_remove_pages PF cnt_pages vaddr_.

End memory.

(** ** Abstract pools *)

(** Taking [n] frames, lowest first. *)
Fixpoint palloc_n (n : nat) (bs : list Z) : option (list Z * list Z) :=
  match n with
  | O => Some ([], bs)
  | S n => r ← first_free bs;
           rb ← palloc_n n (bm_set bs r true);
           Some (r :: rb.1, rb.2)
  end.

Lemma palloc_n_bits n bs rs bs' : palloc_n n bs = Some (rs, bs') → bits_of bs' = bits_of bs.
Proof.
  revert bs rs. induction n as [|n IH]; intros bs rs Hp; simpl in Hp; [by simplify_eq|].
  destruct (first_free bs) as [r|]; simpl in Hp; [|done].
  destruct (palloc_n n (bm_set bs r true)) as [[rs0 bs0]|] eqn:E; simplify_eq/=.
  apply IH in E. by rewrite E bits_of_bm_set.
Qed.

(** They were free, are distinct, and nothing else is taken. *)
Lemma palloc_n_spec n bs rs bs' :
  palloc_n n bs = Some (rs, bs') →
  length rs = n ∧ NoDup rs ∧ (∀ r, r ∈ rs → 0 <= r < bits_of bs ∧ used bs r = false) ∧
  (∀ i, 0 <= i → used bs' i = bool_decide (i ∈ rs) || used bs i).
Proof.
  revert bs rs. induction n as [|n IH]; intros bs rs Hp; simpl in Hp.
  - simplify_eq. split_and!; [done|constructor|by intros r ?%elem_of_nil|].
    intros i _. rewrite bool_decide_false //. apply not_elem_of_nil.
  - destruct (first_free bs) as [r|] eqn:Er; simpl in Hp; [|done].
    destruct (palloc_n n (bm_set bs r true)) as [[rs0 bs0]|] eqn:E; simplify_eq/=.
    apply first_free_Some in Er as (Hr & Hfree & _).
    apply IH in E as (Hl & Hnd & Hin & Hu). rewrite bits_of_bm_set in Hin.
    assert (∀ x, x ∈ rs0 → x ≠ r ∧ used bs x = false) as Hne.
    { intros x Hx. destruct (Hin x Hx) as [Hxr Hux]. rewrite used_bm_set in Hux; [|lia..].
      case_decide; [done|]. done. }
    split_and!; [by rewrite Hl| | |].
    + apply NoDup_cons. split; [|done]. intros Hx. by destruct (Hne r Hx).
    + intros x [->|Hx]%elem_of_cons; [done|]. split; [by apply Hin|by apply Hne].
    + intros i Hi. rewrite Hu // used_bm_set; [|lia..].
      destruct (decide (i = r)) as [->|Hir].
      * rewrite (bool_decide_true (r ∈ r :: rs0)); [by rewrite orb_true_r|by apply elem_of_cons; left].
      * rewrite (bool_decide_ext (i ∈ r :: rs0) (i ∈ rs0)); [done|]. rewrite elem_of_cons. naive_solver.
Qed.

Lemma palloc_n_byte_range n bs rs bs' :
  Forall (λ b, 0 <= b < 256) bs → palloc_n n bs = Some (rs, bs') →
  Forall (λ b, 0 <= b < 256) bs' ∧ length bs' = length bs.
Proof.
  revert bs rs. induction n as [|n IH]; intros bs rs Hb Hp; simpl in Hp; [by simplify_eq|].
  destruct (first_free bs) as [r|] eqn:Er; simpl in Hp; [|done].
  destruct (palloc_n n (bm_set bs r true)) as [[rs0 bs0]|] eqn:E; simplify_eq/=.
  apply first_free_Some in Er as (Hr & _).
  apply IH in E as [H1 H2]; [|by apply bm_set_byte_range; [lia|]].
  by rewrite length_bm_set in H2.
Qed.

(** Giving frames back. *)
Definition pfree_n (rs : list Z) (bs : list Z) : list Z :=
  foldl (λ bs r, bm_set bs r false) bs rs.

Lemma bits_of_pfree_n rs bs : bits_of (pfree_n rs bs) = bits_of bs.
Proof.
  revert bs. induction rs as [|r rs IH]; intros bs; [done|]. simpl. by rewrite IH bits_of_bm_set.
Qed.

Lemma pfree_n_byte_range rs bs :
  Forall (λ r, 0 <= r) rs → Forall (λ b, 0 <= b < 256) bs →
  Forall (λ b, 0 <= b < 256) (pfree_n rs bs) ∧ length (pfree_n rs bs) = length bs.
Proof.
  revert bs. induction rs as [|r rs IH]; intros bs Hrs Hb; [done|].
  apply Forall_cons in Hrs as [Hr Hrs]. simpl.
  destruct (IH (bm_set bs r false)) as [H1 H2]; [done|by apply bm_set_byte_range|].
  by rewrite length_bm_set in H2.
Qed.

Lemma used_pfree_n rs bs i :
  (∀ r, r ∈ rs → 0 <= r < bits_of bs) → 0 <= i →
  used (pfree_n rs bs) i = negb (bool_decide (i ∈ rs)) && used bs i.
Proof.
  revert bs. induction rs as [|r rs IH]; intros bs Hrs Hi.
  - rewrite bool_decide_false //. apply not_elem_of_nil.
  - simpl. rewrite IH // ?used_bm_set; [|apply Hrs, elem_of_cons; by left|done|].
    + destruct (decide (i = r)) as [->|Hir].
      * rewrite (bool_decide_true (r ∈ r :: rs)); [by rewrite andb_false_r|by apply elem_of_cons; left].
      * rewrite (bool_decide_ext (i ∈ r :: rs) (i ∈ rs)); [done|]. rewrite elem_of_cons. naive_solver.
    + intros x Hx. rewrite bits_of_bm_set. apply Hrs, elem_of_cons. by right.
Qed.

(** Freeing what was taken restores the pool. *)
Lemma pfree_palloc_n n bs rs bs' :
  Forall (λ b, 0 <= b < 256) bs → palloc_n n bs = Some (rs, bs') → pfree_n rs bs' = bs.
Proof.
  intros Hb Hp. pose proof (palloc_n_spec _ _ _ _ Hp) as (_ & _ & Hin & Hu).
  pose proof (palloc_n_byte_range _ _ _ _ Hb Hp) as [Hb' Hl].
  pose proof (palloc_n_bits _ _ _ _ Hp) as Hbits.
  destruct (pfree_n_byte_range rs bs') as [Hb2 Hl2]; [|done|].
  { apply Forall_forall. intros r Hr. apply Hin in Hr. lia. }
  apply used_ext; [done|done|congruence|]. intros i Hi.
  rewrite used_pfree_n; [|intros r Hr; rewrite Hbits; by apply Hin|lia].
  rewrite Hu; [|lia]. case_bool_decide as Hd; simpl; [|done].
  apply Hin in Hd as [_ ->]. done.
Qed.

(** Marking a free run and clearing it again. *)
Lemma bm_set_run_undo bs r n :
  Forall (λ b, 0 <= b < 256) bs → 0 <= r → r + Z.of_nat n <= bits_of bs →
  (∀ i, r <= i < r + Z.of_nat n → used bs i = false) →
  bm_set_run (bm_set_run bs r n true) r n false = bs.
Proof.
  intros Hb Hr Hn Hfree.
  assert (∀ v b, length (bm_set_run b r n v) = length b) as Hl.
  { intros v b. pose proof (bits_of_bm_set_run b r n v) as E. unfold bits_of in E. lia. }
  apply used_ext.
  - by do 2 (apply bm_set_run_byte_range; [done|]).
  - done.
  - by rewrite !Hl.
  - intros i Hi. rewrite used_bm_set_run; [|done|by rewrite bits_of_bm_set_run|].
    + rewrite !bits_of_bm_set_run in Hi. rewrite used_bm_set_run; [|done|done|lia].
      repeat case_decide; [by rewrite Hfree|done].
    + lia.
Qed.

(** Removing [n] entries: as often the translation of the stack is invalidated. *)
Fixpoint flush_tlb `{Frames} (n : nat) (c : cpu) : cpu :=
  match n with
  | O => c
  | S n => flush_tlb n (log_event (EvInvlpg fr_vir_addr) c)
  end.

(** ** Representation *)

Definition pages_fit (start : Z) (bs : list Z) : Prop :=
  0 < start ∧ start + 4096 * bits_of bs < 2 ^ 32 ∧ start mod 4096 = 0.

(** A pool of page frames from [start] on, [bs] (at [addr]) saying which are
    taken; likewise a pool of virtual pages. *)
Definition is_pool (p start addr : Z) (bs : list Z) : hPropI :=
  (⌜pages_fit start bs⌝ ∗ is_bitmap (pool_bitmap p) addr bs ∗ pool_phy_start_addr p ↦w start)%I.
Definition is_vpool (v start addr : Z) (bs : list Z) : hPropI :=
  (⌜pages_fit start bs⌝ ∗ is_bitmap (vaddr_bitmap v) addr bs ∗ vaddr_start v ↦w start)%I.

(** The entries of consecutive pages, and of the page tables they are in. *)
Definition ptes (v : Z) (es : list Z) : hPropI :=
  ([∗ list] i ↦ e ∈ es, pte_addr (v + 4096 * Z.of_nat i) ↦w e)%I.
Definition pdes (m : gmap Z Z) : hPropI :=
  ([∗ map] j ↦ e ∈ m, (0xfffff000 + 4 * j) ↦w e ∗ ⌜present e = true⌝)%I.
Definition covered (m : gmap Z Z) (v : Z) (n : nat) : Prop :=
  ∀ i, 0 <= i < Z.of_nat n → is_Some (m !! ((v + 4096 * i) / 2 ^ 22)).

Lemma ptes_cons v e es : ptes v (e :: es) ⊣⊢ pte_addr v ↦w e ∗ ptes (v + 4096) es.
Proof.
  unfold ptes. rewrite big_sepL_cons. rewrite Z.mul_0_r Z.add_0_r. f_equiv.
  apply big_sepL_proper. intros k x _.
  by replace (v + 4096 + 4096 * k) with (v + 4096 * S k) by lia.
Qed.

Lemma page_entry_eq p : p mod 4096 = 0 → page_entry p = p + 7.
Proof.
  intros Hp. unfold page_entry, PG_P_1, PG_RW_W, PG_US_U.
  rewrite -!Z.lor_assoc. change (Z.lor 1 (Z.lor 2 4)) with 7.
  by apply (lor_disjoint_add p 7 12).
Qed.

Lemma present_page_entry p : p mod 4096 = 0 → present (page_entry p) = true.
Proof.
  intros Hp. rewrite page_entry_eq // /present Z.bit0_odd Z.odd_add.
  replace (Z.odd p) with false; [done|]. symmetry. rewrite -Z.negb_even.
  apply negb_false_iff, Z.even_spec. exists (p / 4096 * 2048). Z.div_mod_to_equations. lia.
Qed.

Lemma frame_page_entry p : p mod 4096 = 0 → frame_of (page_entry p) = p.
Proof. intros Hp. rewrite page_entry_eq // /frame_of. Z.div_mod_to_equations. lia. Qed.

Lemma present_eqb e : (Z.land e 0x00000001 =? 0) = negb (present e).
Proof. change 0x00000001 with (2 ^ 0). by rewrite land_pow2_eqb. Qed.

Section spec.
Context `{Symbols, Frames}.
Implicit Types (c : cpu) (bs es : list Z).

Lemma bitmap_scan_one_wp b addr bs c (Φ : res Z → hPropI) :
  is_bitmap b addr bs -∗
  (is_bitmap b addr bs -∗ Φ (RRet (default (-1) (first_free bs)) c)) -∗
  wp (bitmap_scan b 1) c Φ.
Proof.
  iIntros "H HΦ". iApply (bitmap_scan_wp b addr bs 0 1 with "H []"); [lia|done|].
  iIntros (r Hr) "H _ /=". simpl in Hr. rewrite Z.add_0_r in Hr.
  rewrite (first_free_scan _ _ _ Hr). by iApply "HΦ".
Qed.

Lemma palloc_wp p start addr bs c (Φ : res Z → hPropI) :
  is_pool p start addr bs -∗
  (is_pool p start addr (from_option (λ r, bm_set bs r true) bs (first_free bs)) -∗
   Φ (RRet (from_option (λ r, start + 4096 * r) 0 (first_free bs)) c)) -∗
  wp (palloc p) c Φ.
Proof.
  iIntros "(%Hf & HB & Hs) HΦ". rewrite /palloc.
  wp_bind. iApply (bitmap_scan_one_wp with "HB"). iIntros "HB". wp_reduce.
  destruct (first_free bs) as [r|] eqn:Er; simpl.
  - apply first_free_Some in Er as (Hr & _). unfold pages_fit in Hf.
    rewrite w32_small; [|lia]. rewrite (proj2 (Z.eqb_neq r (w32 (-1)))); last first.
    { change (w32 (-1)) with 4294967295. lia. }
    wp_bind. iApply (bitmap_set_wp _ _ _ r true with "HB"); [done|]. iIntros "HB". wp_reduce.
    wp_ld "Hs". wp_pure. rewrite /PAGE_SIZE w32_small; [|lia]. iApply "HΦ". iFrame.
    iPureIntro. unfold pages_fit. by rewrite bits_of_bm_set.
  - wp_pure. iApply "HΦ". by iFrame.
Qed.

Lemma set_bits_raw_wp b addr bs r (n : nat) (v : bool) c (Φ : res unit → hPropI) :
  0 <= r → r + Z.of_nat n <= bits_of bs → bits_of bs < 2 ^ 32 →
  bitmap_bits_of b ↦w addr -∗ addr ↦∗ bs -∗
  (bitmap_bits_of b ↦w addr -∗ addr ↦∗ bm_set_run bs r n v -∗ Φ (RRet tt c)) -∗
  wp (set_bits b r (Z.of_nat n) (b2z v)) c Φ.
Proof.
  iIntros (Hr Hn Hs) "Hb HB HΦ". rewrite /set_bits.
  iApply (wp_for (λ i, bitmap_bits_of b ↦w addr ∗ addr ↦∗ bm_set_run bs r (Z.to_nat i) v)%I
    with "[Hb HB]"); [lia| |by iFrame|].
  - intros i Hi. iIntros "[Hb HB]". rewrite w32_small; [|lia].
    iApply (bitmap_set_raw_wp with "Hb HB"); [rewrite bits_of_bm_set_run; lia|]. iIntros "Hb HB /=".
    iSplit; [done|]. replace (Z.to_nat (i + 1)) with (S (Z.to_nat i)) by lia.
    rewrite bm_set_run_S. replace (Z.of_nat (Z.to_nat i)) with i by lia. iFrame.
  - rewrite Nat2Z.id. iIntros "[Hb HB]". iApply ("HΦ" with "Hb HB").
Qed.

Lemma set_bits_wp b addr bs r (n : nat) (v : bool) c (Φ : res unit → hPropI) :
  0 <= r → r + Z.of_nat n <= bits_of bs →
  is_bitmap b addr bs -∗ (is_bitmap b addr (bm_set_run bs r n v) -∗ Φ (RRet tt c)) -∗
  wp (set_bits b r (Z.of_nat n) (b2z v)) c Φ.
Proof.
  iIntros (Hr Hn) "(%Hs & Hl & Hb & HB) HΦ".
  iApply (set_bits_raw_wp with "Hb HB"); [done|done|lia|]. iIntros "Hb HB". iApply "HΦ".
  rewrite /is_bitmap length_bm_set_run bits_of_bm_set_run. by iFrame.
Qed.

(** Virtual pages for the kernel: the first fit. *)
Lemma vaddr_get_pages_kernel_wp start addr bs nx cnt r c (Φ : res Z → hPropI) :
  1 <= cnt → first_fit (used bs) (bits_of bs) cnt r →
  is_vpool g_kernel_vaddr start addr bs -∗
  (if cnt =? 1 then emp else (addr + Z.of_nat (length bs)) ↦ nx) -∗
  (is_vpool g_kernel_vaddr start addr (bm_set_run bs r (Z.to_nat cnt) true) -∗
   (if cnt =? 1 then emp else (addr + Z.of_nat (length bs)) ↦ nx) -∗
   Φ (RRet (start + 4096 * r) c)) -∗
  wp (vaddr_get_pages PF_KERNEL cnt) c Φ.
Proof.
  iIntros (Hc Hfit) "(%Hf & HB & Hs) Hnx HΦ". rewrite /vaddr_get_pages. wp_reduce.
  pose proof Hfit as (Hr0 & Hr1 & _). iDestruct "HB" as "(%Hlim & HB)". unfold pages_fit in Hf.
  wp_bind. iApply (bitmap_scan_wp with "[HB] Hnx"); [lia|by iFrame|].
  iIntros (r' Hr') "HB Hnx". wp_reduce.
  rewrite (scan_result_fit _ _ _ _ r _ Hr'); last first.
  { apply first_fit_inside; [lia| |done]. by destruct (cnt =? 1). }
  rewrite w32_small; [|lia]. rewrite (proj2 (Z.eqb_neq r (w32 (-1)))); last first.
  { change (w32 (-1)) with 4294967295. lia. }
  pose proof (λ c Φ, set_bits_wp (vaddr_bitmap g_kernel_vaddr) addr bs r (Z.to_nat cnt) true c Φ) as Hset.
  rewrite Z2Nat.id in Hset; [|lia].
  wp_bind. iApply (Hset with "[HB]"); [lia|lia|by iFrame|]. iIntros "HB". wp_reduce.
  wp_ld "Hs". wp_pure. rewrite /PAGE_SIZE w32_small; [|lia].
  iApply ("HΦ" with "[-Hnx] Hnx"). iFrame. iPureIntro. unfold pages_fit. by rewrite bits_of_bm_set_run.
Qed.

(** Mapping a page whose table is there. *)
Lemma page_table_add_wp m v p e c (Φ : res unit → hPropI) :
  0 <= v < 2 ^ 32 → is_Some (m !! (v / 2 ^ 22)) → present e = false →
  p mod 4096 = 0 → 0 <= p < 2 ^ 32 →
  pdes m -∗ pte_addr v ↦w e -∗
  (pdes m -∗ pte_addr v ↦w page_entry p -∗ Φ (RRet tt c)) -∗
  wp (page_table_add v p) c Φ.
Proof.
  iIntros (Hv [d Hd] He Hp Hr) "HD HE HΦ". rewrite /page_table_add.
  iDestruct (big_sepM_lookup_acc _ _ _ _ Hd with "HD") as "[[Hd %Hpres] HD]".
  wp_bind. iApply (wp_ld32 with "Hd"); [by rewrite pde_addr_eq|]. iIntros "Hd". wp_reduce.
  rewrite present_eqb Hpres. wp_reduce. wp_ld "HE".
  wp_bind. iApply wp_assert; [by rewrite present_eqb He|]. wp_reduce. wp_ld "HE".
  iApply wp_when. rewrite present_eqb He. wp_reduce. wp_st "HE".
  rewrite w32_small; [|rewrite page_entry_eq //; Z.div_mod_to_equations; lia].
  iApply ("HΦ" with "[HD Hd] HE"). iApply "HD". by iFrame.
Qed.

(** The page table of [v], all its entries clear but that of [v]; it is seen through
    the window of page tables. *)
Definition table_window (v : Z) : Z := 0xffc00000 + 4096 * (v / 2 ^ 22).
Definition table_of_one (v e : Z) : hPropI :=
  let off := 4 * ((v / 2 ^ 12) mod 2 ^ 10) in
  (table_window v ↦∗ replicate (Z.to_nat off) 0 ∗ pte_addr v ↦w e ∗
   (pte_addr v + 4) ↦∗ replicate (Z.to_nat (4092 - off)) 0)%I.

Lemma table_window_split v :
  0 <= v < 2 ^ 32 → table_window v ↦∗ replicate 4096 0 ⊣⊢ table_of_one v 0.
Proof.
  intros Hv. unfold table_of_one. rewrite pte_addr_eq // -(bytes_word _ 0) //.
  assert (0 <= (v / 2 ^ 12) mod 2 ^ 10 < 2 ^ 10) as Hm by by apply Z.mod_pos_bound.
  set (o := 4 * _). replace 4096%nat with (Z.to_nat o + (4 + Z.to_nat (4092 - o)))%nat by lia.
  rewrite !replicate_add !bytes_app length_replicate. change (word_bytes 0) with (replicate 4 0).
  rewrite length_replicate Z2Nat.id; [|lia]. change (Z.of_nat 4) with 4.
  by replace (0xffc00000 + v / 2 ^ 22 * 2 ^ 12 + o) with (table_window v + o)
    by (unfold table_window; lia).
Qed.

(** Mapping a page whose table is not there: a frame of the kernel is taken for the
    table, which is cleared. *)
Lemma page_table_add_new_wp start addr bs f v p d junk c (Φ : res unit → hPropI) :
  0 <= v < 2 ^ 32 → present d = false → first_free bs = Some f → length junk = 4096%nat →
  p mod 4096 = 0 → 0 <= p < 2 ^ 32 →
  is_pool g_kernel_pool start addr bs -∗ pde_addr v ↦w d -∗ table_window v ↦∗ junk -∗
  (is_pool g_kernel_pool start addr (bm_set bs f true) -∗
   pde_addr v ↦w page_entry (start + 4096 * f) -∗ table_of_one v (page_entry p) -∗ Φ (RRet tt c)) -∗
  wp (page_table_add v p) c Φ.
Proof.
  iIntros (Hv Hd Hf Hj Hp Hr) "HP HD HT HΦ". rewrite /page_table_add.
  assert (pte_addr v = table_window v + 4 * ((v / 2 ^ 12) mod 2 ^ 10)) as Epte.
  { rewrite pte_addr_eq // /table_window. lia. }
  assert (0 <= (v / 2 ^ 12) mod 2 ^ 10 < 2 ^ 10) as Hm by by apply Z.mod_pos_bound.
  assert (0 <= v / 2 ^ 22 < 2 ^ 10) as Ht.
  { split; [apply Z.div_pos; lia|apply Z.div_lt_upper_bound; lia]. }
  wp_ld "HD". rewrite present_eqb Hd. wp_reduce.
  wp_bind. iApply (palloc_wp with "HP"). rewrite Hf /=. iIntros "HP". wp_reduce.
  iDestruct "HP" as "(%Hfp & HP)". pose proof Hfp as (Hp0 & Hp1 & Hp2).
  pose proof (first_free_Some _ _ Hf) as (Hfr & _). rewrite bits_of_bm_set in Hp1.
  wp_st "HD". rewrite w32_small; [|rewrite page_entry_eq; Z.div_mod_to_equations; lia].
  rewrite land_frame; [|rewrite Epte /table_window; lia].
  assert (frame_of (pte_addr v) = table_window v) as ->.
  { unfold frame_of. rewrite Epte /table_window. Z.div_mod_to_equations. lia. }
  wp_bind. iApply (memset_wp with "HT"); [unfold table_window; lia|by rewrite Hj|].
  iIntros "HT". wp_reduce. rewrite Hj. change (w8 0) with 0. rewrite table_window_split //.
  iDestruct "HT" as "(H1 & H2 & H3)". wp_ld "H2".
  wp_bind. iApply wp_assert; [done|]. wp_reduce. wp_st "H2".
  rewrite w32_small; [|rewrite page_entry_eq //; Z.div_mod_to_equations; lia].
  iApply ("HΦ" with "[$HP //] HD [$H1 $H2 $H3]").
Qed.

(** Turns of the loop of [malloc_pages] that get a frame, from page [i] on. *)
Lemma map_run_wp m pool start addr bs es rs bs' v i cnt keep c (Φ : res Z → hPropI) :
  palloc_n (length es) bs = Some (rs, bs') → i + Z.of_nat (length es) <= cnt →
  0 <= v → v + 4096 * Z.of_nat (length es) < 2 ^ 32 → covered m v (length es) →
  Forall (λ e, present e = false) es →
  is_pool pool start addr bs -∗ pdes m -∗ ptes v es -∗
  (is_pool pool start addr bs' -∗ pdes m -∗
   ptes v ((λ r, page_entry (start + 4096 * r)) <$> rs) -∗
   wp_loop (map_page pool cnt keep)
     (i + Z.of_nat (length es), v + 4096 * Z.of_nat (length es)) c Φ) -∗
  wp_loop (map_page pool cnt keep) (i, v) c Φ.
Proof.
  iIntros (Hal Hi Hv0 Hv Hcov Hes) "HP HD HE HΦ".
  iInduction es as [|e es IH] forall (i v bs rs Hal Hi Hv0 Hv Hcov Hes); cbn [length] in *.
  - simpl in Hal. simplify_eq. rewrite Z.mul_0_r !Z.add_0_r. iApply ("HΦ" with "HP HD"). done.
  - iApply wp_loop_step. rewrite {2}/map_page. simpl in Hal.
    destruct (first_free bs) as [r|] eqn:Er; simpl in Hal; [|done].
    destruct (palloc_n (length es) (bm_set bs r true)) as [[rs0 bs0]|] eqn:E; simplify_eq/=.
    apply Forall_cons in Hes as [He Hes].
    rewrite (proj2 (Z.ltb_lt i _)); [|lia].
    iDestruct "HP" as "(%Hf & HP)". pose proof Hf as (Hs0 & Hs1 & Hs2).
    pose proof (first_free_Some _ _ Er) as (Hr & _ & _).
    wp_bind. iApply (palloc_wp with "[HP]"); [by iFrame|]. rewrite Er /=. iIntros "HP". wp_reduce.
    rewrite (proj2 (Z.eqb_neq (start + 4096 * r) 0)); [|lia].
    rewrite ptes_cons. iDestruct "HE" as "[He HE]".
    wp_bind. iApply (page_table_add_wp with "HD He"); [lia| |done| |lia|].
    { specialize (Hcov 0). rewrite Z.mul_0_r Z.add_0_r in Hcov. apply Hcov. lia. }
    { Z.div_mod_to_equations; lia. }
    iIntros "HD He". wp_reduce. wp_pure. rewrite /PAGE_SIZE w32_small; [|lia].
    iApply ("IH" with "[%] [%] [%] [%] [%] [%] HP HD HE"); [done|lia|lia|lia| |done|].
    { intros k Hk. specialize (Hcov (k + 1)). replace (v + 4096 + 4096 * k) with (v + 4096 * (k + 1)) by lia.
      apply Hcov. lia. }
    iIntros "HP HD HE".
    replace (i + 1 + length es) with (i + S (length es)) by lia.
    replace (v + 4096 + 4096 * length es) with (v + 4096 * S (length es)) by lia.
    iApply ("HΦ" with "HP HD"). rewrite ptes_cons. iFrame.
Qed.

(** All of them. *)
Lemma map_pages_wp m pool start addr bs es rs bs' v i cnt keep c (Φ : res Z → hPropI) :
  palloc_n (length es) bs = Some (rs, bs') → i + Z.of_nat (length es) = cnt →
  0 <= v → v + 4096 * Z.of_nat (length es) < 2 ^ 32 → covered m v (length es) →
  Forall (λ e, present e = false) es →
  is_pool pool start addr bs -∗ pdes m -∗ ptes v es -∗
  (is_pool pool start addr bs' -∗ pdes m -∗
   ptes v ((λ r, page_entry (start + 4096 * r)) <$> rs) -∗ Φ (RRet keep c)) -∗
  wp_loop (map_page pool cnt keep) (i, v) c Φ.
Proof.
  iIntros (Hal Hi Hv0 Hv Hcov Hes) "HP HD HE HΦ".
  iApply (map_run_wp with "HP HD HE"); [done|lia|done..|]. iIntros "HP HD HE".
  iApply wp_loop_step. rewrite /map_page (proj2 (Z.ltb_ge _ _)); [|lia]. wp_pure.
  iApply ("HΦ" with "HP HD HE").
Qed.

(** Out of frames. *)
Lemma map_none_wp pool start addr bs v i cnt keep c (Φ : res Z → hPropI) :
  first_free bs = None → i < cnt →
  is_pool pool start addr bs -∗ (is_pool pool start addr bs -∗ Φ (RRet 0 c)) -∗
  wp_loop (map_page pool cnt keep) (i, v) c Φ.
Proof.
  iIntros (Hfull Hi) "HP HΦ". iApply wp_loop_step. rewrite /map_page (proj2 (Z.ltb_lt _ _)); [|lia].
  wp_bind. iApply (palloc_wp with "HP"). rewrite Hfull /=. iIntros "HP". wp_reduce. wp_pure.
  by iApply "HΦ".
Qed.

Lemma malloc_pages_kernel_wp m start addr bs nx pstart paddr pbs es r rs pbs' c
    (Φ : res Z → hPropI) :
  let cnt := Z.of_nat (length es) in
  0 < cnt < 3840 → first_fit (used bs) (bits_of bs) cnt r →
  palloc_n (length es) pbs = Some (rs, pbs') →
  covered m (start + 4096 * r) (length es) → Forall (λ e, present e = false) es →
  is_vpool g_kernel_vaddr start addr bs -∗
  (if cnt =? 1 then emp else (addr + Z.of_nat (length bs)) ↦ nx) -∗
  is_pool g_kernel_pool pstart paddr pbs -∗ pdes m -∗ ptes (start + 4096 * r) es -∗
  (is_vpool g_kernel_vaddr start addr (bm_set_run bs r (length es) true) -∗
   (if cnt =? 1 then emp else (addr + Z.of_nat (length bs)) ↦ nx) -∗
   is_pool g_kernel_pool pstart paddr pbs' -∗ pdes m -∗
   ptes (start + 4096 * r) ((λ r, page_entry (pstart + 4096 * r)) <$> rs) -∗
   Φ (RRet (start + 4096 * r) c)) -∗
  wp (malloc_pages PF_KERNEL cnt) c Φ.
Proof.
  iIntros (cnt Hc Hfit Hal Hcov Hes) "HV Hnx HP HD HE HΦ". rewrite /malloc_pages.
  wp_bind. iApply wp_assert.
  { rewrite Z.gtb_ltb. apply andb_true_iff. split; apply Z.ltb_lt; lia. }
  wp_reduce. iDestruct "HV" as "(%Hf & HV)". pose proof Hf as (Hs0 & Hs1 & Hs2).
  pose proof Hfit as (Hr0 & Hr1 & _).
  wp_bind. iApply (vaddr_get_pages_kernel_wp with "[HV] Hnx"); [lia|done|by iFrame|].
  iIntros "HV Hnx". wp_reduce. rewrite (proj2 (Z.eqb_neq _ 0)); [|lia].
  iApply wp_loop_start. iApply (map_pages_wp with "HP HD HE"); [done|lia|lia|lia|done|done|].
  iIntros "HP HD HE". unfold cnt. rewrite Nat2Z.id. iApply ("HΦ" with "HV Hnx HP HD HE").
Qed.


(** One page at a given address, for the running process, which has no page table
    there yet. *)
Lemma get_a_page_user_wp curr t start addr bs pstart paddr pbs f kstart kaddr kbs g vaddr d junk c
    (Φ : res Z → hPropI) :
  let r := (vaddr - start) / 4096 in
  Z.land (esp c) 0xfffff000 = curr → 0 < curr < 2 ^ 32 → t_pgdir t ≠ 0 →
  start <= vaddr < 2 ^ 32 → 0 < r < bits_of bs → first_free pbs = Some f →
  first_free kbs = Some g → present d = false → length junk = 4096%nat →
  quiet_lock (pool_lock g_user_pool) 0 -∗ tcb_at curr t -∗
  is_vpool (pcb_userprog_vaddr curr) start addr bs -∗ is_pool g_user_pool pstart paddr pbs -∗
  is_pool g_kernel_pool kstart kaddr kbs -∗ pde_addr vaddr ↦w d -∗ table_window vaddr ↦∗ junk -∗
  (quiet_lock (pool_lock g_user_pool) 0 -∗ tcb_at curr t -∗
   is_vpool (pcb_userprog_vaddr curr) start addr (bm_set bs r true) -∗
   is_pool g_user_pool pstart paddr (bm_set pbs f true) -∗
   is_pool g_kernel_pool kstart kaddr (bm_set kbs g true) -∗
   pde_addr vaddr ↦w page_entry (kstart + 4096 * g) -∗
   table_of_one vaddr (page_entry (pstart + 4096 * f)) -∗ Φ (RRet vaddr c)) -∗
  wp (get_a_page PF_USER vaddr) c Φ.
Proof.
  iIntros (r Hcurr Hc Hdir Hv Hr Hf Hg Hd Hj) "HL (%Hp & Hsp & Hs & Hpr & Htk & Hdir) (%Hfv & HB & Hvs) HP HK HD HE HΦ".
  rewrite /get_a_page. wp_reduce. wp_bind. iApply (mutex_acquire with "HL"); [done|done|].
  iIntros "HL". wp_reduce. wp_bind. iApply running_thread_wp. rewrite Hcurr. wp_reduce. wp_ld "Hdir".
  rewrite (proj2 (Z.eqb_neq (t_pgdir t) 0)) //. wp_reduce.
  pose proof Hfv as (Hv0 & Hv1 & Hv2). iDestruct "HB" as "(%Hlim & HB)".
  wp_bind. wp_ld "Hvs". rewrite /PAGE_SIZE w32_small; [|lia]. fold r.
  rewrite s32_small; [|lia]. wp_bind. iApply wp_assert; [rewrite Z.gtb_ltb; apply Z.ltb_lt; lia|].
  wp_reduce. rewrite w32_small; [|lia].
  iApply (bitmap_set_wp _ _ bs r true with "[HB]"); [lia|by iFrame|]. iIntros "HB". wp_reduce.
  wp_bind. iApply (palloc_wp with "HP"). rewrite Hf /=. iIntros "HP". wp_reduce.
  iDestruct "HP" as "(%Hfp & HP)". pose proof Hfp as (Hp0 & Hp1 & Hp2).
  pose proof (first_free_Some _ _ Hf) as (Hfr & _). rewrite bits_of_bm_set in Hp1.
  wp_bind. iApply (page_table_add_new_wp with "HK HD HE");
    [lia|done|done|done|Z.div_mod_to_equations; lia|lia|].
  iIntros "HK HD HE". wp_reduce. wp_bind. iApply (mutex_release with "HL"); [done|done|]. iIntros "HL".
  wp_reduce. wp_pure.
  iApply ("HΦ" with "HL [$Hsp $Hs $Hpr $Htk $Hdir //] [$HB $Hvs] [$HP //] HK HD HE").
  iPureIntro. unfold pages_fit. by rewrite bits_of_bm_set.
Qed.

Lemma pfree_kernel_wp start addr bs ustart r c (Φ : res unit → hPropI) :
  0 <= r < bits_of bs → start + 4096 * r <= ustart →
  is_pool g_kernel_pool start addr bs -∗ pool_phy_start_addr g_user_pool ↦w ustart -∗
  (is_pool g_kernel_pool start addr (bm_set bs r false) -∗
   pool_phy_start_addr g_user_pool ↦w ustart -∗ Φ (RRet tt c)) -∗
  wp (pfree (start + 4096 * r)) c Φ.
Proof.
  iIntros (Hr Hu) "(%Hf & HB & Hs) Hus HΦ". rewrite /pfree. wp_ld "Hus".
  pose proof Hf as (Hs0 & Hs1 & Hs2).
  rewrite Z.gtb_ltb (proj2 (Z.ltb_ge _ _)); [|lia]. wp_ld "Hs".
  rewrite w32_small; [|lia]. rewrite /PAGE_SIZE.
  replace ((start + 4096 * r - start) / 4096) with r by (Z.div_mod_to_equations; lia).
  iApply (bitmap_set_wp _ _ _ r false with "HB"); [done|]. iIntros "HB".
  iApply ("HΦ" with "[-Hus] Hus"). iFrame. iPureIntro. unfold pages_fit. by rewrite bits_of_bm_set.
Qed.

(** The loop of [free_pages] over kernel frames [rs], from page [i] on; [el] is
    the entry of the page after the last. *)
Lemma free_kernel_loop_wp start addr bs ustart rs v i cnt src el phy c (Φ : res unit → hPropI) :
  i + Z.of_nat (length rs) = cnt → 0 <= v → v mod 4096 = 0 →
  v + 4096 * Z.of_nat (length rs) < 2 ^ 32 → start mod 4096 = 0 →
  (∀ r, r ∈ rs → 0 <= r < bits_of bs ∧ start + 4096 * r < ustart) →
  phy = default (frame_of el) (head ((λ r, start + 4096 * r) <$> rs)) →
  is_pool g_kernel_pool start addr bs -∗ pool_phy_start_addr g_user_pool ↦w ustart -∗
  ptes v ((λ r, page_entry (start + 4096 * r)) <$> rs) -∗
  pte_addr (v + 4096 * Z.of_nat (length rs)) ↦w el -∗
  (is_pool g_kernel_pool start addr (pfree_n rs bs) -∗
   pool_phy_start_addr g_user_pool ↦w ustart -∗
   ptes v ((λ r, Z.ldiff (page_entry (start + 4096 * r)) 1) <$> rs) -∗
   pte_addr (v + 4096 * Z.of_nat (length rs)) ↦w el -∗
   Φ (RRet tt (flush_tlb (length rs) c))) -∗
  wp_loop (free_page cnt 511 kernel_frame src) (i, v, phy) c Φ.
Proof.
  iIntros (Hi Hv0 Hva Hv Hst Hrs ->) "HP Hus HE Hel HΦ".
  iInduction rs as [|r rs IH] forall (i v bs c Hi Hv0 Hva Hv Hrs);
    iApply wp_loop_step; rewrite /free_page; cbn [fmap list_fmap head from_option id length] in *.
  - rewrite (proj2 (Z.ltb_ge i _)); [|lia]. wp_pure. iApply ("HΦ" with "HP Hus HE Hel").
  - rewrite (proj2 (Z.ltb_lt i _)); [|lia].
    destruct (Hrs r) as [Hr Hru]; [by apply elem_of_cons; left|].
    iDestruct "HP" as "(%Hf & HB & Hs)". pose proof Hf as (Hs0 & Hs1 & Hs2).
    wp_bind. rewrite /kernel_frame. wp_ld "Hus". wp_ld "Hs". wp_pure.
    wp_bind. iApply wp_assert.
    { rewrite /PAGE_SIZE Z.geb_leb. repeat (apply andb_true_iff; split).
      - apply Z.eqb_eq. Z.div_mod_to_equations; lia.
      - apply Z.ltb_lt. lia.
      - apply Z.leb_le. lia. }
    wp_reduce. wp_bind. iApply (pfree_kernel_wp with "[HB Hs] Hus"); [done|lia|by iFrame|].
    iIntros "HP Hus". wp_reduce. rewrite ptes_cons. iDestruct "HE" as "[He HE]".
    wp_bind. iApply (page_table_pte_remove_wp with "He"). iIntros "He". wp_reduce.
    rewrite /PAGE_SIZE w32_small; [|lia].
    set (es := (λ r, page_entry (start + 4096 * r)) <$> rs).
    replace (v + 4096 * Z.of_nat (S (length rs))) with (v + 4096 + 4096 * Z.of_nat (length rs)) by lia.
    (* the entry of the next page, inside the run or after it *)
    iAssert (∃ e, ⌜frame_of e = default (frame_of el) (head ((λ r, (start + 4096 * r)%Z) <$> rs))⌝ ∗
      pte_addr (v + 4096) ↦w e ∗
      (pte_addr (v + 4096) ↦w e -∗ ptes (v + 4096) es ∗
         pte_addr (v + 4096 + 4096 * Z.of_nat (length rs)) ↦w el))%I with "[HE Hel]" as (e) "(%He & Hn & Hback)".
    { destruct rs as [|r' rs]; unfold es.
      - simpl. iExists el. rewrite Z.mul_0_r Z.add_0_r. iFrame. iSplit; [done|]. iIntros "$".
      - iEval (rewrite fmap_cons ptes_cons) in "HE". iDestruct "HE" as "[Hn HE]". iExists _. iFrame "Hn".
        iSplit; [iPureIntro; rewrite frame_page_entry; [done|Z.div_mod_to_equations; lia]|]. rewrite fmap_cons ptes_cons. iIntros "$". iFrame. }
    wp_bind. iApply (addr_virtual_to_phy_wp with "Hn"); [lia|]. iIntros "Hn". wp_reduce. wp_pure.
    iDestruct ("Hback" with "Hn") as "[HE Hel]".
    replace ((v + 4096) mod 2 ^ 12) with 0 by (Z.div_mod_to_equations; lia). rewrite Z.add_0_r He.
    iApply ("IH" with "[%] [%] [%] [%] [%] HP Hus HE Hel"); [lia|lia|Z.div_mod_to_equations; lia|lia| |].
    { intros x Hx. rewrite bits_of_bm_set. apply Hrs. apply elem_of_cons. by right. }
    iIntros "HP Hus HE Hel". iApply ("HΦ" with "HP Hus [He HE] Hel"). rewrite ptes_cons. iFrame.
Qed.

(** Whatever the length of the map of pages, the bits that are cleared are behind
    its address. *)
Lemma free_pages_kernel_raw_wp vstart vaddr_ vbs start addr bs ustart rs r0 el c (Φ : res unit → hPropI) :
  let v := vstart + 4096 * r0 in
  rs ≠ [] → 0x102000 <= start → v + 4096 * Z.of_nat (length rs) < 2 ^ 32 →
  0 < vstart → vstart mod 4096 = 0 → bits_of vbs < 2 ^ 32 →
  0 <= r0 → r0 + Z.of_nat (length rs) <= bits_of vbs →
  (∀ r, r ∈ rs → 0 <= r < bits_of bs ∧ start + 4096 * r < ustart) →
  vaddr_start g_kernel_vaddr ↦w vstart -∗ bitmap_bits_of (vaddr_bitmap g_kernel_vaddr) ↦w vaddr_ -∗
  vaddr_ ↦∗ vbs -∗
  is_pool g_kernel_pool start addr bs -∗ pool_phy_start_addr g_user_pool ↦w ustart -∗
  ptes v ((λ r, page_entry (start + 4096 * r)) <$> rs) -∗
  pte_addr (v + 4096 * Z.of_nat (length rs)) ↦w el -∗
  (vaddr_start g_kernel_vaddr ↦w vstart -∗ bitmap_bits_of (vaddr_bitmap g_kernel_vaddr) ↦w vaddr_ -∗
   vaddr_ ↦∗ bm_set_run vbs r0 (length rs) false -∗
   is_pool g_kernel_pool start addr (pfree_n rs bs) -∗
   pool_phy_start_addr g_user_pool ↦w ustart -∗
   ptes v ((λ r, Z.ldiff (page_entry (start + 4096 * r)) 1) <$> rs) -∗
   pte_addr (v + 4096 * Z.of_nat (length rs)) ↦w el -∗
   Φ (RRet tt (flush_tlb (length rs) c))) -∗
  wp (free_pages PF_KERNEL (Z.of_nat (length rs)) v) c Φ.
Proof.
  iIntros (v Hne Hlow Hv Hv0 Hv2 Hvl Hr0 Hr1 Hrs) "HVs HVb HVB HP Hus HE Hel HΦ". rewrite /free_pages.
  iDestruct "HP" as "(%Hf & HP)". pose proof Hf as (Hs0 & Hs1 & Hs2).
  assert (v mod 4096 = 0) as Hva by (unfold v; Z.div_mod_to_equations; lia).
  assert (0 < v) as Hv3 by (unfold v; lia). unfold PAGE_SIZE.
  destruct rs as [|r rs]; [done|]. destruct (Hrs r) as [Hr Hru]; [by apply elem_of_cons; left|].
  wp_bind. iApply wp_assert.
  { rewrite Z.geb_leb. apply andb_true_iff. split; [apply Z.leb_le; simpl; lia|by apply Z.eqb_eq]. }
  wp_reduce. iEval (rewrite fmap_cons ptes_cons) in "HE". iDestruct "HE" as "[He HE]".
  wp_bind. iApply (addr_virtual_to_phy_wp with "He"); [cbn [length] in Hv; lia|]. iIntros "He". wp_reduce.
  assert ((start + 4096 * r) mod 4096 = 0) as Hpa by (Z.div_mod_to_equations; lia).
  rewrite frame_page_entry //. change (2 ^ 12) with 4096. rewrite Hva Z.add_0_r.
  wp_bind. iApply wp_assert.
  { rewrite Z.geb_leb. apply andb_true_iff. split; [by apply Z.eqb_eq|apply Z.leb_le; lia]. }
  wp_reduce. wp_ld "Hus". rewrite Z.gtb_ltb (proj2 (Z.ltb_ge _ _)); [|lia].
  wp_bind. iApply wp_loop_start.
  iApply (free_kernel_loop_wp start addr bs ustart (r :: rs) v with "[HP] Hus [He HE] Hel");
    [lia|lia|done|done|done|done|done|by iFrame|rewrite fmap_cons ptes_cons; by iFrame|].
  iIntros "HP Hus HE Hel". wp_reduce. rewrite /vaddr_remove_pages. wp_reduce. wp_ld "HVs".
  rewrite w32_small; [|unfold v; cbn [length] in *; lia]. rewrite /PAGE_SIZE.
  replace ((v - vstart) / 4096) with r0 by (unfold v; Z.div_mod_to_equations; lia).
  iApply (set_bits_raw_wp _ _ _ r0 _ false with "HVb HVB"); [done|done|done|]. iIntros "HVb HVB".
  iApply ("HΦ" with "HVs HVb HVB HP Hus HE Hel").
Qed.

Lemma free_pages_kernel_wp vstart vaddr_ vbs start addr bs ustart rs r0 el c (Φ : res unit → hPropI) :
  let v := vstart + 4096 * r0 in
  rs ≠ [] → 0x102000 <= start → v + 4096 * Z.of_nat (length rs) < 2 ^ 32 →
  0 <= r0 → r0 + Z.of_nat (length rs) <= bits_of vbs →
  (∀ r, r ∈ rs → 0 <= r < bits_of bs ∧ start + 4096 * r < ustart) →
  is_vpool g_kernel_vaddr vstart vaddr_ vbs -∗
  is_pool g_kernel_pool start addr bs -∗ pool_phy_start_addr g_user_pool ↦w ustart -∗
  ptes v ((λ r, page_entry (start + 4096 * r)) <$> rs) -∗
  pte_addr (v + 4096 * Z.of_nat (length rs)) ↦w el -∗
  (is_vpool g_kernel_vaddr vstart vaddr_ (bm_set_run vbs r0 (length rs) false) -∗
   is_pool g_kernel_pool start addr (pfree_n rs bs) -∗
   pool_phy_start_addr g_user_pool ↦w ustart -∗
   ptes v ((λ r, Z.ldiff (page_entry (start + 4096 * r)) 1) <$> rs) -∗
   pte_addr (v + 4096 * Z.of_nat (length rs)) ↦w el -∗
   Φ (RRet tt (flush_tlb (length rs) c))) -∗
  wp (free_pages PF_KERNEL (Z.of_nat (length rs)) v) c Φ.
Proof.
  iIntros (v Hne Hlow Hv Hr0 Hr1 Hrs) "(%Hfv & (%Hl & HVl & HVb & HVB) & HVs) HP Hus HE Hel HΦ".
  pose proof Hfv as (Hv0 & Hv1 & Hv2).
  iApply (free_pages_kernel_raw_wp with "HVs HVb HVB HP Hus HE Hel"); [done..|lia|done|done|done|].
  iIntros "HVs HVb HVB HP Hus HE Hel". iApply ("HΦ" with "[HVl HVb HVB HVs] HP Hus HE Hel").
  rewrite /is_vpool /is_bitmap /pages_fit length_bm_set_run bits_of_bm_set_run. by iFrame.
Qed.

End spec.

(** ** Concrete pools *)

Definition bitmap_cells (b addr : Z) (bs : list Z) : list (Z * list Z) :=
  [(bitmap_len_of b, word_bytes (Z.of_nat (length bs))); (bitmap_bits_of b, word_bytes addr);
   (addr, bs)].

Definition bitmap_ok (addr : Z) (bs : list Z) : bool :=
  bool_decide (bits_of bs < 2 ^ 31 - 8) && addr_ok addr.

Lemma bitmap_cells_models b addr bs :
  bitmap_ok addr bs = true → cells (bitmap_cells b addr bs) ⊢ is_bitmap b addr bs.
Proof.
  intros [H1%bool_decide_eq_true H2%bool_decide_eq_true]%andb_true_iff.
  unfold bitmap_cells. rewrite !cells_word //; [|unfold bits_of in H1; lia].
  rewrite cells_cons. iIntros "($ & $ & $ & _)". done.
Qed.

(** A page pool at [p] and one of virtual pages at [v]. *)
Definition pool_cells (p start addr : Z) (bs : list Z) : list (Z * list Z) :=
  (pool_phy_start_addr p, word_bytes start) :: bitmap_cells (pool_bitmap p) addr bs.
Definition vpool_cells (v start addr : Z) (bs : list Z) : list (Z * list Z) :=
  (vaddr_start v, word_bytes start) :: bitmap_cells (vaddr_bitmap v) addr bs.

Definition pages_ok (start addr : Z) (bs : list Z) : bool :=
  bool_decide (0 < start ∧ start + 4096 * bits_of bs < 2 ^ 32 ∧ start mod 4096 = 0) &&
  bitmap_ok addr bs.

Lemma pages_ok_range start addr bs :
  pages_ok start addr bs = true → pages_fit start bs ∧ 0 <= start < 2 ^ 32 ∧ bitmap_ok addr bs = true.
Proof.
  intros [H1%bool_decide_eq_true H2]%andb_true_iff. split_and!; [done|unfold bits_of in *; lia..|done].
Qed.

Lemma pool_cells_models p start addr bs :
  pages_ok start addr bs = true → cells (pool_cells p start addr bs) ⊢ is_pool p start addr bs.
Proof.
  intros (H1 & H2 & H3)%pages_ok_range. unfold pool_cells.
  rewrite cells_word // bitmap_cells_models //. iIntros "[$ $]". done.
Qed.

Lemma vpool_cells_models v start addr bs :
  pages_ok start addr bs = true → cells (vpool_cells v start addr bs) ⊢ is_vpool v start addr bs.
Proof.
  intros (H1 & H2 & H3)%pages_ok_range. unfold vpool_cells.
  rewrite cells_word // bitmap_cells_models //. iIntros "[$ $]". done.
Qed.

(** ** Properties *)

Section properties.
Context `{Symbols, Frames}.
Implicit Types (c : cpu) (bs es : list Z).

(** What the kernel page allocator works on: virtual pages [bs] (from [start]),
    the byte after their map when more than one page is asked for, the kernel
    frames [pbs] (from [pstart]), and the page directory entries [m]. *)
Definition kernel_pages (m : gmap Z Z) (cnt start addr : Z) (bs : list Z) (nx : Z)
    (pstart paddr : Z) (pbs : list Z) : hPropI :=
  (is_vpool g_kernel_vaddr start addr bs ∗
   (if cnt =? 1 then emp else (addr + Z.of_nat (length bs)) ↦ nx) ∗
   is_pool g_kernel_pool pstart paddr pbs ∗ pdes m)%I.

Lemma malloc_kernel_pages_wp m start addr bs nx pstart paddr pbs es r rs pbs' junk c
    (Φ : res Z → hPropI) :
  let cnt := Z.of_nat (length es) in
  let v := start + 4096 * r in
  0 < cnt < 3840 → first_fit (used bs) (bits_of bs) cnt r →
  palloc_n (length es) pbs = Some (rs, pbs') →
  covered m v (length es) → Forall (λ e, present e = false) es →
  Z.of_nat (length junk) = 4096 * cnt →
  kernel_pages m cnt start addr bs nx pstart paddr pbs -∗ ptes v es -∗ v ↦∗ junk -∗
  (kernel_pages m cnt start addr (bm_set_run bs r (length es) true) nx pstart paddr pbs' -∗
   ptes v ((λ f, page_entry (pstart + 4096 * f)) <$> rs) -∗
   v ↦∗ replicate (length junk) 0 -∗ Φ (RRet v c)) -∗
  wp (malloc_kernel_pages cnt) c Φ.
Proof.
  iIntros (cnt v Hc Hfit Hal Hcov Hes Hj) "(HV & Hnx & HP & HD) HE Hb HΦ".
  iDestruct "HV" as "(%Hf & HV)". pose proof Hf as (Hs0 & _). pose proof Hfit as (Hr0 & Hr1 & _).
  rewrite /malloc_kernel_pages.
  wp_bind. iApply (malloc_pages_kernel_wp with "[HV] Hnx HP HD HE"); [done|done|done|done|done|by iFrame|].
  iIntros "HV Hnx HP HD HE". wp_reduce.
  wp_bind. iApply wp_when. rewrite (proj2 (Z.eqb_neq _ 0)); [|lia]. wp_reduce.
  rewrite w32_small; [|unfold PAGE_SIZE; fold cnt; lia].
  iApply (memset_wp with "Hb"); [unfold v; lia|unfold PAGE_SIZE; fold cnt; lia|].
  iIntros "Hb". wp_reduce. wp_pure. change (w8 0) with 0.
  iApply ("HΦ" with "[-HE Hb] HE Hb"). rewrite /kernel_pages length_bm_set_run. iFrame.
Qed.

(** [malloc_kernel_pages]: the first fit of virtual pages, mapped in order to
    the lowest free frames (each free before, no frame twice), and zeroed. *)
Theorem malloc_kernel_pages_maps m start addr bs nx pstart paddr pbs es r rs pbs' junk c :
  let cnt := Z.of_nat (length es) in
  let v := start + 4096 * r in
  0 < cnt < 3840 → first_fit (used bs) (bits_of bs) cnt r →
  palloc_n (length es) pbs = Some (rs, pbs') →
  covered m v (length es) → Forall (λ e, present e = false) es →
  Z.of_nat (length junk) = 4096 * cnt →
  {{ kernel_pages m cnt start addr bs nx pstart paddr pbs ∗ ptes v es ∗ v ↦∗ junk }}
    (malloc_kernel_pages cnt) @ c
  {{ a c', ⌜a = v ∧ c' = c ∧ NoDup rs ∧
            (∀ f, f ∈ rs → 0 <= f < bits_of pbs ∧ used pbs f = false ∧ used pbs' f = true)⌝ ∗
           kernel_pages m cnt start addr (bm_set_run bs r (length es) true) nx pstart paddr pbs' ∗
           ptes v ((λ f, page_entry (pstart + 4096 * f)) <$> rs) ∗
           v ↦∗ replicate (length junk) 0 }}.
Proof.
  intros cnt v Hc Hfit Hal Hcov Hes Hj. apply triple_wp. iIntros "(HK & HE & Hb)".
  iApply (malloc_kernel_pages_wp with "HK HE Hb"); [done..|]. iIntros "HK HE Hb /=". iFrame.
  iPureIntro. pose proof (palloc_n_spec _ _ _ _ Hal) as (_ & Hnd & Hin & Hu). split_and!; [done..|].
  intros f Hfr. destruct (Hin f Hfr) as [Hb Hfree]. split_and!; [lia|lia|done|].
  rewrite Hu; [|lia]. by rewrite bool_decide_true.
Qed.

(** Pages that are allocated and freed again leave both pools as they were;
    they are unmapped, though their translations may stay in the processor. *)
Theorem malloc_free_pages_roundtrip m start addr bs nx pstart paddr pbs ustart es el r rs pbs' c :
  let cnt := Z.of_nat (length es) in
  let v := start + 4096 * r in
  0 < cnt < 3840 → first_fit (used bs) (bits_of bs) cnt r →
  palloc_n (length es) pbs = Some (rs, pbs') →
  covered m v (length es) → Forall (λ e, present e = false) es →
  0x102000 <= pstart → pstart + 4096 * bits_of pbs <= ustart →
  {{ kernel_pages m cnt start addr bs nx pstart paddr pbs ∗
     pool_phy_start_addr g_user_pool ↦w ustart ∗ ptes v es ∗ pte_addr (v + 4096 * cnt) ↦w el }}
    (a <- malloc_pages PF_KERNEL cnt; free_pages PF_KERNEL cnt a ;; ret a) @ c
  {{ a c', ⌜a = v ∧ c' = flush_tlb (length es) c⌝ ∗
           kernel_pages m cnt start addr bs nx pstart paddr pbs ∗
           pool_phy_start_addr g_user_pool ↦w ustart ∗
           ptes v ((λ f, page_entry (pstart + 4096 * f) - 1) <$> rs) ∗
           pte_addr (v + 4096 * cnt) ↦w el }}.
Proof.
  intros cnt v Hc Hfit Hal Hcov Hes Hlow Hu. apply triple_wp.
  iIntros "((HV & Hnx & HP & HD) & Hus & HE & Hel)".
  iDestruct "HV" as "(%Hf & (%Hlim & HVl & HVb & HVbs) & HVs)". pose proof Hf as (Hs0 & Hs1 & Hs2).
  iDestruct "HP" as "(%Hfp & (%Hlimp & HPl & HPb & HPbs) & HPs)".
  iDestruct (bytes_range with "HVbs") as %Hvr. iDestruct (bytes_range with "HPbs") as %Hpr.
  pose proof Hfit as (Hr0 & Hr1 & Hfree & _).
  pose proof (palloc_n_spec _ _ _ _ Hal) as (Hlen & Hnd & Hin & Hused).
  pose proof (palloc_n_bits _ _ _ _ Hal) as Hbits.
  wp_bind. iApply (malloc_pages_kernel_wp with "[HVl HVb HVbs HVs] Hnx [HPl HPb HPbs HPs] HD HE");
    [done|done|done|done|done|by iFrame|by iFrame|].
  iIntros "HV Hnx HP HD HE". wp_reduce. fold v. unfold cnt. rewrite -Hlen.
  wp_bind. iApply (free_pages_kernel_wp with "HV HP Hus HE Hel").
  - intros ->. simpl in Hlen. lia.
  - done.
  - rewrite Hlen. lia.
  - done.
  - rewrite bits_of_bm_set_run Hlen. lia.
  - intros f Hfr. rewrite Hbits. destruct (Hin f Hfr) as [Hb _]. split; [done|]. lia.
  - iIntros "HV HP Hus HE Hel". wp_reduce. wp_pure. rewrite Hlen. fold cnt.
    rewrite (pfree_palloc_n _ _ _ _ Hpr Hal).
    rewrite (bm_set_run_undo bs r (length es) Hvr Hr0 ltac:(lia)); last first.
    { intros i Hi. apply Hfree. lia. }
    rewrite /kernel_pages /cnt. iFrame. iSplit; [done|].
    replace ((λ f, page_entry (pstart + 4096 * f) - 1) <$> rs)
      with ((λ f, Z.ldiff (page_entry (pstart + 4096 * f)) 1) <$> rs); [done|].
    apply list_fmap_ext. intros k f _. destruct Hfp as (_ & _ & Hpa). rewrite ldiff_1 page_entry_eq; Z.div_mod_to_equations; lia.
Qed.

(** C32: Out of frames: the call fails, but the virtual pages it had reserved stay
    reserved. *)
Theorem malloc_pages_no_rollback start addr bs nx pstart paddr pbs cnt r c :
  0 < cnt < 3840 → first_fit (used bs) (bits_of bs) cnt r → first_free pbs = None →
  {{ kernel_pages ∅ cnt start addr bs nx pstart paddr pbs }} (malloc_pages PF_KERNEL cnt) @ c
  {{ a c', ⌜a = 0 ∧ c' = c⌝ ∗
           kernel_pages ∅ cnt start addr (bm_set_run bs r (Z.to_nat cnt) true) nx pstart paddr pbs }}.
Proof.
  intros Hc Hfit Hfull. apply triple_wp. iIntros "(HV & Hnx & HP & HD)". rewrite /malloc_pages.
  wp_bind. iApply wp_assert.
  { rewrite Z.gtb_ltb. apply andb_true_iff. split; apply Z.ltb_lt; lia. }
  wp_reduce. iDestruct "HV" as "(%Hf & HV)". pose proof Hf as (Hs0 & Hs1 & Hs2).
  pose proof Hfit as (Hr0 & Hr1 & _).
  wp_bind. iApply (vaddr_get_pages_kernel_wp with "[HV] Hnx"); [lia|done|by iFrame|].
  iIntros "HV Hnx". wp_reduce. rewrite (proj2 (Z.eqb_neq _ 0)); [|lia].
  iApply wp_loop_start. iApply (map_none_wp with "HP"); [done|lia|]. iIntros "HP".
  rewrite /kernel_pages length_bm_set_run. by iFrame.
Qed.

(** C33: The frame the user pool starts with belongs to neither branch of
    [free_pages]: freeing it stops the system. *)
Theorem free_first_user_frame_panics PF v ustart kstart e c :
  0 <= v < 2 ^ 32 → v mod 4096 = 0 → ustart mod 4096 = 0 → 0x102000 <= ustart →
  frame_of e = ustart →
  {{ pte_addr v ↦w e ∗ pool_phy_start_addr g_user_pool ↦w ustart ∗
     pool_phy_start_addr g_kernel_pool ↦w kstart }}
    (free_pages PF 1 v) @ c
  {{ panic c', ⌜if_on c' = false⌝ }}.
Proof.
  intros Hv Hva Hu Hlow He. apply triple_wp. iIntros "(HE & Hu & Hk)". rewrite /free_pages.
  wp_bind. iApply wp_assert; [by rewrite /PAGE_SIZE Hva|]. wp_reduce.
  wp_bind. iApply (addr_virtual_to_phy_wp with "HE"); [done|]. iIntros "HE". wp_reduce.
  change (2 ^ 12) with 4096. rewrite He Hva Z.add_0_r.
  wp_bind. iApply wp_assert.
  { rewrite /PAGE_SIZE Hu Z.geb_leb. by apply Z.leb_le. }
  wp_reduce. wp_ld "Hu". rewrite Z.gtb_ltb Z.ltb_irrefl.
  wp_bind. iApply wp_loop_start. iApply wp_loop_step. rewrite /free_page /kernel_frame. wp_reduce.
  wp_bind. wp_ld "Hu". wp_ld "Hk". wp_pure. rewrite Z.ltb_irrefl andb_false_r. wp_bind.
  rewrite /ASSERT. iApply wp_exception_report. simpl. iPureIntro. by rewrite if_on_report.
Qed.

End properties.

(** ** Witnesses *)

#[local] Existing Instance link_map.
#[local] Existing Instance demo_frames.

Definition demo_vpool : list (Z * list Z) := vpool_cells g_kernel_vaddr 0xc0100000 0xc009a100 [1].
Definition demo_pde : list (Z * list Z) := [(0xfffff000 + 4 * 768, word_bytes 0x101007)].

Definition demo_pool (b : Z) : list (Z * list Z) := pool_cells g_kernel_pool 0x200000 0xc009a000 [b].

Lemma demo_vpool_models : cells demo_vpool ⊢ is_vpool g_kernel_vaddr 0xc0100000 0xc009a100 [1].
Proof. apply vpool_cells_models. vm_compute. reflexivity. Qed.

Lemma demo_pool_models b : cells (demo_pool b) ⊢ is_pool g_kernel_pool 0x200000 0xc009a000 [b].
Proof. apply pool_cells_models. vm_compute. reflexivity. Qed.

Lemma demo_pdes : cells demo_pde ⊢ pdes {[768 := 0x101007]}.
Proof.
  unfold demo_pde. rewrite cells_word // /pdes big_sepM_singleton. iIntros "[$ _]". done.
Qed.

Lemma demo_fit n : 1 <= n <= 4 → first_fit (used [1]) (bits_of [1]) n 1.
Proof.
  intros Hn. split_and!; [lia|unfold bits_of; simpl; lia| |].
  - intros i Hi. assert (i = 1 ∨ i = 2 ∨ i = 3 ∨ i = 4) as [-> | [-> | [-> | ->]]] by lia; done.
  - intros r' Hr'. exists 0. replace r' with 0 by lia. split; [lia|done].
Qed.

Lemma demo_page junk :
  cells (demo_vpool ++ demo_pool 3 ++ demo_pde ++
         [(pte_addr 0xc0101000, word_bytes 0); (0xc0101000, junk)]) ⊢
  kernel_pages {[768 := 0x101007]} 1 0xc0100000 0xc009a100 [1] 0 0x200000 0xc009a000 [3] ∗
  ptes 0xc0101000 [0] ∗ 0xc0101000 ↦∗ junk.
Proof.
  rewrite !cells_app demo_vpool_models demo_pool_models demo_pdes.
  rewrite cells_word // cells_cons /kernel_pages.
  iIntros "(HV & HP & HD & HE & Hb & _)". iFrame "HV HP HD Hb".
  rewrite ptes_cons. iFrame "HE". by rewrite /ptes.
Qed.

Lemma malloc_kernel_pages_maps_witness :
  ∃ r h', exec (malloc_kernel_pages 1) cpu_a
      (mem_of (demo_vpool ++ demo_pool 3 ++ demo_pde ++
               [(pte_addr 0xc0101000, word_bytes 0); (0xc0101000, replicate 4096 7)])) r h' ∧
    h' ⊨ (returns (λ a c', ⌜a = 0xc0101000⌝ ∗ ptes 0xc0101000 [0x202007]) r).
Proof.
  edestruct (triple_run _ _ _ _ (mem_of (demo_vpool ++ demo_pool 3 ++
      demo_pde ++ [(pte_addr 0xc0101000, word_bytes 0); (0xc0101000, replicate 4096 7)]))
    (malloc_kernel_pages_maps {[768 := 0x101007]} 0xc0100000 0xc009a100 [1] 0 0x200000 0xc009a000 [3]
       [0] 1 [2] [7] (replicate 4096 7) cpu_a ltac:(simpl; lia) ltac:(apply demo_fit; simpl; lia)
       ltac:(vm_compute; reflexivity)
       ltac:(intros i Hi; simpl in Hi; replace i with 0 by lia; by eexists)
       ltac:(by constructor) ltac:(vm_compute; reflexivity))) as (r & h' & Hx & Hq).
  - eapply models_mono; [|apply mem_of_models; vm_compute; reflexivity].
    apply demo_page.
  - exists r, h'. split; [done|]. eapply models_mono; [|apply Hq].
    destruct r; simpl; [|by iIntros "[]"..]. iIntros "((-> & _) & _ & $ & _)". done.
Defined.

Lemma malloc_free_pages_roundtrip_witness :
  ∃ r h', exec (a <- malloc_pages PF_KERNEL 2; free_pages PF_KERNEL 2 a ;; ret a)%prog cpu_a
      (mem_of (demo_vpool ++ [(0xc009a101, [0])] ++ demo_pool 3 ++
               demo_pde ++ [(pool_phy_start_addr g_user_pool, word_bytes 0x208000);
                 (pte_addr 0xc0101000, word_bytes 0); (pte_addr 0xc0102000, word_bytes 0);
                 (pte_addr 0xc0103000, word_bytes 0)])) r h' ∧
    h' ⊨ (returns (λ a c', ⌜a = 0xc0101000⌝ ∗
                   is_vpool g_kernel_vaddr 0xc0100000 0xc009a100 [1]) r).
Proof.
  edestruct (triple_run _ _ _ _ (mem_of (demo_vpool ++ [(0xc009a101, [0])] ++
      demo_pool 3 ++
      demo_pde ++ [(pool_phy_start_addr g_user_pool, word_bytes 0x208000);
                 (pte_addr 0xc0101000, word_bytes 0); (pte_addr 0xc0102000, word_bytes 0);
                 (pte_addr 0xc0103000, word_bytes 0)]))
    (malloc_free_pages_roundtrip {[768 := 0x101007]} 0xc0100000 0xc009a100 [1] 0 0x200000 0xc009a000 [3]
       0x208000 [0; 0] 0 1 [2; 3] [15] cpu_a ltac:(simpl; lia) ltac:(apply demo_fit; simpl; lia)
       ltac:(vm_compute; reflexivity)
       ltac:(intros i Hi; simpl in Hi; assert (i = 0 ∨ i = 1) as [-> | ->] by lia; by eexists)
       ltac:(by repeat constructor) ltac:(lia) ltac:(unfold bits_of; simpl; lia)))
    as (r & h' & Hx & Hq).
  - eapply models_mono; [|apply mem_of_models; vm_compute; reflexivity].
    rewrite !cells_app demo_vpool_models demo_pool_models demo_pdes.
    rewrite cells_cons bytes_cons !cells_word // /kernel_pages.
    iIntros "(HV & [[Hn _] _] & HP & HD & Hus & HE1 & HE2 & HE3 & _)". iFrame "HV HP HD Hus HE3 Hn".
    rewrite !ptes_cons. iFrame "HE1 HE2". by rewrite /ptes.
  - exists r, h'. split; [done|]. eapply models_mono; [|apply Hq].
    destruct r; simpl; [|by iIntros "[]"..]. iIntros "((-> & _) & ($ & _) & _)". done.
Defined.

Lemma malloc_pages_no_rollback_witness :
  ∃ r h', exec (malloc_pages PF_KERNEL 1) cpu_a
      (mem_of (demo_vpool ++ demo_pool 255)) r h' ∧
    h' ⊨ (returns (λ a c', ⌜a = 0⌝ ∗ is_vpool g_kernel_vaddr 0xc0100000 0xc009a100 [3]) r).
Proof.
  edestruct (triple_run _ _ _ _ (mem_of (demo_vpool ++ demo_pool 255))
    (malloc_pages_no_rollback 0xc0100000 0xc009a100 [1] 0 0x200000 0xc009a000 [255] 1 1 cpu_a
       ltac:(lia) ltac:(apply demo_fit; lia) ltac:(vm_compute; reflexivity))) as (r & h' & Hx & Hq).
  - eapply models_mono; [|apply mem_of_models; vm_compute; reflexivity].
    rewrite !cells_app demo_vpool_models demo_pool_models /kernel_pages.
    iIntros "[$ $]". by rewrite /pdes big_sepM_empty.
  - exists r, h'. split; [done|]. eapply models_mono; [|apply Hq].
    destruct r; simpl; [|by iIntros "[]"..]. iIntros "((-> & _) & $ & _)". done.
Defined.

Lemma free_first_user_frame_panics_witness :
  ∃ r h', exec (free_pages PF_USER 1 0x8048000) cpu_a
      (mem_of [(pte_addr 0x8048000, word_bytes 0x208007);
               (pool_phy_start_addr g_user_pool, word_bytes 0x208000);
               (pool_phy_start_addr g_kernel_pool, word_bytes 0x200000)]) r h' ∧
    h' ⊨ (panics (λ c', ⌜if_on c' = false⌝)%I r).
Proof.
  eapply triple_run.
  - apply (free_first_user_frame_panics PF_USER 0x8048000 0x208000 0x200000 0x208007 cpu_a);
      [lia|reflexivity|reflexivity|lia|reflexivity].
  - eapply models_mono; [|apply mem_of_models; vm_compute; reflexivity].
    rewrite !cells_word //. iIntros "($ & $ & $ & _)".
Defined.
