(* ===== verification/Pages.v ===== *)
(** kernel/memory.c: any sequence of calls of the kernel page allocator.  The
    abstract heap is a finite map from the pages of the heap to the frames they
    are mapped to; the invariant ties the bitmaps and the page tables to it.  The
    search for several pages looks at the bit after the map of pages: [wheap] lets
    it, and has a page more; [kheap], for clients that ask for single pages, or with
    that bit set, stays in the map. *)
From S2P Require Export Memory.

(** ** The abstract heap *)

(** Page [r] and those that follow mapped to [rs]. *)
Fixpoint map_run (r : Z) (rs : list Z) (m : gmap Z Z) : gmap Z Z :=
  match rs with
  | [] => m
  | f :: rs => <[r := f]> (map_run (r + 1) rs m)
  end.
Fixpoint unmap_run (r : Z) (n : nat) (m : gmap Z Z) : gmap Z Z :=
  match n with
  | O => m
  | S n => delete r (unmap_run (r + 1) n m)
  end.

Lemma lookup_map_run r rs m i :
  map_run r rs m !! i =
  if decide (r <= i < r + Z.of_nat (length rs)) then rs !! Z.to_nat (i - r) else m !! i.
Proof.
  revert r. induction rs as [|f rs IH]; intros r; cbn [map_run length].
  - by rewrite decide_False; [|lia].
  - destruct (decide (i = r)) as [->|Hi].
    + rewrite lookup_insert_eq decide_True; [|lia]. by rewrite Z.sub_diag.
    + rewrite lookup_insert_ne // IH. destruct (decide (r + 1 <= i < _)).
      * rewrite decide_True; [|lia]. by replace (Z.to_nat (i - r)) with (S (Z.to_nat (i - (r + 1)))) by lia.
      * rewrite decide_False; [done|lia].
Qed.

Lemma lookup_unmap_run r n m i :
  unmap_run r n m !! i = if decide (r <= i < r + Z.of_nat n) then None else m !! i.
Proof.
  revert r. induction n as [|n IH]; intros r; cbn [unmap_run].
  - by rewrite decide_False; [|lia].
  - destruct (decide (i = r)) as [->|Hi].
    + by rewrite lookup_delete_eq decide_True; [|lia].
    + rewrite lookup_delete_ne // IH. destruct (decide (r + 1 <= i < _)).
      * by rewrite decide_True; [|lia].
      * by rewrite decide_False; [|lia].
Qed.

(** A run of pages that are all mapped. *)
Definition run_mapped (m : gmap Z Z) (r : Z) (n : nat) : Prop :=
  ∀ i, r <= i < r + Z.of_nat n → is_Some (m !! i).

Lemma run_mapped_frames m r n :
  run_mapped m r n →
  ∃ rs, length rs = n ∧ ∀ j f, rs !! j = Some f → m !! (r + Z.of_nat j) = Some f.
Proof.
  revert r. induction n as [|n IH]; intros r Hm; [by exists []|].
  destruct (Hm r) as [f Hf]; [lia|]. destruct (IH (r + 1)) as (rs & Hl & Hrs).
  { intros i Hi. apply Hm. lia. }
  exists (f :: rs). split; [by rewrite /= Hl|]. intros [|j] g Hg; simplify_eq/=.
  - by rewrite Z.add_0_r.
  - apply Hrs in Hg. by replace (r + S j) with (r + 1 + j) by lia.
Qed.

(** The invariant: a mapped page is marked, its frame is marked, and no two pages
    share a frame. *)
Definition heap_ok (vbs pbs : list Z) (m : gmap Z Z) : Prop :=
  (∀ i f, m !! i = Some f → 0 <= i < bits_of vbs ∧ used vbs i = true ∧
                            0 <= f < bits_of pbs ∧ used pbs f = true) ∧
  (∀ i j f, m !! i = Some f → m !! j = Some f → i = j).

Lemma heap_ok_alloc vbs pbs m r n k rs pbs' :
  heap_ok vbs pbs m → 0 <= r → r + Z.of_nat n <= bits_of vbs → (k <= n)%nat →
  palloc_n k pbs = Some (rs, pbs') →
  heap_ok (bm_set_run vbs r n true) pbs' (map_run r rs m).
Proof.
  intros [Hm Hinj] Hr Hn Hk Hal. pose proof (palloc_n_bits _ _ _ _ Hal) as Hbits.
  apply palloc_n_spec in Hal as (Hl & Hnd & Hin & Hu).
  assert (∀ i f, m !! i = Some f → f ∈ rs → False) as Hold.
  { intros i f Hi Hf. destruct (Hin f Hf) as [_ Hfree], (Hm i f Hi) as (_ & _ & _ & Hused). congruence. }
  split.
  - intros i f. rewrite lookup_map_run bits_of_bm_set_run Hbits. case_decide.
    + intros Hi. apply list_elem_of_lookup_2 in Hi. destruct (Hin f Hi) as [Hf _].
      rewrite used_bm_set_run; [|lia..]. rewrite decide_True; [|lia].
      rewrite Hu; [|lia]. rewrite bool_decide_true //. split_and!; [lia|lia|done|lia|lia|done].
    + intros Hi. destruct (Hm i f Hi) as (Hb & Hv & Hf & Hp).
      rewrite used_bm_set_run; [|lia..]. rewrite Hv Hu; [|lia]. rewrite Hp orb_true_r.
      split_and!; [lia|lia|by case_decide|lia|lia|done].
  - intros i j f. rewrite !lookup_map_run. do 2 case_decide; intros Hi Hj.
    + pose proof (proj1 (NoDup_alt rs) Hnd _ _ _ Hi Hj). lia.
    + apply list_elem_of_lookup_2 in Hi. by destruct (Hold j f).
    + apply list_elem_of_lookup_2 in Hj. by destruct (Hold i f).
    + by apply (Hinj i j f).
Qed.

Lemma heap_ok_free vbs pbs m r rs :
  heap_ok vbs pbs m → 0 <= r → r + Z.of_nat (length rs) <= bits_of vbs →
  (∀ j f, rs !! j = Some f → m !! (r + Z.of_nat j) = Some f) →
  heap_ok (bm_set_run vbs r (length rs) false) (pfree_n rs pbs) (unmap_run r (length rs) m).
Proof.
  intros [Hm Hinj] Hr Hn Hrs.
  split.
  - intros i f. rewrite lookup_unmap_run bits_of_bm_set_run bits_of_pfree_n. case_decide; [done|].
    intros Hi. destruct (Hm i f Hi) as (Hb & Hv & Hf & Hp).
    rewrite used_bm_set_run; [|lia..]. rewrite decide_False // Hv.
    split_and!; [lia|lia|done|lia|lia|]. rewrite used_pfree_n; [|intros g [j Hg]%list_elem_of_lookup|lia].
    + rewrite Hp bool_decide_false; [done|]. intros [j Hj]%list_elem_of_lookup.
      pose proof (lookup_lt_Some _ _ _ Hj). apply Hrs in Hj. specialize (Hinj _ _ _ Hi Hj). lia.
    + apply Hrs, Hm in Hg. lia.
  - intros i j f. rewrite !lookup_unmap_run. do 2 case_decide; [done..|]. apply Hinj.
Qed.

(** ** Page tables *)

Section tables.
Context (start pstart : Z).

Definition entry_of (m : gmap Z Z) (i e : Z) : Prop :=
  match m !! i with
  | Some f => e = page_entry (pstart + 4096 * f)
  | None => present e = false
  end.

(** The entries of [n] pages of the heap, from page [r] on. *)
Definition entries (m : gmap Z Z) (r : Z) (n : nat) : hPropI :=
  (∃ es, ⌜length es = n ∧ ∀ j e, es !! j = Some e → entry_of m (r + Z.of_nat j) e⌝ ∗
         ptes (start + 4096 * r) es)%I.

Lemma ptes_app v es1 es2 :
  ptes v (es1 ++ es2) ⊣⊢ ptes v es1 ∗ ptes (v + 4096 * Z.of_nat (length es1)) es2.
Proof.
  revert v. induction es1 as [|e es1 IH]; intros v; cbn [app length].
  - rewrite Z.mul_0_r Z.add_0_r /ptes big_sepL_nil left_id //.
  - rewrite !ptes_cons IH (assoc bi_sep).
    by replace (v + 4096 * S (length es1)) with (v + 4096 + 4096 * length es1) by lia.
Qed.

Lemma entries_app m r n1 n2 :
  entries m r (n1 + n2) ⊣⊢ entries m r n1 ∗ entries m (r + Z.of_nat n1) n2.
Proof.
  unfold entries. iSplit.
  - iIntros "(%es & [%Hl %He] & H)". rewrite -(take_drop n1 es) ptes_app.
    iDestruct "H" as "[H1 H2]". rewrite length_take Nat.min_l; [|lia].
    iSplitL "H1".
    + iExists (take n1 es). iFrame. iPureIntro. split; [rewrite length_take; lia|].
      intros j e [Hj _]%lookup_take_Some. by apply He.
    + iExists (drop n1 es).
      replace (start + 4096 * (r + n1)) with (start + 4096 * r + 4096 * n1) by lia. iFrame.
      iPureIntro. split; [rewrite length_drop; lia|]. intros j e. rewrite lookup_drop.
      intros Hj%He. by replace (r + n1 + j) with (r + (n1 + j)%nat) by lia.
  - iIntros "[(%es1 & [%Hl1 %He1] & H1) (%es2 & [%Hl2 %He2] & H2)]".
    iExists (es1 ++ es2). rewrite ptes_app Hl1.
    replace (start + 4096 * (r + n1)) with (start + 4096 * r + 4096 * n1) by lia. iFrame.
    iPureIntro. split; [rewrite length_app; lia|]. intros j e [Hj|[Hge Hj]]%lookup_app_Some.
    + by apply He1.
    + apply He2 in Hj. rewrite Hl1 in Hge Hj. by replace (r + j) with (r + n1 + (j - n1)%nat) by lia.
Qed.

Lemma entries_ext m m' r n :
  (∀ i, r <= i < r + Z.of_nat n → m !! i = m' !! i) → entries m r n ⊢ entries m' r n.
Proof.
  iIntros (Hm) "(%es & [%Hl %He] & H)". iExists es. iFrame. iPureIntro. split; [done|].
  intros j e Hj. unfold entry_of. rewrite -Hm; [by apply He|].
  apply lookup_lt_Some in Hj. lia.
Qed.

(** Part of the entries taken out and put back changed. *)
Lemma entries_acc m m' r k n :
  0 <= r → r + Z.of_nat k <= Z.of_nat n →
  (∀ i, ¬ (r <= i < r + Z.of_nat k) → m !! i = m' !! i) →
  entries m 0 n ⊢ entries m r k ∗ (entries m' r k -∗ entries m' 0 n).
Proof.
  intros Hr Hn Hm.
  assert (∀ m, entries m 0 n ⊣⊢ entries m 0 (Z.to_nat r) ∗ entries m r k ∗
    entries m (r + Z.of_nat k) (n - Z.to_nat r - k)) as Hsplit.
  { intros m0. replace n with (Z.to_nat r + (k + (n - Z.to_nat r - k)))%nat at 1 by lia.
    rewrite !entries_app. by replace (0 + Z.to_nat r) with r by lia. }
  rewrite !Hsplit (entries_ext m m' 0); [|intros; apply Hm; lia].
  rewrite (entries_ext m m' (r + k)); [|intros; apply Hm; lia].
  iIntros "($ & $ & $) $".
Qed.

Lemma entries_unmapped m r n :
  (∀ i, r <= i < r + Z.of_nat n → m !! i = None) →
  entries m r n ⊣⊢ ∃ es, ⌜length es = n ∧ Forall (λ e, present e = false) es⌝ ∗
                         ptes (start + 4096 * r) es.
Proof.
  intros Hm. apply bi.exist_proper. intros es. f_equiv. f_equiv. split; intros [Hl He]; (split; [done|]).
  - apply Forall_lookup. intros j e Hj. specialize (He j e Hj). unfold entry_of in He.
    rewrite Hm in He; [done|]. apply lookup_lt_Some in Hj. lia.
  - intros j e Hj. unfold entry_of. rewrite Hm; [|apply lookup_lt_Some in Hj; lia].
    by eapply Forall_lookup_1 in He.
Qed.

Lemma entries_mapped m r rs :
  (∀ j f, rs !! j = Some f → m !! (r + Z.of_nat j) = Some f) →
  entries m r (length rs) ⊣⊢
  ptes (start + 4096 * r) ((λ f, page_entry (pstart + 4096 * f)) <$> rs).
Proof.
  intros Hrs. iSplit.
  - iIntros "(%es & [%Hl %He] & H)".
    replace ((λ f, page_entry (pstart + 4096 * f)) <$> rs) with es; [done|].
    apply list_eq_same_length with (length rs); [by rewrite length_fmap|done|].
    intros j e e' Hj Hx Hy. apply list_lookup_fmap_Some in Hy as (f & -> & Hf).
    specialize (He j e Hx). unfold entry_of in He. by rewrite (Hrs _ _ Hf) in He.
  - iIntros "H". iExists _. iFrame. iPureIntro. split; [by rewrite length_fmap|].
    intros j e (f & -> & Hf)%list_lookup_fmap_Some. unfold entry_of. by rewrite (Hrs _ _ Hf).
Qed.

End tables.

(** ** Fits *)

Lemma fit_or_none u limit cnt : (∃ r, first_fit u limit cnt r) ∨ no_fit u limit cnt.
Proof.
  assert (∀ n : nat, (∃ r, first_fit u limit cnt r) ∨
    (∀ r, 0 <= r < Z.of_nat n → r + cnt <= limit → ∃ i, r <= i < r + cnt ∧ u i = true)) as H.
  { induction n as [|n [IH|IH]]; [right; lia|by left|].
    destruct (decide (Z.of_nat n + cnt <= limit)) as [Hn|Hn]; [|right; intros r Hr Hl; apply IH; lia].
    destruct (decide (Exists (λ i, u i = true) (seqZ n cnt))) as [Hx|Hx].
    - right. intros r Hr Hl. destruct (decide (r = n)) as [->|Hne]; [|apply IH; lia].
      apply Exists_exists in Hx as (i & Hi%elem_of_seqZ & Hu). by exists i.
    - left. exists n. split_and!; [lia|done| |].
      + intros i Hi. destruct (u i) eqn:Hu; [|done]. destruct Hx. apply Exists_exists.
        exists i. split; [by apply elem_of_seqZ|done].
      + intros r Hr. apply IH; lia. }
  destruct (H (Z.to_nat (limit - cnt + 1))) as [Hf|Hf]; [by left|]. right. intros r Hr Hl. apply Hf; lia.
Qed.

(** A scan for one bit stays in the map, and so does a longer one when the bit
    after the map is set. *)
Definition guarded (nx cnt : Z) : Prop := cnt = 1 ∨ Z.testbit nx 0 = true.

Lemma scan_inside bs n cnt r :
  0 <= n → 1 <= cnt → (cnt = 1 ∨ used bs n = true) →
  first_fit (used bs) (n + b2z (negb (cnt =? 1))) cnt r → r + cnt <= n.
Proof.
  intros Hn Hc Hg (H1 & H2 & H3 & _). destruct (decide (r + cnt <= n)) as [|Hout]; [done|].
  destruct Hg as [->|Hg]; [simpl in H2; lia|].
  rewrite H3 in Hg; [done|]. destruct (cnt =? 1); simpl in H2; lia.
Qed.

(** Changing the bits of a run leaves the bytes above it as they are. *)
Lemma lookup_bm_set_run_above bs r n v k :
  0 <= r → r + Z.of_nat n <= 8 * Z.of_nat k → bm_set_run bs r n v !! k = bs !! k.
Proof.
  intros Hr. induction n as [|n IH]; intros Hn; [done|]. rewrite bm_set_run_S.
  unfold bm_set. rewrite list_lookup_alter_ne; [apply IH; lia|].
  Z.div_mod_to_equations. lia.
Qed.

Lemma palloc_some n bs :
  ∃ k rs bs', (k <= n)%nat ∧ palloc_n k bs = Some (rs, bs') ∧ (k = n ∨ first_free bs' = None).
Proof.
  revert bs. induction n as [|n IH]; intros bs; [by exists 0%nat, [], bs; split_and!; [lia| |left]|].
  destruct (first_free bs) as [r|] eqn:E.
  - destruct (IH (bm_set bs r true)) as (k & rs & bs' & Hk & Hal & Hor).
    exists (S k), (r :: rs), bs'. split_and!; [lia|by rewrite /= E /= Hal|].
    destruct Hor as [->|]; [by left|by right].
  - exists 0%nat, [], bs. split_and!; [lia|done|by right].
Qed.

(** ** The allocator as an abstract heap *)

(** What a request for [cnt] pages does: nothing, or it maps pages of the [np] of
    the heap that were not mapped, all of them if it succeeds and the first ones if
    it fails. *)
Inductive alloc_step (start : Z) (np : nat) (cnt : Z) (m : gmap Z Z) : Z → gmap Z Z → Prop :=
  | alloc_none : alloc_step start np cnt m 0 m
  | alloc_run r rs a :
      0 <= r → r + cnt <= Z.of_nat np → (∀ i, r <= i < r + cnt → m !! i = None) →
      Z.of_nat (length rs) <= cnt →
      a = (if Z.of_nat (length rs) =? cnt then start + 4096 * r else 0) →
      alloc_step start np cnt m a (map_run r rs m).

Section heap.
Context `{Symbols, Frames} (start addr nx pstart paddr ustart el : Z) (ds : gmap Z Z) (npages : nat)
  (nframes : Z).
Implicit Types (c : cpu) (m : gmap Z Z) (w : bool).

(** The heap with the pages of [m] mapped: whatever the bitmaps are, they agree
    with it.  The page tables are there, and so are the byte after the map of the
    pages and the entry of the page after the heap. *)
Definition kheap m : hPropI :=
  (∃ vbs pbs,
     ⌜bits_of vbs = Z.of_nat npages ∧ bits_of pbs = nframes ∧ heap_ok vbs pbs m⌝ ∗
     is_vpool g_kernel_vaddr start addr vbs ∗
     (addr + Z.of_nat (length vbs)) ↦ nx ∗
     is_pool g_kernel_pool pstart paddr pbs ∗
     ⌜0x102000 <= pstart ∧ pstart + 4096 * nframes <= ustart⌝ ∗
     pool_phy_start_addr g_user_pool ↦w ustart ∗
     pdes ds ∗ ⌜covered ds start npages⌝ ∗
     entries start pstart m 0 npages ∗
     pte_addr (start + 4096 * Z.of_nat npages) ↦w el)%I.

(** The scan for several pages also looks at the bit after the map, so a block may
    end one page past the pages that the map is for.  [w] says whether it may. *)
Definition reach w : nat := (npages + if w then 1 else 0)%nat.

(** The map of the pages, [abs] with the byte after it, as the scan reads it. *)
Definition page_map (abs : list Z) : hPropI :=
  (∃ vbs nx', ⌜abs = vbs ++ [nx'] ∧ bits_of vbs = Z.of_nat npages⌝ ∗
     is_vpool g_kernel_vaddr start addr vbs ∗ (addr + Z.of_nat (length vbs)) ↦ nx')%I.

Definition pheap w m : hPropI :=
  (∃ abs pbs,
     ⌜bits_of pbs = nframes ∧ heap_ok abs pbs m ∧ (∀ i, is_Some (m !! i) → i < Z.of_nat (reach w)) ∧
      (w = false → ∀ k : nat, (8 * Z.of_nat k)%Z = Z.of_nat npages → abs !! k = Some nx)⌝ ∗
     page_map abs ∗ is_pool g_kernel_pool pstart paddr pbs ∗
     ⌜0x102000 <= pstart ∧ pstart + 4096 * nframes <= ustart⌝ ∗
     pool_phy_start_addr g_user_pool ↦w ustart ∗ pdes ds ∗
     ⌜covered ds start (reach w) ∧ start + 4096 * Z.of_nat (reach w) < 2 ^ 32⌝ ∗
     entries start pstart m 0 (reach w) ∗
     pte_addr (start + 4096 * Z.of_nat (reach w)) ↦w el)%I.

(** Nothing is assumed about the byte after the map, which [mem_init] does not write. *)
Definition wheap m : hPropI := pheap true m.

(** The two ways to see the map of the pages. *)
Lemma page_map_acc abs :
  page_map abs ⊢
  ⌜bits_of abs = (Z.of_nat npages + 8)%Z ∧ Z.of_nat npages < 2 ^ 31 - 8 ∧ 0 < start ∧
   start mod 4096 = 0 ∧ (start + 4096 * Z.of_nat npages < 2 ^ 32)%Z⌝ ∗
  vaddr_start g_kernel_vaddr ↦w start ∗ bitmap_bits_of (vaddr_bitmap g_kernel_vaddr) ↦w addr ∗
  addr ↦∗ abs ∗
  (∀ abs', ⌜length abs' = length abs⌝ -∗
     vaddr_start g_kernel_vaddr ↦w start -∗ bitmap_bits_of (vaddr_bitmap g_kernel_vaddr) ↦w addr -∗
     addr ↦∗ abs' -∗ page_map abs').
Proof.
  iIntros "(%vbs & %nx' & [-> %Hv] & (%Hf & (%Hs & Hl & Hb & HB) & Hst) & Hnx)".
  destruct Hf as (Hs0 & Hs1 & Hs2). iSplitR.
  { iPureIntro. unfold bits_of in *. rewrite length_app. cbn [length]. split_and!; [lia..|done|lia]. }
  iFrame "Hst Hb". iSplitL "HB Hnx".
  { rewrite bytes_app bytes_cons bytes_nil. iFrame. }
  iIntros (abs' Hlen) "Hst Hb HB". rewrite length_app in Hlen. cbn [length] in Hlen.
  induction abs' as [|x vbs' _] using rev_ind; [simpl in Hlen; lia|].
  rewrite length_app in Hlen. cbn [length] in Hlen. assert (length vbs' = length vbs) as El by lia.
  rewrite bytes_app bytes_cons bytes_nil El. iDestruct "HB" as "(HB & Hnx & _)".
  assert (bits_of vbs' = bits_of vbs) as Eb by by rewrite /bits_of El.
  iExists vbs', x. rewrite /is_vpool /is_bitmap /pages_fit El Eb. by iFrame.
Qed.

Lemma kheap_pheap m : kheap m ⊣⊢ pheap false m.
Proof.
  iSplit.
  - iIntros "(%vbs & %pbs & (%Hv & %Hp & %Hok & %Hinj) & HV & Hnx & HP & %Hlow & Hus & HD & %Hcov & HE & Hel)".
    iAssert ⌜pages_fit start vbs⌝%I as %(Hf0 & Hf1 & Hf2); [by iDestruct "HV" as "[$ _]"|].
    iExists (vbs ++ [nx]), pbs. rewrite /reach Nat.add_0_r. iFrame "HP Hus HD HE Hel".
    iSplitR; [iPureIntro; split_and!|].
    + done.
    + split; [|done]. intros i f Hi. destruct (Hok i f Hi) as (Hb & Hu & Hr).
      split; [unfold bits_of in *; rewrite length_app; lia|]. by rewrite used_app.
    + intros i [f Hi]. apply Hok in Hi. lia.
    + intros _ k Hk. apply list_lookup_middle. unfold bits_of in Hv. lia.
    + iSplitL; [iExists vbs, nx; by iFrame|]. iPureIntro. split_and!; [lia|lia|done|lia].
  - iIntros "(%abs & %pbs & (%Hp & [%Hok %Hinj] & %Hin & %Hl) & (%vbs & %nx' & [-> %Hv] & HV & Hnx) & HP & %Hlow & Hus & HD & [%Hcov _] & HE & Hel)".
    rewrite /reach Nat.add_0_r in Hin Hcov |- *. pose proof Hlow as [? ?].
    specialize (Hl eq_refl (length vbs)). rewrite list_lookup_middle // in Hl.
    unfold bits_of in Hl. specialize (Hl Hv). simplify_eq.
    iExists vbs, pbs. iFrame. iPureIntro. split; [|done]. split_and!; [done..|].
    split; [|done]. intros i f Hi. destruct (Hok i f Hi) as (Hb & Hu & Hr).
    assert (0 <= i < bits_of vbs) as Hi'. { split; [lia|]. rewrite Hv. apply Hin. by eexists. }
    by rewrite used_app in Hu.
Qed.

(** The bitmap scan does not need the byte after the map for one page. *)
Lemma guard_frame cnt a x :
  a ↦ x ⊢ (if cnt =? 1 then emp else a ↦ x) ∗ ((if cnt =? 1 then emp else a ↦ x) -∗ a ↦ x).
Proof.
  iIntros "H". case_match; [|iFrame; by iIntros "$"].
  iSplitR; [done|]. iIntros "_". iExact "H".
Qed.

Lemma vaddr_get_pages_map_wp abs cnt c (Φ : res Z → hPropI) :
  1 <= cnt < 3840 →
  page_map abs -∗
  (∀ r, ⌜scan_result (used abs) (Z.of_nat npages + b2z (negb (cnt =? 1))) cnt r⌝ -∗
     page_map (if r =? -1 then abs else bm_set_run abs r (Z.to_nat cnt) true) -∗
     Φ (RRet (if r =? -1 then 0 else start + 4096 * r) c)) -∗
  wp (vaddr_get_pages PF_KERNEL cnt) c Φ.
Proof.
  iIntros (Hc) "(%vbs & %nx' & [-> %Hv] & (%Hf & HB & Hst) & Hnx) HΦ". rewrite /vaddr_get_pages. wp_reduce.
  iDestruct (guard_frame cnt with "Hnx") as "[Hnx Hg]".
  wp_bind. iApply (bitmap_scan_wp with "HB Hnx"); [lia|]. rewrite Hv. iIntros (r Hr) "HB Hnx". wp_reduce.
  iDestruct ("Hg" with "Hnx") as "Hnx".
  iAssert (page_map (vbs ++ [nx'])) with "[HB Hst Hnx]" as "HM".
  { iExists vbs, nx'. by iFrame. }
  iSpecialize ("HΦ" with "[//]"). destruct Hr as [(Hr0 & Hr1 & _)|[-> _]].
  - rewrite (proj2 (Z.eqb_neq r (-1))); [|lia].
    iDestruct (page_map_acc with "HM") as "(%Hm & Hst & Hb & HB & HM)".
    assert (r + cnt <= Z.of_nat npages + 1) by (destruct (cnt =? 1); simpl in Hr1; lia).
    rewrite w32_small; [|lia]. change (w32 (-1)) with 4294967295.
    rewrite (proj2 (Z.eqb_neq r 4294967295)); [|lia].
    pose proof (λ Φ, set_bits_raw_wp (vaddr_bitmap g_kernel_vaddr) addr (vbs ++ [nx']) r (Z.to_nat cnt) true c Φ) as Hset.
    rewrite Z2Nat.id in Hset; [|lia].
    wp_bind. iApply (Hset with "Hb HB"); [lia|lia|lia|]. iIntros "Hb HB". wp_reduce.
    wp_ld "Hst". wp_pure. rewrite /PAGE_SIZE w32_small; [|lia].
    iApply "HΦ". iApply ("HM" with "[%] Hst Hb HB"). apply length_bm_set_run.
  - rewrite !Z.eqb_refl. iApply wp_ret. by iApply "HΦ".
Qed.

(** ** One call *)

Lemma pheap_alloc_wp w m cnt c (Φ : res Z → hPropI) :
  0 < cnt < 3840 → (w = false → guarded nx cnt) →
  pheap w m -∗ (∀ a m', ⌜alloc_step start (reach w) cnt m a m'⌝ -∗ pheap w m' -∗ Φ (RRet a c)) -∗
  wp (malloc_pages PF_KERNEL cnt) c Φ.
Proof.
  iIntros (Hc Hg) "(%abs & %pbs & (%Hp & %Hok & %Hin & %Hnx) & HM & HP & %Hlow & Hus & HD & [%Hcov %Htop] & HE & Hel) HΦ".
  iDestruct (page_map_acc with "HM") as "(%Hm & Hst & Hb & HB & HM)".
  iDestruct ("HM" with "[//] Hst Hb HB") as "HM".
  rewrite /malloc_pages. wp_bind. iApply wp_assert.
  { rewrite Z.gtb_ltb. apply andb_true_iff. split; apply Z.ltb_lt; lia. }
  wp_reduce. wp_bind. iApply (vaddr_get_pages_map_wp with "HM"); [lia|].
  iIntros (r Hr) "HM". wp_reduce. destruct Hr as [Hfit|[-> _]]; last first.
  { iApply wp_ret. iApply ("HΦ" with "[%]"); [apply alloc_none|]. iExists abs, pbs. by iFrame. }
  assert (r + cnt <= Z.of_nat (reach w)) as Hr1.
  { unfold reach. destruct w; [destruct Hfit as (_ & Hl & _); destruct (cnt =? 1); simpl in Hl; lia|].
    rewrite Nat.add_0_r. apply (scan_inside abs); [lia|lia| |done].
    destruct (Hg eq_refl) as [->|Hb]; [by left|right].
    assert (∃ k : nat, 8 * Z.of_nat k = Z.of_nat npages) as [k Hk].
    { destruct Hm as [Hb' _]. unfold bits_of in Hb'. exists (length abs - 1)%nat. lia. }
    rewrite -Hk -(Z.add_0_r (8 * _)) (used_byte _ k nx); [done|by apply Hnx|lia]. }
  pose proof Hfit as (Hr0 & _ & Hfree & _). rewrite (proj2 (Z.eqb_neq r (-1))); [|lia].
  destruct (palloc_some (Z.to_nat cnt) pbs) as (k & rs & pbs' & Hk & Hal & Hor).
  rewrite (proj2 (Z.eqb_neq _ 0)); [|lia].
  assert (∀ i, r <= i < r + cnt → m !! i = None) as Hun.
  { intros i Hi. destruct (m !! i) as [f|] eqn:E; [|done].
    apply Hok in E as (_ & Hu & _). rewrite Hfree // in Hu. }
  pose proof (palloc_n_spec _ _ _ _ Hal) as (Hl & _).
  iDestruct (entries_acc _ _ m (map_run r rs m) r k with "HE") as "[HE HEb]"; [lia|lia| |].
  { intros i Hi. by rewrite lookup_map_run Hl decide_False. }
  rewrite entries_unmapped; [|intros i Hi; apply Hun; lia].
  iDestruct "HE" as (es) "[[%He %Hes] HE]".
  rewrite -He in Hl. rewrite -He in Hal Hk Hor |- *. clear k He.
  iApply wp_loop_start. iApply (map_run_wp with "HP HD HE"); [done|lia|lia|lia| |done|].
  { intros i Hi. replace (start + 4096 * r + 4096 * i) with (start + 4096 * (r + i)) by lia.
    apply Hcov. lia. }
  iIntros "HP HD HE".
  iDestruct ("HEb" with "[HE]") as "HE".
  { rewrite -Hl entries_mapped; [done|]. intros j f Hj. pose proof (lookup_lt_Some _ _ _ Hj).
    rewrite lookup_map_run decide_True; [|lia]. by replace (Z.to_nat (r + j - r)) with j by lia. }
  iAssert (∀ a, ⌜a = if Z.of_nat (length rs) =? cnt then (start + 4096 * r)%Z else 0⌝ -∗
    is_pool g_kernel_pool pstart paddr pbs' -∗ Φ (RRet a c))%I with "[-HP]" as "HΦ".
  { iIntros (a Ha) "HP". iApply ("HΦ" with "[%]"); [apply (alloc_run _ _ _ _ r rs); by first [lia|done]|].
    iExists (bm_set_run abs r (Z.to_nat cnt) true), pbs'.
    iFrame "HM HP Hus HD HE Hel". iPureIntro. pose proof (palloc_n_bits _ _ _ _ Hal).
    assert (r + Z.of_nat (Z.to_nat cnt) <= Z.of_nat (reach w)) by lia.
    assert (Z.of_nat (reach w) <= Z.of_nat npages + 1) by (unfold reach; destruct w; lia).
    split; [split_and!|done].
    - congruence.
    - eapply heap_ok_alloc; [done|lia|lia|exact Hk|exact Hal].
    - intros i. rewrite lookup_map_run. case_decide; [lia|apply Hin].
    - intros -> j Hj. rewrite lookup_bm_set_run_above; [by apply Hnx|lia|].
      unfold reach in *. lia. }
  rewrite Hl. destruct (Z.eqb_spec (Z.of_nat (length es)) cnt) as [E|Hne].
  - iApply wp_loop_step. rewrite /map_page (proj2 (Z.ltb_ge _ _)); [|lia]. wp_pure.
    by iApply ("HΦ" with "[//] HP").
  - destruct Hor as [?|Hnone]; [lia|]. iApply (map_none_wp with "HP"); [done|lia|].
    iIntros "HP". by iApply ("HΦ" $! 0 with "[//] HP").
Qed.

Lemma alloc_wp m cnt c (Φ : res Z → hPropI) :
  0 < cnt < 3840 → guarded nx cnt →
  kheap m -∗ (∀ a m', ⌜alloc_step start npages cnt m a m'⌝ -∗ kheap m' -∗ Φ (RRet a c)) -∗
  wp (malloc_pages PF_KERNEL cnt) c Φ.
Proof.
  iIntros (Hc Hg) "HK HΦ". rewrite kheap_pheap.
  iApply (pheap_alloc_wp with "HK"); [done|done|]. rewrite /reach Nat.add_0_r.
  iIntros (a m' Hst) "HK". rewrite -kheap_pheap. by iApply ("HΦ" with "[//] HK").
Qed.

Lemma present_removed e : present (Z.ldiff e 1) = false.
Proof. rewrite /present Z.ldiff_spec. apply andb_false_r. Qed.

(** A run of entries with the one after it, which may be the one after the heap. *)
Lemma entries_next np m m' r k :
  0 <= r → r + Z.of_nat k <= Z.of_nat np →
  (∀ i, ¬ (r <= i < r + Z.of_nat k) → m !! i = m' !! i) →
  entries start pstart m 0 np -∗ pte_addr (start + 4096 * Z.of_nat np) ↦w el -∗
  entries start pstart m r k ∗
  ∃ e, pte_addr (start + 4096 * r + 4096 * Z.of_nat k) ↦w e ∗
    (entries start pstart m' r k -∗ pte_addr (start + 4096 * r + 4096 * Z.of_nat k) ↦w e -∗
     entries start pstart m' 0 np ∗ pte_addr (start + 4096 * Z.of_nat np) ↦w el).
Proof.
  iIntros (Hr Hk Hm) "HE Hel". destruct (decide (r + Z.of_nat k = Z.of_nat np)) as [E|Hne].
  - iDestruct (entries_acc _ _ m m' r k with "HE") as "[$ HE]"; [done|done|done|].
    iExists el. replace (start + 4096 * r + 4096 * k) with (start + 4096 * np) by lia.
    iFrame. iIntros "H $". by iApply "HE".
  - iDestruct (entries_acc _ _ m m' r (k + 1) with "HE") as "[H HE]"; [done|lia| |].
    { intros i Hi. apply Hm. lia. }
    rewrite !entries_app. iDestruct "H" as "[$ (%es & [%Hl %He] & Hn)]".
    destruct es as [|e [|]]; [done| |done]. rewrite ptes_cons. iDestruct "Hn" as "[Hn _]".
    iExists e. replace (start + 4096 * r + 4096 * k) with (start + 4096 * (r + k)) by lia.
    iFrame "Hn Hel". iIntros "H Hn". iApply "HE". iFrame "H". iExists [e].
    rewrite ptes_cons /ptes big_sepL_nil. iFrame. iPureIntro. split; [done|].
    intros j x Hj. specialize (He j x Hj). unfold entry_of in *. rewrite -Hm; [done|].
    apply lookup_lt_Some in Hj. simpl in Hj. lia.
Qed.

(** Giving back pages that are mapped. *)
Lemma pheap_free_wp w m r n c (Φ : res unit → hPropI) :
  (0 < n)%nat → 0 <= r → r + Z.of_nat n <= Z.of_nat (reach w) → run_mapped m r n →
  pheap w m -∗
  (pheap w (unmap_run r n m) -∗ Φ (RRet tt (flush_tlb n c))) -∗
  wp (free_pages PF_KERNEL (Z.of_nat n) (start + 4096 * r)) c Φ.
Proof.
  iIntros (Hn Hr0 Hr1 (rs & Hl & Hrs)%run_mapped_frames) "(%abs & %pbs & (%Hp & %Hok & %Hin & %Hnx) & HM & HP & [%Hlow %Hu] & Hus & HD & [%Hcov %Htop] & HE & Hel) HΦ".
  iDestruct (page_map_acc with "HM") as "((%Hm & %Hm1 & %Hm2 & %Hm3 & %Hm4) & Hst & Hb & HB & HM)".
  iDestruct "HP" as "(%Hfp & HP)". pose proof Hfp as (_ & _ & Hp2).
  assert (Z.of_nat (reach w) <= Z.of_nat npages + 1) by (unfold reach; destruct w; lia).
  rewrite -Hl in Hn Hr1 |- *. clear n Hl.
  assert (∀ f, f ∈ rs → 0 <= f < bits_of pbs) as Hfr.
  { intros f [j Hj]%list_elem_of_lookup. apply Hrs, Hok in Hj. lia. }
  iDestruct (entries_next (reach w) m (unmap_run r (length rs) m) r (length rs) with "HE Hel")
    as "[HE (%e & Hn & HEb)]"; [lia|lia| |].
  { intros i Hi. by rewrite lookup_unmap_run decide_False. }
  rewrite entries_mapped //.
  iApply (free_pages_kernel_raw_wp start addr abs pstart paddr pbs with "Hst Hb HB [$HP //] Hus HE Hn");
    [by destruct rs; simpl in *; [lia|]|done|lia|done|done|lia|lia|lia| |].
  { intros f Hf'. specialize (Hfr f Hf'). lia. }
  iIntros "Hst Hb HB HP Hus HE Hn". iApply "HΦ".
  iDestruct ("HEb" with "[HE] Hn") as "[HE Hel]".
  { rewrite entries_unmapped; [|intros i Hi; by rewrite lookup_unmap_run decide_True].
    iExists _. iFrame "HE". iPureIntro. split; [by rewrite length_fmap|].
    apply Forall_lookup. intros j x (f & -> & Hj)%list_lookup_fmap_Some.
    apply present_removed. }
  iDestruct ("HM" with "[%] Hst Hb HB") as "HM"; [apply length_bm_set_run|].
  iExists (bm_set_run abs r (length rs) false), (pfree_n rs pbs).
  iFrame "HM HP Hus HD HE Hel". iPureIntro. split; [split_and!|done].
  - by rewrite bits_of_pfree_n.
  - apply heap_ok_free; [done|done|lia|done].
  - intros i. rewrite lookup_unmap_run. case_decide; [by intros []|apply Hin].
  - intros -> j Hj. rewrite lookup_bm_set_run_above; [by apply Hnx|lia|]. unfold reach in Hr1. lia.
Qed.

Lemma free_wp m r n c (Φ : res unit → hPropI) :
  (0 < n)%nat → 0 <= r → r + Z.of_nat n <= Z.of_nat npages → run_mapped m r n →
  kheap m -∗
  (kheap (unmap_run r n m) -∗ Φ (RRet tt (flush_tlb n c))) -∗
  wp (free_pages PF_KERNEL (Z.of_nat n) (start + 4096 * r)) c Φ.
Proof. rewrite !kheap_pheap. intros. apply pheap_free_wp; [done|done|by rewrite /reach Nat.add_0_r|done]. Qed.

(** ** Sequences of calls *)

(** A kernel that keeps the blocks it was given, and gives them back in any
    order. *)
Inductive call := Alloc (cnt : Z) | Free (k : nat).

Fixpoint run_calls (cs : list call) (live : list (Z * Z)) : M (list (Z * Z)) :=
  match cs with
  | [] => ret live
  | Alloc cnt :: cs =>
      a <- malloc_pages PF_KERNEL cnt;
      run_calls cs (if a =? 0 then live else live ++ [(a, cnt)])
  | Free k :: cs =>
      match live !! k with
      | Some (a, cnt) => free_pages PF_KERNEL cnt a ;; run_calls cs (delete k live)
      | None => run_calls cs live
      end
  end.

(** What the assertion of [malloc_pages] asks of a request. *)
Definition call_ok (x : call) : Prop := if x is Alloc cnt then 0 < cnt < 3840 else True.

(** A block of the heap whose pages are all mapped. *)
Definition block_ok m (b : Z * Z) : Prop :=
  ∃ r, b.1 = start + 4096 * r ∧ 0 <= r ∧ 0 < b.2 ∧ r + b.2 <= Z.of_nat (reach true) ∧
       run_mapped m r (Z.to_nat b.2).
Definition blocks_apart (b b' : Z * Z) : Prop :=
  b.1 + 4096 * b.2 <= b'.1 ∨ b'.1 + 4096 * b'.2 <= b.1.
Definition live_ok m (live : list (Z * Z)) : Prop :=
  Forall (block_ok m) live ∧
  ∀ k k' b b', live !! k = Some b → live !! k' = Some b' → k ≠ k' → blocks_apart b b'.

Lemma live_ok_alloc m cnt a m' live :
  0 < start → 0 < cnt → alloc_step start (reach true) cnt m a m' → live_ok m live →
  live_ok m' (if a =? 0 then live else live ++ [(a, cnt)]).
Proof.
  intros Hs Hc Hst [Hl Ha]. destruct Hst as [|r rs a Hr Hn Hun Hk ->]; [done|].
  assert (Forall (block_ok (map_run r rs m)) live) as Hl'.
  { eapply Forall_impl; [done|]. intros b (r' & E & ? & ? & ? & Hm). exists r'. split_and!; [done..|].
    intros i Hi. rewrite lookup_map_run. case_decide; [|by apply Hm].
    apply lookup_lt_is_Some. lia. }
  destruct (Z.eqb_spec (Z.of_nat (length rs)) cnt) as [E|Hne]; [|done].
  rewrite (proj2 (Z.eqb_neq _ 0)); [|lia].
  assert (block_ok (map_run r rs m) (start + 4096 * r, cnt)) as Hnew.
  { exists r. split_and!; [done..|]. cbn [snd]. intros i Hi. rewrite lookup_map_run decide_True; [|lia].
    apply lookup_lt_is_Some. lia. }
  assert (∀ b, b ∈ live → blocks_apart b (start + 4096 * r, cnt)) as Hapart.
  { intros b Hb. apply Forall_forall with (x := b) in Hl as (r' & E' & ? & ? & ? & Hm); [|done].
    unfold blocks_apart. simpl. rewrite E'.
    destruct (decide (r' + b.2 <= r)); [left; lia|]. destruct (decide (r + cnt <= r')); [right; lia|].
    destruct (Hm (Z.max r r')) as [f Hf]; [lia|]. rewrite Hun in Hf; [done|lia]. }
  split; [apply Forall_app; split; [done|by apply Forall_singleton]|].
  intros k k' b b' Hb Hb' Hk'. 
  apply lookup_app_Some in Hb as [Hb|[? [? <-]%list_lookup_singleton_Some]];
    apply lookup_app_Some in Hb' as [Hb'|[? [? <-]%list_lookup_singleton_Some]].
  - by eapply Ha.
  - by eapply Hapart, list_elem_of_lookup_2.
  - destruct (Hapart b'); [by eapply list_elem_of_lookup_2|by right|by left].
  - lia.
Qed.

Lemma live_ok_free m live k a cnt r :
  live_ok m live → live !! k = Some (a, cnt) → a = start + 4096 * r → 0 < cnt →
  live_ok (unmap_run r (Z.to_nat cnt) m) (delete k live).
Proof.
  intros [Hl Ha] Hk -> Hc.
  assert (∀ j b, delete k live !! j = Some b → ∃ j', j' ≠ k ∧ live !! j' = Some b ∧
    (j' = if decide (j < k)%nat then j else S j)) as Hd.
  { intros j b Hj. destruct (decide (j < k)%nat).
    - exists j. rewrite list_lookup_delete_lt in Hj; [|lia]. split_and!; [lia|done|done].
    - exists (S j). rewrite list_lookup_delete_ge in Hj; [|lia]. split_and!; [lia|done|done]. }
  split.
  - apply Forall_lookup. intros j b (j' & Hne & Hb & _)%Hd.
    pose proof (Ha _ _ _ _ Hb Hk Hne) as Hap. eapply Forall_lookup_1 in Hb as Hok; [|done].
    destruct Hok as (r' & E & ? & ? & ? & Hm). exists r'. split_and!; [done..|].
    intros i Hi. rewrite lookup_unmap_run decide_False; [by apply Hm|].
    unfold blocks_apart in Hap. simpl in Hap. rewrite E in Hap. lia.
  - intros j j' b b' (i & _ & Hb & Ei)%Hd (i' & _ & Hb' & Ei')%Hd Hne. eapply Ha; [done|done|].
    repeat case_decide; lia.
Qed.

Lemma wheap_facts m :
  wheap m ⊢ ⌜0 < start ∧ ∀ i j f, m !! i = Some f → m !! j = Some f → i = j⌝.
Proof.
  iIntros "(%abs & %pbs & (_ & [_ %Hinj] & _) & HM & _)".
  iDestruct (page_map_acc with "HM") as "((_ & _ & % & _) & _)". by iPureIntro.
Qed.

Lemma run_calls_wp cs live m c (Φ : res (list (Z * Z)) → hPropI) :
  Forall call_ok cs → live_ok m live →
  wheap m -∗
  (∀ live' m' c', ⌜live_ok m' live'⌝ -∗ wheap m' -∗ Φ (RRet live' c')) -∗
  wp (run_calls cs live) c Φ.
Proof.
  iIntros (Hcs Hlive) "HK HΦ". iDestruct (wheap_facts with "HK") as %[Hs _].
  iInduction cs as [|[cnt|k] cs IH] forall (live m c Hcs Hlive); cbn [run_calls].
  - iApply wp_ret. by iApply "HΦ".
  - apply Forall_cons in Hcs as [Hc Hcs]. wp_bind. iApply (pheap_alloc_wp with "HK"); [apply Hc|done|].
    iIntros (a m' Hst) "HK". wp_reduce. iApply ("IH" with "[//] [%] HK HΦ").
    eapply live_ok_alloc; [done| |done|done]. simpl in Hc. lia.
  - apply Forall_cons in Hcs as [_ Hcs].
    destruct (live !! k) as [[a cnt]|] eqn:Hk; [|by iApply ("IH" with "[//] [//] HK HΦ")].
    pose proof Hlive as [Hbs _]. eapply Forall_lookup_1 in Hbs as (r & E & Hr0 & Hc & Hr1 & Hm); [|done].
    cbn [fst snd] in *. subst a.
    wp_bind. rewrite -{1}(Z2Nat.id cnt); [|lia].
    iApply (pheap_free_wp with "HK"); [lia|done|lia|done|]. iIntros "HK". wp_reduce.
    iApply ("IH" with "[//] [%] HK HΦ"). by eapply live_ok_free.
Qed.

(** C7: Any sequence of allocations and releases of kernel pages runs to its end,
    whether the requests succeed or not, and whatever the byte after the map of the
    pages holds (a request for several pages may take the page after the heap, whose
    bit is in that byte); at the end the blocks that are held do not overlap, all
    their pages are mapped, and no two pages are mapped to the same frame. *)
Theorem kernel_heap_invariant cs live m c :
  Forall call_ok cs → live_ok m live →
  {{ wheap m }} (run_calls cs live) @ c
  {{ live' c', ∃ m', ⌜live_ok m' live' ∧
                      (∀ i j f, m' !! i = Some f → m' !! j = Some f → i = j)⌝ ∗ wheap m' }}.
Proof.
  intros Hcs Hl. apply triple_wp. iIntros "HK". iApply (run_calls_wp with "HK"); [done|done|].
  iIntros (live' m' c' Hl') "HK". iDestruct (wheap_facts with "HK") as %[_ Hinj].
  cbn [returns]. iExists m'. by iFrame.
Qed.

End heap.

(** ** Example: eight pages, eight frames *)

#[local] Existing Instance link_map.
#[local] Existing Instance demo_frames.

Fixpoint ptes_cells (v : Z) (n : nat) : list (Z * list Z) :=
  match n with O => [] | S n => (pte_addr v, word_bytes 0) :: ptes_cells (v + 4096) n end.

Lemma ptes_cells_models v n : cells (ptes_cells v n) ⊢ ptes v (replicate n 0).
Proof.
  revert v. induction n as [|n IH]; intros v; cbn [ptes_cells replicate].
  - rewrite /ptes big_sepL_nil. by iIntros "_".
  - rewrite cells_word // IH ptes_cons //.
Qed.

(** [np] pages, none mapped, the byte [nx] after the map of the first eight. *)
Definition heap_cells (nx : Z) (np : nat) : list (Z * list Z) :=
  vpool_cells g_kernel_vaddr 0xc0100000 0xc009a100 [0] ++ demo_pool 0 ++ demo_pde ++
  [(0xc009a100 + 1, [nx]); (pool_phy_start_addr g_user_pool, word_bytes 0x208000);
   (pte_addr (0xc0100000 + 4096 * Z.of_nat np), word_bytes 0)] ++ ptes_cells 0xc0100000 np.

Lemma heap_cells_models nx w :
  cells (heap_cells nx (reach 8 w)) ⊢
  pheap 0xc0100000 0xc009a100 nx 0x200000 0xc009a000 0x208000 0 {[768 := 0x101007]} 8 8 w ∅.
Proof.
  unfold heap_cells. do 4 rewrite cells_app. iIntros "(HV & HP & HD & HA & HE)".
  iEval (rewrite cells_cons bytes_cons) in "HA". iDestruct "HA" as "((Hnx & _) & HA)".
  iEval (rewrite cells_word; [|done]) in "HA". iDestruct "HA" as "(Hu & HA)".
  iEval (rewrite cells_word; [|done]) in "HA". iDestruct "HA" as "(Hel & _)".
  iDestruct (vpool_cells_models with "HV") as "HV"; [vm_compute; reflexivity|].
  iDestruct (demo_pool_models with "HP") as "HP". iDestruct (demo_pdes with "HD") as "HD".
  iDestruct (ptes_cells_models with "HE") as "HE".
  iExists [0; nx], [0]. iSplitR.
  { iPureIntro. split_and!; [done|done|by intros i []|]. intros _ k Hk. by replace k with 1%nat by lia. }
  iSplitL "HV Hnx"; [iExists [0], nx; iSplitR; [done|]; iSplitL "HV"; [iExact "HV"|iExact "Hnx"]|].
  iSplitL "HP"; [iExact "HP"|]. iSplitR; [done|]. iSplitL "Hu"; [iExact "Hu"|].
  iSplitL "HD"; [iExact "HD"|]. iSplitR.
  { iPureIntro. split; [|by destruct w]. intros i Hi. assert (0 <= i < 9) by (unfold reach in Hi; destruct w; lia).
    replace ((0xc0100000 + 4096 * i) / 2 ^ 22) with 768; [by eexists|]. Z.div_mod_to_equations. lia. }
  iSplitL "HE"; [|iExact "Hel"].
  rewrite entries_unmapped; [|done]. iExists (replicate (reach 8 w) 0). iSplitR; [|iExact "HE"].
  iPureIntro. split; [apply length_replicate|by apply Forall_replicate].
Qed.

Definition demo_heap : list (Z * list Z) := heap_cells 1 8.

Lemma demo_heap_models :
  cells demo_heap ⊢
  kheap 0xc0100000 0xc009a100 1 0x200000 0xc009a000 0x208000 0 {[768 := 0x101007]} 8 8 ∅.
Proof. rewrite kheap_pheap. apply (heap_cells_models 1 false). Qed.

(** The second request for two pages gets the last page of the heap and the page
    after it. *)
Definition demo_calls : list call := [Alloc 1; Alloc 6; Free 0; Alloc 2; Alloc 9; Free 0].

Lemma kernel_heap_invariant_witness :
  ∃ r h', exec (run_calls demo_calls []) cpu_a (mem_of (heap_cells 0 9)) r h' ∧
    h' ⊨ (returns (λ live _, ⌜∃ m, live_ok 0xc0100000 8 m live⌝)%I r).
Proof.
  edestruct (triple_run _ _ _ _ (mem_of (heap_cells 0 9))
    (kernel_heap_invariant 0xc0100000 0xc009a100 0 0x200000 0xc009a000 0x208000 0 {[768 := 0x101007]}
       8 8 demo_calls [] ∅ cpu_a
       ltac:(repeat constructor; lia) ltac:(split; [constructor|done])))
    as (r & h' & Hx & Hq).
  - eapply models_mono; [apply (heap_cells_models 0 true)|apply mem_of_models; vm_compute; reflexivity].
  - exists r, h'. split; [exact Hx|]. eapply models_mono; [|apply Hq].
    destruct r; cbn [returns]; [|by iIntros "[]"..].
    iIntros "(%m & [%Hl _] & _)". iPureIntro. by exists m.
Defined.
