(* ===== verification/Arena.v ===== *)
(** kernel/memory.c: the heap.  Blocks of seven sizes are cut from one-page
    arenas; larger requests get pages of their own. *)
From S2P Require Export Memory.

(** ** struct arena, struct mem_block_desc *)

Definition arena_mem_desc_addr (a : Z) : Z := a.
Definition arena_cnt (a : Z) : Z := a + 4.
Definition arena_large (a : Z) : Z := a + 8.
Definition sizeof_arena : Z := 12.

(** struct mem_block_desc *)
Definition desc_block_size (d : Z) : Z := d.
Definition desc_blocks_per_arena (d : Z) : Z := d + 4.
Definition desc_free_list (d : Z) : Z := d + 8.
Definition sizeof_mem_block_desc : Z := 24.
Definition MEM_BLOCK_DES_INT : Z := 7.
(** [&descs[i]] *)
Definition desc_at (descs i : Z) : Z := descs + i * sizeof_mem_block_desc.

Section arena.
Context `{Symbols, Frames}.

(** ** Descriptors and blocks *)

Definition block_des_init (mem_block_descs : Z) : M unit :=
  loop (λ '(index, capacity),
    if index <? 7 then
      let d := desc_at mem_block_descs index in
      st32 (desc_block_size d) capacity ;;
      st32 (desc_blocks_per_arena d) ((PAGE_SIZE - sizeof_arena) / capacity) ;;
      list_init (desc_free_list d) ;;
      ret (inl (index + 1, w32 (capacity * 2)))
    else ret (inr tt)) (0, 16).

Definition mem_init : M unit :=
  putStr "mem init start\n" ;;
  memory_size <- ld32 0xb00;
  mem_pool_init memory_size ;;
  block_des_init g_k_mem_block_descs ;;
  putStr "mem init done\n".

Definition arena_to_block (arena_ptr index : Z) : M Z :=
  desc <- ld32 (arena_mem_desc_addr arena_ptr);
  block_size <- ld32 (desc_block_size desc);
  ret (w32 (arena_ptr + sizeof_arena + index * block_size)).

Definition block_to_arena (block : Z) : Z := Z.land block 0xfffff000.

(** The first descriptor whose blocks are large enough; 7 when there is none. *)
Definition find_desc (mem_desc_set size : Z) : Z → M (Z + Z) :=
  λ des_idx,
    if des_idx <? 7 then
      block_size <- ld32 (desc_block_size (desc_at mem_desc_set des_idx));
      if size <=? block_size then ret (inr des_idx) else ret (inl (des_idx + 1))
    else ret (inr des_idx).

(** Cutting an arena into blocks. *)
Definition add_block (mem_arena used_block_desc : Z) : Z → M (Z + unit) :=
  λ i,
    cnt <- ld32 (arena_cnt mem_arena);
    if i <? cnt then
      divide_mem <- arena_to_block mem_arena i;
      found <- elem_find (desc_free_list used_block_desc) divide_mem;
      ASSERT (negb found) "kernel/memory.c" 411 "sys_malloc"
        "!elem_find(&used_block_desc->free_list, &divide_mem->free_elem)" ;;
      list_append (desc_free_list used_block_desc) divide_mem ;;
      ret (inl (i + 1))
    else ret (inr tt).

(** A fresh arena for a descriptor; false when there is no page for it. *)
Definition new_arena (PF used_block_desc : Z) : M bool :=
  mem_arena <- malloc_pages PF 1;
  if mem_arena =? 0 then ret false
  else
    memset mem_arena 0 PAGE_SIZE ;;
    st32 (arena_mem_desc_addr mem_arena) used_block_desc ;;
    st32 (arena_large mem_arena) 0 ;;
    n <- ld32 (desc_blocks_per_arena used_block_desc);
    st32 (arena_cnt mem_arena) n ;;
    status <- intr_disable;
    loop (add_block mem_arena used_block_desc) 0 ;;
    intr_set_status status ;;
    ret true.

(** Taking the first free block of a descriptor. *)
Definition take_block (used_block_desc : Z) : M Z :=
  pop_elem <- list_pop (desc_free_list used_block_desc);
  ASSERT (negb (pop_elem =? 0)) "kernel/memory.c" 422 "sys_malloc" "pop_elem != 0" ;;
  let mem_elem := pop_elem in
  let mem_elem_arena := block_to_arena mem_elem in
  cnt <- ld32 (arena_cnt mem_elem_arena);
  st32 (arena_cnt mem_elem_arena) (cnt - 1) ;;
  size <- ld32 (desc_block_size used_block_desc);
  memset mem_elem 0 size ;;
  ret mem_elem.

(** Which pool and descriptors the current thread allocates from. *)
Definition alloc_context : M (Z * Z * Z) :=
  curr_process <- running_thread;
  pgdir <- ld32 (pcb_pgdir curr_process);
  if pgdir =? 0 then ret (PF_KERNEL, g_kernel_pool, g_k_mem_block_descs)
  else ret (PF_USER, g_user_pool, pcb_u_mem_block_desc curr_process).

Definition sys_malloc (size : Z) : M Z :=
  ctx <- alloc_context;
  let '(PF, mem_pool, mem_desc_set) := (ctx : Z * Z * Z) in
  lock_acquire (pool_lock mem_pool) ;;
  if size >? 1024 then
    let cnt := DIV_ROUND_UP size PAGE_SIZE in
    new_arena <- malloc_pages PF cnt;
    if new_arena =? 0 then lock_release (pool_lock mem_pool) ;; ret 0
    else
      memset new_arena 0 (w32 (cnt * PAGE_SIZE)) ;;
      st32 (arena_large new_arena) 1 ;;
      st32 (arena_mem_desc_addr new_arena) 0 ;;
      st32 (arena_cnt new_arena) cnt ;;
      lock_release (pool_lock mem_pool) ;;
      ret (w32 (new_arena + sizeof_arena))
  else
    des_idx <- loop (find_desc mem_desc_set size) 0;
    let used_block_desc := desc_at mem_desc_set des_idx in
    empty <- list_empty (desc_free_list used_block_desc);
    ok <- (if empty then new_arena PF used_block_desc else ret true);
    if negb ok then lock_release (pool_lock mem_pool) ;; ret 0
    else
      mem_elem <- take_block used_block_desc;
      lock_release (pool_lock mem_pool) ;;
      ret mem_elem.

(** Taking the blocks of an arena out of the free list. *)
Definition drop_block (mem_arena : Z) : Z → M (Z + unit) :=
  λ block_idx,
    desc <- ld32 (arena_mem_desc_addr mem_arena);
    n <- ld32 (desc_blocks_per_arena desc);
    if block_idx <? n then
      block <- arena_to_block mem_arena block_idx;
      desc <- ld32 (arena_mem_desc_addr mem_arena);
      found <- elem_find (desc_free_list desc) block;
      ASSERT found "kernel/memory.c" 566 "sys_free"
        "elem_find(&mem_arena->mem_desc_addr->free_list, &block->free_elem)" ;;
      list_remove block ;;
      ret (inl (block_idx + 1))
    else ret (inr tt).

Definition sys_free (ptr : Z) : M unit :=
  ctx <- alloc_context;
  let '(PF, mem_pool, _) := (ctx : Z * Z * Z) in
  lock_acquire (pool_lock mem_pool) ;;
  let mem_arena := block_to_arena ptr in
  desc <- ld32 (arena_mem_desc_addr mem_arena);
  (if desc =? 0 then
     cnt <- ld32 (arena_cnt mem_arena);
     free_pages PF cnt mem_arena
   else
     desc <- ld32 (arena_mem_desc_addr mem_arena);
     list_append (desc_free_list desc) ptr ;;
     cnt <- ld32 (arena_cnt mem_arena);
     st32 (arena_cnt mem_arena) (cnt + 1) ;;
     cnt <- ld32 (arena_cnt mem_arena);
     desc <- ld32 (arena_mem_desc_addr mem_arena);
     n <- ld32 (desc_blocks_per_arena desc);
     when (cnt =? n)
       (loop (drop_block mem_arena) 0 ;;
        free_pages PF 1 mem_arena)) ;;
  lock_release (pool_lock mem_pool).

End arena.

(** ** Representation *)

(** Descriptor [i] is for blocks of [blk_size i] bytes, [blk_count i] to a page. *)
Definition blk_size (i : Z) : Z := 16 * 2 ^ i.
Definition blk_count (i : Z) : Z := (PAGE_SIZE - sizeof_arena) / blk_size i.

(** The blocks of the arena at [p]. *)
Definition block_at (p size j : Z) : Z := p + sizeof_arena + j * size.
Definition blocks (p size n : Z) : list Z := block_at p size <$> seqZ 0 n.

(** What is left of a free block beside its list element. *)
Definition block_tail (size b : Z) : hPropI :=
  (∃ bs, ⌜Z.of_nat (length bs) = size - 8⌝ ∗ (b + 8) ↦∗ bs)%I.

(** A descriptor with the free blocks [xs]. *)
Definition is_desc (d size n : Z) (xs : list Z) : hPropI :=
  (desc_block_size d ↦w size ∗ desc_blocks_per_arena d ↦w n ∗ is_list (desc_free_list d) xs ∗
   [∗ list] b ∈ xs, block_tail size b)%I.

(** The seven descriptors, with the free blocks [f i] of each. *)
Definition is_descs (set : Z) (f : Z → list Z) : hPropI :=
  ([∗ list] i ∈ seqZ 0 7, is_desc (desc_at set i) (blk_size i) (blk_count i) (f i))%I.

(** What is left of a page of descriptor [i] behind its blocks. *)
Definition arena_slack (p i : Z) : hPropI :=
  (∃ bs, ⌜Z.of_nat (length bs) = 4096 - (sizeof_arena + blk_count i * blk_size i)⌝ ∗
         (p + (sizeof_arena + blk_count i * blk_size i)) ↦∗ bs)%I.

(** The header of an arena of descriptor [d] with [k] free blocks. *)
Definition arena_header (p d k : Z) : hPropI :=
  (arena_mem_desc_addr p ↦w d ∗ arena_cnt p ↦w k ∗ arena_large p ↦w 0)%I.

Lemma blk_bounds i :
  0 <= i < 7 →
  16 <= blk_size i <= 1024 ∧ 3 <= blk_count i <= 255 ∧ sizeof_arena + blk_count i * blk_size i <= 4096.
Proof.
  intros Hi. unfold blk_count, PAGE_SIZE, sizeof_arena, blk_size.
  assert (i = 0 ∨ i = 1 ∨ i = 2 ∨ i = 3 ∨ i = 4 ∨ i = 5 ∨ i = 6) as Hc by lia.
  destruct Hc as [->|[->|[->|[->|[->|[->| ->]]]]]]; vm_compute; intuition discriminate.
Qed.

Lemma is_descs_acc set f i :
  0 <= i < 7 →
  is_descs set f ⊢
  is_desc (desc_at set i) (blk_size i) (blk_count i) (f i) ∗
  (∀ xs, is_desc (desc_at set i) (blk_size i) (blk_count i) xs -∗
         is_descs set (λ j, if decide (j = i) then xs else f j)).
Proof.
  intros Hi. unfold is_descs.
  assert (seqZ 0 7 = seqZ 0 i ++ i :: seqZ (i + 1) (6 - i)) as ->.
  { replace 7 with (i + (1 + (6 - i))) at 1 by lia. rewrite seqZ_app; [|lia..].
    rewrite (seqZ_app (0 + i) 1 (6 - i)); [|lia..].
    rewrite (seqZ_cons (0 + i) 1); [|lia]. by rewrite (seqZ_nil _ (Z.pred 1)); [|lia]. }
  rewrite !big_sepL_app !big_sepL_cons. iIntros "(H1 & $ & H2)". iIntros (xs) "H".
  rewrite !big_sepL_app !big_sepL_cons decide_True //. iFrame "H".
  iSplitL "H1"; (iApply (big_sepL_mono with "[$]"); intros k j Hj%list_elem_of_lookup_2;
    apply elem_of_seqZ in Hj; rewrite decide_False; [done|lia]).
Qed.

Lemma is_descs_ext set f g : (∀ i, f i = g i) → is_descs set f ⊢ is_descs set g.
Proof. intros Hfg. apply big_sepL_mono. intros k i _. by rewrite Hfg. Qed.

Lemma is_descs_read set f i :
  0 <= i < 7 →
  is_descs set f ⊢
  desc_block_size (desc_at set i) ↦w blk_size i ∗
  (desc_block_size (desc_at set i) ↦w blk_size i -∗ is_descs set f).
Proof.
  intros Hi. unfold is_descs. iIntros "H".
  assert (seqZ 0 7 !! Z.to_nat i = Some i) as Hl.
  { apply lookup_seqZ. lia. }
  iDestruct (big_sepL_lookup_acc _ _ _ _ Hl with "H") as "[($ & H1) H2]".
  iIntros "H". iApply "H2". iFrame.
Qed.

(** One element of a list of blocks. *)
Lemma blocks_split p size n j :
  0 <= j < n →
  blocks p size n = (block_at p size <$> seqZ 0 j) ++ block_at p size j ::
                    (block_at p size <$> seqZ (j + 1) (n - j - 1)).
Proof.
  intros Hj. unfold blocks. replace n with (j + (1 + (n - j - 1))) at 1 by lia.
  rewrite seqZ_app; [|lia..]. rewrite (seqZ_app (0 + j) 1 (n - j - 1)); [|lia..].
  rewrite (seqZ_cons (0 + j) 1); [|lia]. rewrite (seqZ_nil _ (Z.pred 1)); [|lia]. by rewrite fmap_app.
Qed.

Lemma blocks_inj p size j k : 0 < size → block_at p size j = block_at p size k → j = k.
Proof. unfold block_at. nia. Qed.

(** A block is in its arena's page. *)
Lemma block_page p i j :
  0 <= i < 7 → 0 <= p → p + 4096 <= 2 ^ 32 → p mod 4096 = 0 → 0 <= j < blk_count i →
  Z.land (block_at p (blk_size i) j) 0xfffff000 = p ∧ 0 < block_at p (blk_size i) j < 2 ^ 32.
Proof.
  intros Hi Hp0 Hp1 Hp2 Hj. pose proof (blk_bounds i Hi) as (H1 & H2 & H3).
  unfold block_at, sizeof_arena in *.
  assert (0 <= j * blk_size i ∧ j * blk_size i + blk_size i <= blk_count i * blk_size i) by nia.
  rewrite land_frame; [|lia]. unfold frame_of. split; [|lia]. Z.div_mod_to_equations. lia.
Qed.

(** ** Specifications *)

Section spec.
Context `{Symbols, Frames}.
Implicit Types (c : cpu) (f : Z → list Z).

(** The descriptors as [block_des_init] leaves them: nothing is free. *)
Lemma block_des_init_step set k rest c (Φ : res unit → hPropI) step :
  step = (λ '(index, capacity),
    if index <? 7 then
      let d := desc_at set index in
      st32 (desc_block_size d) capacity ;;
      st32 (desc_blocks_per_arena d) ((PAGE_SIZE - sizeof_arena) / capacity) ;;
      list_init (desc_free_list d) ;;
      ret (inl (index + 1, w32 (capacity * 2)))
    else ret (inr tt)) →
  0 <= set → set + 168 <= 2 ^ 32 → 0 <= k → k + Z.of_nat rest = 7 →
  ([∗ list] i ∈ seqZ k (Z.of_nat rest), [∗ list] j ∈ [0; 1; 2; 3; 4; 5], (desc_at set i + 4 * j) ↦w -) -∗
  (([∗ list] i ∈ seqZ k (Z.of_nat rest), is_desc (desc_at set i) (blk_size i) (blk_count i) []) -∗
   Φ (RRet tt c)) -∗
  wp_loop step (k, blk_size k) c Φ.
Proof.
  intros -> Hs0 Hs1. iIntros (Hk Hr) "H HΦ".
  iInduction rest as [|rest IH] forall (k Hk Hr); iApply wp_loop_step.
  - rewrite (proj2 (Z.ltb_ge k 7)); [|lia]. wp_pure. iApply "HΦ". by rewrite seqZ_nil.
  - rewrite (proj2 (Z.ltb_lt k 7)); [|lia]. rewrite seqZ_cons; [|lia].
    replace (Z.pred (Z.of_nat (S rest))) with (Z.of_nat rest) by lia. rewrite !big_sepL_cons.
    iDestruct "H" as "[([%x0 H0] & [%x1 H1] & [%x2 H2] & [%x3 H3] & [%x4 H4] & [%x5 H5] & _) H]".
    pose proof (blk_bounds k ltac:(lia)) as (Hb1 & Hb2 & Hb3).
    wp_bind. iApply (wp_st32 with "H0"); [unfold desc_block_size; lia|]. iIntros "H0". wp_reduce.
    wp_bind. iApply (wp_st32 with "H1"); [unfold desc_blocks_per_arena; lia|]. iIntros "H1". wp_reduce.
    wp_bind. unfold desc_at, sizeof_mem_block_desc in *.
    iApply (list_init_wp (desc_free_list (set + k * 24)) with "[H2] [H3] [H4] [H5]");
      [unfold desc_free_list; lia| | | | |].
    1-4: unfold list_elem_prev, list_elem_next, list_head, list_tail, desc_free_list.
    + by replace (set + k * 24 + 8) with (set + k * 24 + 4 * 2) by lia.
    + by replace (set + k * 24 + 8 + 4) with (set + k * 24 + 4 * 3) by lia.
    + by replace (set + k * 24 + 8 + 8) with (set + k * 24 + 4 * 4) by lia.
    + by replace (set + k * 24 + 8 + 8 + 4) with (set + k * 24 + 4 * 5) by lia.
    + iIntros "HL". wp_reduce. wp_pure. rewrite (w32_small (blk_size k * 2)); [|lia].
      replace (blk_size k * 2) with (blk_size (k + 1)); last first.
      { unfold blk_size. rewrite Z.pow_add_r; lia. }
      replace (Z.succ k) with (k + 1) by lia.
      iApply ("IH" with "[%] [%] H"); [lia|lia|]. iIntros "HD". iApply "HΦ". iFrame "HD".
      fold (blk_count k). rewrite (w32_small (blk_size k)); [|lia]. rewrite (w32_small (blk_count k)); [|lia].
      rewrite /is_desc /desc_block_size /desc_blocks_per_arena.
      iSplitL "H0"; [by replace (set + k * 24 + 4 * 0) with (set + k * 24) by lia|].
      iSplitL "H1"; [by replace (set + k * 24 + 4 * 1) with (set + k * 24 + 4) by lia|].
      by iFrame "HL".
Qed.

(** Walking up the descriptors, from [k], to the first that is large enough. *)
Lemma find_desc_loop_wp set f size i k c (Φ : res Z → hPropI) :
  0 <= k <= i → i < 7 → size <= blk_size i → (∀ j, 0 <= j < i → blk_size j < size) →
  is_descs set f -∗ (is_descs set f -∗ Φ (RRet i c)) -∗
  wp_loop (find_desc set size) k c Φ.
Proof.
  iIntros (Hk Hi Hle Hlt) "HD HΦ". remember (Z.to_nat (i - k)) as n eqn:En.
  iInduction n as [|n IH] forall (k Hk En); iApply wp_loop_step; rewrite /find_desc;
    (rewrite (proj2 (Z.ltb_lt k 7)); [|lia]);
    (iDestruct (is_descs_read set f k with "HD") as "[Hs HD]"; [lia|]); wp_ld "Hs";
    iDestruct ("HD" with "Hs") as "HD".
  - replace k with i by lia. rewrite (proj2 (Z.leb_le size (blk_size i))); [|done]. wp_pure. by iApply "HΦ".
  - rewrite (proj2 (Z.leb_gt size (blk_size k))); [|apply Hlt; lia]. wp_pure.
    iApply ("IH" with "[%] [%] HD HΦ"); lia.
Qed.

(** Zeroed bytes cut into blocks. *)
Lemma zeroed_blocks p size e o m :
  0 <= size → o + Z.of_nat m * size <= e →
  zeros p e o ⊢ ([∗ list] j ∈ seqZ 0 (Z.of_nat m), (p + o + j * size) ↦∗ replicate (Z.to_nat size) 0) ∗
                zeros p e (o + Z.of_nat m * size).
Proof.
  intros Hs. revert o. induction m as [|m IH]; intros o Ho.
  - rewrite seqZ_nil // Z.mul_0_l Z.add_0_r. by iIntros "$".
  - rewrite (zeros_take (o + size)); [|nia]. replace (o + size - o) with size by lia.
    rewrite IH; [|nia]. rewrite (seqZ_cons 0 (Z.of_nat (S m))); [|lia]. replace (Z.pred (Z.of_nat (S m))) with (Z.of_nat m) by lia.
    rewrite big_sepL_cons Z.mul_0_l Z.add_0_r.
    replace (o + size + m * size) with (o + S m * size) by lia. iIntros "[$ [H $]]".
    rewrite -(fmap_add_seqZ 1 0) big_sepL_fmap. iApply (big_sepL_mono with "H"). intros j x _. simpl.
    by replace (p + o + (1 + x) * size) with (p + (o + size) + x * size) by lia.
Qed.

(** A zeroed block is a list element and the rest. *)
Lemma zeroed_block b size :
  8 <= size → 0 <= b < 2 ^ 32 →
  b ↦∗ replicate (Z.to_nat size) 0 ⊢ node b ∗ block_tail size b.
Proof.
  intros Hs Hb. iIntros "H". iAssert (zeros b size 0) with "[H]" as "H".
  { by rewrite /zeros Z.add_0_r Z.sub_0_r. }
  iDestruct (zeros_word 4 with "H") as "[H0 H]"; [done|lia|].
  iDestruct (zeros_word 8 with "H") as "[H4 H]"; [done|lia|].
  iSplitL "H0 H4".
  - iDestruct (node_zero with "H0 H4") as "H"; [done|lia|]. by rewrite Z.add_0_r.
  - iExists _. iFrame "H". iPureIntro. rewrite length_replicate. lia.
Qed.

(** And back: a list element and the rest are the bytes of a block. *)
Lemma block_bytes b size :
  8 <= size → node b -∗ block_tail size b -∗
  (∃ bs, ⌜Z.of_nat (length bs) = size⌝ ∗ b ↦∗ bs).
Proof.
  iIntros (Hs) "(_ & [%v1 H1] & [%v2 H2]) (%bs & %Hl & H)".
  iDestruct (pt32_range with "H1") as %R1. iDestruct (pt32_range with "H2") as %R2.
  rewrite /list_elem_prev /list_elem_next.
  iExists (word_bytes v1 ++ word_bytes v2 ++ bs). iSplit; [iPureIntro; rewrite !length_app /=; lia|].
  rewrite !bytes_app !bytes_word //. iFrame "H1". change (Z.of_nat (length (word_bytes v1))) with 4.
  iFrame "H2". change (Z.of_nat (length (word_bytes v2))) with 4.
  by replace (b + 4 + 4) with (b + 8) by lia.
Qed.

Lemma block_node b size buf :
  8 <= size → 0 <= b < 2 ^ 32 → Z.of_nat (length buf) = size →
  b ↦∗ buf ⊢ node b ∗ block_tail size b.
Proof.
  iIntros (Hs Hb Hl) "H". rewrite -{1}(take_drop 4 buf) bytes_app. iDestruct "H" as "[H1 H]".
  rewrite -{1}(take_drop 4 (drop 4 buf)) bytes_app drop_drop. iDestruct "H" as "[H2 H]".
  rewrite !length_take !length_drop.
  replace (b + Z.of_nat (4 `min` length buf)) with (b + 4) by lia.
  replace (b + 4 + Z.of_nat (4 `min` (length buf - 4))) with (b + 8) by lia.
  iSplitL "H1 H2".
  - rewrite /node. iSplit; [done|]. iSplitL "H1"; (iApply bytes_some_word; [|done]);
      rewrite length_take ?length_drop; lia.
  - iExists _. iFrame "H". iPureIntro. rewrite length_drop. lia.
Qed.

Lemma arena_to_block_wp p d size n k xs i c (Φ : res Z → hPropI) :
  0 <= block_at p size i < 2 ^ 32 →
  arena_header p d k -∗ is_desc d size n xs -∗
  (arena_header p d k -∗ is_desc d size n xs -∗ Φ (RRet (block_at p size i) c)) -∗
  wp (arena_to_block p i) c Φ.
Proof.
  iIntros (Hb) "(Hd & Hc & Hl) (Hs & Hn & HL & HT) HΦ". rewrite /arena_to_block. wp_ld "Hd". wp_ld "Hs".
  wp_pure. rewrite w32_small; [|done]. iApply ("HΦ" with "[$Hd $Hc $Hl] [$Hs $Hn $HL $HT]").
Qed.

(** Cutting an arena: its blocks join the end of the free list, in order. *)
Lemma add_block_loop_wp p d size n xs i m c (Φ : res unit → hPropI) :
  0 <= i → i + Z.of_nat m = n →
  (∀ j, 0 <= j < n → 0 <= block_at p size j < 2 ^ 32) →
  arena_header p d n -∗ is_desc d size n xs -∗
  ([∗ list] b ∈ (block_at p size <$> seqZ i (Z.of_nat m)), node b ∗ block_tail size b) -∗
  (arena_header p d n -∗ is_desc d size n (xs ++ (block_at p size <$> seqZ i (Z.of_nat m))) -∗
   Φ (RRet tt c)) -∗
  wp_loop (add_block p d) i c Φ.
Proof.
  iIntros (Hi0 Hi Hb) "HA HD HB HΦ".
  iInduction m as [|m IH] forall (i xs Hi0 Hi); iApply wp_loop_step; rewrite /add_block;
    iDestruct "HA" as "(Hd & Hc & Hl)"; wp_ld "Hc"; iAssert (arena_header p d n) with "[$]" as "HA".
  - rewrite (proj2 (Z.ltb_ge i n)); [|lia]. wp_pure. rewrite seqZ_nil // app_nil_r.
    iApply ("HΦ" with "HA HD").
  - rewrite (proj2 (Z.ltb_lt i n)); [|lia]. rewrite seqZ_cons; [|lia].
    replace (Z.pred (Z.of_nat (S m))) with (Z.of_nat m) by lia.
    rewrite fmap_cons big_sepL_cons. iDestruct "HB" as "[[Hn Ht] HB]".
    wp_bind. iApply (arena_to_block_wp with "HA HD"); [apply Hb; lia|]. iIntros "HA HD". wp_reduce.
    iDestruct "HD" as "(Hs & Hnn & HL & HT)".
    wp_bind. iApply (elem_find_node_wp with "HL Hn"). iIntros "HL Hn". wp_reduce.
    wp_bind. iApply wp_assert; [done|]. wp_reduce.
    wp_bind. iApply (list_append_wp with "HL Hn"). iIntros "HL". wp_reduce. wp_pure.
    iAssert (is_desc d size n (xs ++ [block_at p size i])) with "[$Hs $Hnn $HL HT Ht]" as "HD".
    { rewrite big_sepL_app /=. iFrame. }
    iApply ("IH" with "[%] [%] HA HD HB"); [lia|lia|]. iIntros "HA HD".
    iApply ("HΦ" with "HA"). by rewrite -app_assoc.
Qed.

(** Taking the first free block: it is cleared. *)
Lemma take_block_wp d p i k b xs c (Φ : res Z → hPropI) :
  0 <= i < 7 → 0 < b < 2 ^ 32 → Z.land b 0xfffff000 = p → 0 < k →
  is_desc d (blk_size i) (blk_count i) (b :: xs) -∗ arena_header p d k -∗
  (is_desc d (blk_size i) (blk_count i) xs -∗ arena_header p d (k - 1) -∗
   b ↦∗ replicate (Z.to_nat (blk_size i)) 0 -∗ Φ (RRet b c)) -∗
  wp (take_block d) c Φ.
Proof.
  iIntros (Hi Hb Hp Hk) "(Hs & Hn & HL & [Ht HT]) (Hd & Hc & Hl) HΦ". rewrite /take_block.
  pose proof (blk_bounds i Hi) as (H1 & _).
  wp_bind. iApply (list_pop_wp with "HL"). iIntros "HL Hb". wp_reduce.
  wp_bind. iApply wp_assert; [rewrite (proj2 (Z.eqb_neq b 0)); [done|lia]|]. wp_reduce.
  rewrite /block_to_arena Hp. iDestruct (pt32_range with "Hc") as %Hr.
  wp_ld "Hc". wp_st "Hc". rewrite w32_small; [|lia]. wp_ld "Hs".
  iDestruct (block_bytes with "Hb Ht") as (bs) "[%Hl Hb]"; [lia|].
  wp_bind. iApply (memset_wp with "Hb"); [lia|done|]. iIntros "Hb". wp_reduce. wp_pure.
  change (w8 0) with 0. replace (length bs) with (Z.to_nat (blk_size i)) by lia.
  iApply ("HΦ" with "[$Hs $Hn $HL $HT] [$Hd $Hc $Hl] Hb").
Qed.

(** Taking the blocks of an arena out of the free list, whatever their order
    in it: the others stay, and the memory of the blocks is free. *)
Lemma drop_block_loop_wp p d size n k i m xs ys c (Φ : res unit → hPropI) :
  0 <= i → i + Z.of_nat m = n → 0 < size →
  (∀ j, 0 <= j < n → 0 <= block_at p size j < 2 ^ 32) →
  xs ≡ₚ (block_at p size <$> seqZ i (Z.of_nat m)) ++ ys →
  arena_header p d k -∗ is_desc d size n xs -∗
  (∀ zs, ⌜zs ≡ₚ ys⌝ -∗ arena_header p d k -∗ is_desc d size n zs -∗
   ([∗ list] b ∈ (block_at p size <$> seqZ i (Z.of_nat m)), node b ∗ block_tail size b) -∗
   Φ (RRet tt c)) -∗
  wp_loop (drop_block p) i c Φ.
Proof.
  iIntros (Hi0 Hi Hsz Hb Hxs) "HA HD HΦ".
  iInduction m as [|m IH] forall (i xs Φ Hi0 Hi Hxs); iApply wp_loop_step; rewrite /drop_block;
    iDestruct "HA" as "(Hd & Hc & Hl)"; wp_ld "Hd"; iAssert (arena_header p d k) with "[$]" as "HA";
    iDestruct "HD" as "(Hs & Hn & HL & HT)"; wp_ld "Hn".
  - rewrite (proj2 (Z.ltb_ge i n)); [|lia]. wp_pure. rewrite seqZ_nil // in Hxs.
    iApply ("HΦ" with "[//] HA [$Hs $Hn $HL $HT] []"). by rewrite seqZ_nil.
  - rewrite (proj2 (Z.ltb_lt i n)); [|lia]. rewrite seqZ_cons in Hxs |- *; [|lia..].
    replace (Z.pred (Z.of_nat (S m))) with (Z.of_nat m) in Hxs |- * by lia. rewrite fmap_cons /= in Hxs.
    rewrite fmap_cons.
    wp_bind. iApply (arena_to_block_wp with "HA [$Hs $Hn $HL $HT]"); [apply Hb; lia|].
    iIntros "(Hd & Hc & Hl) (Hs & Hn & HL & HT)". wp_reduce. wp_ld "Hd".
    wp_bind. iApply (elem_find_wp with "HL"). iIntros "HL". wp_reduce.
    assert (block_at p size i ∈ xs) as Hin by (rewrite Hxs; by left).
    rewrite bool_decide_true //. wp_bind. iApply wp_assert; [done|]. wp_reduce.
    apply list_elem_of_split in Hin as (l1 & l2 & ->).
    wp_bind. iApply (list_remove_mid_wp with "HL"). iIntros "HL Hb". wp_reduce. wp_pure.
    iEval (rewrite big_sepL_app big_sepL_cons) in "HT". iDestruct "HT" as "(HT1 & Ht & HT2)".
    iApply ("IH" $! _ (l1 ++ l2) with "[%] [%] [%] [$Hd $Hc $Hl] [$Hs $Hn $HL HT1 HT2]"); [lia|lia| | |].
    + rewrite -Permutation_middle in Hxs. by apply Permutation_cons_inv in Hxs.
    + iEval (rewrite big_sepL_app). iFrame.
    + iIntros (zs Hzs) "HA HD HB". iApply ("HΦ" with "[//] HA HD"). rewrite big_sepL_cons. iFrame.
Qed.

(** A page cut into an arena: what [new_arena] does with a page it gets. *)
Lemma cut_page_wp p d i xs junk c (Φ : res bool → hPropI) :
  0 <= i < 7 → 0 <= d < 2 ^ 32 → length junk = 4096%nat →
  0 < p ∧ p + 4096 < 2 ^ 32 ∧ p mod 4096 = 0 →
  p ↦∗ junk -∗ is_desc d (blk_size i) (blk_count i) xs -∗
  (arena_header p d (blk_count i) -∗ arena_slack p i -∗
   is_desc d (blk_size i) (blk_count i) (xs ++ blocks p (blk_size i) (blk_count i)) -∗
   Φ (RRet true c)) -∗
  wp (if p =? 0 then ret false
      else
        memset p 0 PAGE_SIZE ;;
        st32 (arena_mem_desc_addr p) d ;;
        st32 (arena_large p) 0 ;;
        n <- ld32 (desc_blocks_per_arena d);
        st32 (arena_cnt p) n ;;
        status <- intr_disable;
        loop (add_block p d) 0 ;;
        intr_set_status status ;;
        ret true) c Φ.
Proof.
  iIntros (Hi Hd Hj Hp) "Hb HS HΦ".
  pose proof (blk_bounds i Hi) as (H1 & H2 & H3). rewrite (proj2 (Z.eqb_neq p 0)); [|lia].
  wp_bind. iApply (memset_wp with "Hb"); [lia|by rewrite Hj|]. iIntros "Hb". wp_reduce.
  rewrite Hj. change (w8 0) with 0. iAssert (zeros p 4096 0) with "[Hb]" as "Hb".
  { by rewrite /zeros Z.add_0_r. }
  iDestruct (zeros_word 4 with "Hb") as "[Ha Hb]"; [done..|]. rewrite Z.add_0_r.
  iDestruct (zeros_word 8 with "Hb") as "[Hc Hb]"; [done..|].
  iDestruct (zeros_word 12 with "Hb") as "[Hl Hb]"; [done..|].
  wp_st "Ha". wp_st "Hl". iDestruct "HS" as "(Hs & Hn & HL & HT)". wp_ld "Hn". wp_st "Hc".
  rewrite (w32_small d) // (w32_small (blk_count i)); [|lia].
  wp_bind. iApply wp_intr_disable. wp_reduce. wp_bind. iApply wp_loop_start.
  iDestruct (zeroed_blocks p (blk_size i) 4096 12 (Z.to_nat (blk_count i)) with "Hb") as "[Hb Hsl]";
    [lia|unfold sizeof_arena in *; lia|]. rewrite Z2Nat.id; [|lia].
  iApply (add_block_loop_wp p d (blk_size i) (blk_count i) xs 0 (Z.to_nat (blk_count i))
    with "[Ha Hc Hl] [$Hs $Hn $HL $HT] [Hb]"); [done|lia| | | |].
  - intros j Hjj. unfold block_at, sizeof_arena in *.
    assert (j * blk_size i + blk_size i <= blk_count i * blk_size i) by nia. nia.
  - by iFrame.
  - rewrite Z2Nat.id; [|lia]. rewrite big_sepL_fmap. iApply (big_sepL_mono with "Hb").
    intros k j Hk%list_elem_of_lookup_2. apply elem_of_seqZ in Hk. apply zeroed_block; [lia|].
    assert (0 <= j * blk_size i ∧ j * blk_size i + blk_size i <= blk_count i * blk_size i) by nia.
    unfold block_at, sizeof_arena in *. lia.
  - rewrite Z2Nat.id; [|lia]. iIntros "HA HS". wp_reduce.
    wp_bind. iApply wp_intr_restore. wp_reduce. wp_pure.
    iApply ("HΦ" with "HA [Hsl] HS"). iExists _. iFrame "Hsl". iPureIntro.
    rewrite length_replicate. unfold sizeof_arena in *. lia.
Qed.

End spec.

(** ** One arena, from a free page to a free page *)

Section one_page.
Context `{Symbols, Frames}.

(** The page the kernel allocator would give: virtual page [r], in frame [fr]. *)
Variables (m : gmap Z Z) (start addr nx pstart paddr ustart e el r fr : Z) (bs pbs pbs' junk : list Z).
Let p := start + 4096 * r.
Hypothesis Hfit : first_fit (used bs) (bits_of bs) 1 r.
Hypothesis Hal : palloc_n 1 pbs = Some ([fr], pbs').
Hypothesis Hcov : covered m p 1.
Hypothesis He : present e = false.
Hypothesis Hlow : 0x102000 <= pstart.
Hypothesis Hup : pstart + 4096 * bits_of pbs <= ustart.

Lemma new_arena_wp d i xs c (Φ : res bool → hPropI) :
  0 <= i < 7 → 0 <= d < 2 ^ 32 → length junk = 4096%nat →
  kernel_pages m 1 start addr bs nx pstart paddr pbs -∗ ptes p [e] -∗ p ↦∗ junk -∗
  is_desc d (blk_size i) (blk_count i) xs -∗
  (⌜0 < p ∧ p + 4096 < 2 ^ 32 ∧ p mod 4096 = 0⌝ -∗
   kernel_pages m 1 start addr (bm_set_run bs r 1 true) nx pstart paddr pbs' -∗
   ptes p [page_entry (pstart + 4096 * fr)] -∗ arena_header p d (blk_count i) -∗
   is_desc d (blk_size i) (blk_count i) (xs ++ blocks p (blk_size i) (blk_count i)) -∗
   Φ (RRet true c)) -∗
  wp (new_arena PF_KERNEL d) c Φ.
Proof.
  iIntros (Hi Hd Hj) "((%Hf & HV) & Hnx & HP & HD) HE Hb HS HΦ". rewrite /new_arena.
  pose proof Hf as (Hs0 & Hs1 & Hs2). pose proof Hfit as (Hr0 & Hr1 & _).
  assert (0 < p ∧ p + 4096 < 2 ^ 32 ∧ p mod 4096 = 0) as Hp.
  { unfold p. split_and!; [lia|unfold bits_of in *; lia|Z.div_mod_to_equations; lia]. }
  pose proof (malloc_pages_kernel_wp m start addr bs nx pstart paddr pbs [e] r [fr] pbs') as Hm.
  cbn [length] in Hm. change (Z.of_nat 1) with 1 in Hm.
  wp_bind. iApply (Hm with "[HV] Hnx HP HD HE"); [lia|done|done|done|by constructor|by iFrame|].
  iIntros "HV Hnx HP HD HE". fold p. wp_reduce.
  iApply (cut_page_wp p d i xs junk with "Hb HS"); [done..|]. iIntros "HA _ HS".
  assert (length (bm_set_run bs r 1 true) = length bs) as Hlen by apply length_bm_set_run.
  iApply ("HΦ" with "[//] [HV Hnx HP HD] HE HA HS"). rewrite /kernel_pages Hlen. iFrame.
Qed.

Lemma kernel_pages_range :
  kernel_pages m 1 start addr bs nx pstart paddr pbs ⊢
  ⌜Forall (λ b, 0 <= b < 256) bs ∧ Forall (λ b, 0 <= b < 256) pbs⌝.
Proof.
  iIntros "((_ & (_ & _ & _ & HVbs) & _) & _ & (_ & (_ & _ & _ & HPbs) & _) & _)".
  iDestruct (bytes_range with "HVbs") as %?. iDestruct (bytes_range with "HPbs") as %?. by iPureIntro.
Qed.

(** Giving the page back restores both pools. *)
Lemma free_page_wp c (Φ : res unit → hPropI) :
  Forall (λ b, 0 <= b < 256) bs → Forall (λ b, 0 <= b < 256) pbs →
  kernel_pages m 1 start addr (bm_set_run bs r 1 true) nx pstart paddr pbs' -∗
  pool_phy_start_addr g_user_pool ↦w ustart -∗ ptes p [page_entry (pstart + 4096 * fr)] -∗
  pte_addr (p + 4096) ↦w el -∗
  (kernel_pages m 1 start addr bs nx pstart paddr pbs -∗
   pool_phy_start_addr g_user_pool ↦w ustart -∗ ptes p [page_entry (pstart + 4096 * fr) - 1] -∗
   pte_addr (p + 4096) ↦w el -∗ Φ (RRet tt (log_event (EvInvlpg fr_vir_addr) c))) -∗
  wp (free_pages PF_KERNEL 1 p) c Φ.
Proof.
  iIntros (Hvr Hpr) "((%Hf & HV) & Hnx & (%Hfp & HP) & HD) Hus HE Hel HΦ".
  pose proof Hf as (Hs0 & Hs1 & Hs2). rewrite bits_of_bm_set_run in Hs1.
  pose proof Hfit as (Hr0 & Hr1 & Hfree & _).
  pose proof (palloc_n_spec _ _ _ _ Hal) as (Hlen & Hnd & Hin & Hused).
  pose proof (palloc_n_bits _ _ _ _ Hal) as Hbits.
  pose proof (free_pages_kernel_wp start addr (bm_set_run bs r 1 true) pstart paddr pbs' ustart [fr] r el) as Hfr.
  cbn [length] in Hfr. change (Z.of_nat 1) with 1 in Hfr. fold p in Hfr. rewrite Z.mul_1_r in Hfr.
  iApply (Hfr with "[HV] [HP] Hus HE Hel").
  - done.
  - done.
  - unfold p. unfold bits_of in *. lia.
  - done.
  - rewrite bits_of_bm_set_run. lia.
  - intros x Hx. rewrite Hbits. destruct (Hin x Hx) as [Hb _]. split; [done|]. lia.
  - by iFrame.
  - by iFrame.
  - iIntros "HV HP Hus HE Hel".
    rewrite (pfree_palloc_n _ _ _ _ Hpr Hal) (bm_set_run_undo bs r 1 Hvr Hr0 ltac:(lia)); last first.
    { intros i Hi. apply Hfree. lia. }
    iApply ("HΦ" with "[$HV $Hnx $HP $HD] Hus [HE] Hel").
    destruct Hfp as (_ & _ & Hpa). cbn [fmap list_fmap].
    rewrite ldiff_1. rewrite page_entry_eq; [|Z.div_mod_to_equations; lia].
    replace ((pstart + 4096 * fr + 7) mod 2) with 1 by (Z.div_mod_to_equations; lia). done.
Qed.

(** [sys_malloc] in a kernel thread when no block of the size is free. *)
Lemma sys_malloc_fresh_wp size i f curr t c (Φ : res Z → hPropI) :
  0 <= size <= 1024 → 0 <= i < 7 → size <= blk_size i → (∀ j, 0 <= j < i → blk_size j < size) →
  f i = [] → Z.land (esp c) 0xfffff000 = curr → 0 < curr < 2 ^ 32 → t_pgdir t = 0 →
  0 <= g_k_mem_block_descs → g_k_mem_block_descs + 168 <= 2 ^ 32 → length junk = 4096%nat →
  tcb_at curr t -∗ quiet_lock (pool_lock g_kernel_pool) 0 -∗ is_descs g_k_mem_block_descs f -∗
  kernel_pages m 1 start addr bs nx pstart paddr pbs -∗ ptes p [e] -∗ p ↦∗ junk -∗
  (⌜0 < p ∧ p + 4096 < 2 ^ 32 ∧ p mod 4096 = 0⌝ -∗ tcb_at curr t -∗
   quiet_lock (pool_lock g_kernel_pool) 0 -∗
   is_descs g_k_mem_block_descs
     (λ j, if decide (j = i) then tail (blocks p (blk_size i) (blk_count i)) else f j) -∗
   kernel_pages m 1 start addr (bm_set_run bs r 1 true) nx pstart paddr pbs' -∗
   ptes p [page_entry (pstart + 4096 * fr)] -∗
   arena_header p (desc_at g_k_mem_block_descs i) (blk_count i - 1) -∗
   block_at p (blk_size i) 0 ↦∗ replicate (Z.to_nat (blk_size i)) 0 -∗
   Φ (RRet (block_at p (blk_size i) 0) c)) -∗
  wp (sys_malloc size) c Φ.
Proof.
  iIntros (Hsz Hi Hle Hlt Hnil Hcurr Hr Hdir Hg0 Hg1 Hj) "HT HL HD HK HE Hb HΦ".
  pose proof (blk_bounds i Hi) as (H1 & H2 & H3).
  rewrite /sys_malloc /alloc_context. wp_bind. wp_bind. iApply running_thread_wp. rewrite Hcurr. wp_reduce.
  iDestruct "HT" as "(%Hp & Hsp & Hst & Hpr & Htk & Hpg)". wp_ld "Hpg".
  rewrite (proj2 (Z.eqb_eq (t_pgdir t) 0)) //. wp_pure.
  wp_bind. iApply (mutex_acquire with "HL"); [done|done|]. iIntros "HL". wp_reduce.
  rewrite Z.gtb_ltb (proj2 (Z.ltb_ge 1024 size)); [|lia].
  wp_bind. iApply wp_loop_start. iApply (find_desc_loop_wp with "HD"); [split; [done|apply Hi]|apply Hi|done|done|].
  iIntros "HD". wp_reduce. iDestruct (is_descs_acc _ _ i with "HD") as "[HS HD]"; [done|]. rewrite Hnil.
  iDestruct "HS" as "(Hs & Hn & HF & HFT)".
  wp_bind. iApply (list_empty_wp with "HF"). iIntros "HF". rewrite bool_decide_true //. wp_reduce.
  wp_bind. iApply (new_arena_wp with "HK HE Hb [$Hs $Hn $HF $HFT]");
    [done|unfold desc_at, sizeof_mem_block_desc; lia|done|].
  iIntros (Hpp) "HK HE HA HS". wp_reduce. rewrite app_nil_l.
  rewrite (blocks_split _ _ _ 0); [|lia]. rewrite seqZ_nil // app_nil_l.
  destruct (block_page p i 0 Hi) as [Hpage Hbr]; [lia|lia|lia|lia|].
  wp_bind. iApply (take_block_wp with "HS HA"); [done|done|done|lia|]. iIntros "HS HA Hb". wp_reduce.
  wp_bind. iApply (mutex_release with "HL"); [done|done|]. iIntros "HL". wp_reduce. wp_pure.
  iApply ("HΦ" with "[//] [$Hsp $Hst $Hpr $Htk $Hpg //] HL [HD HS] HK HE HA Hb").
  iApply "HD". done.
Qed.

(** [sys_free] of the last block in use of an arena: the page goes back. *)
Lemma sys_free_last_wp i j f ys buf curr t c (Φ : res unit → hPropI) :
  0 <= i < 7 → 0 <= j < blk_count i →
  f i ++ [block_at p (blk_size i) j] ≡ₚ blocks p (blk_size i) (blk_count i) ++ ys →
  Z.of_nat (length buf) = blk_size i → 0 < p ∧ p + 4096 < 2 ^ 32 ∧ p mod 4096 = 0 →
  Forall (λ b, 0 <= b < 256) bs → Forall (λ b, 0 <= b < 256) pbs →
  Z.land (esp c) 0xfffff000 = curr → 0 < curr < 2 ^ 32 → t_pgdir t = 0 →
  0 < g_k_mem_block_descs → g_k_mem_block_descs + 168 <= 2 ^ 32 →
  tcb_at curr t -∗ quiet_lock (pool_lock g_kernel_pool) 0 -∗ is_descs g_k_mem_block_descs f -∗
  kernel_pages m 1 start addr (bm_set_run bs r 1 true) nx pstart paddr pbs' -∗
  pool_phy_start_addr g_user_pool ↦w ustart -∗ ptes p [page_entry (pstart + 4096 * fr)] -∗
  pte_addr (p + 4096) ↦w el -∗
  arena_header p (desc_at g_k_mem_block_descs i) (blk_count i - 1) -∗
  block_at p (blk_size i) j ↦∗ buf -∗
  (∀ zs, ⌜zs ≡ₚ ys⌝ -∗ tcb_at curr t -∗ quiet_lock (pool_lock g_kernel_pool) 0 -∗
   is_descs g_k_mem_block_descs (λ k, if decide (k = i) then zs else f k) -∗
   kernel_pages m 1 start addr bs nx pstart paddr pbs -∗
   pool_phy_start_addr g_user_pool ↦w ustart -∗ ptes p [page_entry (pstart + 4096 * fr) - 1] -∗
   pte_addr (p + 4096) ↦w el -∗ Φ (RRet tt (log_event (EvInvlpg fr_vir_addr) c))) -∗
  wp (sys_free (block_at p (blk_size i) j)) c Φ.
Proof.
  iIntros (Hi Hj Hperm Hbuf Hp Hvr Hpr Hcurr Hr Hdir Hg0 Hg1) "HT HL HD HK Hus HE Hel HA Hb HΦ".
  pose proof (blk_bounds i Hi) as (H1 & H2 & H3). rewrite /sys_free /alloc_context.
  destruct (block_page p i j Hi) as [Hpage Hbr]; [lia|lia|lia|done|].
  wp_bind. wp_bind. iApply running_thread_wp. rewrite Hcurr. wp_reduce.
  iDestruct "HT" as "(%Hpt & Hsp & Hst & Hpri & Htk & Hpg)". wp_ld "Hpg".
  rewrite (proj2 (Z.eqb_eq (t_pgdir t) 0)) //. wp_pure.
  iAssert (tcb_at curr t) with "[$Hsp $Hst $Hpri $Htk $Hpg //]" as "HT".
  wp_bind. iApply (mutex_acquire with "HL"); [done|done|]. iIntros "HL". wp_reduce.
  rewrite /block_to_arena Hpage. iDestruct "HA" as "(Ha & Hc & Hl)". wp_ld "Ha".
  rewrite (proj2 (Z.eqb_neq (desc_at g_k_mem_block_descs i) 0)); [|unfold desc_at, sizeof_mem_block_desc; lia].
  wp_bind. wp_ld "Ha".
  iDestruct (is_descs_acc _ _ i with "HD") as "[(Hs & Hn & HF & HFT) HD]"; [done|].
  iDestruct (block_node _ (blk_size i) with "Hb") as "[Hnode Htail]"; [lia|lia|done|].
  wp_bind. iApply (list_append_wp with "HF Hnode"). iIntros "HF". wp_reduce.
  wp_ld "Hc". wp_st "Hc". replace (blk_count i - 1 + 1) with (blk_count i) by lia.
  rewrite w32_small; [|lia]. wp_ld "Hc". wp_ld "Ha". wp_ld "Hn". rewrite Z.eqb_refl.
  iApply wp_when. wp_reduce. wp_bind. iApply wp_loop_start.
  pose proof (λ Φ, drop_block_loop_wp p (desc_at g_k_mem_block_descs i) (blk_size i) (blk_count i)
    (blk_count i) 0 (Z.to_nat (blk_count i)) (f i ++ [block_at p (blk_size i) j]) ys c Φ) as Hdrop.
  rewrite Z2Nat.id in Hdrop; [|lia].
  iApply (Hdrop with "[$Ha $Hc $Hl] [$Hs $Hn $HF HFT Htail]"); [done|lia|lia| |done| |].
  { intros k Hk. destruct (block_page p i k Hi) as [_ ?]; [lia|lia|lia|done|lia]. }
  { rewrite big_sepL_app /=. iFrame. }
  iIntros (zs Hzs) "HA HS _". wp_reduce.
  iApply (free_page_wp with "HK Hus HE Hel"); [done|done|].
  iIntros "HK Hus HE Hel". wp_reduce.
  iApply (mutex_release with "HL"); [done|done|]. iIntros "HL".
  iApply ("HΦ" with "[//] HT HL [HD HS] HK Hus HE Hel"). by iApply "HD".
Qed.

End one_page.

(** ** Properties *)

Section properties.
Context `{Symbols, Frames}.
Implicit Types (c : cpu).

(** The least descriptor for blocks of at least [size] bytes. *)
Definition best_desc (size i : Z) : Prop :=
  0 <= i < 7 ∧ size <= blk_size i ∧ ∀ j, 0 <= j < i → blk_size j < size.

(** The heap's round trip.  A small block, asked for when none of its size is
    free, comes from a fresh page cut into blocks: it is cleared, lies within
    the page behind the header, and is at least as large as asked for.  Freeing
    it empties the arena, and every block, the page and both pools are again as
    they were; the page is unmapped. *)
Theorem sys_malloc_free_roundtrip m start addr bs nx pstart paddr pbs ustart e el r fr pbs' junk
    size i f curr t c :
  let p := start + 4096 * r in
  first_fit (used bs) (bits_of bs) 1 r → palloc_n 1 pbs = Some ([fr], pbs') → covered m p 1 →
  present e = false → 0x102000 <= pstart → pstart + 4096 * bits_of pbs <= ustart →
  length junk = 4096%nat → 0 <= size <= 1024 → best_desc size i → f i = [] →
  Z.land (esp c) 0xfffff000 = curr → 0 < curr < 2 ^ 32 → t_pgdir t = 0 →
  0 < g_k_mem_block_descs ∧ g_k_mem_block_descs + 168 <= 2 ^ 32 →
  {{ tcb_at curr t ∗ quiet_lock (pool_lock g_kernel_pool) 0 ∗ is_descs g_k_mem_block_descs f ∗
     kernel_pages m 1 start addr bs nx pstart paddr pbs ∗ pool_phy_start_addr g_user_pool ↦w ustart ∗
     ptes p [e] ∗ pte_addr (p + 4096) ↦w el ∗ p ↦∗ junk }}
    (b <- sys_malloc size; x <- ld32 b; sys_free b ;; ret (b, x)) @ c
  {{ bx c', ⌜bx = ((p + 12)%Z, 0) ∧ size <= blk_size i ∧ (12 + blk_size i)%Z <= 4096 ∧
             c' = log_event (EvInvlpg fr_vir_addr) c⌝ ∗
     tcb_at curr t ∗ quiet_lock (pool_lock g_kernel_pool) 0 ∗ is_descs g_k_mem_block_descs f ∗
     kernel_pages m 1 start addr bs nx pstart paddr pbs ∗ pool_phy_start_addr g_user_pool ↦w ustart ∗
     ptes p [page_entry (pstart + 4096 * fr) - 1] ∗ pte_addr (p + 4096) ↦w el }}.
Proof.
  intros p Hfit Hal Hcov He Hlow Hup Hj Hsz (Hi & Hle & Hlt) Hnil Hcurr Hr Hdir [Hg0 Hg1].
  apply triple_wp. iIntros "(HT & HL & HD & HK & Hus & HE & Hel & Hb)".
  pose proof (blk_bounds i Hi) as (H1 & H2 & H3).
  iDestruct (kernel_pages_range with "HK") as %[Hvr Hpr].
  wp_bind. iApply (sys_malloc_fresh_wp with "HT HL HD HK HE Hb"); [done..|lia|done|done|].
  fold p. iIntros (Hp) "HT HL HD HK HE HA Hb". wp_reduce.
  set (b := block_at p (blk_size i) 0).
  rewrite (_ : Z.to_nat (blk_size i) = (4 + (Z.to_nat (blk_size i) - 4))%nat); [|lia].
  rewrite replicate_add bytes_app. change (replicate 4 0) with (word_bytes 0).
  rewrite bytes_word //. iDestruct "Hb" as "[Hb0 Hb]". wp_ld "Hb0".
  iEval (rewrite -(bytes_word b 0) //) in "Hb0".
  iCombine "Hb0 Hb" as "Hb". iEval (rewrite -bytes_app) in "Hb".
  pose proof (sys_free_last_wp m start addr nx pstart paddr ustart el r fr bs pbs pbs') as Hfree.
  fold p in Hfree.
  wp_bind. iApply (Hfree Hfit Hal Hlow Hup i 0 _ [] with "HT HL HD HK Hus HE Hel HA Hb");
    [done|lia| |rewrite length_app length_replicate /=; lia|done|done|done|done|done|done|done|done|].
  { rewrite decide_True // app_nil_r (blocks_split _ _ _ 0); [|lia]. rewrite seqZ_nil // app_nil_l.
    by rewrite /= Permutation_app_comm. }
  iIntros (zs Hzs) "HT HL HD HK Hus HE Hel". wp_reduce. wp_pure. simpl. iFrame "HT HL HK Hus HE Hel".
  apply Permutation_nil_r in Hzs as ->.
  iSplit.
  { iPureIntro. unfold sizeof_arena in *. split_and!; [|done|nia|done].
    unfold b, block_at, sizeof_arena. f_equal; lia. }
  iApply (is_descs_ext with "HD"). intros k. by case_decide; subst.
Qed.

(** [block_des_init] makes seven empty descriptors, for blocks of 16 to 1024
    bytes, from any words. *)
Theorem block_des_init_descs set c :
  0 <= set ∧ set + 168 <= 2 ^ 32 →
  {{ [∗ list] i ∈ seqZ 0 7, [∗ list] j ∈ [0; 1; 2; 3; 4; 5], (desc_at set i + 4 * j) ↦w - }}
    (block_des_init set) @ c
  {{ r c', ⌜c' = c⌝ ∗ is_descs set (λ _, []) }}.
Proof.
  intros [Hs0 Hs1]. apply triple_wp. iIntros "H". rewrite /block_des_init. iApply wp_loop_start.
  iApply (block_des_init_step set 0 7 with "H"); [reflexivity|done|done|done|done|].
  iIntros "HD /=". by iFrame.
Qed.

End properties.

(** ** Witnesses *)

#[local] Existing Instance link_map.
#[local] Existing Instance demo_frames.

(** Descriptors at [set], with the free blocks [f i] of each. *)
Definition descs_cells (set : Z) (f : Z → list Z) : list (Z * list Z) :=
  seqZ 0 7 ≫= λ i,
    [(desc_block_size (desc_at set i), word_bytes (blk_size i));
     (desc_blocks_per_arena (desc_at set i), word_bytes (blk_count i))] ++
    list_cells (desc_free_list (desc_at set i)) (f i).

Lemma descs_cells_models set f :
  0 <= set → set + 168 <= 2 ^ 32 → (∀ i, forallb addr_ok (f i) = true) →
  cells (descs_cells set f) ∗ ([∗ list] i ∈ seqZ 0 7, [∗ list] b ∈ f i, block_tail (blk_size i) b) ⊢
  is_descs set f.
Proof.
  intros Hs0 Hs1 Hf. unfold descs_cells, is_descs.
  assert (∀ ks, Forall (λ i, 0 <= i < 7) ks →
    cells (ks ≫= λ i, [(desc_block_size (desc_at set i), word_bytes (blk_size i));
     (desc_blocks_per_arena (desc_at set i), word_bytes (blk_count i))] ++
    list_cells (desc_free_list (desc_at set i)) (f i)) ∗
    ([∗ list] i ∈ ks, [∗ list] b ∈ f i, block_tail (blk_size i) b) ⊢
    [∗ list] i ∈ ks, is_desc (desc_at set i) (blk_size i) (blk_count i) (f i)) as Hgen.
  { induction 1 as [|i ks Hi _ IH]; [by iIntros "_"|]. rewrite bind_cons !cells_app !big_sepL_cons -IH.
    pose proof (blk_bounds i Hi) as (H1 & H2 & _).
    rewrite cells_word; [|lia]. rewrite cells_word; [|lia]. rewrite list_cells_models; [| |done].
    + iIntros "([[($ & $ & _) $] $] & $ & $)".
    + apply bool_decide_eq_true. unfold desc_free_list, desc_at, sizeof_mem_block_desc. lia. }
  apply Hgen. apply Forall_forall. intros i Hi%elem_of_seqZ. lia.
Qed.

(** Empty descriptors. *)
Definition desc_cells (set : Z) : list (Z * list Z) := descs_cells set (λ _, []).

Lemma desc_cells_models set :
  0 <= set → set + 168 <= 2 ^ 32 → cells (desc_cells set) ⊢ is_descs set (λ _, []).
Proof.
  intros Hs0 Hs1. rewrite /desc_cells -descs_cells_models //. iIntros "$". by iApply big_sepL_intro; iIntros "!>" (k x _).
Qed.

Definition demo_heap : list (Z * list Z) :=
  tcb_cells thread_a ++ lock_cells (pool_lock g_kernel_pool) 0 1 0 [] ++ desc_cells g_k_mem_block_descs ++
  (demo_vpool ++ demo_pool 3 ++ demo_pde ++ [(pte_addr 0xc0101000, word_bytes 0); (0xc0101000, replicate 4096 7)]) ++
  [(pool_phy_start_addr g_user_pool, word_bytes 0x208000); (pte_addr 0xc0102000, word_bytes 0)].

Lemma best_desc_100 : best_desc 100 3.
Proof.
  split; [lia|]. split; [vm_compute; discriminate|]. intros j Hj.
  assert (j = 0 ∨ j = 1 ∨ j = 2) as [-> | [-> | ->]] by lia; by vm_compute.
Qed.

Lemma sys_malloc_free_roundtrip_witness :
  ∃ r h', exec (b <- sys_malloc 100; x <- ld32 b; sys_free b ;; ret (b, x))%prog cpu_a
      (mem_of demo_heap) r h' ∧
    h' ⊨ (returns (λ bx c', ⌜bx = (0xc010100c, 0)⌝ ∗ is_descs g_k_mem_block_descs (λ _, []) ∗
                   ptes 0xc0101000 [0x202006]) r).
Proof.
  edestruct (triple_run _ _ _ _ (mem_of demo_heap)
    (sys_malloc_free_roundtrip {[768 := 0x101007]} 0xc0100000 0xc009a100 [1] 0 0x200000 0xc009a000 [3]
       0x208000 0 0 1 2 [7] (replicate 4096 7) 100 3 (λ _, []) 0xc009e000 thread_a.2 cpu_a
       ltac:(apply demo_fit; lia) ltac:(vm_compute; reflexivity)
       ltac:(intros k Hk; simpl in Hk; replace k with 0 by lia; by eexists) eq_refl ltac:(lia)
       ltac:(unfold bits_of; simpl; lia) ltac:(by rewrite length_replicate) ltac:(lia) best_desc_100
       eq_refl eq_refl ltac:(lia) eq_refl ltac:(by vm_compute))) as (r & h' & Hx & Hq).
  - eapply models_mono; [|apply mem_of_models; vm_compute; reflexivity].
    unfold demo_heap. generalize (replicate 4096 7). intros junk. rewrite !(cells_app (tcb_cells _)) !(cells_app (lock_cells _ _ _ _ _)).
    rewrite (cells_app (desc_cells _)) (cells_app (demo_vpool ++ _)) demo_page.
    rewrite tcb_cells_models; [|vm_compute; reflexivity].
    rewrite lock_cells_models; [|vm_compute; reflexivity]. rewrite desc_cells_models; [|done|done].
    rewrite cells_word; [|done]. rewrite cells_word; [|done].
    iIntros "($ & $ & $ & ($ & $ & $) & $ & $ & _)".
  - exists r, h'. split; [done|]. eapply models_mono; [|apply Hq].
    destruct r; simpl; [|by iIntros "[]"..].
    iIntros "((-> & _) & _ & _ & $ & _ & _ & $ & _)". done.
Defined.

Lemma block_des_init_descs_witness :
  ∃ r h', exec (block_des_init g_k_mem_block_descs) cpu_a
      (mem_of [(g_k_mem_block_descs, replicate 168 0)]) r h' ∧
    h' ⊨ (returns (λ _ c', is_descs g_k_mem_block_descs (λ _, [])) r).
Proof.
  edestruct (triple_run _ _ _ _ (mem_of [(g_k_mem_block_descs, replicate 168 0)])
    (block_des_init_descs g_k_mem_block_descs cpu_a ltac:(split; vm_compute; discriminate))) as (r & h' & Hx & Hq).
  - eapply models_mono; [|apply mem_of_models; vm_compute; reflexivity].
    rewrite cells_cons. iIntros "[H _]".
    iAssert (zeros g_k_mem_block_descs 168 0) with "[H]" as "H"; [by rewrite /zeros Z.add_0_r|].
    iDestruct (zeroed_blocks _ 24 168 0 7 with "H") as "[H _]"; [done|done|].
    iApply (big_sepL_mono with "H"). intros k i _. rewrite Z.add_0_r.
    fold (desc_at g_k_mem_block_descs i). iIntros "H".
    iAssert (zeros (desc_at g_k_mem_block_descs i) 24 0) with "[H]" as "H"; [by rewrite /zeros Z.add_0_r|].
    iDestruct (zeros_word 4 with "H") as "[H0 H]"; [done..|].
    iDestruct (zeros_word 8 with "H") as "[H4 H]"; [done..|].
    iDestruct (zeros_word 12 with "H") as "[H8 H]"; [done..|].
    iDestruct (zeros_word 16 with "H") as "[H12 H]"; [done..|].
    iDestruct (zeros_word 20 with "H") as "[H16 H]"; [done..|].
    iDestruct (zeros_word 24 with "H") as "[H20 _]"; [done..|].
    iSplitL "H0"; [by iExists 0|]. iSplitL "H4"; [by iExists 0|]. iSplitL "H8"; [by iExists 0|].
    iSplitL "H12"; [by iExists 0|]. iSplitL "H16"; [by iExists 0|]. iSplitL; [by iExists 0|done].
  - exists r, h'. split; [done|]. eapply models_mono; [|apply Hq].
    destruct r; simpl; [|by iIntros "[]"..]. by iIntros "[_ $]".
Defined.
