(* ===== verification/Blocks.v ===== *)
(** kernel/memory.c: any sequence of calls of [sys_malloc] and [sys_free] for
    small blocks, on top of the page allocator of [Pages]. *)
From S2P Require Export Pages Arena.

(** ** Arenas *)

(** The descriptor of an arena and the numbers of its blocks in use. *)
Record arena := ArenaOf { ar_desc : Z; ar_used : gset Z }.

(** The numbers of the blocks of descriptor [i]. *)
Definition slots (i : Z) : gset Z := list_to_set (seqZ 0 (blk_count i)).

Lemma elem_of_slots i j : j ∈ slots i ↔ 0 <= j < blk_count i.
Proof. unfold slots. rewrite elem_of_list_to_set elem_of_seqZ. lia. Qed.

Lemma size_slots i : 0 <= i < 7 → Z.of_nat (size (slots i)) = blk_count i.
Proof.
  intros Hi. pose proof (blk_bounds i Hi) as (_ & ? & _). unfold slots.
  rewrite size_list_to_set; [rewrite length_seqZ; lia|apply NoDup_seqZ].
Qed.

Lemma size_used i (U : gset Z) j :
  0 <= i < 7 → U ⊆ slots i → j ∈ slots i → j ∉ U → Z.of_nat (size U) < blk_count i.
Proof.
  intros Hi HU Hj Hn. rewrite -size_slots //.
  assert (size ({[j]} ∪ U) <= size (slots i))%nat as Hs by (apply subseteq_size; set_solver).
  rewrite size_union in Hs; [|set_solver]. rewrite size_singleton in Hs. lia.
Qed.

(** The descriptor [sys_malloc] chooses. *)
Definition class_of (size : Z) : Z :=
  if size <=? 16 then 0 else if size <=? 32 then 1 else if size <=? 64 then 2
  else if size <=? 128 then 3 else if size <=? 256 then 4 else if size <=? 512 then 5 else 6.

Lemma best_desc_between size k :
  0 <= k < 7 → size <= blk_size k → k = 0 ∨ blk_size (k - 1) < size → best_desc size k.
Proof.
  intros Hk Hs Hp. split_and!; [lia|lia|done|]. intros j Hj. destruct Hp as [->|Hp]; [lia|].
  assert (blk_size j <= blk_size (k - 1)); [|lia].
  unfold blk_size. apply Z.mul_le_mono_nonneg_l, Z.pow_le_mono_r; lia.
Qed.

Lemma class_of_best size : 0 <= size <= 1024 → best_desc size (class_of size).
Proof.
  intros Hs. unfold class_of.
  destruct (Z.leb_spec size 16); [apply best_desc_between; [lia|change (size <= 16); lia|by left]|].
  destruct (Z.leb_spec size 32); [apply best_desc_between; [lia|change (size <= 32); lia|right; change (16 < size); lia]|].
  destruct (Z.leb_spec size 64); [apply best_desc_between; [lia|change (size <= 64); lia|right; change (32 < size); lia]|].
  destruct (Z.leb_spec size 128); [apply best_desc_between; [lia|change (size <= 128); lia|right; change (64 < size); lia]|].
  destruct (Z.leb_spec size 256); [apply best_desc_between; [lia|change (size <= 256); lia|right; change (128 < size); lia]|].
  destruct (Z.leb_spec size 512); [apply best_desc_between; [lia|change (size <= 512); lia|right; change (256 < size); lia]|].
  apply best_desc_between; [lia|change (size <= 1024); lia|right; change (512 < size); lia].
Qed.

Section pure.
Context (start : Z) (npages : nat) (others : gset Z).
Implicit Types (A : gmap Z arena) (m : gmap Z Z) (f : Z → list Z) (U : gset Z).

(** Page [r] of the heap, and block [j] of it when it is an arena of descriptor [i]. *)
Definition page (r : Z) : Z := start + 4096 * r.
Definition slot (r i j : Z) : Z := block_at (page r) (blk_size i) j.

(** Every page that is mapped is an arena or in use by others. *)
Definition arenas_ok m A : Prop :=
  (∀ r a, A !! r = Some a → 0 <= r < Z.of_nat npages ∧ 0 <= ar_desc a < 7 ∧
                            ar_used a ⊆ slots (ar_desc a)) ∧
  (∀ r, is_Some (m !! r) ↔ (is_Some (A !! r) ∨ r ∈ others)) ∧
  (∀ r, r ∈ others → A !! r = None).

Definition free_in A i b : Prop :=
  ∃ r U j, A !! r = Some (ArenaOf i U) ∧ j ∈ slots i ∧ (j ∉ U) ∧ b = slot r i j.

(** The free lists hold the blocks that are not in use. *)
Definition frees_ok A f : Prop := ∀ i b, 0 <= i < 7 → (b ∈ f i ↔ free_in A i b).

Definition take_slot A r i U j : gmap Z arena := <[r := ArenaOf i ({[j]} ∪ U)]> A.

Lemma arenas_ok_take m A r i U j :
  arenas_ok m A → A !! r = Some (ArenaOf i U) → j ∈ slots i → arenas_ok m (take_slot A r i U j).
Proof.
  intros (HA & Hm & Ho) Hr Hj. unfold take_slot. split_and!.
  - intros r' a [[<- <-]|[_ Ha]]%lookup_insert_Some; [|by apply HA].
    destruct (HA _ _ Hr) as (? & ? & ?). cbn [ar_desc ar_used] in *. set_solver.
  - intros r'. rewrite Hm lookup_insert_is_Some'. destruct (decide (r = r')) as [<-|]; [rewrite Hr|]; naive_solver.
  - intros r' Hr'. rewrite lookup_insert_ne; [by apply Ho|]. intros <-. rewrite Ho // in Hr.
Qed.

Lemma arenas_ok_new m A r fr i :
  arenas_ok m A → 0 <= r < Z.of_nat npages → m !! r = None → 0 <= i < 7 →
  A !! r = None ∧ arenas_ok (<[r := fr]> m) (<[r := ArenaOf i ∅]> A).
Proof.
  intros (HA & Hm & Ho) Hr Hn Hi.
  assert (A !! r = None ∧ r ∉ others) as [HrA Hro].
  { split; [apply eq_None_not_Some|]; intros Hs; (destruct (proj2 (Hm r)) as [? ?]; [auto|congruence]). }
  split; [done|]. split_and!.
  - intros r' a [[<- <-]|[_ Ha]]%lookup_insert_Some; [|by apply HA]. cbn [ar_desc ar_used]. set_solver.
  - intros r'. rewrite !lookup_insert_is_Some Hm. naive_solver.
  - intros r' Hr'. rewrite lookup_insert_ne; [by apply Ho|]. by intros <-.
Qed.

Lemma arenas_ok_give m A r i U j :
  arenas_ok m A → A !! r = Some (ArenaOf i U) → arenas_ok m (<[r := ArenaOf i (U ∖ {[j]})]> A).
Proof.
  intros (HA & Hm & Ho) Hr. split_and!.
  - intros r' a [[<- <-]|[_ Ha]]%lookup_insert_Some; [|by apply HA].
    destruct (HA _ _ Hr) as (? & ? & ?). cbn [ar_desc ar_used] in *. set_solver.
  - intros r'. rewrite Hm lookup_insert_is_Some'. destruct (decide (r = r')) as [<-|]; [rewrite Hr|]; naive_solver.
  - intros r' Hr'. rewrite lookup_insert_ne; [by apply Ho|]. intros <-. rewrite Ho // in Hr.
Qed.

Lemma arenas_ok_drop m A r : arenas_ok m A → is_Some (A !! r) → arenas_ok (delete r m) (delete r A).
Proof.
  intros (HA & Hm & Ho) [a Hr]. split_and!.
  - intros r' a' [_ Ha]%lookup_delete_Some. by apply HA.
  - intros r'. rewrite !lookup_delete_is_Some Hm. split; [naive_solver|].
    intros [?|Hr']; [naive_solver|]. split; [|by right]. intros <-. rewrite Ho // in Hr.
  - intros r' Hr'. apply lookup_delete_None. right. by apply Ho.
Qed.

Hypothesis Hstart : 0 < start ∧ start mod 4096 = 0 ∧ start + 4096 * Z.of_nat npages < 2 ^ 32.

Lemma page_range r :
  0 <= r < Z.of_nat npages → 0 < page r ∧ page r + 4096 < 2 ^ 32 ∧ page r mod 4096 = 0.
Proof. intros Hr. unfold page. split_and!; [lia|lia|Z.div_mod_to_equations; lia]. Qed.

Lemma slot_page r i j :
  0 <= r < Z.of_nat npages → 0 <= i < 7 → j ∈ slots i →
  Z.land (slot r i j) 0xfffff000 = page r ∧ 0 < slot r i j < 2 ^ 32.
Proof.
  intros Hr Hi Hj%elem_of_slots. pose proof (page_range r Hr) as (? & ? & ?).
  apply block_page; by first [done|lia].
Qed.

Lemma slot_inj r i j r' i' j' :
  0 <= r < Z.of_nat npages → 0 <= i < 7 → j ∈ slots i →
  0 <= r' < Z.of_nat npages → 0 <= i' < 7 → j' ∈ slots i' →
  slot r i j = slot r' i' j' → r = r' ∧ (i = i' → j = j').
Proof.
  intros Hr Hi Hj Hr' Hi' Hj' E.
  destruct (slot_page r i j) as [Hp _]; [done..|]. destruct (slot_page r' i' j') as [Hp' _]; [done..|].
  rewrite E Hp' in Hp. assert (r = r') as <- by (unfold page in Hp; lia). split; [done|].
  intros <-. eapply blocks_inj; [|exact E]. pose proof (blk_bounds i Hi). lia.
Qed.

(** A free block is in one arena only, at one place. *)
Lemma free_in_slot m A r i U j :
  arenas_ok m A → A !! r = Some (ArenaOf i U) → j ∈ slots i →
  (free_in A i (slot r i j) ↔ j ∉ U).
Proof.
  intros (HA & _) Hr Hj. split; [|by exists r, U, j].
  intros (r' & U' & j' & Hr' & Hj' & Hn & E). destruct (HA _ _ Hr) as (? & ? & _), (HA _ _ Hr') as (? & _).
  destruct (slot_inj r i j r' i j') as [<- Ej]; [done..|]. rewrite -(Ej eq_refl) in Hn. congruence.
Qed.

(** *** Taking a free block *)

Lemma frees_ok_take m A f r i U j xs :
  arenas_ok m A → frees_ok A f → A !! r = Some (ArenaOf i U) → j ∈ slots i → j ∉ U →
  f i = slot r i j :: xs → NoDup (f i) →
  frees_ok (take_slot A r i U j) (λ k, if decide (k = i) then xs else f k).
Proof.
  intros HA Hf Hr Hj Hn Hfi Hnd i' b Hi'. rewrite Hfi in Hnd. apply NoDup_cons in Hnd as [Hnd _].
  pose proof HA as (HA' & _). destruct (HA' _ _ Hr) as (Hr0 & Hi & _). unfold take_slot.
  destruct (decide (i' = i)) as [->|Hne].
  - assert (b ∈ xs ↔ free_in A i b ∧ b ≠ slot r i j) as ->.
    { rewrite -Hf // Hfi elem_of_cons. split; [|naive_solver]. intros Hb. split; [by right|congruence]. }
    split.
    + intros [(r' & U' & j' & Hr' & Hj' & Hn' & ->) Hb]. destruct (decide (r = r')) as [<-|Hrr].
      * exists r, ({[j]} ∪ U), j'. rewrite lookup_insert_eq. split_and!; [done|done| |done].
        rewrite Hr in Hr'. simplify_eq. apply not_elem_of_union. split; [|done].
        intros ->%elem_of_singleton. done.
      * exists r', U', j'. by rewrite lookup_insert_ne.
    + intros (r' & U' & j' & [[<- E]|[Hrr Hr']]%lookup_insert_Some & Hj' & Hn' & ->).
      * simplify_eq. split; [exists r, U, j'; set_solver|]. intros E.
        destruct (slot_inj r i j' r i j) as [_ Ej]; [done..|]. rewrite Ej // in Hn'. set_solver.
      * destruct (HA' _ _ Hr') as (? & _). split; [by exists r', U', j'|]. intros E.
        by destruct (slot_inj r' i j' r i j) as [-> _].
  - rewrite Hf //. split; intros (r' & U' & j' & Hr' & Hx).
    + exists r', U', j'. rewrite lookup_insert_ne; [done|]. intros <-. rewrite Hr in Hr'. congruence.
    + apply lookup_insert_Some in Hr' as [[<- ?]|[_ Hr']]; [congruence|]. by exists r', U', j'.
Qed.

(** *** A new arena *)

Lemma frees_ok_new m A f r i :
  arenas_ok m A → frees_ok A f → A !! r = None → 0 <= i < 7 → f i = [] →
  frees_ok (<[r := ArenaOf i ∅]> A)
    (λ k, if decide (k = i) then blocks (page r) (blk_size i) (blk_count i) else f k).
Proof.
  intros HA Hf Hr Hi Hfi i' b Hi'. destruct (decide (i' = i)) as [->|Hne].
  - unfold blocks. rewrite list_elem_of_fmap. split.
    + intros (j & -> & Hj%elem_of_seqZ). exists r, ∅, j. rewrite lookup_insert_eq.
      split_and!; [done|apply elem_of_slots; lia|set_solver|done].
    + intros (r' & U & j & [[<- _]|[_ Hr']]%lookup_insert_Some & Hj & Hn & ->).
      * exists j. split; [done|]. apply elem_of_seqZ. apply elem_of_slots in Hj. lia.
      * assert (slot r' i j ∈ f i) as Hb by (apply Hf; [done|by exists r', U, j]).
        by rewrite Hfi elem_of_nil in Hb.
  - rewrite Hf //. split; intros (r' & U' & j' & Hr' & Hx).
    + exists r', U', j'. rewrite lookup_insert_ne; [done|]. intros <-. congruence.
    + apply lookup_insert_Some in Hr' as [[<- ?]|[_ Hr']]; [congruence|]. by exists r', U', j'.
Qed.

(** *** Giving a block back *)

Definition give_slot A r i U j : gmap Z arena :=
  if decide (U ∖ {[j]} = ∅) then delete r A else <[r := ArenaOf i (U ∖ {[j]})]> A.

Lemma frees_ok_give m A f r i U j :
  arenas_ok m A → frees_ok A f → A !! r = Some (ArenaOf i U) → j ∈ U →
  frees_ok (<[r := ArenaOf i (U ∖ {[j]})]> A)
    (λ k, if decide (k = i) then f i ++ [slot r i j] else f k).
Proof.
  intros (HA & _) Hf Hr Hj i' b Hi'. destruct (HA _ _ Hr) as (_ & Hi & HU). cbn [ar_desc ar_used] in *.
  destruct (decide (i' = i)) as [->|Hne].
  - rewrite elem_of_app list_elem_of_singleton Hf //. split.
    + intros [(r' & U' & j' & Hr' & Hj' & Hn & ->)| ->].
      * destruct (decide (r = r')) as [<-|].
        -- exists r, (U ∖ {[j]}), j'. rewrite lookup_insert_eq. rewrite Hr in Hr'. simplify_eq. set_solver.
        -- exists r', U', j'. by rewrite lookup_insert_ne.
      * exists r, (U ∖ {[j]}), j. rewrite lookup_insert_eq. set_solver.
    + intros (r' & U' & j' & [[<- E]|[Hrr Hr']]%lookup_insert_Some & Hj' & Hn' & ->).
      * simplify_eq. destruct (decide (j' = j)) as [->|]; [by right|left; exists r, U, j'; set_solver].
      * left. by exists r', U', j'.
  - rewrite Hf //. split; intros (r' & U' & j' & Hr' & Hx).
    + exists r', U', j'. rewrite lookup_insert_ne; [done|]. intros <-. rewrite Hr in Hr'. congruence.
    + apply lookup_insert_Some in Hr' as [[<- ?]|[_ Hr']]; [congruence|]. by exists r', U', j'.
Qed.

(** The blocks of an arena with none in use are all in the free list. *)
Lemma frees_split m A f r i :
  arenas_ok m A → frees_ok A f → A !! r = Some (ArenaOf i ∅) → NoDup (f i) →
  f i ≡ₚ blocks (page r) (blk_size i) (blk_count i) ++
         filter (λ b, Z.land b 0xfffff000 ≠ page r) (f i).
Proof.
  intros (HA & _) Hf Hr Hnd. destruct (HA _ _ Hr) as (Hr0 & Hi & _). cbn [ar_desc] in Hi.
  assert (∀ b, b ∈ blocks (page r) (blk_size i) (blk_count i) ↔ b ∈ f i ∧ Z.land b 0xfffff000 = page r) as Hin.
  { intros b. unfold blocks. rewrite list_elem_of_fmap Hf //. split.
    - intros (j & -> & Hj). assert (j ∈ slots i) by (apply elem_of_slots; apply elem_of_seqZ in Hj; lia).
      split; [exists r, ∅, j; set_solver|by apply slot_page].
    - intros [(r' & U & j & Hr' & Hj & Hn & ->) E]. destruct (HA _ _ Hr') as (? & _).
      destruct (slot_page r' i j) as [Hp _]; [done..|]. rewrite Hp in E.
      assert (r' = r) as -> by (unfold page in E; lia). exists j. split; [done|].
      apply elem_of_seqZ. apply elem_of_slots in Hj. lia. }
  apply NoDup_Permutation; [done| |].
  - apply NoDup_app. split_and!; [| |by apply NoDup_filter].
    + unfold blocks. apply NoDup_fmap_2_strong; [|apply NoDup_seqZ]. intros j k _ _. apply blocks_inj.
      pose proof (blk_bounds i Hi). lia.
    + intros b [_ Hb]%Hin [Hb' _]%list_elem_of_filter. done.
  - intros b. rewrite elem_of_app Hin list_elem_of_filter. destruct (decide (Z.land b 0xfffff000 = page r)); naive_solver.
Qed.

Lemma frees_ok_drop m A f r i zs :
  arenas_ok m A → frees_ok A f → A !! r = Some (ArenaOf i ∅) →
  zs ≡ₚ filter (λ b, Z.land b 0xfffff000 ≠ page r) (f i) →
  frees_ok (delete r A) (λ k, if decide (k = i) then zs else f k).
Proof.
  intros (HA & _) Hf Hr Hzs i' b Hi'. destruct (HA _ _ Hr) as (Hr0 & Hi & _). cbn [ar_desc] in Hi.
  destruct (decide (i' = i)) as [->|Hne].
  - rewrite Hzs list_elem_of_filter Hf //. split.
    + intros [Hb (r' & U & j & Hr' & Hj & Hn & ->)]. destruct (HA _ _ Hr') as (? & _).
      destruct (slot_page r' i j) as [Hp _]; [done..|]. exists r', U, j.
      rewrite lookup_delete_ne; [done|]. intros <-. done.
    + intros (r' & U & j & [Hrr Hr']%lookup_delete_Some & Hj & Hn & ->). destruct (HA _ _ Hr') as (? & _).
      destruct (slot_page r' i j) as [Hp _]; [done..|]. rewrite Hp. split; [unfold page; lia|by exists r', U, j].
  - rewrite Hf //. split; intros (r' & U' & j' & Hr' & Hx).
    + exists r', U', j'. rewrite lookup_delete_ne; [done|]. intros <-. rewrite Hr in Hr'. congruence.
    + apply lookup_delete_Some in Hr' as [_ Hr']. by exists r', U', j'.
Qed.

(** *** Who holds the blocks *)

(** Block [x], at an address and of a size asked for, is in use. *)
Definition in_use A (x : Z * Z) : Prop :=
  ∃ r U j, A !! r = Some (ArenaOf (class_of x.2) U) ∧ j ∈ U ∧ x.1 = slot r (class_of x.2) j.

(** The blocks of [l] are those in use, each once, and every arena has one. *)
Definition client_ok A (l : list (Z * Z)) : Prop :=
  NoDup l.*1 ∧ Forall (in_use A) l ∧
  (∀ r i U j, A !! r = Some (ArenaOf i U) → j ∈ U → slot r i j ∈ l.*1) ∧
  (∀ r a, A !! r = Some a → ar_used a ≠ ∅).

Lemma client_ok_nil : client_ok ∅ [].
Proof. split_and!; [constructor|constructor|intros r i U j Hr|intros r a Hr]; by rewrite lookup_empty in Hr. Qed.

Lemma client_ok_perm A l l' : l ≡ₚ l' → client_ok A l → client_ok A l'.
Proof.
  intros Hl (Hnd & Hin & Hall & Hne). split_and!; [by rewrite -Hl|by rewrite -Hl| |done].
  intros r i U j Hr Hj. rewrite -Hl. by eapply Hall.
Qed.

(** A block in use is at one place. *)
Lemma in_use_slot m A r i U j x :
  arenas_ok m A → 0 <= r < Z.of_nat npages → 0 <= i < 7 → j ∈ slots i →
  in_use A x → x.1 = slot r i j →
  (∃ U', A !! r = Some (ArenaOf (class_of x.2) U')) ∧
  (i = class_of x.2 → ∀ U', A !! r = Some (ArenaOf i U') → j ∈ U').
Proof.
  intros (HA & _) Hr Hi Hj (r' & U' & j' & Hr' & Hj' & ->) E.
  destruct (HA _ _ Hr') as (Hr0 & Hc & HU). cbn [ar_desc ar_used] in *.
  assert (j' ∈ slots (class_of x.2)) as Hjs by set_solver.
  destruct (slot_inj r' (class_of x.2) j' r i j) as [-> Ej]; [done..|].
  split; [by eexists|]. intros -> U'' HU''. rewrite -Ej //. congruence.
Qed.

Lemma client_ok_take m A l r U j n :
  let i := class_of n in
  arenas_ok m A → client_ok A l → 0 <= r < Z.of_nat npages → 0 <= i < 7 → j ∈ slots i → j ∉ U →
  A !! r = Some (ArenaOf i U) ∨ (A !! r = None ∧ U = ∅) →
  client_ok (take_slot A r i U j) ((slot r i j, n) :: l).
Proof.
  intros i HA (Hnd & Hin & Hall & Hne) Hr Hi Hj Hn HrA. unfold take_slot. split_and!.
  - cbn [fmap list_fmap fst]. apply NoDup_cons. split; [|done].
    intros (x & E & Hx)%list_elem_of_fmap. eapply Forall_forall in Hx; [|exact Hin].
    pose proof Hx as (r' & U' & j' & Hr' & Hj' & E').
    destruct (in_use_slot m A r i U j x) as [[U'' HU''] Hju]; [done..|].
    destruct HrA as [HrA|[HrA _]]; [|congruence]. rewrite HrA in HU''. injection HU'' as Ei ->.
    by apply Hn, (Hju Ei).
  - apply Forall_cons. split.
    + exists r, ({[j]} ∪ U), j. rewrite lookup_insert_eq. cbn [fst snd]. set_solver.
    + eapply Forall_impl; [exact Hin|]. intros x (r' & U' & j' & Hr' & Hj' & E).
      destruct (decide (r = r')) as [<-|Hrr].
      * destruct HrA as [HrA|[HrA _]]; [|congruence]. rewrite HrA in Hr'. injection Hr' as Ei ->.
        exists r, ({[j]} ∪ U'), j'. rewrite lookup_insert_eq Ei. set_solver.
      * exists r', U', j'. by rewrite lookup_insert_ne.
  - intros r' i' U' j' [[<- [= <- <-]]|[_ Hr']]%lookup_insert_Some Hj'; cbn [fmap list_fmap fst]; [|right; by eapply Hall].
    apply elem_of_union in Hj' as [->%elem_of_singleton|Hj']; [by left|right].
    destruct HrA as [HrA|[_ ->]]; [by eapply Hall|set_solver].
  - intros r' a [[<- <-]|[_ Ha]]%lookup_insert_Some; [cbn [ar_used]; set_solver|by eapply Hne].
Qed.

Lemma client_ok_give m A l r U j n :
  let i := class_of n in
  arenas_ok m A → client_ok A ((slot r i j, n) :: l) → A !! r = Some (ArenaOf i U) → j ∈ U →
  client_ok (give_slot A r i U j) l.
Proof.
  intros i HA ([Hx Hnd]%NoDup_cons & [_ Hin]%Forall_cons & Hall & Hne) Hr Hj.
  destruct (proj1 HA _ _ Hr) as (Hr0 & Hi & HU). cbn [ar_desc ar_used fst] in *.
  assert (∀ r' a, give_slot A r i U j !! r' = Some a →
    (r' ≠ r ∧ A !! r' = Some a) ∨ (r' = r ∧ a = ArenaOf i (U ∖ {[j]}) ∧ U ∖ {[j]} ≠ ∅)) as Hg.
  { intros r' a. unfold give_slot. case_decide; [intros [? ?]%lookup_delete_Some; by left|].
    intros [[<- <-]|[? ?]]%lookup_insert_Some; [by right|by left]. }
  assert (∀ r' i' U' j', A !! r' = Some (ArenaOf i' U') → j' ∈ U' → (r' = r → j' ≠ j) →
    ∃ U'', give_slot A r i U j !! r' = Some (ArenaOf i' U'') ∧ j' ∈ U'') as Hk.
  { intros r' i' U' j' Hr' Hj' Hne'. unfold give_slot. destruct (decide (r' = r)) as [->|Hrr].
    - rewrite Hr in Hr'. injection Hr' as <- <-. rewrite decide_False; [|set_solver].
      exists (U ∖ {[j]}). rewrite lookup_insert_eq. set_solver.
    - exists U'. case_decide; [by rewrite lookup_delete_ne|by rewrite lookup_insert_ne]. }
  split_and!; [done| | |].
  - apply Forall_forall. intros x Hxl. eapply Forall_forall in Hin as (r' & U' & j' & Hr' & Hj' & E); [|exact Hxl].
    destruct (Hk _ _ _ _ Hr' Hj') as (U'' & ? & ?); [|by exists r', U'', j'].
    intros -> ->. rewrite Hr in Hr'. injection Hr' as Ei <-. apply Hx, list_elem_of_fmap.
    exists x. split; [|done]. by rewrite E -Ei.
  - intros r' i' U' j' Hr' Hj'. apply Hg in Hr' as [[Hrr Hr']|(-> & [= -> ->] & _)].
    + specialize (Hall _ _ _ _ Hr' Hj'). cbn [fmap list_fmap fst] in Hall.
      apply elem_of_cons in Hall as [E|]; [|done]. destruct (proj1 HA _ _ Hr') as (? & ? & ?).
      cbn [ar_desc ar_used] in *.
      destruct (slot_inj r' i' j' r i j) as [-> _]; [set_solver..|]. done.
    + assert (j' ∈ U) as HjU by set_solver. specialize (Hall _ _ _ _ Hr HjU). cbn [fmap list_fmap fst] in Hall.
      apply elem_of_cons in Hall as [E|]; [|done].
      destruct (slot_inj r i j' r i j) as [_ Ej]; [set_solver..|]. rewrite Ej // in Hj'. set_solver.
  - intros r' a [[_ Ha]|(_ & -> & ?)]%Hg; [by eapply Hne|done].
Qed.

(** Blocks in use do not overlap. *)
Lemma client_ok_apart m A l k k' x x' :
  arenas_ok m A → client_ok A l → Forall (λ y, 0 <= y.2 <= 1024) l →
  l !! k = Some x → l !! k' = Some x' → k ≠ k' →
  x.1 + x.2 <= x'.1 ∨ x'.1 + x'.2 <= x.1.
Proof.
  intros (HA & _) (Hnd & Hin & _) Hsz Hk Hk' Hne.
  assert (x.1 ≠ x'.1) as Hx.
  { intros E. apply Hne. eapply (NoDup_lookup l.*1); [done|rewrite list_lookup_fmap Hk //|].
    by rewrite list_lookup_fmap Hk' /= E. }
  assert (∀ y, y ∈ l → ∃ r j, 0 <= r < Z.of_nat npages ∧ 0 <= j < blk_count (class_of y.2) ∧
    y.1 = slot r (class_of y.2) j ∧ 0 <= class_of y.2 < 7 ∧ y.2 <= blk_size (class_of y.2) ∧
    is_Some (A !! r) ∧ ∀ a, A !! r = Some a → ar_desc a = class_of y.2) as Hy.
  { intros y Hy. pose proof (proj1 (Forall_forall _ _) Hin y Hy) as (r & U & j & Hr & Hj & E).
    pose proof (proj1 (Forall_forall _ _) Hsz y Hy) as (? & ? & ?)%class_of_best.
    destruct (HA _ _ Hr) as (? & ? & HU). exists r, j. split_and!; try done; try lia.
    - apply HU, elem_of_slots in Hj. cbn [ar_desc] in Hj. lia.
    - apply HU, elem_of_slots in Hj. cbn [ar_desc] in Hj. lia.
    - intros a Ha. rewrite Hr in Ha. by injection Ha as <-. }
  destruct (Hy x) as (r & j & Hr & Hj & E & Hc & Hs & [a Ha] & Hd); [by eapply list_elem_of_lookup_2|].
  destruct (Hy x') as (r' & j' & Hr' & Hj' & E' & Hc' & Hs' & [a' Ha'] & Hd'); [by eapply list_elem_of_lookup_2|].
  pose proof (blk_bounds _ Hc) as (? & ? & ?). pose proof (blk_bounds _ Hc') as (? & ? & ?).
  rewrite E E' in Hx |- *. unfold slot, block_at, page, sizeof_arena in *.
  destruct (decide (r = r')) as [<-|Hrr].
  - rewrite -(Hd' _ Ha) (Hd _ Ha) in Hs' Hx Hj' |- *.
    assert (j ≠ j') by (intros ->; done). nia.
  - assert (j * blk_size (class_of x.2) + blk_size (class_of x.2) <= 4084) by nia.
    assert (j' * blk_size (class_of x'.2) + blk_size (class_of x'.2) <= 4084) by nia. nia.
Qed.

End pure.

(** ** The heap of small blocks *)

Section heap.
Context `{Symbols, Frames} (start addr nx pstart paddr ustart el : Z) (ds : gmap Z Z) (npages : nat)
  (nframes : Z) (others : gset Z) (curr : Z) (t : tcb).
Implicit Types (c : cpu) (A : gmap Z arena) (m : gmap Z Z) (f : Z → list Z) (U : gset Z).

#[local] Abbreviation page := (page start).
#[local] Abbreviation slot := (slot start).
#[local] Abbreviation desc i := (desc_at g_k_mem_block_descs i).
#[local] Abbreviation pages_at := (kheap start addr nx pstart paddr ustart el ds npages nframes).
#[local] Abbreviation arenas_ok := (arenas_ok npages others).
#[local] Abbreviation frees_ok := (frees_ok start).

(** A page with nothing in it. *)
Definition raw_page (p : Z) : hPropI := (∃ bs, ⌜length bs = 4096%nat⌝ ∗ p ↦∗ bs)%I.

(** The memory the pages that are not mapped will have. *)
Definition spare m : hPropI :=
  ([∗ list] r ∈ seqZ 0 (Z.of_nat npages), if m !! r is None then raw_page (page r) else emp)%I.

Definition arena_res (r : Z) (a : arena) : hPropI :=
  (arena_header (page r) (desc (ar_desc a)) (blk_count (ar_desc a) - Z.of_nat (size (ar_used a))) ∗
   arena_slack (page r) (ar_desc a))%I.

(** The heap between two calls of the allocation functions. *)
Definition heap_at A m f : hPropI :=
  (⌜arenas_ok m A ∧ frees_ok A f⌝ ∗ pages_at m ∗ spare m ∗ is_descs g_k_mem_block_descs f ∗
   [∗ map] r ↦ a ∈ A, arena_res r a)%I.

Definition small_heap A : hPropI :=
  (∃ m f, heap_at A m f ∗ tcb_at curr t ∗ quiet_lock (pool_lock g_kernel_pool) 0)%I.

(** The same without the thread that calls. *)
Definition idle_heap A : hPropI :=
  (∃ m f, heap_at A m f ∗ quiet_lock (pool_lock g_kernel_pool) 0)%I.

Lemma small_heap_split A : small_heap A ⊣⊢ tcb_at curr t ∗ idle_heap A.
Proof.
  iSplit.
  - iIntros "(%m & %f & HH & $ & HL)". iExists m, f. iFrame.
  - iIntros "[HT (%m & %f & HH & HL)]". iExists m, f. iFrame.
Qed.

Lemma kheap_range m :
  pages_at m ⊢ ⌜0 < start ∧ start mod 4096 = 0 ∧ start + 4096 * Z.of_nat npages < 2 ^ 32⌝.
Proof.
  iIntros "(%vbs & %pbs & (%Hv & _) & (%Hf & _) & _)". iPureIntro.
  destruct Hf as (? & Hb & ?). rewrite Hv in Hb. split_and!; [lia|done|lia].
Qed.

Lemma spare_take m r :
  0 <= r < Z.of_nat npages → m !! r = None →
  spare m ⊢ raw_page (page r) ∗ (∀ fr, spare (<[r := fr]> m)).
Proof.
  intros Hr Hm. assert (seqZ 0 (Z.of_nat npages) !! Z.to_nat r = Some r) as Hl by (apply lookup_seqZ; lia).
  iIntros "H". iDestruct (big_sepL_lookup_acc_impl with "H") as "[Hr H]"; [exact Hl|].
  iEval (rewrite Hm) in "Hr". iFrame "Hr". iIntros (fr). iApply "H".
  - iIntros "!>" (k y [-> _]%lookup_seqZ Hk) "H". rewrite lookup_insert_ne; [done|lia].
  - by rewrite lookup_insert_eq.
Qed.

Lemma spare_give m r :
  0 <= r < Z.of_nat npages → spare m -∗ raw_page (page r) -∗ spare (delete r m).
Proof.
  intros Hr. assert (seqZ 0 (Z.of_nat npages) !! Z.to_nat r = Some r) as Hl by (apply lookup_seqZ; lia).
  iIntros "H Hr". iDestruct (big_sepL_lookup_acc_impl with "H") as "[_ H]"; [exact Hl|]. iApply "H".
  - iIntros "!>" (k y [-> _]%lookup_seqZ Hk) "H". rewrite lookup_delete_ne; [done|lia].
  - by rewrite lookup_delete_eq.
Qed.

(** Taking a block from a free list that is not empty. *)
Lemma take_wp A m f i b xs c (Φ : res Z → hPropI) :
  0 <= i < 7 → f i = b :: xs →
  heap_at A m f -∗
  (∀ r U j, ⌜A !! r = Some (ArenaOf i U) ∧ j ∈ slots i ∧ (j ∉ U) ∧ b = slot r i j⌝ -∗
     heap_at (take_slot A r i U j) m (λ k, if decide (k = i) then xs else f k) -∗
     b ↦∗ replicate (Z.to_nat (blk_size i)) 0 -∗ Φ (RRet b c)) -∗
  wp (take_block (desc i)) c Φ.
Proof.
  iIntros (Hi Hfi) "([%HA %Hf] & HK & HR & HD & HM) HΦ".
  iDestruct (kheap_range with "HK") as %Hs. pose proof HA as (HA' & _).
  assert (b ∈ f i) as Hbf by (rewrite Hfi; by left).
  apply Hf in Hbf as (r & U & j & Hr & Hj & Hn & ->); [|done].
  destruct (HA' _ _ Hr) as (Hr0 & _ & HU). cbn [ar_desc ar_used] in HU.
  destruct (slot_page start npages Hs r i j) as [Hp Hb]; [done..|].
  pose proof (size_used i U j Hi HU Hj Hn) as Hsz.
  iDestruct (is_descs_acc _ _ i with "HD") as "[(Hd & Hn & HL & HT) HD]"; [done|].
  iAssert ⌜NoDup (f i)⌝%I as %Hnd.
  { iDestruct "HL" as "(_ & _ & _ & HC)". iApply (chain_nodup with "HC"). }
  iDestruct (big_sepM_insert_acc with "HM") as "[[HH HS] HM]"; [exact Hr|]. cbn [ar_desc ar_used].
  rewrite {1}Hfi. iEval (rewrite Hfi) in "HT".
  iApply (take_block_wp with "[$Hd $Hn $HL $HT] HH"); [done|done|done|lia|].
  iIntros "HDi HH Hb". iApply ("HΦ" with "[//] [-Hb] Hb").
  iSplit; [iPureIntro; split; [by eapply arenas_ok_take|by eapply (frees_ok_take start)]|].
  iFrame "HK HR". iSplitL "HDi HD"; [iApply ("HD" with "HDi")|].
  iApply "HM". rewrite /arena_res. cbn [ar_desc ar_used]. iFrame "HS".
  rewrite size_union; [|set_solver]. rewrite size_singleton.
  by replace (blk_count i - (1 + size U)%nat) with (blk_count i - size U - 1) by lia.
Qed.

(** What [new_arena] does: nothing, or a page that was not mapped becomes an arena. *)
Inductive grow_step A m f i : bool → gmap Z arena → gmap Z Z → (Z → list Z) → Prop :=
  | grow_fails : grow_step A m f i false A m f
  | grow_page r fr :
      0 <= r < Z.of_nat npages → A !! r = None →
      grow_step A m f i true (<[r := ArenaOf i ∅]> A) (<[r := fr]> m)
        (λ k, if decide (k = i) then blocks (page r) (blk_size i) (blk_count i) else f k).

Lemma grow_wp A m f i c (Φ : res bool → hPropI) :
  0 <= i < 7 → f i = [] → 0 <= g_k_mem_block_descs ∧ g_k_mem_block_descs + 168 <= 2 ^ 32 →
  heap_at A m f -∗
  (∀ ok A' m' f', ⌜grow_step A m f i ok A' m' f'⌝ -∗ heap_at A' m' f' -∗ Φ (RRet ok c)) -∗
  wp (new_arena PF_KERNEL (desc i)) c Φ.
Proof.
  iIntros (Hi Hfi Hg) "([%HA %Hf] & HK & HR & HD & HM) HΦ".
  iDestruct (kheap_range with "HK") as %Hs. rewrite /new_arena.
  wp_bind. iApply (alloc_wp with "HK"); [lia|by left|]. iIntros (a m' Hst) "HK". wp_reduce.
  destruct Hst as [|r rs a Hr Hn Hun Hl ->].
  { rewrite Z.eqb_refl. wp_pure. iApply ("HΦ" with "[%] [$HK $HR $HD $HM //]"). constructor. }
  destruct rs as [|fr [|]]; [|cbn [length map_run]|simpl in Hl; lia].
  { cbn [map_run length]. rewrite Z.eqb_refl. wp_pure.
    iApply ("HΦ" with "[%] [$HK $HR $HD $HM //]"). constructor. }
  change (Z.of_nat 1 =? 1) with true. fold (page r).
  assert (m !! r = None) as Hmr by (apply Hun; lia).
  destruct (page_range start npages Hs r) as (? & ? & ?); [lia|].
  destruct (arenas_ok_new npages others m A r fr i HA) as [HrA HA']; [lia|done|done|].
  iDestruct (spare_take _ r with "HR") as "[(%junk & %Hj & Hp) HR]"; [lia|done|].
  iDestruct (is_descs_acc _ _ i with "HD") as "[HDi HD]"; [done|]. rewrite Hfi.
  iApply (cut_page_wp (page r) (desc i) i [] junk with "Hp HDi");
    [done|unfold desc_at, sizeof_mem_block_desc; lia|done|done|].
  iIntros "HH HS HDi". iApply ("HΦ" with "[%] [-]"); [by apply (grow_page _ _ _ _ r fr); [lia|]|].
  iSplit; [iPureIntro; split; [done|by eapply (frees_ok_new start)]|].
  iFrame "HK". iSplitL "HR"; [iApply "HR"|]. iSplitL "HD HDi"; [iApply ("HD" with "HDi")|].
  rewrite big_sepM_insert //. iFrame "HM". rewrite /arena_res. cbn [ar_desc ar_used].
  rewrite size_empty Z.sub_0_r. iFrame.
Qed.

(** The memory of an arena is a page again. *)
Lemma blocks_bytes p size k n rest :
  8 <= size →
  ([∗ list] b ∈ (block_at p size <$> seqZ k (Z.of_nat n)), node b ∗ block_tail size b) -∗
  block_at p size (k + Z.of_nat n) ↦∗ rest -∗
  (∃ bs, ⌜Z.of_nat (length bs) = (Z.of_nat n * size + Z.of_nat (length rest))%Z⌝ ∗ block_at p size k ↦∗ bs).
Proof.
  intros Hs. iIntros "HB Hr". iInduction n as [|n IH] forall (k).
  - rewrite Z.add_0_r. iExists rest. iFrame "Hr". iPureIntro. lia.
  - rewrite seqZ_cons; [|lia]. replace (Z.pred (Z.of_nat (S n))) with (Z.of_nat n) by lia.
    rewrite fmap_cons big_sepL_cons. iDestruct "HB" as "[[Hn Ht] HB]".
    iDestruct (block_bytes with "Hn Ht") as (bs1) "[%H1 Hb]"; [done|].
    iDestruct ("IH" with "HB [Hr]") as (bs2) "[%H2 HB]".
    { by replace (Z.succ k + Z.of_nat n) with (k + Z.of_nat (S n)) by lia. }
    iExists (bs1 ++ bs2). rewrite bytes_app H1.
    replace (block_at p size k + size) with (block_at p size (Z.succ k)) by (unfold block_at; lia).
    iFrame. iPureIntro. rewrite length_app. lia.
Qed.

Lemma page_whole p i d k :
  0 <= i < 7 →
  arena_header p d k -∗
  ([∗ list] b ∈ blocks p (blk_size i) (blk_count i), node b ∗ block_tail (blk_size i) b) -∗
  arena_slack p i -∗ raw_page p.
Proof.
  iIntros (Hi) "(Hd & Hc & Hl) HB (%bs & %Hbs & Hs)". pose proof (blk_bounds i Hi) as (H1 & H2 & H3).
  iDestruct (blocks_bytes p (blk_size i) 0 (Z.to_nat (blk_count i)) bs with "[HB] [Hs]") as (bs') "[%Hl' HB]".
  { lia. }
  { by rewrite Z2Nat.id; [|lia]. }
  { rewrite Z2Nat.id; [|lia]. unfold block_at.
    by replace (p + sizeof_arena + (0 + blk_count i) * blk_size i)
      with (p + (sizeof_arena + blk_count i * blk_size i)) by lia. }
  iDestruct (pt32_range with "Hd") as %?. iDestruct (pt32_range with "Hc") as %?.
  iExists (word_bytes d ++ word_bytes k ++ word_bytes 0 ++ bs'). iSplit.
  - iPureIntro. rewrite !length_app. cbn [length word_bytes]. unfold sizeof_arena in *. lia.
  - rewrite !bytes_app !bytes_word //. cbn [length word_bytes].
    unfold arena_mem_desc_addr, arena_cnt, arena_large, block_at, sizeof_arena in *.
    replace (p + 4%nat + 4%nat + 4%nat) with (p + 12 + 0 * blk_size i) by lia.
    replace (p + 4%nat + 4%nat) with (p + 8) by lia. replace (p + 4%nat) with (p + 4) by lia. iFrame.
Qed.

(** An arena with no block in use goes back to the page allocator. *)
Lemma drop_wp A m f r i c (Φ : res unit → hPropI) :
  A !! r = Some (ArenaOf i ∅) →
  heap_at A m f -∗
  (∀ zs, heap_at (delete r A) (delete r m) (λ k, if decide (k = i) then zs else f k) -∗
     Φ (RRet tt (flush_tlb 1 c))) -∗
  wp (loop (drop_block (page r)) 0 ;; free_pages PF_KERNEL 1 (page r)) c Φ.
Proof.
  iIntros (Hr) "([%HA %Hf] & HK & HR & HD & HM) HΦ".
  iDestruct (kheap_range with "HK") as %Hs. pose proof HA as (HA' & Hm & _).
  destruct (HA' _ _ Hr) as (Hr0 & Hi & _). cbn [ar_desc] in Hi.
  pose proof (blk_bounds i Hi) as (H1 & H2 & H3).
  iDestruct (is_descs_acc _ _ i with "HD") as "[(Hd & Hn & HL & HT) HD]"; [done|].
  iAssert ⌜NoDup (f i)⌝%I as %Hnd.
  { iDestruct "HL" as "(_ & _ & _ & HC)". iApply (chain_nodup with "HC"). }
  rewrite (big_sepM_delete _ A) //. iDestruct "HM" as "[[HH HS] HM]". cbn [ar_desc ar_used].
  rewrite size_empty Z.sub_0_r. wp_bind. iApply wp_loop_start.
  pose proof (frees_split start npages others Hs _ _ _ _ _ HA Hf Hr Hnd) as Hsplit.
  pose proof (λ ys Φ, drop_block_loop_wp (page r) (desc i) (blk_size i) (blk_count i) (blk_count i) 0
    (Z.to_nat (blk_count i)) (f i) ys c Φ) as Hdrop.
  rewrite Z2Nat.id in Hdrop; [|lia].
  iApply (Hdrop with "HH [$Hd $Hn $HL $HT]"); [done|lia|lia| |exact Hsplit|].
  { intros j Hj. destruct (slot_page start npages Hs r i j) as [_ ?]; [done|done|by apply elem_of_slots|].
    change (block_at (page r) (blk_size i) j) with (slot r i j). lia. }
  iIntros (zs Hzs) "HH HDi HB". wp_reduce.
  iDestruct (page_whole with "HH HB HS") as "Hp"; [done|].
  iApply (free_wp _ _ _ _ _ _ _ _ _ _ m r 1 with "HK"); [lia|lia|lia| |].
  { intros k Hk. replace k with r by lia. apply Hm. left. by eexists. }
  iIntros "HK". iApply ("HΦ" $! zs). iFrame "HK HM".
  iSplit; [iPureIntro; split; [by apply arenas_ok_drop; [|eexists]|by eapply (frees_ok_drop start npages)]|].
  iSplitR "HD HDi"; [iApply (spare_give with "HR Hp"); lia|iApply ("HD" with "HDi")].
Qed.

Hypothesis Hcurr : 0 < curr < 2 ^ 32.
Hypothesis Hkernel : t_pgdir t = 0.
Hypothesis Hdescs : 0 < g_k_mem_block_descs ∧ g_k_mem_block_descs + 168 <= 2 ^ 32.

(** The kernel allocates from its own pool and descriptors. *)
Lemma alloc_context_wp c (Φ : res (Z * Z * Z) → hPropI) :
  Z.land (esp c) 0xfffff000 = curr →
  tcb_at curr t -∗
  (tcb_at curr t -∗ Φ (RRet (PF_KERNEL, g_kernel_pool, g_k_mem_block_descs) c)) -∗
  wp alloc_context c Φ.
Proof.
  iIntros (He) "(%Hp & Hsp & Hst & Hpr & Htk & Hpg) HΦ". rewrite /alloc_context.
  wp_bind. iApply running_thread_wp. rewrite He. wp_reduce. wp_ld "Hpg".
  rewrite (proj2 (Z.eqb_eq (t_pgdir t) 0)) //. wp_pure. iApply "HΦ". by iFrame.
Qed.

(** An arena of descriptor [i] has a block that is free. *)
Definition has_room A i : Prop :=
  ∃ r U j, A !! r = Some (ArenaOf i U) ∧ j ∈ slots i ∧ j ∉ U.

(** What [sys_malloc] does with a request for a block of descriptor [i]; it fails
    only when all are in use. *)
Inductive malloc_step A i : Z → gmap Z arena → Prop :=
  | malloc_fails : ¬ has_room A i → malloc_step A i 0 A
  | malloc_slot r U j :
      A !! r = Some (ArenaOf i U) ∨ (A !! r = None ∧ U = ∅ ∧ ¬ has_room A i) →
      0 <= r < Z.of_nat npages → j ∈ slots i → j ∉ U →
      malloc_step A i (slot r i j) (take_slot A r i U j).

(** The second half of [sys_malloc]: a block is free, perhaps in a new arena. *)
Lemma serve_wp A A' m f i c (Φ : res Z → hPropI) :
  0 <= i < 7 → Z.land (esp c) 0xfffff000 = curr → f i ≠ [] →
  (∀ r U j, A' !! r = Some (ArenaOf i U) → j ∈ slots i → j ∉ U → head (f i) = Some (slot r i j) →
     malloc_step A i (slot r i j) (take_slot A' r i U j)) →
  heap_at A' m f -∗ tcb_at curr t -∗ quiet_lock (pool_lock g_kernel_pool) curr -∗
  (∀ a A', ⌜malloc_step A i a A'⌝ -∗ small_heap A' -∗
     (if a =? 0 then emp else a ↦∗ replicate (Z.to_nat (blk_size i)) 0) -∗ Φ (RRet a c)) -∗
  wp (mem_elem <- take_block (desc i); lock_release (pool_lock g_kernel_pool) ;; ret mem_elem) c Φ.
Proof.
  iIntros (Hi He Hne Hstep) "HH HT HL HΦ". destruct (f i) as [|b xs] eqn:Hfi; [done|].
  iAssert ⌜arenas_ok m A' ∧ 0 < start ∧ start mod 4096 = 0 ∧ start + 4096 * Z.of_nat npages < 2 ^ 32⌝%I
    as %[[HA _] Hs].
  { iDestruct "HH" as "([%HA _] & HK & _)". iDestruct (kheap_range with "HK") as %?. done. }
  wp_bind. iApply (take_wp with "HH"); [done|done|].
  iIntros (r U j (Hr & Hj & Hn & ->)) "HH Hb". wp_reduce. destruct (HA _ _ Hr) as [Hr0 _].
  wp_bind. iApply (mutex_release with "HL"); [done|done|]. iIntros "HL". wp_reduce. wp_pure.
  destruct (slot_page start npages Hs r i j) as [_ Hb]; [done..|].
  iApply ("HΦ" with "[%] [$HH $HT $HL]"); [by apply Hstep|].
  by rewrite (proj2 (Z.eqb_neq _ 0)); [|lia].
Qed.

Lemma sys_malloc_wp A size i c (Φ : res Z → hPropI) :
  0 <= size <= 1024 → best_desc size i → Z.land (esp c) 0xfffff000 = curr →
  small_heap A -∗
  (∀ a A', ⌜malloc_step A i a A'⌝ -∗ small_heap A' -∗
     (if a =? 0 then emp else a ↦∗ replicate (Z.to_nat (blk_size i)) 0) -∗ Φ (RRet a c)) -∗
  wp (sys_malloc size) c Φ.
Proof.
  iIntros (Hsz (Hi & Hle & Hlt) He) "(%m & %f & HH & HT & HL) HΦ". rewrite /sys_malloc.
  wp_bind. iApply (alloc_context_wp with "HT"); [done|]. iIntros "HT". wp_reduce.
  wp_bind. iApply (mutex_acquire with "HL"); [done|done|]. iIntros "HL". wp_reduce.
  rewrite Z.gtb_ltb (proj2 (Z.ltb_ge 1024 size)); [|lia].
  iDestruct "HH" as "([%HA %Hf] & HK & HR & HD & HM)". iDestruct (kheap_range with "HK") as %Hs.
  assert (f i = [] → ¬ has_room A i) as Hroom.
  { intros Hfi (r & U & j & Hr & Hj & Hn). assert (slot r i j ∈ f i) as Hb by (apply Hf; [done|by exists r, U, j]).
    by rewrite Hfi elem_of_nil in Hb. }
  wp_bind. iApply wp_loop_start. iApply (find_desc_loop_wp with "HD"); [split; [done|apply Hi]|apply Hi|done|done|].
  iIntros "HD". wp_reduce.
  iDestruct (is_descs_acc _ _ i with "HD") as "[(Hd & Hn & HF & HFT) HD]"; [done|].
  wp_bind. iApply (list_empty_wp with "HF"). iIntros "HF". wp_reduce.
  iDestruct ("HD" with "[$Hd $Hn $HF $HFT]") as "HD".
  iAssert (heap_at A m f) with "[HK HR HD HM]" as "HH".
  { iFrame "HK HR HM". iSplit; [done|]. iApply (is_descs_ext with "HD"). intros k. by case_decide; subst. }
  wp_bind. case_bool_decide as Hfi.
  - iApply (grow_wp with "HH"); [done|done|lia|]. iIntros (ok A' m' f' Hst) "HH". wp_reduce.
    destruct Hst as [|r fr Hr HrA]; wp_reduce.
    + wp_bind. iApply (mutex_release with "HL"); [done|done|]. iIntros "HL". wp_reduce. wp_pure.
      iApply ("HΦ" with "[%] [$HH $HT $HL]"); [|done]. by apply malloc_fails, Hroom.
    + pose proof (blk_bounds i Hi) as (_ & ? & _).
      assert (blocks (page r) (blk_size i) (blk_count i) = slot r i 0 ::
        tail (blocks (page r) (blk_size i) (blk_count i))) as Hbl.
      { rewrite (blocks_split _ _ _ 0); [|lia]. by rewrite seqZ_nil. }
      iApply (serve_wp A with "HH HT HL HΦ"); [done|done|by rewrite decide_True // Hbl|].
      rewrite decide_True // Hbl. intros r' U j Hr' Hj Hn [= E].
      assert (r' = r) as ->.
      { apply lookup_insert_Some in Hr' as [[? _]|[_ Hr']]; [done|]. destruct HA as [HA _].
        destruct (HA _ _ Hr') as [? _].
        destruct (slot_inj start npages Hs r i 0 r' i j); [done|done|apply elem_of_slots; lia|done..]. }
      rewrite lookup_insert_eq in Hr'. injection Hr' as <-.
      rewrite /take_slot insert_insert_eq. apply malloc_slot; [right; auto|done|done|done].
  - iApply wp_ret. wp_reduce. iApply (serve_wp A with "HH HT HL HΦ"); [done..|].
    intros r U j Hr Hj Hn _. destruct HA as [HA _]. destruct (HA _ _ Hr) as [? _].
    apply malloc_slot; [by left|done|done|done].
Qed.


Lemma size_give (U : gset Z) j : j ∈ U → size U = S (size (U ∖ {[j]})).
Proof.
  intros Hj. rewrite {1}(union_difference_singleton_L j U) // size_union; [|set_solver].
  by rewrite size_singleton.
Qed.

Lemma esp_flush n c : esp (flush_tlb n c) = esp c.
Proof. revert c. induction n as [|n IH]; intros c; cbn [flush_tlb]; [done|by rewrite IH]. Qed.

Lemma sys_free_wp A r i U j buf c (Φ : res unit → hPropI) :
  A !! r = Some (ArenaOf i U) → j ∈ U → Z.of_nat (length buf) = blk_size i →
  Z.land (esp c) 0xfffff000 = curr →
  small_heap A -∗ slot r i j ↦∗ buf -∗
  (∀ c', ⌜esp c' = esp c ∧ (U ∖ {[j]} ≠ ∅ → c' = c)⌝ -∗ small_heap (give_slot A r i U j) -∗ Φ (RRet tt c')) -∗
  wp (sys_free (slot r i j)) c Φ.
Proof.
  iIntros (Hr Hj Hbuf He) "(%m & %f & ([%HA %Hf] & HK & HR & HD & HM) & HT & HL) Hb HΦ".
  iDestruct (kheap_range with "HK") as %Hs. pose proof HA as (HA' & _).
  destruct (HA' _ _ Hr) as (Hr0 & Hi & HU). cbn [ar_desc ar_used] in *.
  assert (j ∈ slots i) as Hjs by set_solver.
  destruct (slot_page start npages Hs r i j) as [Hp Hsl]; [done..|].
  pose proof (blk_bounds i Hi) as (H1 & H2 & H3). pose proof (size_give U j Hj) as Hsize.
  assert (Z.of_nat (size U) <= blk_count i) as HUs.
  { rewrite -size_slots //. apply inj_le, subseteq_size. done. }
  rewrite /sys_free. wp_bind. iApply (alloc_context_wp with "HT"); [done|]. iIntros "HT". wp_reduce.
  wp_bind. iApply (mutex_acquire with "HL"); [done|done|]. iIntros "HL". wp_reduce.
  rewrite /block_to_arena Hp.
  iDestruct (big_sepM_insert_acc with "HM") as "[[(Ha & Hc & Hl) HS] HM]"; [exact Hr|].
  cbn [ar_desc ar_used]. wp_ld "Ha".
  rewrite (proj2 (Z.eqb_neq (desc i) 0)); [|unfold desc_at, sizeof_mem_block_desc; lia].
  wp_bind. wp_ld "Ha".
  iDestruct (is_descs_acc _ _ i with "HD") as "[(Hd & Hn & HF & HFT) HD]"; [done|].
  iDestruct (block_node _ (blk_size i) with "Hb") as "[Hnode Htail]"; [lia|lia|done|].
  wp_bind. iApply (list_append_wp with "HF Hnode"). iIntros "HF". wp_reduce.
  wp_ld "Hc". wp_st "Hc". rewrite w32_small; [|lia]. wp_ld "Hc". wp_ld "Ha". wp_ld "Hn".
  iDestruct ("HD" $! (f i ++ [slot r i j]) with "[$Hd $Hn $HF HFT Htail]") as "HD".
  { rewrite big_sepL_app /=. iFrame. }
  iDestruct ("HM" $! (ArenaOf i (U ∖ {[j]})) with "[Ha Hc Hl HS]") as "HM".
  { rewrite /arena_res /arena_header. cbn [ar_desc ar_used]. iFrame "Ha Hl HS".
    by replace (blk_count i - size U + 1) with (blk_count i - size (U ∖ {[j]})) by lia. }
  iAssert (heap_at (<[r := ArenaOf i (U ∖ {[j]})]> A) m
    (λ k, if decide (k = i) then f i ++ [slot r i j] else f k)) with "[HK HR HD HM]" as "HH".
  { iFrame "HK HR HM HD". iPureIntro. split; [by apply arenas_ok_give|by eapply (frees_ok_give start)]. }
  iApply wp_when. unfold give_slot.
  destruct (decide (U ∖ {[j]} = ∅)) as [Hnil|Hne].
  - rewrite Hnil size_empty in Hsize. replace (blk_count i - size U + 1) with (blk_count i) by lia.
    rewrite Z.eqb_refl Hnil. iApply (drop_wp _ _ _ r i with "HH"); [by rewrite lookup_insert_eq|].
    iIntros (zs) "HH". wp_reduce. rewrite !delete_insert_eq.
    iApply (mutex_release with "HL"); [by rewrite esp_flush|done|]. iIntros "HL".
    iApply ("HΦ" with "[%] [$HH $HT $HL]"). split; [apply esp_flush|by intros []].
  - rewrite (proj2 (Z.eqb_neq _ (blk_count i))); [|assert (size (U ∖ {[j]}) ≠ 0%nat) by (intros E; by apply size_empty_iff, leibniz_equiv in E); lia]. wp_reduce.
    iApply (mutex_release with "HL"); [done|done|]. iIntros "HL".
    iApply ("HΦ" with "[//] [$HH $HT $HL]").
Qed.

(** *** A client *)

(** A client asks for blocks, writes to all of what it asked for, and gives
    blocks back, in any order.  It keeps the blocks it holds, with their bytes. *)
Inductive heap_call := Malloc (size : Z) | Fill (k : nat) (v : Z) | Release (k : nat).

Fixpoint run_heap (cs : list heap_call) (live : list (Z * list Z)) : M (list (Z * list Z)) :=
  match cs with
  | [] => ret live
  | Malloc size :: cs =>
      a <- sys_malloc size;
      run_heap cs (if a =? 0 then live else (a, replicate (Z.to_nat size) 0) :: live)
  | Fill k v :: cs =>
      match live !! k with
      | Some (a, bs) =>
          memset a v (Z.of_nat (length bs)) ;;
          run_heap cs (<[k := (a, replicate (length bs) (w8 v))]> live)
      | None => run_heap cs live
      end
  | Release k :: cs =>
      match live !! k with
      | Some (a, _) => sys_free a ;; run_heap cs (delete k live)
      | None => run_heap cs live
      end
  end.

Definition heap_call_ok (x : heap_call) : Prop := if x is Malloc size then 0 <= size <= 1024 else True.

Definition shape (live : list (Z * list Z)) : list (Z * Z) :=
  (λ x, (x.1, Z.of_nat (length x.2))) <$> live.

(** A block: the bytes asked for, and those up to the size of the blocks. *)
Definition held (x : Z * list Z) : hPropI :=
  (∃ pad, ⌜Z.of_nat (length (x.2 ++ pad)) = blk_size (class_of (Z.of_nat (length x.2)))⌝ ∗
          x.1 ↦∗ (x.2 ++ pad))%I.

#[local] Abbreviation client_ok := (client_ok start).

Lemma small_heap_ok A :
  small_heap A ⊢ ⌜∃ m, arenas_ok m A ∧ 0 < start ∧ start mod 4096 = 0 ∧ start + 4096 * Z.of_nat npages < 2 ^ 32⌝.
Proof.
  iIntros "(%m & %f & ([%HA _] & HK & _) & _)". iDestruct (kheap_range with "HK") as %?. by iExists m.
Qed.

Lemma shape_insert k a bs bs' live :
  live !! k = Some (a, bs) → length bs' = length bs → shape (<[k := (a, bs')]> live) = shape live.
Proof.
  intros Hk Hl. unfold shape. rewrite list_fmap_insert list_insert_id //.
  rewrite list_lookup_fmap Hk /= Hl //.
Qed.

Lemma shape_delete k x live :
  live !! k = Some x → shape live ≡ₚ (x.1, Z.of_nat (length x.2)) :: shape (delete k live).
Proof. intros Hk. unfold shape. by rewrite {1}(delete_Permutation live k x Hk). Qed.

Lemma in_use_at m A live k x :
  arenas_ok m A → 0 < start ∧ start mod 4096 = 0 ∧ start + 4096 * Z.of_nat npages < 2 ^ 32 →
  client_ok A (shape live) → live !! k = Some x →
  ∃ r U j, A !! r = Some (ArenaOf (class_of (Z.of_nat (length x.2))) U) ∧ j ∈ U ∧
           x.1 = slot r (class_of (Z.of_nat (length x.2))) j ∧ 0 < x.1.
Proof.
  intros (HA & _) Hs (_ & Hin & _) Hk.
  assert (shape live !! k = Some (x.1, Z.of_nat (length x.2))) as Hk' by (by rewrite list_lookup_fmap Hk).
  eapply Forall_lookup_1 in Hin as (r & U & j & Hr & Hj & E); [|exact Hk']. cbn [fst snd] in *.
  exists r, U, j. split_and!; [done..|]. rewrite E.
  destruct (HA _ _ Hr) as (? & ? & HU). cbn [ar_desc ar_used] in *.
  apply (slot_page start npages Hs); [done|done|set_solver].
Qed.

Lemma run_heap_wp cs live A c (Φ : res (list (Z * list Z)) → hPropI) :
  Forall heap_call_ok cs → client_ok A (shape live) → Forall (λ x, 0 <= x.2 <= 1024) (shape live) →
  Z.land (esp c) 0xfffff000 = curr →
  small_heap A -∗ ([∗ list] x ∈ live, held x) -∗
  (∀ live' A' c', ⌜client_ok A' (shape live') ∧ Forall (λ x, 0 <= x.2 <= 1024) (shape live')⌝ -∗
     small_heap A' -∗ ([∗ list] x ∈ live', held x) -∗ Φ (RRet live' c')) -∗
  wp (run_heap cs live) c Φ.
Proof.
  iIntros (Hcs Hok Hsz He) "HH HL HΦ".
  iDestruct (small_heap_ok with "HH") as %(m0 & _ & Hs).
  iInduction cs as [|[size|k v|k] cs IH] forall (live A c Hcs Hok Hsz He); cbn [run_heap].
  - iApply wp_ret. by iApply ("HΦ" with "[//] HH HL").
  - apply Forall_cons in Hcs as [Hc Hcs]. cbn [heap_call_ok] in Hc.
    pose proof (class_of_best size Hc) as Hb. pose proof Hb as (Hi & Hle & _).
    iDestruct (small_heap_ok with "HH") as %(m & HA & _).
    wp_bind. iApply (sys_malloc_wp with "HH"); [done|done|done|]. iIntros (a A' Hst) "HH Ha". wp_reduce.
    destruct Hst as [Hroom|r U j HrA Hr Hj Hn].
    { rewrite Z.eqb_refl. by iApply ("IH" with "[//] [//] [//] [//] HH HL HΦ"). }
    destruct (slot_page start npages Hs r (class_of size) j) as [_ Ha]; [done..|].
    rewrite (proj2 (Z.eqb_neq _ 0)); [|lia].
    iApply ("IH" with "[//] [%] [%] [//] HH [HL Ha] HΦ").
    + cbn [shape fmap list_fmap fst snd]. rewrite length_replicate Z2Nat.id; [|lia].
      eapply client_ok_take; [done..|]. destruct HrA as [?|(? & ? & _)]; auto.
    + constructor; [|done]. cbn [snd]. rewrite length_replicate. lia.
    + rewrite big_sepL_cons. iFrame "HL". iExists (replicate (Z.to_nat (blk_size (class_of size) - size)) 0).
      cbn [fst snd]. rewrite -replicate_add length_replicate length_replicate Z2Nat.id; [|lia].
      replace (Z.to_nat size + Z.to_nat (blk_size (class_of size) - size))%nat
        with (Z.to_nat (blk_size (class_of size))) by lia.
      iFrame. iPureIntro. lia.
  - apply Forall_cons in Hcs as [_ Hcs].
    destruct (live !! k) as [[a bs]|] eqn:Hk; [|by iApply ("IH" with "[//] [//] [//] [//] HH HL HΦ")].
    iDestruct (big_sepL_insert_acc with "HL") as "[(%pad & %Hpad & Ha) HL]"; [exact Hk|]. cbn [fst snd] in *.
    iDestruct (small_heap_ok with "HH") as %(m & HA & _).
    destruct (in_use_at m A live k (a, bs) HA Hs Hok Hk) as (r & U & j & Hr & Hj & E & Ha). cbn [fst snd] in *.
    rewrite bytes_app. iDestruct "Ha" as "[Ha Hp]".
    wp_bind. iApply (memset_wp with "Ha"); [lia|done|]. iIntros "Ha". wp_reduce.
    assert (shape (<[k := (a, replicate (length bs) (w8 v))]> live) = shape live) as Hsh.
    { eapply shape_insert; [exact Hk|apply length_replicate]. }
    iApply ("IH" with "[//] [%] [%] [//] HH [-HΦ] HΦ"); [by rewrite Hsh|by rewrite Hsh|].
    iApply "HL". iExists pad. cbn [fst snd]. rewrite bytes_app !length_app length_replicate. iFrame.
    iPureIntro. by rewrite -length_app.
  - apply Forall_cons in Hcs as [_ Hcs].
    destruct (live !! k) as [[a bs]|] eqn:Hk; [|by iApply ("IH" with "[//] [//] [//] [//] HH HL HΦ")].
    iDestruct (small_heap_ok with "HH") as %(m & HA & _).
    destruct (in_use_at m A live k (a, bs) HA Hs Hok Hk) as (r & U & j & Hr & Hj & E & Ha). cbn [fst snd] in *.
    pose proof (shape_delete k (a, bs) live Hk) as Hsh. cbn [fst snd] in Hsh.
    iEval (rewrite {1}(delete_Permutation live k (a, bs) Hk) big_sepL_cons) in "HL".
    iDestruct "HL" as "[(%pad & %Hpad & Hb) HL]". cbn [fst snd] in *. subst a.
    wp_bind. iApply (sys_free_wp with "HH Hb"); [done..|]. iIntros (c' [He' _]) "HH". wp_reduce.
    iApply ("IH" with "[//] [%] [%] [%] HH HL HΦ").
    + eapply client_ok_give; [done|exact HA| |done|done]. by eapply client_ok_perm.
    + rewrite Hsh in Hsz. by apply Forall_cons in Hsz as [_ ?].
    + by rewrite He'.
Qed.

(** What the invariant says of the blocks that are held. *)
Lemma clients_apart A live :
  client_ok A (shape live) → Forall (λ x, 0 <= x.2 <= 1024) (shape live) →
  small_heap A -∗
  ⌜(∀ k k' x x', shape live !! k = Some x → shape live !! k' = Some x' → k ≠ k' →
       (x.1 + x.2)%Z <= x'.1 ∨ (x'.1 + x'.2)%Z <= x.1) ∧
   (live = [] → A = ∅)⌝.
Proof.
  iIntros (Hok Hsz) "HH". iDestruct (small_heap_ok with "HH") as %(m & HA & Hs). iPureIntro.
  split; [intros k k' x x'; by eapply client_ok_apart|]. intros ->.
  destruct Hok as (_ & _ & Hall & Hne). apply map_empty. intros r.
  destruct (A !! r) as [[i U]|] eqn:Hr; [|done]. specialize (Hne _ _ Hr). cbn [ar_used] in Hne.
  apply set_choose_L in Hne as [j Hj]. specialize (Hall _ _ _ _ Hr Hj). by apply elem_of_nil in Hall.
Qed.

(** C5: The kernel's heap is safe for its clients.  Whatever sequence of requests,
    writes and releases, whether memory is short or not, every call returns; no
    assertion fails; each block that is held keeps the bytes its holder last
    wrote, and starts out cleared; blocks do not overlap; and when all are given
    back no page is left in use. *)
Theorem small_heap_safe cs live A c :
  Forall heap_call_ok cs → client_ok A (shape live) → Forall (λ x, 0 <= x.2 <= 1024) (shape live) →
  Z.land (esp c) 0xfffff000 = curr →
  {{ small_heap A ∗ [∗ list] x ∈ live, held x }} (run_heap cs live) @ c
  {{ live' c', ∃ A',
       ⌜(∀ k k' x x', shape live' !! k = Some x → shape live' !! k' = Some x' → k ≠ k' →
           (x.1 + x.2)%Z <= x'.1 ∨ (x'.1 + x'.2)%Z <= x.1) ∧
        (live' = [] → A' = ∅)⌝ ∗
       small_heap A' ∗ [∗ list] x ∈ live', held x }}.
Proof.
  intros Hcs Hok Hsz He. apply triple_wp. iIntros "[HH HL]".
  iApply (run_heap_wp with "HH HL"); [done..|]. 
  iIntros (live' A' c' [Hok' Hsz']) "HH HL". iDestruct (clients_apart with "HH") as %Hsafe; [done..|].
  cbn [returns]. iExists A'. by iFrame.
Qed.

End heap.

(** ** Example: three blocks in two arenas of an empty heap of eight pages *)

#[local] Existing Instance link_map.
#[local] Existing Instance demo_frames.

Lemma raw_pages_models start k n bs :
  length bs = (4096 * n)%nat →
  (start + 4096 * k) ↦∗ bs ⊢ [∗ list] r ∈ seqZ k (Z.of_nat n), raw_page (page start r).
Proof.
  revert k bs. induction n as [|n IH]; intros k bs Hl; [by iIntros "_"|].
  rewrite seqZ_cons; [|lia]. replace (Z.pred (Z.of_nat (S n))) with (Z.of_nat n) by lia.
  rewrite -{1}(take_drop 4096 bs) bytes_app big_sepL_cons.
  rewrite length_take Nat.min_l; [|lia]. iIntros "[H1 H2]". iSplitL "H1".
  - iExists (take 4096 bs). iSplit; [iPureIntro; rewrite length_take; lia|]. iExact "H1".
  - iApply (IH _ (drop 4096 bs)); [rewrite length_drop; lia|].
    by replace (start + 4096 * Z.succ k) with (start + 4096 * k + Z.of_nat 4096) by lia.
Qed.

Definition demo_calls : list heap_call :=
  [Malloc 100; Malloc 100; Malloc 500; Fill 1 5; Release 0; Malloc 7; Release 2].

Definition demo_blocks (junk : list Z) : list (Z * list Z) :=
  Pages.demo_heap ++ tcb_cells thread_a ++ lock_cells (pool_lock g_kernel_pool) 0 1 0 [] ++
  desc_cells g_k_mem_block_descs ++ [(0xc0100000, junk)].

Lemma demo_blocks_models junk :
  length junk = (4096 * 8)%nat →
  cells (demo_blocks junk) ⊢
  small_heap 0xc0100000 0xc009a100 1 0x200000 0xc009a000 0x208000 0 {[768 := 0x101007]} 8 8 ∅
    0xc009e000 thread_a.2 ∅.
Proof.
  intros Hj. unfold demo_blocks. do 4 rewrite cells_app. rewrite demo_heap_models.
  rewrite tcb_cells_models; [|vm_compute; reflexivity].
  rewrite lock_cells_models; [|vm_compute; reflexivity]. rewrite desc_cells_models; [|done|done].
  rewrite cells_cons. iIntros "(HK & HT & HL & HD & Hp & _)".
  iExists ∅, (λ _, []). iSplitR "HT HL"; [|iSplitL "HT"; [iExact "HT"|iExact "HL"]].
  iSplitR.
  { iPureIntro. split; [split_and!|].
    - intros r a Ha. by rewrite lookup_empty in Ha.
    - intros r. rewrite !lookup_empty. split; [by intros [? ?]|by intros [[? ?]|?%elem_of_empty]].
    - intros r. by intros ?%elem_of_empty.
    - intros i b _. split; [by intros ?%elem_of_nil|]. intros (r & U & j & Hr & _). by rewrite lookup_empty in Hr. }
  iSplitL "HK"; [iExact "HK"|]. iSplitL "Hp"; [|iSplitL "HD"; [iExact "HD"|by rewrite big_sepM_empty]].
  iDestruct (raw_pages_models 0xc0100000 0 8 with "Hp") as "H"; [exact Hj|].
  unfold spare. iApply (big_sepL_mono with "H"). done.
Qed.

Definition demo_junk : list Z := replicate (4096 * 8) 7.

Lemma demo_blocks_ok : regions_ok (demo_blocks demo_junk).
Proof. vm_compute. reflexivity. Qed.

Lemma demo_curr : 0 < 0xc009e000 < 2 ^ 32.
Proof. lia. Qed.

Lemma demo_descs : 0 < g_k_mem_block_descs ∧ g_k_mem_block_descs + 168 <= 2 ^ 32.
Proof. split; vm_compute; congruence. Qed.

Lemma demo_calls_ok : Forall heap_call_ok demo_calls.
Proof. unfold demo_calls. repeat (apply Forall_cons; split); simpl; first [lia|constructor]. Qed.

Lemma small_heap_safe_witness :
  ∃ r h', exec (run_heap demo_calls []) cpu_a (mem_of (demo_blocks demo_junk)) r h' ∧
    h' ⊨ (returns (λ live _, ∃ A : gmap Z arena, ⌜live = [] → A = ∅⌝ ∗ [∗ list] x ∈ live, held x)%I r).
Proof.
  edestruct (triple_run _ _ _ _ (mem_of (demo_blocks demo_junk))
    (small_heap_safe 0xc0100000 0xc009a100 1 0x200000 0xc009a000 0x208000 0 {[768 := 0x101007]} 8 8 ∅
       0xc009e000 thread_a.2 demo_curr eq_refl demo_descs demo_calls [] ∅ cpu_a
       demo_calls_ok (client_ok_nil _) (Forall_nil_2 _) eq_refl)) as (r & h' & Hx & Hq).
  - eapply models_mono; [|apply mem_of_models, demo_blocks_ok].
    rewrite demo_blocks_models; [|apply length_replicate]. iIntros "H". iFrame "H". done.
  - exists r, h'. split; [exact Hx|]. eapply models_mono; [|apply Hq].
    destruct r; cbn [returns]; [|by iIntros "[]"..].
    iIntros "(%A & [_ %HA] & _ & H)". iExists A. by iFrame.
Defined.
