(* ===== verification/Boot.v ===== *)
(** From power-on to a heap: the page tables boot/loader.asm builds before it
    turns paging on, and [mem_init] of kernel/memory.c with the allocator that
    starts from what it leaves. *)
From S2P Require Export Blocks.

(** ** boot/boot.inc, boot/loader.asm *)

Definition PAGE_P : Z := 1.
Definition PAGE_RW_ONE : Z := 2.
Definition PAGE_US_ONE : Z := 4.
Definition PAGE_DIR_TABLE : Z := 0x100000.

(** The attributes of every entry the loader makes. *)
Definition page_attr : Z := Z.lor (Z.lor PAGE_P PAGE_RW_ONE) PAGE_US_ONE.

(** Paging is still off: the addresses are physical. *)
Definition init_dir_table : M unit := for_ 0 4096 (λ esi, st8 (PAGE_DIR_TABLE + esi) 0).

Definition set_pde : M unit :=
  let eax := Z.lor (PAGE_DIR_TABLE + 0x1000) page_attr in
  st32 PAGE_DIR_TABLE eax ;;
  st32 (PAGE_DIR_TABLE + 4 * 768) eax ;;
  st32 (PAGE_DIR_TABLE + 4092) (eax - 0x1000).

Definition set_pte : M unit :=
  for_ 0 256 (λ esi, st32 (PAGE_DIR_TABLE + 0x1000 + 4 * esi) (Z.lor 0 page_attr + 0x1000 * esi)).

Definition set_other_pde : M unit :=
  for_ 769 (769 + 254) (λ esi,
    st32 (PAGE_DIR_TABLE + 4 * esi) (Z.lor (PAGE_DIR_TABLE + 0x2000) page_attr + 0x1000 * (esi - 769))).

Definition set_page : M unit := init_dir_table ;; set_pde ;; set_pte ;; set_other_pde.

(** *** Arrays of words by index *)

Section tables.
Implicit Types (c : cpu) (g : Z → Z).

Definition table (a : Z) (n : nat) g : hPropI := words a (g <$> seqZ 0 (Z.of_nat n)).

Lemma table_ext a n g g' :
  (∀ i, 0 <= i < Z.of_nat n → g i = g' i) → table a n g ⊢ table a n g'.
Proof.
  intros Hg. unfold table. erewrite list_fmap_ext; [done|].
  intros i x [-> Hx]%lookup_seqZ. apply Hg. lia.
Qed.

Lemma seqZ_insert n g i v :
  0 <= i < Z.of_nat n →
  <[Z.to_nat i := v]> (g <$> seqZ 0 (Z.of_nat n)) = (λ j, if j =? i then v else g j) <$> seqZ 0 (Z.of_nat n).
Proof.
  intros Hi. apply list_eq. intros k. rewrite list_lookup_insert length_fmap length_seqZ 2!list_lookup_fmap.
  destruct (decide (k < n)%nat) as [Hk|Hk].
  - rewrite lookup_seqZ_lt /=; [|lia]. rewrite Z.add_0_l.
    destruct (Z.eqb_spec (Z.of_nat k) i) as [E|E]; case_decide; first [done|lia].
  - rewrite lookup_seqZ_ge; [|lia]. rewrite decide_False //. lia.
Qed.

Lemma table_acc a n g i :
  0 <= i < Z.of_nat n →
  table a n g -∗ (a + 4 * i) ↦w g i ∗
    (∀ v, (a + 4 * i) ↦w v -∗ table a n (λ j, if j =? i then v else g j)).
Proof.
  iIntros (Hi) "H". unfold table.
  assert ((g <$> seqZ 0 (Z.of_nat n)) !! Z.to_nat i = Some (g i)) as Hl.
  { rewrite list_lookup_fmap lookup_seqZ_lt; [|lia]. by rewrite /= Z.add_0_l Z2Nat.id; [|lia]. }
  iDestruct (words_acc with "H") as "[H HW]"; [exact Hl|]. rewrite Z2Nat.id; [|lia]. iFrame "H".
  iIntros (v) "H". iDestruct ("HW" with "H") as "H". by rewrite seqZ_insert.
Qed.

Lemma table_store_wp a n g i v w a' c (Φ : res unit → hPropI) :
  a' = a + 4 * i → 0 <= i < Z.of_nat n → w32 v = w →
  table a n g -∗ (table a n (λ j, if j =? i then w else g j) -∗ Φ (RRet tt c)) -∗ wp (st32 a' v) c Φ.
Proof.
  iIntros (-> Hi <-) "HT HΦ". iDestruct (table_acc with "HT") as "[H HT]"; [exact Hi|].
  iApply (wp_st32 with "H"); [done|]. iIntros "H". iApply "HΦ". by iApply "HT".
Qed.

(** A loop that fills the entries from [i0] up to [i1]. *)
Lemma table_fill_wp a n g f i0 i1 (body : Z → M unit) c (Φ : res unit → hPropI) :
  0 <= i0 → i0 <= i1 <= Z.of_nat n →
  (∀ i, i0 <= i < i1 → ∃ v, body i = st32 (a + 4 * i) v ∧ w32 v = f i) →
  table a n g -∗
  (table a n (λ j, if (i0 <=? j) && (j <? i1) then f j else g j) -∗ Φ (RRet tt c)) -∗
  wp (for_ i0 i1 body) c Φ.
Proof.
  iIntros (Hx0 Hx1 Hb) "HT HΦ".
  iApply (wp_for (λ i, table a n (λ j, if (i0 <=? j) && (j <? i) then f j else g j)) with "[HT]"); [lia| | |done].
  - intros i Hi. destruct (Hb i Hi) as (v & -> & Ev). iIntros "HT".
    iApply (table_store_wp with "HT"); [done|lia|exact Ev|]. iIntros "HT". iSplit; [done|].
    iApply (table_ext with "HT"). intros j Hj.
    destruct (Z.eqb_spec j i), (Z.leb_spec i0 j), (Z.ltb_spec j i), (Z.ltb_spec j (i + 1)); simpl; first [by subst|done|lia].
  - iApply (table_ext with "HT"). intros j Hj.
    destruct (Z.leb_spec i0 j), (Z.ltb_spec j i0); simpl; first [done|lia].
Qed.

Lemma init_dir_table_wp junk c (Φ : res unit → hPropI) :
  length junk = 4096%nat →
  PAGE_DIR_TABLE ↦∗ junk -∗ (table PAGE_DIR_TABLE 1024 (λ _, 0) -∗ Φ (RRet tt c)) -∗
  wp init_dir_table c Φ.
Proof.
  iIntros (Hl) "HB HΦ". rewrite /init_dir_table.
  iApply (wp_for (λ i, PAGE_DIR_TABLE ↦∗ (replicate (Z.to_nat i) 0 ++ drop (Z.to_nat i) junk))%I with "[HB]");
    [lia| |done|].
  - intros i Hi. iIntros "HB". destruct (lookup_lt_is_Some_2 junk (Z.to_nat i)) as [x Hx]; [lia|].
    rewrite (drop_S _ _ _ Hx).
    iDestruct (bytes_acc _ _ (Z.to_nat i) x with "HB") as "[Hb HB]".
    { by rewrite list_lookup_middle // length_replicate. }
    iApply (wp_st8 with "Hb"); [lia|]. iIntros "Hb". iSplit; [done|].
    iSpecialize ("HB" with "Hb"). rewrite insert_app_r_alt length_replicate // Nat.sub_diag.
    replace (Z.to_nat (i + 1)) with (S (Z.to_nat i)) by lia. rewrite replicate_S_end -app_assoc. done.
  - change (Z.to_nat 4096) with (4 * 1024)%nat. rewrite drop_ge; [|lia]. rewrite app_nil_r.
    iIntros "HB". iApply "HΦ". unfold table.
    replace ((λ _, 0) <$> seqZ 0 (Z.of_nat 1024)) with (replicate 1024 0) by reflexivity.
    rewrite words_bytes; [|by apply Forall_replicate]. iExact "HB".
Qed.

(** *** What [set_page] leaves *)

(** The directory: the first table for the first 4 MB and for 3 GB, a table each
    for the rest of the kernel's space, the directory itself at the end. *)
Definition dir_entry (j : Z) : Z :=
  if (j =? 0) || (j =? 768) then 0x101007
  else if j =? 1023 then 0x100007
  else if (769 <=? j) && (j <? 1023) then 0x102007 + 0x1000 * (j - 769)
  else 0.

(** The first table: the first megabyte; the other entries are as they were. *)
Definition table_entry (old : Z → Z) (j : Z) : Z := if j <? 256 then 0x1000 * j + 7 else old j.

Lemma set_page_wp junk old c (Φ : res unit → hPropI) :
  length junk = 4096%nat →
  PAGE_DIR_TABLE ↦∗ junk -∗ table (PAGE_DIR_TABLE + 0x1000) 1024 old -∗
  (table PAGE_DIR_TABLE 1024 dir_entry -∗ table (PAGE_DIR_TABLE + 0x1000) 1024 (table_entry old) -∗
     Φ (RRet tt c)) -∗
  wp set_page c Φ.
Proof.
  iIntros (Hl) "HD HT HΦ". rewrite /set_page.
  wp_bind. iApply (init_dir_table_wp with "HD"); [done|]. iIntros "HD". wp_reduce. rewrite /set_pde.
  wp_bind. wp_bind. iApply (table_store_wp _ _ _ 0 _ 0x101007 with "HD"); [done|lia|done|]. iIntros "HD". wp_reduce.
  wp_bind. iApply (table_store_wp _ _ _ 768 _ 0x101007 with "HD"); [done|lia|done|]. iIntros "HD". wp_reduce.
  iApply (table_store_wp _ _ _ 1023 _ 0x100007 with "HD"); [done|lia|done|]. iIntros "HD". wp_reduce.
  wp_bind. iApply (table_fill_wp _ _ _ (λ j, 0x1000 * j + 7) with "HT"); [lia|lia| |].
  { intros i Hi. exists (Z.lor 0 page_attr + 0x1000 * i). split; [done|].
    change (Z.lor 0 page_attr) with 7. rewrite w32_small; lia. }
  iIntros "HT". wp_reduce.
  iApply (table_fill_wp _ _ _ (λ j, 0x102007 + 0x1000 * (j - 769)) with "HD"); [lia|lia| |].
  { intros i Hi. exists (Z.lor (PAGE_DIR_TABLE + 0x2000) page_attr + 0x1000 * (i - 769)). split; [done|].
    change (Z.lor (PAGE_DIR_TABLE + 0x2000) page_attr) with 0x102007. rewrite w32_small; lia. }
  iIntros "HD". iApply ("HΦ" with "[HD] [HT]").
  - iApply (table_ext with "HD"). intros j Hj. unfold dir_entry. change (769 + 254) with 1023.
    destruct (Z.leb_spec 769 j), (Z.ltb_spec j 1023), (Z.eqb_spec j 0), (Z.eqb_spec j 768), (Z.eqb_spec j 1023);
      simpl; first [done|lia].
  - iApply (table_ext with "HT"). intros j Hj. unfold table_entry.
    destruct (Z.leb_spec 0 j), (Z.ltb_spec j 256); simpl; first [done|lia].
Qed.

Lemma models_table h a n g (R : hPropI) i :
  0 <= i < Z.of_nat n → h ⊨ (table a n g ∗ R) → mem_word h (a + 4 * i) = Some (g i).
Proof.
  intros Hi Hh. assert (h ⊨ ((a + 4 * i) ↦w g i ∗ emp)) as Hw.
  { eapply models_mono; [|apply Hh]. iIntros "[H _]". by iDestruct (table_acc with "H") as "[$ _]". }
  apply models_pt32 in Hw as [Hr Hb]. pose proof (Hb 0 ltac:(lia)) as H0. rewrite Z.add_0_r in H0.
  unfold mem_word. rewrite H0 !Hb //=. by rewrite bytes_of_word.
Qed.

Lemma boot_directory h R j :
  h ⊨ (table PAGE_DIR_TABLE 1024 dir_entry ∗ R) → 0 <= j < 1024 →
  walk_entry h PAGE_DIR_TABLE j = if present (dir_entry j) then Some (dir_entry j) else None.
Proof.
  intros Hh Hj. unfold walk_entry. change (frame_of PAGE_DIR_TABLE) with PAGE_DIR_TABLE.
  by rewrite (models_table h _ 1024 dir_entry R).
Qed.

Lemma boot_first_table h R old j v k :
  h ⊨ (table (PAGE_DIR_TABLE + 0x1000) 1024 (table_entry old) ∗
       table PAGE_DIR_TABLE 1024 dir_entry ∗ R) →
  j = 0 ∨ j = 768 → 0 <= k < 1024 → v = j * 2 ^ 22 + k * 2 ^ 12 + v mod 2 ^ 12 →
  translate h PAGE_DIR_TABLE v =
    if present (table_entry old k) then Some (frame_of (table_entry old k) + v mod 2 ^ 12) else None.
Proof.
  intros Hh Hj Hk Ev. unfold translate.
  assert (0 <= v mod 2 ^ 12 < 2 ^ 12) as Hm by (apply Z.mod_pos_bound; lia).
  replace (v / 2 ^ 22) with j by (Z.div_mod_to_equations; lia).
  replace ((v / 2 ^ 12) mod 2 ^ 10) with k by (Z.div_mod_to_equations; lia).
  rewrite (boot_directory h (table (PAGE_DIR_TABLE + 0x1000) 1024 (table_entry old) ∗ R));
    [|eapply models_mono; [|exact Hh]; iIntros "(H1 & H2 & HR)"; iSplitL "H2"; [iExact "H2"|iSplitL "H1"; [iExact "H1"|iExact "HR"]]
     |destruct Hj; lia].
  assert (dir_entry j = 0x101007) as -> by (destruct Hj as [->| ->]; reflexivity).
  change (present 0x101007) with true. cbn [mbind option_bind]. unfold walk_entry.
  change (frame_of 0x101007) with (PAGE_DIR_TABLE + 0x1000).
  rewrite (models_table h (PAGE_DIR_TABLE + 0x1000) 1024 (table_entry old) _ k Hk Hh).
  cbn [mbind option_bind]. by destruct (present (table_entry old k)).
Qed.

Lemma dir_entry_kernel j : 768 <= j < 1023 → dir_entry j = 0x101007 + 0x1000 * (j - 768).
Proof.
  intros Hj. unfold dir_entry.
  destruct (Z.eqb_spec j 0), (Z.eqb_spec j 768), (Z.eqb_spec j 1023), (Z.leb_spec 769 j), (Z.ltb_spec j 1023);
    simpl; lia.
Qed.

Lemma kernel_entry k : present (0x101007 + 0x1000 * k) = true ∧ frame_of (0x101007 + 0x1000 * k) = 0x101000 + 0x1000 * k.
Proof.
  split.
  - unfold present. rewrite Z.testbit_odd Z.shiftr_0_r.
    replace (0x101007 + 0x1000 * k) with (1 + 2 * (0x80803 + 0x800 * k)) by lia. by rewrite Z.odd_add_mul_2.
  - unfold frame_of. Z.div_mod_to_equations. lia.
Qed.

Section booted.
Context (h : memory) (old : Z → Z) (R : hPropI).
Hypothesis Hh : h ⊨ (table (PAGE_DIR_TABLE + 0x1000) 1024 (table_entry old) ∗
                     table PAGE_DIR_TABLE 1024 dir_entry ∗ R).

Lemma booted_directory j :
  0 <= j < 1024 →
  walk_entry h PAGE_DIR_TABLE j = if present (dir_entry j) then Some (dir_entry j) else None.
Proof.
  apply (boot_directory h (table (PAGE_DIR_TABLE + 0x1000) 1024 (table_entry old) ∗ R)).
  eapply models_mono; [|exact Hh]. iIntros "(H1 & H2 & HR)".
  iSplitL "H2"; [iExact "H2"|iSplitL "H1"; [iExact "H1"|iExact "HR"]].
Qed.

Lemma booted_self : self_mapped h PAGE_DIR_TABLE.
Proof. exists 0x100007. rewrite booted_directory; [|lia]. split; vm_compute; reflexivity. Qed.

Lemma booted_low v :
  0 <= v < 2 ^ 20 →
  translate h PAGE_DIR_TABLE v = Some v ∧ translate h PAGE_DIR_TABLE (0xc0000000 + v) = Some v.
Proof.
  intros Hv. assert (0 <= v / 2 ^ 12 < 256) as Hk by (Z.div_mod_to_equations; lia).
  assert (v = v / 2 ^ 12 * 2 ^ 12 + v mod 2 ^ 12) as Ev by (Z.div_mod_to_equations; lia).
  assert ((0xc0000000 + v) mod 2 ^ 12 = v mod 2 ^ 12) as Em by (Z.div_mod_to_equations; lia).
  assert (table_entry old (v / 2 ^ 12) = 7 + 0x1000 * (v / 2 ^ 12)) as Et.
  { unfold table_entry. rewrite (proj2 (Z.ltb_lt _ 256)); lia. }
  assert (present (7 + 0x1000 * (v / 2 ^ 12)) = true) as Hp.
  { unfold present. rewrite Z.testbit_odd Z.shiftr_0_r.
    replace (7 + 0x1000 * (v / 2 ^ 12)) with (1 + 2 * (3 + 0x800 * (v / 2 ^ 12))) by lia.
    by rewrite Z.odd_add_mul_2. }
  assert (frame_of (7 + 0x1000 * (v / 2 ^ 12)) = 0x1000 * (v / 2 ^ 12)) as Hf.
  { unfold frame_of. Z.div_mod_to_equations. lia. }
  split.
  - rewrite (boot_first_table h R old 0 v (v / 2 ^ 12) Hh); [|by left|lia|lia].
    rewrite Et Hp Hf. f_equal. lia.
  - rewrite (boot_first_table h R old 768 (0xc0000000 + v) (v / 2 ^ 12) Hh); [|by right|lia|lia].
    rewrite Et Hp Hf Em. f_equal. lia.
Qed.

Lemma booted_heap v :
  0xc0100000 <= v < 0xc0400000 →
  let e := old ((v - 0xc0000000) / 4096) in
  translate h PAGE_DIR_TABLE v = if present e then Some (frame_of e + v mod 2 ^ 12) else None.
Proof.
  intros Hv e. rewrite (boot_first_table h R old 768 v ((v - 0xc0000000) / 4096) Hh);
    [|by right|Z.div_mod_to_equations; lia|Z.div_mod_to_equations; lia].
  unfold table_entry. rewrite (proj2 (Z.ltb_ge _ 256)); [done|]. Z.div_mod_to_equations. lia.
Qed.

Lemma booted_user v : 0x400000 <= v < 0xc0000000 → translate h PAGE_DIR_TABLE v = None.
Proof.
  intros Hv. assert (1 <= v / 2 ^ 22 < 768) as Hj by (Z.div_mod_to_equations; lia).
  unfold translate. rewrite booted_directory; [|lia].
  assert (dir_entry (v / 2 ^ 22) = 0) as ->; [|reflexivity]. unfold dir_entry.
  destruct (Z.eqb_spec (v / 2 ^ 22) 0), (Z.eqb_spec (v / 2 ^ 22) 768), (Z.eqb_spec (v / 2 ^ 22) 1023),
    (Z.leb_spec 769 (v / 2 ^ 22)); simpl; lia.
Qed.

Lemma booted_pde v :
  0 <= v < 2 ^ 32 → translate h PAGE_DIR_TABLE (pde_addr v) = Some (PAGE_DIR_TABLE + 4 * (v / 2 ^ 22)).
Proof.
  intros Hv. pose proof (translate_pde h PAGE_DIR_TABLE v 0 booted_self Hv) as E.
  rewrite !Z.add_0_r in E. by apply E.
Qed.

Lemma booted_pte v :
  0xc0000000 <= v < 0xffc00000 →
  translate h PAGE_DIR_TABLE (pte_addr v) =
    Some (PAGE_DIR_TABLE + 0x1000 * (v / 2 ^ 22 - 767) + 4 * ((v / 2 ^ 12) mod 2 ^ 10)).
Proof.
  intros Hv. assert (768 <= v / 2 ^ 22 < 1023) as Hj by (Z.div_mod_to_equations; lia).
  pose proof (translate_pte h PAGE_DIR_TABLE v 0 booted_self) as E. rewrite !Z.add_0_r in E.
  rewrite E; [|lia|lia]. rewrite booted_directory; [|lia]. rewrite dir_entry_kernel //.
  destruct (kernel_entry (v / 2 ^ 22 - 768)) as [-> Hf]. cbn [mbind option_bind]. rewrite Hf.
  f_equal. unfold PAGE_DIR_TABLE. lia.
Qed.
End booted.

(** C11: The page tables the loader builds before it turns paging on.  The first
    megabyte is mapped at its own addresses and from 3 GB on; the last entry of the
    directory shows the tables, each where the kernel looks for it; user space is
    empty.  The heap's part of the first table is what memory held before. *)
Theorem set_page_translates junk old c h R :
  length junk = 4096%nat →
  h ⊨ (PAGE_DIR_TABLE ↦∗ junk ∗ table (PAGE_DIR_TABLE + 0x1000) 1024 old ∗ R) →
  ∃ h', exec set_page c h (RRet tt c) h' ∧ h' ⊨ R ∧
    self_mapped h' PAGE_DIR_TABLE ∧
    (∀ v, 0 <= v < 2 ^ 20 →
       translate h' PAGE_DIR_TABLE v = Some v ∧ translate h' PAGE_DIR_TABLE (0xc0000000 + v) = Some v) ∧
    (∀ v, 0xc0100000 <= v < 0xc0400000 →
       let e := old ((v - 0xc0000000) / 4096) in
       translate h' PAGE_DIR_TABLE v = if present e then Some (frame_of e + v mod 2 ^ 12) else None) ∧
    (∀ v, 0x400000 <= v < 0xc0000000 → translate h' PAGE_DIR_TABLE v = None) ∧
    (∀ v, 0 <= v < 2 ^ 32 →
       translate h' PAGE_DIR_TABLE (pde_addr v) = Some (PAGE_DIR_TABLE + 4 * (v / 2 ^ 22))) ∧
    (∀ v, 0xc0000000 <= v < 0xffc00000 →
       translate h' PAGE_DIR_TABLE (pte_addr v) =
         Some (PAGE_DIR_TABLE + 0x1000 * (v / 2 ^ 22 - 767) + 4 * ((v / 2 ^ 12) mod 2 ^ 10))).
Proof.
  intros Hl Hh.
  destruct (wp_sound set_page c (returns (λ _ c', ⌜c' = c⌝ ∗ table (PAGE_DIR_TABLE + 0x1000) 1024 (table_entry old) ∗
    table PAGE_DIR_TABLE 1024 dir_entry ∗ R))%I
    (PAGE_DIR_TABLE ↦∗ junk ∗ table (PAGE_DIR_TABLE + 0x1000) 1024 old ∗ R)%I h) as (r & h' & Hx & Hq); [|exact Hh|].
  { iIntros "(HD & HT & HR)". iApply (set_page_wp with "HD HT"); [done|]. iIntros "HD HT".
    iSplit; [done|]. iSplitL "HT"; [iExact "HT"|]. iSplitL "HD"; [iExact "HD"|iExact "HR"]. }
  destruct r as [[] c'|c'|c'|a c']; cbn [returns] in Hq; [|done..].
  assert (h' ⊨ (⌜c' = c⌝ : hPropI)) as Hc by (eapply models_mono; [|exact Hq]; by iIntros "[H _]").
  assert (c' = c) as -> by exact Hc. clear Hc.
  assert (h' ⊨ (table (PAGE_DIR_TABLE + 0x1000) 1024 (table_entry old) ∗ table PAGE_DIR_TABLE 1024 dir_entry ∗ R)) as Hq'.
  { eapply models_mono; [|exact Hq]. by iIntros "[_ H]". }
  exists h'. split_and!; [exact Hx| | | | | | |].
  - eapply models_mono; [|exact Hq']. by iIntros "(_ & _ & H)".
  - by eapply booted_self.
  - intros v. by eapply booted_low.
  - intros v. by eapply booted_heap.
  - intros v. by eapply booted_user.
  - intros v. by eapply booted_pde.
  - intros v. by eapply booted_pte.
Qed.

End tables.

(** ** [mem_init] *)

Section pools.
Context `{Symbols, Frames}.
Implicit Types (c : cpu).

(** The frames above the first 2 MB, shared between kernel and users, and the
    bytes of the map of each. *)
Definition kernel_frames (all : Z) : Z := (all - 0x200000) / 4096 / 2.
Definition user_frames (all : Z) : Z := (all - 0x200000) / 4096 - kernel_frames all.
Definition kernel_map (all : Z) : Z := kernel_frames all / 8.
Definition user_map (all : Z) : Z := user_frames all / 8.
Definition user_start (all : Z) : Z := 0x200000 + 4096 * kernel_frames all.

(** A machine with as many frames as [mem_pool_init]'s 16-bit counters take. *)
Definition memory_fits (all : Z) : Prop := 0x200000 <= all < 0x200000 + 4096 * 0x1ffff.

Lemma frames_bounds all :
  memory_fits all →
  0 <= kernel_frames all < 2 ^ 16 ∧ 0 <= user_frames all < 2 ^ 16 ∧
  kernel_frames all <= user_frames all ∧
  0x200000 + 4096 * (kernel_frames all + user_frames all) <= all.
Proof. unfold memory_fits, user_frames, kernel_frames. intros Hfit. Z.div_mod_to_equations. lia. Qed.

Lemma maps_bounds all :
  memory_fits all →
  0 <= kernel_map all ∧ 0 <= user_map all ∧ 8 * kernel_map all <= kernel_frames all ∧
  8 * user_map all <= user_frames all.
Proof. intros Hm%frames_bounds. unfold kernel_map, user_map. Z.div_mod_to_equations. lia. Qed.

(** The maps stay below the control block of the main thread on machines of up to
    343 MB, and reach it on larger ones. *)
Lemma maps_below_thread all :
  0x200000 <= all < 0x200000 + 4096 * 87392 →
  KERNEL_BITMAP_START + 2 * kernel_map all + user_map all <= 0xc009e000.
Proof.
  unfold KERNEL_BITMAP_START, kernel_map, user_map, user_frames, kernel_frames. intros Hm.
  Z.div_mod_to_equations. lia.
Qed.

Lemma maps_reach_thread all :
  memory_fits all → 0x200000 + 4096 * 87392 <= all →
  0xc009e000 < KERNEL_BITMAP_START + 2 * kernel_map all + user_map all.
Proof.
  unfold memory_fits, KERNEL_BITMAP_START, kernel_map, user_map, user_frames, kernel_frames. intros Hm.
  Z.div_mod_to_equations. lia.
Qed.

(** Global structures before they are initialised. *)
Definition raw_lock (l : Z) : hPropI :=
  (lock_holder l ↦w - ∗ sem_value (lock_sem l) ↦ - ∗
   list_elem_prev (list_head (sem_waiter (lock_sem l))) ↦w - ∗
   list_elem_next (list_head (sem_waiter (lock_sem l))) ↦w - ∗
   list_elem_prev (list_tail (sem_waiter (lock_sem l))) ↦w - ∗
   list_elem_next (list_tail (sem_waiter (lock_sem l))) ↦w - ∗
   lock_holder_repeat_num l ↦w -)%I.

Definition raw_pool (p : Z) : hPropI :=
  (bitmap_len_of (pool_bitmap p) ↦w - ∗ bitmap_bits_of (pool_bitmap p) ↦w - ∗
   pool_phy_start_addr p ↦w - ∗ pool_mem_size p ↦w - ∗ raw_lock (pool_lock p))%I.

Definition raw_vaddr (v : Z) : hPropI :=
  (bitmap_len_of (vaddr_bitmap v) ↦w - ∗ bitmap_bits_of (vaddr_bitmap v) ↦w - ∗ vaddr_start v ↦w -)%I.

Definition raw_descs (set : Z) : hPropI :=
  ([∗ list] i ∈ seqZ 0 7, [∗ list] j ∈ [0; 1; 2; 3; 4; 5], (desc_at set i + 4 * j) ↦w -)%I.

Lemma lock_init_wp l c (Φ : res unit → hPropI) :
  0 <= l ∧ l + 28 <= 2 ^ 32 →
  raw_lock l -∗ (quiet_lock l 0 -∗ Φ (RRet tt c)) -∗ wp (lock_init l) c Φ.
Proof.
  iIntros (Hl) "([%h Hh] & [%b Hb] & [%h1 H1] & [%h2 H2] & [%t1 H3] & [%t2 H4] & [%n Hn]) HΦ".
  rewrite /lock_init. wp_bind.
  iApply (sem_init_wp with "Hb H1 H2 H3 H4"); [unfold sem_waiter, lock_sem; lia|]. iIntros "HS". wp_reduce.
  wp_st "Hh". wp_st "Hn". iApply "HΦ". rewrite /quiet_lock /is_lock. iFrame.
Qed.

Lemma block_des_init_wp set c (Φ : res unit → hPropI) :
  0 <= set ∧ set + 168 <= 2 ^ 32 →
  raw_descs set -∗ (is_descs set (λ _, []) -∗ Φ (RRet tt c)) -∗ wp (block_des_init set) c Φ.
Proof.
  iIntros ([Hs0 Hs1]) "H HΦ". rewrite /block_des_init. iApply wp_loop_start.
  iApply (block_des_init_step set 0 7 with "H"); [reflexivity|done|done|done|done|done].
Qed.

(** A pool of [n] frames or pages, none in use. *)
Definition free_map (n : Z) : list Z := replicate (Z.to_nat n) 0.

Definition fresh_pool (p start addr frames : Z) : hPropI :=
  (is_pool p start addr (free_map (frames / 8)) ∗ pool_mem_size p ↦w (4096 * frames) ∗
   quiet_lock (pool_lock p) 0)%I.

Definition pool_addr_ok (p : Z) : Prop := 0 <= p ∧ p + 44 <= 2 ^ 32.
Hypothesis Hkernel : pool_addr_ok g_kernel_pool.
Hypothesis Huser : pool_addr_ok g_user_pool.
Hypothesis Hdescs : 0 <= g_k_mem_block_descs ∧ g_k_mem_block_descs + 168 <= 2 ^ 32.

(** What [mem_pool_init] sets up for a machine of [all] bytes, from the area of
    the maps at [KERNEL_BITMAP_START]. *)
Definition pools_at (all : Z) : hPropI :=
  (fresh_pool g_kernel_pool 0x200000 KERNEL_BITMAP_START (kernel_frames all) ∗
   fresh_pool g_user_pool (user_start all) (KERNEL_BITMAP_START + kernel_map all) (user_frames all) ∗
   is_vpool g_kernel_vaddr KERNEL_HEAP_START (KERNEL_BITMAP_START + kernel_map all + user_map all)
     (free_map (kernel_map all)))%I.

Definition map_area (all : Z) (junk : list Z) : hPropI :=
  (⌜Z.of_nat (length junk) = (2 * kernel_map all + user_map all)%Z⌝ ∗ KERNEL_BITMAP_START ↦∗ junk)%I.

Lemma clear_map_wp b addr n js c (Φ : res unit → hPropI) :
  Z.of_nat (length js) = n → 0 <= n < 2 ^ 14 → addr ≠ 0 →
  bitmap_len_of b ↦w n -∗ bitmap_bits_of b ↦w addr -∗ addr ↦∗ js -∗
  (bitmap_len_of b ↦w n -∗ bitmap_bits_of b ↦w addr -∗ addr ↦∗ free_map n -∗ Φ (RRet tt c)) -∗
  wp (bitmap_init b) c Φ.
Proof.
  iIntros (<- Hn Ha) "Hl Hb Hj HΦ". iApply (bitmap_init_wp _ addr js with "[$Hl $Hb $Hj]"); [done| |].
  { iPureIntro. unfold bits_of. lia. }
  rewrite /is_bitmap length_replicate /free_map Nat2Z.id. iIntros "(_ & Hl & Hb & Hj)".
  iApply ("HΦ" with "Hl Hb Hj").
Qed.

Lemma mem_pool_init_wp all junk c (Φ : res unit → hPropI) :
  memory_fits all →
  raw_pool g_kernel_pool -∗ raw_pool g_user_pool -∗ raw_vaddr g_kernel_vaddr -∗ map_area all junk -∗
  (∀ c', ⌜esp c' = esp c⌝ -∗ pools_at all -∗ Φ (RRet tt c')) -∗ wp (mem_pool_init all) c Φ.
Proof.
  iIntros (Hm) "([%k1 K1] & [%k2 K2] & [%k3 K3] & [%k4 K4] & KL) ([%u1 U1] & [%u2 U2] & [%u3 U3] & [%u4 U4] & UL)
    ([%v1 V1] & [%v2 V2] & [%v3 V3]) [%Hl HA] HΦ".
  rewrite /mem_pool_init /putStr /putInt /putChar.
  pose proof (frames_bounds all Hm) as (Hk & Hu & Hku & Hall). pose proof (maps_bounds all Hm) as (Hk8 & Hu8 & Hkm & Hum).
  change (PAGE_SIZE * 256 + 0x00100000) with 0x200000. cbv zeta.
  unfold memory_fits in Hm. rewrite (w32_small (all - 0x200000)); [|lia].
  change PAGE_SIZE with 4096. fold (kernel_frames all). rewrite (w16_small (kernel_frames all)); [|lia].
  fold (user_frames all). rewrite (w16_small (user_frames all)); [|lia].
  rewrite (w32_small (0x200000 + _)); [|lia].
  wp_st "K3". wp_st "K4". wp_st "K1".
  wp_bind. iApply (lock_init_wp with "KL"); [unfold pool_lock, pool_addr_ok in *; lia|]. iIntros "KL". wp_reduce.
  wp_st "U3". wp_st "U4". wp_st "U1".
  wp_bind. iApply (lock_init_wp with "UL"); [unfold pool_lock, pool_addr_ok in *; lia|]. iIntros "UL". wp_reduce.
  wp_st "K2". wp_ld "K1". wp_st "U2".
  wp_pure. wp_bind. wp_ld "K2". wp_pure.
  wp_pure. wp_bind. wp_ld "K3". wp_pure. wp_pure. wp_pure. wp_bind. wp_ld "U2". wp_pure.
  wp_pure. wp_bind. wp_ld "U3". wp_pure. wp_pure.
  fold (kernel_map all) (user_map all).
  assert (junk = take (Z.to_nat (kernel_map all)) junk ++
    take (Z.to_nat (user_map all)) (drop (Z.to_nat (kernel_map all)) junk) ++
    drop (Z.to_nat (user_map all)) (drop (Z.to_nat (kernel_map all)) junk)) as Ej by (by rewrite !take_drop).
  set (j1 := take _ junk) in Ej. set (j2 := take _ (drop _ junk)) in Ej. set (j3 := drop _ (drop _ junk)) in Ej.
  assert (Z.of_nat (length j1) = kernel_map all) as L1 by (unfold j1; rewrite length_take; lia).
  assert (Z.of_nat (length j2) = user_map all) as L2 by (unfold j2; rewrite length_take length_drop; lia).
  assert (Z.of_nat (length j3) = kernel_map all) as L3 by (unfold j3; rewrite !length_drop; lia).
  clearbody j1 j2 j3. rewrite Ej !bytes_app L1 L2. iDestruct "HA" as "(A1 & A2 & A3)".
  unfold KERNEL_BITMAP_START in *.
  rewrite !w32_small; [|lia..].
  wp_bind. iApply (clear_map_wp _ _ _ j1 with "K1 K2 A1"); [done|lia|lia|]. iIntros "K1 K2 A1". wp_reduce.
  wp_bind. iApply (clear_map_wp _ _ _ j2 with "U1 U2 A2"); [done|lia|lia|]. iIntros "U1 U2 A2". wp_reduce.
  wp_ld "U2". wp_ld "U1". wp_st "V2". wp_ld "K1". wp_st "V1". wp_st "V3". rewrite !w32_small; [|unfold KERNEL_HEAP_START; lia|lia|lia].
  wp_bind. iApply (clear_map_wp _ _ _ j3 with "V1 V2 A3"); [done|lia|lia|]. iIntros "V1 V2 A3". wp_reduce.
  wp_pure. iApply "HΦ"; [done|]. rewrite /pools_at /fresh_pool /is_pool /is_vpool /is_bitmap /free_map.
  fold (kernel_map all) (user_map all). rewrite /bits_of !length_replicate !Z2Nat.id; [|lia..].
  unfold user_start. rewrite !(Z.mul_comm _ 4096). iFrame. iPureIntro.
  unfold pages_fit, bits_of, KERNEL_HEAP_START. rewrite !length_replicate !Z2Nat.id; [|lia..].
  split_and!; try lia; Z.div_mod_to_equations; lia.
Qed.

(** Everything [mem_init] writes, before it runs. *)
Definition boot_memory (all : Z) : hPropI :=
  (0xb00 ↦w all ∗ raw_pool g_kernel_pool ∗ raw_pool g_user_pool ∗ raw_vaddr g_kernel_vaddr ∗
   raw_descs g_k_mem_block_descs ∗ ∃ junk, map_area all junk)%I.

Lemma mem_init_wp all c (Φ : res unit → hPropI) :
  memory_fits all →
  boot_memory all -∗
  (∀ c', ⌜esp c' = esp c⌝ -∗ 0xb00 ↦w all -∗ pools_at all -∗ is_descs g_k_mem_block_descs (λ _, []) -∗
     Φ (RRet tt c')) -∗
  wp mem_init c Φ.
Proof.
  iIntros (Hm) "(Hall & HK & HU & HV & HD & %junk & HA) HΦ". rewrite /mem_init /putStr. wp_pure.
  wp_ld "Hall". wp_bind. iApply (mem_pool_init_wp with "HK HU HV HA"); [done|]. iIntros (c1 Hc1) "HP". wp_reduce.
  wp_bind. iApply (block_des_init_wp with "HD"); [done|]. iIntros "HD". wp_reduce. wp_pure.
  iApply ("HΦ" with "[%] Hall HP HD"). done.
Qed.

(** C31: [mem_init] turns raw memory into the kernel's and the users' pool, the
    kernel's pages and the block descriptors.  Everything is free, the locks are
    open, the frames of the two pools are apart, above the first 2 MB, and all in
    the memory the loader found. *)
Theorem mem_init_pools all c :
  memory_fits all →
  {{ boot_memory all }} mem_init @ c
  {{ r c', ⌜0x200000 + 4096 * (8 * kernel_map all) <= user_start all ∧
            user_start all + 4096 * (8 * user_map all) <= all⌝%Z ∗
           0xb00 ↦w all ∗ pools_at all ∗ is_descs g_k_mem_block_descs (λ _, []) }}.
Proof.
  intros Hm. apply triple_wp. iIntros "HB". iApply (mem_init_wp with "HB"); [done|].
  iIntros (c' _) "Hall HP HD". cbn [returns]. iFrame. iPureIntro.
  pose proof (frames_bounds all Hm). pose proof (maps_bounds all Hm). unfold user_start. lia.
Qed.
End pools.

(** ** The heap from power-on *)

Section boot_heap.
Context `{Symbols, Frames} (nx el curr : Z) (ds : gmap Z Z) (t : tcb).
Implicit Types (c : cpu) (A : gmap Z arena).

Hypothesis Hcurr : 0 < curr < 2 ^ 32.
Hypothesis Hkernel_thread : t_pgdir t = 0.
Hypothesis Hkernel : pool_addr_ok g_kernel_pool.
Hypothesis Huser : pool_addr_ok g_user_pool.
Hypothesis Hdescs : 0 < g_k_mem_block_descs ∧ g_k_mem_block_descs + 168 <= 2 ^ 32.

(** The pages of the heap. *)
Definition heap_pages (all : Z) : nat := Z.to_nat (8 * kernel_map all).

(** The page tables of the heap, none of its pages mapped, and the memory its
    pages will have; what lies behind the maps and behind the heap. *)
Definition heap_tables (all : Z) : hPropI :=
  (pdes ds ∗ ⌜covered ds KERNEL_HEAP_START (heap_pages all)⌝ ∗
   (∃ es, ⌜length es = heap_pages all ∧ Forall (λ e, present e = false) es⌝ ∗ ptes KERNEL_HEAP_START es) ∗
   pte_addr (KERNEL_HEAP_START + 4096 * Z.of_nat (heap_pages all)) ↦w el ∗
   ([∗ list] r ∈ seqZ 0 (Z.of_nat (heap_pages all)), raw_page (page KERNEL_HEAP_START r)) ∗
   (KERNEL_BITMAP_START + kernel_map all + user_map all + kernel_map all) ↦ nx)%I.

Definition boot_heap (all : Z) (A : gmap Z arena) : hPropI :=
  small_heap KERNEL_HEAP_START (KERNEL_BITMAP_START + kernel_map all + user_map all) nx 0x200000
    KERNEL_BITMAP_START (user_start all) el ds (heap_pages all) (8 * kernel_map all) ∅ curr t A.

(** The rest of the two pools. *)
Definition user_frames_free (all : Z) : hPropI :=
  (is_bitmap (pool_bitmap g_user_pool) (KERNEL_BITMAP_START + kernel_map all) (free_map (user_map all)) ∗
   quiet_lock (pool_lock g_user_pool) 0)%I.

Lemma boot_heap_starts all :
  memory_fits all →
  pools_at all -∗ is_descs g_k_mem_block_descs (λ _, []) -∗ heap_tables all -∗ tcb_at curr t -∗
  boot_heap all ∅ ∗ user_frames_free all.
Proof.
  iIntros (Hm) "((HK & _ & HKL) & ((_ & HU & Hus) & _ & HUL) & HV) HD (HP & %Hcov & (%es & [%Hes %Hn] & HE) & Hel & HR & Hnx) HT".
  fold (kernel_map all) (user_map all). iFrame "HU HUL".
  pose proof (maps_bounds all Hm) as (Hk & Hu & Hkf & Huf). pose proof (frames_bounds all Hm).
  assert (∀ n, 0 <= n → Z.of_nat (length (free_map n)) = n) as Hfree.
  { intros n Hn0. rewrite length_replicate. lia. }
  iExists ∅, (λ _, []). iSplitR "HT HKL"; [|iSplitL "HT"; [iExact "HT"|iExact "HKL"]].
  iSplitR.
  { iPureIntro. split; [split_and!|].
    - intros r a Ha. by rewrite lookup_empty in Ha.
    - intros r. rewrite !lookup_empty. split; [by intros [? ?]|by intros [[? ?]|?%elem_of_empty]].
    - intros r. by intros ?%elem_of_empty.
    - intros i b _. split; [by intros ?%elem_of_nil|]. intros (r & U & j & Hr & _). by rewrite lookup_empty in Hr. }
  iSplitR "HR HD"; [|iSplitL "HR"; [iExact "HR"|iSplitL "HD"; [iExact "HD"|by rewrite big_sepM_empty]]].
  iExists (free_map (kernel_map all)), (free_map (kernel_map all)).
  rewrite /bits_of Hfree; [|lia]. iFrame "HV Hnx HK Hus HP Hel". unfold heap_pages in *. iSplit.
  { iPureIntro. split_and!; [lia|done|]. split; [intros i f Hi|intros i j f Hi]; by rewrite lookup_empty in Hi. }
  iSplit; [iPureIntro; split; [lia|unfold user_start; lia]|]. iSplit; [done|].
  rewrite entries_unmapped; [|done]. iExists es. rewrite Z.mul_0_r Z.add_0_r. by iFrame.
Qed.

(** C6: The kernel's heap from power-on.  On a machine whose heap pages are not
    mapped, [mem_init] and then any sequence of requests for small blocks, writes
    and releases by a kernel thread return; blocks that are held do not overlap
    and keep their bytes; when all are given back no page is in use; and no frame
    of the users' pool is taken. *)
Theorem boot_heap_safe all cs c :
  memory_fits all → Forall heap_call_ok cs → Z.land (esp c) 0xfffff000 = curr →
  {{ boot_memory all ∗ heap_tables all ∗ tcb_at curr t }} (mem_init ;; run_heap cs []) @ c
  {{ live c', ∃ A,
       ⌜(∀ k k' x x', shape live !! k = Some x → shape live !! k' = Some x' → k ≠ k' →
           (x.1 + x.2)%Z <= x'.1 ∨ (x'.1 + x'.2)%Z <= x.1) ∧
        (live = [] → A = ∅)⌝ ∗
       boot_heap all A ∗ ([∗ list] x ∈ live, held x) ∗ user_frames_free all }}.
Proof.
  intros Hm Hcs He. apply triple_wp. iIntros "(HB & HT & Ht)".
  wp_bind. iApply (mem_init_wp with "HB"); [done|done|lia|done|]. iIntros (c1 Hc1) "_ HP HD". wp_reduce.
  iDestruct (boot_heap_starts with "HP HD HT Ht") as "[HH HU]"; [done|].
  iApply (run_heap_wp with "HH [//]"); [done|done|done|done|apply client_ok_nil|constructor|by rewrite Hc1|].
  iIntros (live A c' [Hok Hsz]) "HH HL". iDestruct (clients_apart with "HH") as %Hsafe; [done..|].
  cbn [returns]. iExists A. by iFrame.
Qed.
End boot_heap.

(** ** Examples *)

(** *** The loader's tables over memory full of ones *)

Definition demo_tables : list (Z * list Z) :=
  [(PAGE_DIR_TABLE, replicate 4096 255); (PAGE_DIR_TABLE + 0x1000, replicate 4096 255)].

Lemma demo_tables_ok : regions_ok demo_tables.
Proof. vm_compute. reflexivity. Qed.

Lemma ones_table a n :
  a ↦∗ replicate (4 * n) 255 ⊢ table a n (λ _, 0xffffffff).
Proof.
  unfold table. replace ((λ _, 0xffffffff) <$> seqZ 0 (Z.of_nat n)) with (replicate n 0xffffffff); last first.
  { apply list_eq. intros k. rewrite list_lookup_fmap. destruct (decide (k < n)%nat).
    - by rewrite lookup_replicate_2 // lookup_seqZ_lt; [|lia].
    - rewrite (proj1 (lookup_replicate_None n _ k)); [|lia]. by rewrite lookup_seqZ_ge; [|lia]. }
  rewrite words_bytes; [|by apply Forall_replicate].
  assert (concat (word_bytes <$> replicate n 0xffffffff) = replicate (4 * n) 255) as ->; [|done].
  induction n as [|n IH]; [done|]. replace (4 * S n)%nat with (4 + 4 * n)%nat by lia.
  rewrite replicate_add -IH. reflexivity.
Qed.

Lemma set_page_translates_witness :
  ∃ h', exec set_page cpu0 (mem_of demo_tables) (RRet tt cpu0) h' ∧
    self_mapped h' PAGE_DIR_TABLE ∧
    translate h' PAGE_DIR_TABLE 0xc00b8000 = Some 0xb8000 ∧
    translate h' PAGE_DIR_TABLE (pte_addr 0xc0100000) = Some 0x101400.
Proof.
  destruct (set_page_translates (replicate 4096 255) (λ _, 0xffffffff) cpu0 (mem_of demo_tables) emp%I
    (length_replicate _ _)) as (h' & Hx & _ & Hself & Hlow & _ & _ & _ & Hpte).
  - eapply models_mono; [|apply mem_of_models, demo_tables_ok]. unfold demo_tables.
    do 2 rewrite cells_cons. iIntros "(HD & HT & _)". iSplitL "HD"; [iExact "HD"|].
    iSplitL; [|done]. iApply (ones_table _ 1024). iExact "HT".
  - exists h'. split_and!; [exact Hx|exact Hself|apply (Hlow 0xb8000); lia|].
    rewrite Hpte; [|lia]. reflexivity.
Defined.

(** *** A machine with 64 KB above the first 2 MB *)

#[local] Existing Instance link_map.
#[local] Existing Instance demo_frames.

Lemma zeros_at (p n : Z) : p ↦∗ replicate (Z.to_nat n) 0 ⊢ zeros p n 0.
Proof. unfold zeros. by rewrite Z.add_0_r Z.sub_0_r. Qed.

Lemma zeros_raw_pool p : p ↦∗ replicate 44 0 ⊢ raw_pool p.
Proof.
  rewrite (zeros_at p 44). iIntros "H".
  iDestruct (zeros_word 4 with "H") as "[H0 H]"; [done..|]. iDestruct (zeros_word 8 with "H") as "[H4 H]"; [done..|].
  iDestruct (zeros_word 12 with "H") as "[H8 H]"; [done..|]. iDestruct (zeros_word 16 with "H") as "[H12 H]"; [done..|].
  iDestruct (zeros_word 20 with "H") as "[H16 H]"; [done..|]. iDestruct (zeros_byte 21 with "H") as "[H20 H]"; [done..|].
  iDestruct (zeros_take 24 with "H") as "[_ H]"; [done|].
  iDestruct (zeros_word 28 with "H") as "[H24 H]"; [done..|]. iDestruct (zeros_word 32 with "H") as "[H28 H]"; [done..|].
  iDestruct (zeros_word 36 with "H") as "[H32 H]"; [done..|]. iDestruct (zeros_word 40 with "H") as "[H36 H]"; [done..|].
  iDestruct (zeros_word 44 with "H") as "[H40 _]"; [done..|].
  rewrite /raw_pool /raw_lock /bitmap_len_of /bitmap_bits_of /pool_bitmap /pool_phy_start_addr /pool_mem_size
    /lock_holder /sem_value /lock_sem /list_elem_prev /list_elem_next /list_head /list_tail /sem_waiter
    /lock_holder_repeat_num /pool_lock -!Z.add_assoc !Z.add_0_r.
  iSplitL "H0"; [by iExists 0|]. iSplitL "H4"; [by iExists 0|]. iSplitL "H8"; [by iExists 0|].
  iSplitL "H12"; [by iExists 0|]. iSplitL "H16"; [by iExists 0|]. iSplitL "H20"; [by iExists 0|].
  iSplitL "H24"; [by iExists 0|]. iSplitL "H28"; [by iExists 0|]. iSplitL "H32"; [by iExists 0|].
  iSplitL "H36"; by iExists 0.
Qed.

Lemma zeros_raw_vaddr v : v ↦∗ replicate 12 0 ⊢ raw_vaddr v.
Proof.
  rewrite (zeros_at v 12). iIntros "H".
  iDestruct (zeros_word 4 with "H") as "[H0 H]"; [done..|]. iDestruct (zeros_word 8 with "H") as "[H4 H]"; [done..|].
  iDestruct (zeros_word 12 with "H") as "[H8 _]"; [done..|].
  rewrite /raw_vaddr /bitmap_len_of /bitmap_bits_of /vaddr_bitmap /vaddr_start !Z.add_0_r.
  iSplitL "H0"; [by iExists 0|]. iSplitL "H4"; by iExists 0.
Qed.

Lemma zeros_raw_descs set : set ↦∗ replicate 168 0 ⊢ raw_descs set.
Proof.
  rewrite (zeros_at set 168). iIntros "H".
  iDestruct (zeroed_blocks _ 24 168 0 7 with "H") as "[H _]"; [done|done|].
  iApply (big_sepL_mono with "H"). intros k i _. rewrite Z.add_0_r. fold (desc_at set i). iIntros "H".
  iDestruct (zeros_at _ 24 with "H") as "H".
  iDestruct (zeros_word 4 with "H") as "[H0 H]"; [done..|]. iDestruct (zeros_word 8 with "H") as "[H4 H]"; [done..|].
  iDestruct (zeros_word 12 with "H") as "[H8 H]"; [done..|]. iDestruct (zeros_word 16 with "H") as "[H12 H]"; [done..|].
  iDestruct (zeros_word 20 with "H") as "[H16 H]"; [done..|]. iDestruct (zeros_word 24 with "H") as "[H20 _]"; [done..|].
  iSplitL "H0"; [by iExists 0|]. iSplitL "H4"; [by iExists 0|]. iSplitL "H8"; [by iExists 0|].
  iSplitL "H12"; [by iExists 0|]. iSplitL "H16"; [by iExists 0|]. iSplitL; [by iExists 0|done].
Qed.

Definition demo_all : Z := 0x210000.

Definition demo_boot : list (Z * list Z) :=
  [(0xb00, word_bytes demo_all); (g_kernel_pool, replicate 44 0); (g_user_pool, replicate 44 0);
   (g_kernel_vaddr, replicate 12 0); (g_k_mem_block_descs, replicate 168 0); (0xc009a000, [7; 7; 7])].

Lemma demo_boot_models : cells demo_boot ⊢ boot_memory demo_all.
Proof.
  unfold demo_boot. rewrite cells_word; [|done]. do 5 rewrite cells_cons.
  rewrite !zeros_raw_pool zeros_raw_vaddr zeros_raw_descs. iIntros "($ & $ & $ & $ & $ & HA & _)".
  iExists [7; 7; 7]. iSplit; [done|]. iExact "HA".
Qed.

Lemma demo_boot_ok : regions_ok demo_boot.
Proof. vm_compute. reflexivity. Qed.

Lemma demo_fits : memory_fits demo_all.
Proof. unfold memory_fits, demo_all. lia. Qed.

Lemma demo_pool_ok : pool_addr_ok g_kernel_pool ∧ pool_addr_ok g_user_pool.
Proof. split; split; vm_compute; congruence. Qed.

Lemma demo_descs_ok : 0 <= g_k_mem_block_descs ∧ g_k_mem_block_descs + 168 <= 2 ^ 32.
Proof. split; vm_compute; congruence. Qed.

Lemma mem_init_pools_witness :
  ∃ r h', exec mem_init cpu_a (mem_of demo_boot) r h' ∧
    h' ⊨ (returns (λ _ _, is_pool g_user_pool 0x208000 0xc009a001 [0] ∗ quiet_lock (pool_lock g_kernel_pool) 0)%I r).
Proof.
  edestruct (triple_run _ _ _ _ (mem_of demo_boot)
    (mem_init_pools (proj1 demo_pool_ok) (proj2 demo_pool_ok) demo_descs_ok demo_all cpu_a demo_fits))
    as (r & h' & Hx & Hq).
  - eapply models_mono; [apply demo_boot_models|apply mem_of_models, demo_boot_ok].
  - exists r, h'. split; [exact Hx|]. eapply models_mono; [|apply Hq].
    destruct r; cbn [returns]; [|by iIntros "[]"..].
    iIntros "(_ & _ & ((_ & _ & $) & (HU & _) & _) & _)". iExact "HU".
Defined.

Definition demo_boot_heap : list (Z * list Z) :=
  demo_boot ++ demo_pde ++ ptes_cells 0xc0100000 8 ++
  [(pte_addr (0xc0100000 + 4096 * 8), word_bytes 0); (0xc009a003, [0]); (0xc0100000, demo_junk)] ++
  tcb_cells thread_a.

Lemma demo_boot_heap_ok : regions_ok demo_boot_heap.
Proof. vm_compute. reflexivity. Qed.

Lemma demo_boot_heap_models :
  cells demo_boot_heap ⊢
  boot_memory demo_all ∗ heap_tables 0 0 {[768 := 0x101007]} demo_all ∗ tcb_at 0xc009e000 thread_a.2.
Proof.
  unfold demo_boot_heap. do 4 rewrite cells_app. rewrite demo_boot_models demo_pdes ptes_cells_models.
  rewrite cells_word; [|done]. do 2 rewrite cells_cons. rewrite tcb_cells_models; [|vm_compute; reflexivity].
  iIntros "($ & HD & HE & (Hel & Hnx & HR & _) & HT)". iSplitR "HT"; [|iExact "HT"].
  iSplitL "HD"; [iExact "HD"|]. iSplitR.
  { iPureIntro. intros i Hi. change (Z.of_nat (heap_pages demo_all)) with 8 in Hi.
    replace ((KERNEL_HEAP_START + 4096 * i) / 2 ^ 22) with 768; [by eexists|].
    unfold KERNEL_HEAP_START. Z.div_mod_to_equations. lia. }
  iSplitL "HE"; [iExists (replicate 8 0); iSplit; [iPureIntro; split; [done|by apply Forall_replicate]|iExact "HE"]|].
  iSplitL "Hel"; [iExact "Hel"|]. iSplitL "HR".
  - iDestruct (raw_pages_models 0xc0100000 0 8 with "HR") as "HR"; [apply length_replicate|]. iExact "HR".
  - rewrite bytes_cons. iDestruct "Hnx" as "[$ _]".
Qed.

Lemma demo_thread : 0 < 0xc009e000 < 2 ^ 32.
Proof. lia. Qed.

Lemma boot_heap_safe_witness :
  ∃ r h', exec (mem_init ;; run_heap demo_calls []) cpu_a (mem_of demo_boot_heap) r h' ∧
    h' ⊨ (returns (λ live _, ∃ A : gmap Z arena, ⌜live = [] → A = ∅⌝ ∗ [∗ list] x ∈ live, held x)%I r).
Proof.
  edestruct (triple_run _ _ _ _ (mem_of demo_boot_heap)
    (boot_heap_safe 0 0 0xc009e000 {[768 := 0x101007]} thread_a.2 demo_thread eq_refl (proj1 demo_pool_ok)
       (proj2 demo_pool_ok) demo_descs demo_all demo_calls cpu_a demo_fits demo_calls_ok eq_refl))
    as (r & h' & Hx & Hq).
  - eapply models_mono; [apply demo_boot_heap_models|apply mem_of_models, demo_boot_heap_ok].
  - exists r, h'. split; [exact Hx|]. eapply models_mono; [|apply Hq].
    destruct r; cbn [returns]; [|by iIntros "[]"..].
    iIntros "(%A & [_ %HA] & _ & H & _)". iExists A. by iFrame.
Defined.
