(* ===== verification/Thread.v ===== *)
(** thread/thread.c: creating and starting threads; userprog/process.c:
    creating user processes and entering user mode. *)
From S2P Require Export Arena.

(** ** struct thread_stack, struct intr_stack *)

Definition ts_ebp (t : Z) : Z := t.
Definition ts_ebx (t : Z) : Z := t + 4.
Definition ts_edi (t : Z) : Z := t + 8.
Definition ts_esi (t : Z) : Z := t + 12.
Definition ts_eip (t : Z) : Z := t + 16.
Definition ts_function (t : Z) : Z := t + 24.
Definition ts_function_args (t : Z) : Z := t + 28.
Definition sizeof_thread_stack : Z := 32.

Definition is_edi (s : Z) : Z := s + 4.
Definition is_esi (s : Z) : Z := s + 8.
Definition is_ebp (s : Z) : Z := s + 12.
Definition is_esp_dummy (s : Z) : Z := s + 16.
Definition is_ebx (s : Z) : Z := s + 20.
Definition is_edx (s : Z) : Z := s + 24.
Definition is_ecx (s : Z) : Z := s + 28.
Definition is_eax (s : Z) : Z := s + 32.
Definition is_gs (s : Z) : Z := s + 36.
Definition is_fs (s : Z) : Z := s + 40.
Definition is_es (s : Z) : Z := s + 44.
Definition is_ds (s : Z) : Z := s + 48.
Definition is_eip (s : Z) : Z := s + 56.
Definition is_cs (s : Z) : Z := s + 60.
Definition is_eflags (s : Z) : Z := s + 64.
Definition is_esp (s : Z) : Z := s + 68.
Definition is_ss (s : Z) : Z := s + 72.
Definition sizeof_intr_stack : Z := 76.

Definition MAX_FILES_OPEN_PER_PROC : Z := 8.
Definition STACK_MAGIC : Z := 0x00007c00.
Definition EFLAGS_MBS : Z := Z.shiftl 1 1.
Definition EFLAGS_IF_1 : Z := Z.shiftl 1 9.
Definition EFLAGS_IOPL_0 : Z := Z.shiftl 0 12.
Definition USER_STACK3_VADDR : Z := 0xc0000000 - 0x1000.
Definition USER_PROG_START_VADDR : Z := 0x8048000.

Section thread.
Context `{Symbols}.

(** ** Threads *)

Definition kernel_thread (function : Z → M unit) (func_args : Z) : M unit :=
  intr_enable ;; function func_args.

(** [self_kernel_stack] is a [uint32_t *]: subtracting a size subtracts four
    times as many bytes. *)
Definition thread_create (pcb_ptr function func_args : Z) : M unit :=
  sp <- ld32 (pcb_self_kernel_stack pcb_ptr);
  st32 (pcb_self_kernel_stack pcb_ptr) (sp - 4 * sizeof_intr_stack) ;;
  sp <- ld32 (pcb_self_kernel_stack pcb_ptr);
  st32 (pcb_self_kernel_stack pcb_ptr) (sp - 4 * sizeof_thread_stack) ;;
  thread_stack_ptr <- ld32 (pcb_self_kernel_stack pcb_ptr);
  st32 (ts_eip thread_stack_ptr) fn_kernel_thread ;;
  st32 (ts_function thread_stack_ptr) function ;;
  st32 (ts_function_args thread_stack_ptr) func_args ;;
  st32 (ts_esi thread_stack_ptr) 0 ;;
  st32 (ts_edi thread_stack_ptr) 0 ;;
  st32 (ts_ebx thread_stack_ptr) 0 ;;
  st32 (ts_ebp thread_stack_ptr) 0.

(** The counter is read again after the lock is released. *)
Definition allocate_next_pid : M Z :=
  lock_acquire g_pid_lock ;;
  n <- ld16 g_next_pid;
  st16 g_next_pid (n + 1) ;;
  lock_release g_pid_lock ;;
  ld16 g_next_pid.

Definition thread_init (pcb_ptr prio name : Z) : M unit :=
  memset pcb_ptr 0 sizeof_pcb ;;
  strcpy (pcb_name pcb_ptr) name ;;
  main <- ld32 g_main_thread_pcb_ptr;
  (if pcb_ptr =? main then st32 (pcb_status pcb_ptr) TASK_RUNNING
   else st32 (pcb_status pcb_ptr) TASK_READY) ;;
  pid <- allocate_next_pid;
  st16 (pcb_pid pcb_ptr) pid ;;
  st8 (pcb_priority pcb_ptr) prio ;;
  st32 (pcb_elapsed_ticks pcb_ptr) 0 ;;
  st8 (pcb_ticks pcb_ptr) prio ;;
  st32 (pcb_pgdir pcb_ptr) 0 ;;
  st32 (pcb_fd_table pcb_ptr 0) 0 ;;
  st32 (pcb_fd_table pcb_ptr 1) 1 ;;
  st32 (pcb_fd_table pcb_ptr 2) 2 ;;
  for_ 3 MAX_FILES_OPEN_PER_PROC (λ i, st32 (pcb_fd_table pcb_ptr i) (-1)) ;;
  st32 (pcb_stack_magic pcb_ptr) STACK_MAGIC ;;
  st32 (pcb_self_kernel_stack pcb_ptr) (pcb_ptr + 4096).

Definition thread_start (func func_args name prio : Z) : M Z :=
  pcb_ptr <- malloc_kernel_pages 1;
  thread_init pcb_ptr prio name ;;
  thread_create pcb_ptr func func_args ;;
  found <- elem_find g_ready_thread_list (pcb_general_tag pcb_ptr);
  ASSERT (negb found) "thread/thread.c" 93 "thread_start"
    "!(elem_find(&ready_thread_list, &(pcb_ptr->general_tag)))" ;;
  list_append g_ready_thread_list (pcb_general_tag pcb_ptr) ;;
  found <- elem_find g_all_thread_list (pcb_all_list_tag pcb_ptr);
  ASSERT (negb found) "thread/thread.c" 97 "thread_start"
    "!(elem_find(&all_thread_list, &(pcb_ptr->all_list_tag)))" ;;
  list_append g_all_thread_list (pcb_all_list_tag pcb_ptr) ;;
  ret pcb_ptr.

Definition make_main_thread : M unit :=
  curr <- running_thread;
  st32 g_main_thread_pcb_ptr curr ;;
  main <- ld32 g_main_thread_pcb_ptr;
  thread_init main 31 (str_lit "main") ;;
  main <- ld32 g_main_thread_pcb_ptr;
  found <- elem_find g_all_thread_list (pcb_all_list_tag main);
  ASSERT (negb found) "thread/thread.c" 109 "make_main_thread"
    "!(elem_find(&all_thread_list, &(main_thread_pcb_ptr->all_list_tag)))" ;;
  main <- ld32 g_main_thread_pcb_ptr;
  list_append g_all_thread_list (pcb_all_list_tag main).

Definition system_thread_init : M unit :=
  putStr "thread_init start\n" ;;
  list_init g_all_thread_list ;;
  list_init g_ready_thread_list ;;
  lock_init g_pid_lock ;;
  make_main_thread ;;
  (t <- thread_start fn_idle 0 (str_lit "idle") 10; st32 g_idle_thread t) ;;
  putStr "thread_init done\n".

(** ** Processes *)

(** kernel/kernel.asm, [exit_intr], on the interrupt frame at [frame] (its
    first word already dropped): the general registers and the data segments
    are popped, then [iret] takes the rest.  Only the part of the state the
    CPU model has is restored, from where it is in the frame; [exit_intr_regs] of
    [Context] is the same code instruction by instruction, with the registers. *)
Definition exit_intr (frame : Z) : M unit :=
  eip <- ld32 (is_eip frame);
  cs <- ld32 (is_cs frame);
  flags <- ld32 (is_eflags frame);
  sp <- ld32 (is_esp frame);
  ss <- ld32 (is_ss frame);
  modify_cpu (set_eflags flags) ;;
  modify_cpu (set_esp sp) ;;
  emit (EvIret eip cs sp ss) ;;
  yield.

Definition start_process (filename : Z) : M unit :=
  let function := filename in
  pcb <- running_thread;
  sp <- ld32 (pcb_self_kernel_stack pcb);
  let intr_stack := w32 (sp + 4 * sizeof_thread_stack) in
  st32 (is_edx intr_stack) 0 ;; st32 (is_ecx intr_stack) 0 ;;
  st32 (is_ebx intr_stack) 0 ;; st32 (is_eax intr_stack) 0 ;;
  st32 (is_esp_dummy intr_stack) 0 ;; st32 (is_esi intr_stack) 0 ;;
  st32 (is_edi intr_stack) 0 ;; st32 (is_ebp intr_stack) 0 ;;
  st32 (is_cs intr_stack) SELECTOR_U_CODE ;;
  st32 (is_fs intr_stack) SELECTOR_U_DATA ;; st32 (is_ds intr_stack) SELECTOR_U_DATA ;;
  st32 (is_gs intr_stack) 0 ;;
  st32 (is_eip intr_stack) function ;;
  st32 (is_ss intr_stack) SELECTOR_U_DATA ;; st32 (is_es intr_stack) SELECTOR_U_DATA ;;
  st32 (is_eflags intr_stack) (Z.lor (Z.lor EFLAGS_IOPL_0 EFLAGS_MBS) EFLAGS_IF_1) ;;
  page <- get_a_page PF_USER USER_STACK3_VADDR;
  st32 (is_esp intr_stack) (page + PAGE_SIZE) ;;
  exit_intr intr_stack.

(** The three bytes of U+3000 in UTF-8, which the message holds. *)
Definition ideographic_space : string :=
  String (Ascii.ascii_of_nat 0xe3) (String (Ascii.ascii_of_nat 0x80) (String (Ascii.ascii_of_nat 0x80) "")).

Definition create_page_dir : M Z :=
  page_dir_vaddr <- malloc_kernel_pages 1;
  if page_dir_vaddr =? 0 then putStr ("create" ++ ideographic_space ++ "page dir error ! \n") ;; ret 0
  else
    memcpy (w32 (page_dir_vaddr + 0x300 * 4)) (0xfffff000 + 0x300 * 4) 1024 ;;
    phy <- addr_virtual_to_phy page_dir_vaddr;
    st32 (page_dir_vaddr + 4 * 1023) (Z.lor (Z.lor (Z.lor phy PG_US_U) PG_RW_W) PG_P_1) ;;
    ret page_dir_vaddr.

Definition create_user_vaddr_bitmap (user_prog : Z) : M unit :=
  st32 (vaddr_start (pcb_userprog_vaddr user_prog)) USER_PROG_START_VADDR ;;
  let bit_cnts := DIV_ROUND_UP ((0xc0000000 - USER_PROG_START_VADDR) / PAGE_SIZE / 8) PAGE_SIZE in
  st32 (bitmap_len_of (vaddr_bitmap (pcb_userprog_vaddr user_prog)))
    ((0xc0000000 - USER_PROG_START_VADDR) / PAGE_SIZE / 8) ;;
  bits <- malloc_kernel_pages bit_cnts;
  st32 (bitmap_bits_of (vaddr_bitmap (pcb_userprog_vaddr user_prog))) bits ;;
  bitmap_init (vaddr_bitmap (pcb_userprog_vaddr user_prog)).

Definition process_execute (filename name : Z) : M unit :=
  process <- malloc_kernel_pages 1;
  when (process =? 0) (putStr "malloc_kernel_pages error") ;;
  thread_init process 31 name ;;
  create_user_vaddr_bitmap process ;;
  thread_create process fn_start_process filename ;;
  (dir <- create_page_dir; st32 (pcb_pgdir process) dir) ;;
  block_des_init (pcb_u_mem_block_desc process) ;;
  old_status <- intr_disable;
  found <- elem_find g_ready_thread_list (pcb_general_tag process);
  ASSERT (negb found) "userprog/process.c" 115 "process_execute"
    "!elem_find(&ready_thread_list, &(process->general_tag))" ;;
  list_append g_ready_thread_list (pcb_general_tag process) ;;
  found <- elem_find g_all_thread_list (pcb_all_list_tag process);
  ASSERT (negb found) "userprog/process.c" 117 "process_execute"
    "!elem_find(&all_thread_list, &(process->all_list_tag))" ;;
  list_append g_all_thread_list (pcb_all_list_tag process) ;;
  intr_set_status old_status ;; ret tt.

End thread.

(** ** Entering a thread for the first time *)

(** thread/switch.asm, the end of [switch_to]: the stack pointer saved in the
    control block is loaded, four registers are popped, and [ret] takes the
    program counter. *)
Record entry := Entry { e_ebp : Z; e_ebx : Z; e_edi : Z; e_esi : Z; e_eip : Z }.

Definition switch_in (next : Z) : M entry :=
  sp <- ld32 next;
  ebp <- ld32 sp; ebx <- ld32 (sp + 4); edi <- ld32 (sp + 8); esi <- ld32 (sp + 12);
  eip <- ld32 (sp + 16);
  modify_cpu (set_esp (sp + 20)) ;;
  ret (Entry ebp ebx edi esi eip).

(** Argument [i] of a function just entered: above the return address. *)
Definition stack_arg (i : Z) : M Z :=
  c <- get_cpu;
  ld32 (esp c + 4 + 4 * i).

(** ** Representation *)

(** The stack of a thread that has not run: [struct thread_stack]. *)
Definition fresh_stack (sp eip function args : Z) : hPropI :=
  (ts_ebp sp ↦w 0 ∗ ts_ebx sp ↦w 0 ∗ ts_edi sp ↦w 0 ∗ ts_esi sp ↦w 0 ∗
   ts_eip sp ↦w eip ∗ ts_function sp ↦w function ∗ ts_function_args sp ↦w args)%I.

(** The words of [struct intr_stack] that are restored, whatever they hold. *)
Definition old_frame (s : Z) : hPropI :=
  (is_edi s ↦w - ∗ is_esi s ↦w - ∗ is_ebp s ↦w - ∗ is_esp_dummy s ↦w - ∗ is_ebx s ↦w - ∗
   is_edx s ↦w - ∗ is_ecx s ↦w - ∗ is_eax s ↦w - ∗ is_gs s ↦w - ∗ is_fs s ↦w - ∗
   is_es s ↦w - ∗ is_ds s ↦w - ∗ is_eip s ↦w - ∗ is_cs s ↦w - ∗ is_eflags s ↦w - ∗
   is_esp s ↦w - ∗ is_ss s ↦w -)%I.

(** The open files of a thread: only the three standard descriptors. *)
Definition std_fds (p : Z) : hPropI :=
  (pcb_fd_table p 0 ↦w 0 ∗ pcb_fd_table p 1 ↦w 1 ∗ pcb_fd_table p 2 ↦w 2 ∗
   [∗ list] i ∈ [3; 4; 5; 6; 7], pcb_fd_table p i ↦w 0xffffffff)%I.

(** The parts of a control block the scheduler does not look at. *)
Definition pcb_rest (p pid : Z) (name : list Z) : hPropI :=
  (pcb_pid p ↦ₕ pid ∗ cstr (pcb_name p) name ∗ pcb_elapsed_ticks p ↦w 0 ∗ std_fds p ∗
   pcb_stack_magic p ↦w STACK_MAGIC)%I.

(** What a process keeps in it besides: its virtual pages, its blocks. *)
Definition pcb_process (p : Z) : hPropI :=
  (pcb_userprog_vaddr p ↦∗ replicate 12 0 ∗ pcb_u_mem_block_desc p ↦∗ replicate 168 0)%I.

Section spec.
Context `{Symbols}.
Implicit Types (c : cpu).

Lemma zeroed_frame s : s ↦∗ replicate 76 0 ⊢ old_frame s.
Proof.
  iIntros "H". iAssert (zeros s 76 0) with "[H]" as "H"; [by rewrite /zeros Z.add_0_r|].
  iDestruct (zeros_word 4 with "H") as "[_ H]"; [done..|].
  iDestruct (zeros_word 8 with "H") as "[F1 H]"; [done..|].
  iDestruct (zeros_word 12 with "H") as "[F2 H]"; [done..|].
  iDestruct (zeros_word 16 with "H") as "[F3 H]"; [done..|].
  iDestruct (zeros_word 20 with "H") as "[F4 H]"; [done..|].
  iDestruct (zeros_word 24 with "H") as "[F5 H]"; [done..|].
  iDestruct (zeros_word 28 with "H") as "[F6 H]"; [done..|].
  iDestruct (zeros_word 32 with "H") as "[F7 H]"; [done..|].
  iDestruct (zeros_word 36 with "H") as "[F8 H]"; [done..|].
  iDestruct (zeros_word 40 with "H") as "[F9 H]"; [done..|].
  iDestruct (zeros_word 44 with "H") as "[F10 H]"; [done..|].
  iDestruct (zeros_word 48 with "H") as "[F11 H]"; [done..|].
  iDestruct (zeros_word 52 with "H") as "[F12 H]"; [done..|].
  iDestruct (zeros_word 56 with "H") as "[_ H]"; [done..|].
  iDestruct (zeros_word 60 with "H") as "[F13 H]"; [done..|].
  iDestruct (zeros_word 64 with "H") as "[F14 H]"; [done..|].
  iDestruct (zeros_word 68 with "H") as "[F15 H]"; [done..|].
  iDestruct (zeros_word 72 with "H") as "[F16 H]"; [done..|].
  iDestruct (zeros_word 76 with "H") as "[F17 _]"; [done..|].
  iSplitL "F1"; [by iExists 0|]. iSplitL "F2"; [by iExists 0|]. iSplitL "F3"; [by iExists 0|].
  iSplitL "F4"; [by iExists 0|]. iSplitL "F5"; [by iExists 0|]. iSplitL "F6"; [by iExists 0|].
  iSplitL "F7"; [by iExists 0|]. iSplitL "F8"; [by iExists 0|]. iSplitL "F9"; [by iExists 0|].
  iSplitL "F10"; [by iExists 0|]. iSplitL "F11"; [by iExists 0|]. iSplitL "F12"; [by iExists 0|].
  iSplitL "F13"; [by iExists 0|]. iSplitL "F14"; [by iExists 0|]. iSplitL "F15"; [by iExists 0|].
  iSplitL "F16"; by iExists 0.
Qed.

(** A zeroed control block, field by field. *)
Lemma zeroed_pcb p :
  0 <= p ∧ p + 4096 < 2 ^ 32 →
  p ↦∗ replicate 272 0 ⊢
  pcb_self_kernel_stack p ↦w 0 ∗ pcb_status p ↦w 0 ∗ pcb_priority p ↦ 0 ∗ pcb_pid p ↦ₕ 0 ∗
  pcb_name p ↦∗ replicate 16 0 ∗ pcb_ticks p ↦ 0 ∗ pcb_elapsed_ticks p ↦w 0 ∗
  ([∗ list] i ∈ [0; 1; 2; 3; 4; 5; 6; 7], pcb_fd_table p i ↦w 0) ∗
  node (pcb_general_tag p) ∗ node (pcb_all_list_tag p) ∗ pcb_pgdir p ↦w 0 ∗
  pcb_process p ∗ pcb_stack_magic p ↦w 0.
Proof.
  intros Hp. iIntros "H". iAssert (zeros p 272 0) with "[H]" as "H".
  { rewrite /zeros Z.add_0_r. done. }
  iDestruct (zeros_word 4 with "H") as "[H0 H]"; [done..|]. rewrite Z.add_0_r.
  iDestruct (zeros_word 8 with "H") as "[H4 H]"; [done..|].
  iDestruct (zeros_byte 9 with "H") as "[H8 H]"; [done..|].
  iDestruct (zeros_byte 10 with "H") as "[_ H]"; [done..|].
  iDestruct (zeros_half 12 with "H") as "[H10 H]"; [done..|].
  iDestruct (zeros_take 28 with "H") as "[H12 H]"; [done..|].
  iDestruct (zeros_byte 29 with "H") as "[H28 H]"; [done..|].
  iDestruct (zeros_take 32 with "H") as "[_ H]"; [done..|].
  iDestruct (zeros_word 36 with "H") as "[H32 H]"; [done..|].
  iDestruct (zeros_word 40 with "H") as "[F0 H]"; [done..|].
  iDestruct (zeros_word 44 with "H") as "[F1 H]"; [done..|].
  iDestruct (zeros_word 48 with "H") as "[F2 H]"; [done..|].
  iDestruct (zeros_word 52 with "H") as "[F3 H]"; [done..|].
  iDestruct (zeros_word 56 with "H") as "[F4 H]"; [done..|].
  iDestruct (zeros_word 60 with "H") as "[F5 H]"; [done..|].
  iDestruct (zeros_word 64 with "H") as "[F6 H]"; [done..|].
  iDestruct (zeros_word 68 with "H") as "[F7 H]"; [done..|].
  iDestruct (zeros_word 72 with "H") as "[G0 H]"; [done..|].
  iDestruct (zeros_word 76 with "H") as "[G1 H]"; [done..|].
  iDestruct (zeros_word 80 with "H") as "[A0 H]"; [done..|].
  iDestruct (zeros_word 84 with "H") as "[A1 H]"; [done..|].
  iDestruct (zeros_word 88 with "H") as "[H84 H]"; [done..|].
  iDestruct (zeros_take 100 with "H") as "[H88 H]"; [done..|].
  iDestruct (zeros_take 268 with "H") as "[H100 H]"; [done..|].
  iDestruct (zeros_word 272 with "H") as "[H268 _]"; [done..|].
  iSplitL "H0"; [done|]. iSplitL "H4"; [done|]. iSplitL "H8"; [done|]. iSplitL "H10"; [done|].
  iSplitL "H12"; [done|]. iSplitL "H28"; [done|]. iSplitL "H32"; [done|].
  iSplitL "F0 F1 F2 F3 F4 F5 F6 F7".
  { rewrite /= /pcb_fd_table -!Z.add_assoc.
    by iSplitL "F0"; [|iSplitL "F1"; [|iSplitL "F2"; [|iSplitL "F3"; [|iSplitL "F4"; [|iSplitL "F5"; [|iSplitL "F6"; [|iSplitL "F7"]]]]]]]. }
  iSplitL "G0 G1"; [by iApply (node_zero with "G0 G1"); [|lia]|].
  iSplitL "A0 A1"; [by iApply (node_zero with "A0 A1"); [|lia]|].
  iSplitL "H84"; [done|]. iSplitL "H88 H100"; [by iSplitL "H88"|done].
Qed.

(** The next thread number, given under its lock. *)
Lemma allocate_next_pid_wp n c (Φ : res Z → hPropI) :
  0 < Z.land (esp c) 0xfffff000 < 2 ^ 32 →
  quiet_lock g_pid_lock 0 -∗ g_next_pid ↦ₕ n -∗
  (quiet_lock g_pid_lock 0 -∗ g_next_pid ↦ₕ w16 (n + 1) -∗ Φ (RRet (w16 (n + 1)) c)) -∗
  wp allocate_next_pid c Φ.
Proof.
  iIntros (Hr) "HL Hn HΦ". rewrite /allocate_next_pid.
  wp_bind. iApply (mutex_acquire with "HL"); [done|done|]. iIntros "HL". wp_reduce.
  wp_bind. iApply (wp_ld16 with "Hn"); [done|]. iIntros "Hn". wp_reduce.
  wp_bind. iApply (wp_st16 with "Hn"); [done|]. iIntros "Hn". wp_reduce.
  wp_bind. iApply (mutex_release with "HL"); [done|done|]. iIntros "HL". wp_reduce.
  iApply (wp_ld16 with "Hn"); [done|]. iIntros "Hn". iApply ("HΦ" with "HL Hn").
Qed.

(** What [thread_init] makes of a page: a thread with an empty stack. *)
Definition fresh_tcb (p main prio : Z) : tcb :=
  Tcb (if p =? main then TASK_RUNNING else TASK_READY) prio prio (p + 4096) 0.

Definition page_of (p : Z) : Prop := 0 < p ∧ p + 4096 < 2 ^ 32 ∧ p mod 4096 = 0.

Lemma thread_init_wp p main n prio name s junk c (Φ : res unit → hPropI) :
  page_of p → 0 < Z.land (esp c) 0xfffff000 < 2 ^ 32 → 0 <= prio < 256 → name ≠ 0 →
  (length s < 16)%nat → length junk = 272%nat →
  p ↦∗ junk -∗ cstr name s -∗ g_main_thread_pcb_ptr ↦w main -∗
  quiet_lock g_pid_lock 0 -∗ g_next_pid ↦ₕ n -∗
  (tcb_at p (fresh_tcb p main prio) -∗ pcb_rest p (w16 (n + 1)) s -∗ pcb_process p -∗
   node (pcb_general_tag p) -∗ node (pcb_all_list_tag p) -∗
   cstr name s -∗ g_main_thread_pcb_ptr ↦w main -∗
   quiet_lock g_pid_lock 0 -∗ g_next_pid ↦ₕ w16 (n + 1) -∗ Φ (RRet tt c)) -∗
  wp (thread_init p prio name) c Φ.
Proof.
  iIntros (Hp Hr Hpr Hnm Hs Hj) "Hpg Hname Hmain HL Hn HΦ". rewrite /thread_init.
  destruct Hp as (Hp0 & Hp1 & Hp2).
  wp_bind. iApply (memset_wp with "Hpg"); [lia|by rewrite Hj|]. iIntros "Hpg". wp_reduce.
  rewrite Hj. change (w8 0) with 0.
  iDestruct (zeroed_pcb with "Hpg") as
    "(Hsp & Hst & Hprio & Hpid & Hpn & Htk & Hel & Hfd & HG & HA & Hdir & Hproc & Hmag)"; [lia|].
  rewrite (_ : 16%nat = (S (length s) + (15 - length s))%nat); [|lia].
  rewrite replicate_add bytes_app. iDestruct "Hpn" as "[Hpn _]".
  wp_bind. iApply (strcpy_wp with "Hname Hpn"); [unfold pcb_name; lia|done|by rewrite length_replicate|].
  iIntros "Hname Hpn". wp_reduce. wp_ld "Hmain".
  wp_bind. iApply (wp_wand _ _ (returns (λ _ c', ⌜c' = c⌝ ∗
    pcb_status p ↦w t_status (fresh_tcb p main prio)))%I with "[Hst]").
  { unfold fresh_tcb; simpl. destruct (p =? main); wp_st "Hst"; by iFrame. }
  iIntros ([? ?|?|?|? ?]) "H //=". iDestruct "H" as "[-> Hst]".
  wp_bind. iApply (allocate_next_pid_wp with "HL Hn"); [done|]. iIntros "HL Hn". wp_reduce.
  wp_bind. iApply (wp_st16 with "Hpid"); [done|]. iIntros "Hpid". wp_reduce.
  rewrite (w16_small (w16 _)); [|apply w16_range].
  wp_stb "Hprio". wp_st "Hel". wp_stb "Htk". wp_st "Hdir". rewrite !w8_small; [|lia..].
  iDestruct "Hfd" as "(F0 & F1 & F2 & Hfd)". wp_st "F0". wp_st "F1". wp_st "F2".
  wp_bind. rewrite /MAX_FILES_OPEN_PER_PROC.
  iApply (wp_for (λ i, [∗ list] j ∈ [3; 4; 5; 6; 7],
      pcb_fd_table p j ↦w (if j <? i then 0xffffffff else 0)) with "[Hfd]")%I; [lia| |done|].
  { intros i Hi. assert (i = 3 ∨ i = 4 ∨ i = 5 ∨ i = 6 ∨ i = 7) as Hc by lia.
    iIntros "(F3 & F4 & F5 & F6 & F7 & _)".
    destruct Hc as [-> | [-> | [-> | [-> | ->]]]]; simpl;
      [wp_st "F3"|wp_st "F4"|wp_st "F5"|wp_st "F6"|wp_st "F7"]; by iFrame. }
  iIntros "Hfd". wp_reduce. wp_st "Hmag". wp_st "Hsp". rewrite (w32_small (p + 4096)); [|lia].
  iApply ("HΦ" with "[Hsp Hst Hprio Htk Hdir] [Hpid Hpn Hel F0 F1 F2 Hfd Hmag] Hproc HG HA Hname Hmain HL Hn").
  - rewrite /tcb_at /fresh_tcb /=. by iFrame.
  - rewrite /pcb_rest /std_fds /=. change (w32 STACK_MAGIC) with STACK_MAGIC.
    change (w32 1) with 1. change (w32 2) with 2. by iFrame.
Qed.

Lemma zeroed_stack p : (p + 3664) ↦∗ replicate 32 0 ⊢ fresh_stack (p + 3664) 0 0 0.
Proof.
  iIntros "Hs".
  iAssert (zeros p 3696 3664) with "[Hs]" as "H"; [done|].
  iDestruct (zeros_word 3668 with "H") as "[H0 H]"; [done..|].
  iDestruct (zeros_word 3672 with "H") as "[H4 H]"; [done..|].
  iDestruct (zeros_word 3676 with "H") as "[H8 H]"; [done..|].
  iDestruct (zeros_word 3680 with "H") as "[H12 H]"; [done..|].
  iDestruct (zeros_word 3684 with "H") as "[H16 H]"; [done..|].
  iDestruct (zeros_word 3688 with "H") as "[_ H]"; [done..|].
  iDestruct (zeros_word 3692 with "H") as "[H24 H]"; [done..|].
  iDestruct (zeros_word 3696 with "H") as "[H28 _]"; [done..|].
  rewrite /fresh_stack /ts_ebp /ts_ebx /ts_edi /ts_esi /ts_eip /ts_function /ts_function_args -!Z.add_assoc.
  iFrame.
Qed.

(** The stack of a new thread, 432 bytes below the top of its page. *)
Lemma thread_create_wp p t function args c (Φ : res unit → hPropI) :
  t_sp t = p + 4096 → page_of p → 0 <= function < 2 ^ 32 → 0 <= args < 2 ^ 32 →
  tcb_at p t -∗ (p + 3664) ↦∗ replicate 32 0 -∗
  (tcb_at p (set_t_sp (p + 3664) t) -∗ fresh_stack (p + 3664) (w32 fn_kernel_thread) function args -∗
   Φ (RRet tt c)) -∗
  wp (thread_create p function args) c Φ.
Proof.
  iIntros (Hsp (Hp0 & Hp1 & Hp2) Hf Ha) "(%Hp & Hsp & Ht) Hs HΦ". rewrite Hsp /thread_create.
  iDestruct (zeroed_stack with "Hs") as "(H0 & H4 & H8 & H12 & H16 & H24 & H28)".
  wp_ld "Hsp". wp_st "Hsp". unfold sizeof_intr_stack. rewrite (w32_small (_ - 4 * 76)); [|lia].
  wp_ld "Hsp". wp_st "Hsp". unfold sizeof_thread_stack. rewrite (w32_small (_ - 4 * 32)); [|lia].
  replace (p + 4096 - 4 * 76 - 4 * 32) with (p + 3664) by lia. wp_ld "Hsp".
  wp_st "H16". wp_st "H24". wp_st "H28". wp_st "H12". wp_st "H8". wp_st "H4". wp_st "H0".
  rewrite (w32_small function) // (w32_small args) //. iApply ("HΦ" with "[$Hsp $Ht //]").
  by iFrame.
Qed.

(** What starting and initialising threads works on: the lock and counter of
    thread numbers and the main thread's control block. *)
Definition thread_numbers (main n : Z) : hPropI :=
  (g_main_thread_pcb_ptr ↦w main ∗ quiet_lock g_pid_lock 0 ∗ g_next_pid ↦ₕ n)%I.

(** [thread_start] once it has its page. *)
Lemma new_thread_wp p main n prio name s q all func args c (Φ : res Z → hPropI) :
  page_of p → 0 < Z.land (esp c) 0xfffff000 < 2 ^ 32 → 0 <= prio < 256 → name ≠ 0 →
  (length s < 16)%nat → 0 <= func < 2 ^ 32 → 0 <= args < 2 ^ 32 →
  p ↦∗ replicate 4096 0 -∗ cstr name s -∗ thread_numbers main n -∗
  is_queue g_ready_thread_list q -∗ is_list g_all_thread_list (pcb_all_list_tag <$> all) -∗
  (tcb_at p (set_t_sp (p + 3664) (fresh_tcb p main prio)) -∗ pcb_rest p (w16 (n + 1)) s -∗
   pcb_process p -∗ fresh_stack (p + 3664) (w32 fn_kernel_thread) func args -∗
   cstr name s -∗ thread_numbers main (w16 (n + 1)) -∗
   is_queue g_ready_thread_list (q ++ [p]) -∗
   is_list g_all_thread_list (pcb_all_list_tag <$> (all ++ [p])) -∗ Φ (RRet p c)) -∗
  wp (thread_init p prio name ;;
      thread_create p func args ;;
      found <- elem_find g_ready_thread_list (pcb_general_tag p);
      ASSERT (negb found) "thread/thread.c" 93 "thread_start"
        "!(elem_find(&ready_thread_list, &(pcb_ptr->general_tag)))" ;;
      list_append g_ready_thread_list (pcb_general_tag p) ;;
      found <- elem_find g_all_thread_list (pcb_all_list_tag p);
      ASSERT (negb found) "thread/thread.c" 97 "thread_start"
        "!(elem_find(&all_thread_list, &(pcb_ptr->all_list_tag)))" ;;
      list_append g_all_thread_list (pcb_all_list_tag p) ;;
      ret p) c Φ.
Proof.
  iIntros (Hp Hr Hpr Hnm Hs Hf Ha) "Hpg Hname (Hmain & HL & Hn) HR HA HΦ".
  iAssert (zeros p 4096 0) with "[Hpg]" as "Hpg"; [by rewrite /zeros Z.add_0_r|].
  iDestruct (zeros_take 272 with "Hpg") as "[Hpcb Hpg]"; [done|].
  iDestruct (zeros_take 3664 with "Hpg") as "[_ Hpg]"; [done|].
  iDestruct (zeros_take 3696 with "Hpg") as "[Hst _]"; [done|]. rewrite Z.add_0_r.
  wp_bind. iApply (thread_init_wp with "Hpcb Hname Hmain HL Hn");
    [done|done|done|done|done|by rewrite length_replicate|].
  iIntros "HT Hrest Hproc Hg Ht Hname Hmain HL Hn". wp_reduce.
  wp_bind. iApply (thread_create_wp with "HT Hst"); [done|done|done|done|]. iIntros "HT Hst". wp_reduce.
  wp_bind. iApply (elem_find_node_wp with "HR Hg"). iIntros "HR Hg". wp_reduce.
  wp_bind. iApply wp_assert; [done|]. wp_reduce.
  wp_bind. iApply (list_append_wp with "HR Hg"). iIntros "HR". wp_reduce.
  wp_bind. iApply (elem_find_node_wp with "HA Ht"). iIntros "HA Ht". wp_reduce.
  wp_bind. iApply wp_assert; [done|]. wp_reduce.
  wp_bind. iApply (list_append_wp with "HA Ht"). iIntros "HA". wp_reduce. wp_pure.
  iApply ("HΦ" with "HT Hrest Hproc Hst Hname [$Hmain $HL $Hn] [HR] [HA]").
  - by rewrite /is_queue fmap_app.
  - by rewrite fmap_app.
Qed.

End spec.

(** ** Properties *)

Section properties.
Context `{Symbols}.
Implicit Types (c : cpu).

(** [thread_start] turns a free page into a thread that is ready, behind the
    others, and on the list of all threads: it has the next number, the name,
    the priority as its time slice, the standard descriptors, and a stack from
    which it will enter [kernel_thread] with its function and argument. *)
Theorem thread_start_ready m start addr bs nx pstart paddr pbs e r f pbs' junk
    main n prio name s q all func args c :
  let p := start + 4096 * r in
  first_fit (used bs) (bits_of bs) 1 r → palloc_n 1 pbs = Some ([f], pbs') →
  covered m p 1 → present e = false → length junk = 4096%nat →
  0 < Z.land (esp c) 0xfffff000 < 2 ^ 32 → 0 <= prio < 256 → name ≠ 0 → (length s < 16)%nat →
  0 <= func < 2 ^ 32 → 0 <= args < 2 ^ 32 →
  {{ kernel_pages m 1 start addr bs nx pstart paddr pbs ∗ ptes p [e] ∗ p ↦∗ junk ∗
     cstr name s ∗ thread_numbers main n ∗
     is_queue g_ready_thread_list q ∗ is_list g_all_thread_list (pcb_all_list_tag <$> all) }}
    (thread_start func args name prio) @ c
  {{ a c', ⌜a = p ∧ c' = c⌝ ∗
     kernel_pages m 1 start addr (bm_set bs r true) nx pstart paddr pbs' ∗
     ptes p [page_entry (pstart + 4096 * f)] ∗
     tcb_at p (Tcb (if p =? main then TASK_RUNNING else TASK_READY) prio prio (p + 3664) 0) ∗
     pcb_rest p (w16 (n + 1)) s ∗ pcb_process p ∗
     fresh_stack (p + 3664) (w32 fn_kernel_thread) func args ∗
     cstr name s ∗ thread_numbers main (w16 (n + 1)) ∗
     is_queue g_ready_thread_list (q ++ [p]) ∗
     is_list g_all_thread_list (pcb_all_list_tag <$> (all ++ [p])) }}.
Proof.
  intros p Hfit Hal Hcov He Hj Hr Hpr Hnm Hs Hfn Ha. apply triple_wp.
  iIntros "(HK & HE & Hb & Hname & HN & HR & HA)". rewrite /thread_start.
  iDestruct "HK" as "((%Hf & HV) & HK)". pose proof Hf as (Hs0 & Hs1 & Hs2).
  pose proof Hfit as (Hr0 & Hr1 & _).
  pose proof (malloc_kernel_pages_wp m start addr bs nx pstart paddr pbs [e] r [f] pbs' junk) as Hmalloc.
  simpl in Hmalloc. change (Z.of_nat 1) with 1 in Hmalloc.
  wp_bind. iApply (Hmalloc with "[HV HK] HE Hb"); [lia|done|done|done|by constructor|lia|by iFrame|].
  iIntros "HK HE Hb". wp_reduce. rewrite Hj.
  iApply (new_thread_wp with "Hb Hname HN HR HA");
    [|done|done|done|done|done|done|].
  { split_and!; [lia|fold p; unfold bits_of in *; lia|]. Z.div_mod_to_equations. lia. }
  iIntros "HT Hrest Hproc Hst Hname HN HR HA". fold p. rewrite bm_set_run_S /bm_set_run Z.add_0_r.
  iSplit; [done|]. iFrame "HK HE Hrest Hproc Hst Hname HN HR HA". done.
Qed.

(** The first switch to a new thread enters [kernel_thread] with the function
    to run and its argument, on a stack in the thread's own page. *)
Theorem thread_create_entry p t function args c :
  page_of p → t_sp t = p + 4096 → 0 <= function < 2 ^ 32 → 0 <= args < 2 ^ 32 →
  {{ tcb_at p t ∗ (p + 3664) ↦∗ replicate 32 0 }}
    (thread_create p function args ;;
     e <- switch_in p; f <- stack_arg 0; a <- stack_arg 1; curr <- running_thread;
     ret (e, f, a, curr)) @ c
  {{ r c', ⌜r = (Entry 0 0 0 0 (w32 fn_kernel_thread), function, args, p)⌝ ∗
           tcb_at p (set_t_sp (p + 3664) t) }}.
Proof.
  intros Hp Hsp Hf Ha. apply triple_wp. iIntros "[HT Hs]".
  wp_bind. iApply (thread_create_wp with "HT Hs"); [done..|]. iIntros "HT Hs". wp_reduce.
  iDestruct "HT" as "(%Hpg & Hsp & HT)". iDestruct "Hs" as "(H0 & H4 & H8 & H12 & H16 & H24 & H28)".
  wp_bind. rewrite /switch_in. iEval (rewrite /pcb_self_kernel_stack) in "Hsp". wp_ld "Hsp".
  wp_ld "H0". wp_ld "H4". wp_ld "H8". wp_ld "H12". wp_ld "H16". wp_pure. wp_pure.
  wp_bind. rewrite /stack_arg. wp_pure.
  iApply (wp_ld32 with "H24"); [simpl; unfold ts_function; lia|]. iIntros "H24". wp_reduce.
  wp_bind. rewrite /stack_arg. wp_pure.
  iApply (wp_ld32 with "H28"); [simpl; unfold ts_function_args; lia|]. iIntros "H28". wp_reduce.
  wp_bind. iApply running_thread_wp. wp_reduce. wp_pure. simpl. iFrame. iPureIntro.
  split; [|done]. rewrite land_frame; [|lia]. unfold frame_of.
  repeat f_equal. Z.div_mod_to_equations. lia.
Qed.

(** C38: [start_process] ends in user mode: at the program's first instruction, with
    user code and stack segments, interrupts on, no I/O privilege, and a stack
    of one fresh page right below the kernel's half of the address space.  A new
    process has no page table there ([create_page_dir] clears the user's half of the
    directory): one is allocated from the kernel's frames, put in the directory and
    cleared, and the stack's page is its only entry. *)
Theorem start_process_user_mode curr t start addr bs pstart paddr pbs f kstart kaddr kbs g d junk
    filename c :
  let r := (USER_STACK3_VADDR - start) / 4096 in
  Z.land (esp c) 0xfffff000 = curr → t_sp t = curr + 3664 → t_pgdir t ≠ 0 →
  0 <= filename < 2 ^ 32 → start <= USER_STACK3_VADDR → 0 < r < bits_of bs →
  first_free pbs = Some f → first_free kbs = Some g → present d = false → length junk = 4096%nat →
  {{ tcb_at curr t ∗ old_frame (curr + 3792) ∗ quiet_lock (pool_lock g_user_pool) 0 ∗
     is_vpool (pcb_userprog_vaddr curr) start addr bs ∗ is_pool g_user_pool pstart paddr pbs ∗
     is_pool g_kernel_pool kstart kaddr kbs ∗ pde_addr USER_STACK3_VADDR ↦w d ∗
     table_window USER_STACK3_VADDR ↦∗ junk }}
    (start_process filename) @ c
  {{ switch c',
     ⌜c' = log_event (EvIret filename 0x2b 0xc0000000 0x33) (set_esp 0xc0000000 (set_eflags 0x202 c)) ∧
      if_on c' = true⌝ ∗
     tcb_at curr t ∗ quiet_lock (pool_lock g_user_pool) 0 ∗
     is_vpool (pcb_userprog_vaddr curr) start addr (bm_set bs r true) ∗
     is_pool g_user_pool pstart paddr (bm_set pbs f true) ∗
     is_pool g_kernel_pool kstart kaddr (bm_set kbs g true) ∗
     pde_addr USER_STACK3_VADDR ↦w page_entry (kstart + 4096 * g) ∗
     table_of_one USER_STACK3_VADDR (page_entry (pstart + 4096 * f)) }}.
Proof.
  intros r Hcurr Hsp Hdir Hfn Hst Hr Hf Hg Hd Hj. apply triple_wp.
  iIntros "((%Hp & Hsp & HT) & HF & HL & HV & HP & HK & HD & HE)". rewrite Hsp /start_process.
  wp_bind. iApply running_thread_wp. rewrite Hcurr. wp_reduce. wp_ld "Hsp".
  change (4 * sizeof_thread_stack) with 128. rewrite w32_small; [|lia].
  replace (curr + 3664 + 128) with (curr + 3792) by lia. set (s := curr + 3792).
  iDestruct "HF" as "([%x1 F1] & [%x2 F2] & [%x3 F3] & [%x4 F4] & [%x5 F5] & [%x6 F6] & [%x7 F7] & [%x8 F8] &
    [%x9 F9] & [%x10 F10] & [%x11 F11] & [%x12 F12] & [%x13 F13] & [%x14 F14] & [%x15 F15] & [%x16 F16] & [%x17 F17])".
  wp_st "F6". wp_st "F7". wp_st "F5". wp_st "F8". wp_st "F4". wp_st "F2". wp_st "F1". wp_st "F3".
  wp_st "F14". wp_st "F10". wp_st "F12". wp_st "F9". wp_st "F13". wp_st "F17". wp_st "F11". wp_st "F15".
  iEval (rewrite -Hsp) in "Hsp". wp_bind. iApply (get_a_page_user_wp with "HL [$Hsp $HT //] HV HP HK HD HE");
    [done|lia|done|unfold USER_STACK3_VADDR in *; lia|done|done|done|done|done|].
  iIntros "HL HT HV HP HK HD HE". wp_reduce. wp_st "F16".
  rewrite /exit_intr. wp_ld "F13". wp_ld "F14". wp_ld "F15". wp_ld "F16". wp_ld "F17".
  do 3 wp_pure. iApply wp_yield. simpl. rewrite (w32_small filename); [|done]. iFrame "HL HV HP HK HD HE".
  iSplit; [|iFrame "HT"]. iPureIntro. by split.
Qed.

End properties.

(** ** Witnesses *)

#[local] Existing Instance link_map.

Lemma quiet_lock_cells l :
  sem_ok (lock_sem l) [] = true → cells (lock_cells l 0 1 0 []) ⊢ quiet_lock l 0.
Proof. intros Hl. by apply lock_cells_models. Qed.

(** What starting a thread needs besides its page: the name t1, the thread
    numbers and empty lists. *)
Definition demo_start : list (Z * list Z) :=
  [(0xc0008100, [116; 49; 0])] ++ [(g_main_thread_pcb_ptr, word_bytes 0xc009e000)] ++
  lock_cells g_pid_lock 0 1 0 [] ++ [(g_next_pid, [1; 0])] ++
  list_cells g_ready_thread_list [] ++ list_cells g_all_thread_list (pcb_all_list_tag <$> [0xc009e000]).

Lemma demo_start_models :
  cells demo_start ⊢
    cstr 0xc0008100 [116; 49] ∗ thread_numbers 0xc009e000 1 ∗ is_queue g_ready_thread_list [] ∗
    is_list g_all_thread_list (pcb_all_list_tag <$> [0xc009e000]).
Proof.
  unfold demo_start. rewrite !cells_app. iIntros "(Hn & Hm & HL & Hp & HR & HA)".
  rewrite cells_cons cells_word; [|done]. iDestruct "Hn" as "[Hn _]". iDestruct "Hm" as "[Hm _]".
  iSplitL "Hn". { rewrite /cstr. iFrame. iPureIntro. by repeat constructor. }
  iSplitL "Hm HL Hp".
  { rewrite quiet_lock_cells; [|vm_compute; reflexivity]. iFrame "Hm HL".
    rewrite cells_cons !bytes_cons /pt16. iDestruct "Hp" as "[($ & $ & _) _]". done. }
  iSplitL "HR"; (iApply list_cells_models; [vm_compute; reflexivity..|done]).
Qed.

Definition demo_page_mem (junk : list Z) : list (Z * list Z) :=
  demo_vpool ++ demo_pool 3 ++ demo_pde ++ [(pte_addr 0xc0101000, word_bytes 0); (0xc0101000, junk)].

Lemma thread_start_ready_witness :
  ∃ r h', exec (thread_start fn_idle 7 0xc0008100 10) cpu_a
      (mem_of (demo_page_mem (replicate 4096 7) ++ demo_start)) r h' ∧
    h' ⊨ (returns (λ a c', ⌜a = 0xc0101000⌝ ∗ is_queue g_ready_thread_list [0xc0101000] ∗
                   tcb_at 0xc0101000 (Tcb TASK_READY 10 10 0xc0101e50 0)) r).
Proof.
  edestruct (triple_run _ _ _ _ (mem_of (demo_page_mem (replicate 4096 7) ++ demo_start))
    (thread_start_ready {[768 := 0x101007]} 0xc0100000 0xc009a100 [1] 0 0x200000 0xc009a000 [3] 0 1 2
       [7] (replicate 4096 7) 0xc009e000 1 10 0xc0008100 [116; 49] [] [0xc009e000] fn_idle 7 cpu_a
       ltac:(apply demo_fit; lia) ltac:(vm_compute; reflexivity)
       ltac:(intros i Hi; simpl in Hi; replace i with 0 by lia; by eexists) eq_refl
       ltac:(by rewrite length_replicate)
       ltac:(by vm_compute) ltac:(lia) ltac:(lia) ltac:(simpl; lia) ltac:(by vm_compute) ltac:(lia)))
    as (r & h' & Hx & Hq).
  - eapply models_mono; [|apply mem_of_models; vm_compute; reflexivity].
    rewrite cells_app /demo_page_mem demo_page demo_start_models.
    iIntros "[($ & $ & $) ($ & $ & $ & $)]".
  - exists r, h'. split; [done|]. eapply models_mono; [|apply Hq].
    destruct r; simpl; [|by iIntros "[]"..].
    iIntros "([-> _] & _ & _ & $ & _ & _ & _ & _ & _ & $ & _)". done.
Defined.

Lemma thread_create_entry_witness :
  ∃ r h', exec (thread_create 0xc0101000 fn_idle 7 ;;
                e <- switch_in 0xc0101000; f <- stack_arg 0; a <- stack_arg 1;
                curr <- running_thread; ret (e, f, a, curr))%prog cpu_a
      (mem_of (tcb_cells (0xc0101000, Tcb TASK_READY 10 10 0xc0102000 0) ++
               [(0xc0101e50, replicate 32 0)])) r h' ∧
    h' ⊨ (returns (λ r c', ⌜r = (Entry 0 0 0 0 fn_kernel_thread, fn_idle, 7, 0xc0101000)⌝) r).
Proof.
  edestruct (triple_run _ _ _ _ (mem_of (tcb_cells (0xc0101000, Tcb TASK_READY 10 10 0xc0102000 0) ++
               [(0xc0101e50, replicate 32 0)]))
    (thread_create_entry 0xc0101000 (Tcb TASK_READY 10 10 0xc0102000 0) fn_idle 7 cpu_a
       ltac:(split_and!; done) eq_refl ltac:(by vm_compute) ltac:(lia))) as (r & h' & Hx & Hq).
  - eapply models_mono; [|apply mem_of_models; vm_compute; reflexivity].
    rewrite cells_app tcb_cells_models; [|vm_compute; reflexivity].
    rewrite cells_cons. iIntros "[$ [$ _]]".
  - exists r, h'. split; [done|]. eapply models_mono; [|apply Hq].
    destruct r; simpl; [|by iIntros "[]"..]. iIntros "[-> _]". done.
Defined.

(** A process about to enter its program at 0x8048000. *)
Definition demo_process : tcb := Tcb TASK_RUNNING 31 31 0xc009ee50 0xc0105000.

Definition demo_user : list (Z * list Z) :=
  tcb_cells (0xc009e000, demo_process) ++ [(0xc009eed0, replicate 76 0)] ++
  lock_cells (pool_lock g_user_pool) 0 1 0 [] ++
  vpool_cells (pcb_userprog_vaddr 0xc009e000) 0xbfffe000 0xc0106000 [0] ++
  pool_cells g_user_pool 0x300000 0xc009b000 [1] ++ demo_pool 7 ++
  [(pde_addr USER_STACK3_VADDR, word_bytes 0); (table_window USER_STACK3_VADDR, replicate 4096 9)].

(** The page directory has no table for the stack: frame 0x203000 becomes it. *)
Lemma start_process_user_mode_witness :
  ∃ r h', exec (start_process 0x8048000) cpu_a (mem_of demo_user) r h' ∧
    h' ⊨ (switches (λ c', ⌜trace c' = [EvIret 0x8048000 0x2b 0xc0000000 0x33]⌝ ∗
                    pde_addr USER_STACK3_VADDR ↦w 0x203007 ∗
                    table_of_one USER_STACK3_VADDR 0x301007) r).
Proof.
  edestruct (triple_run _ _ _ _ (mem_of demo_user)
    (start_process_user_mode 0xc009e000 demo_process 0xbfffe000 0xc0106000 [0]
       0x300000 0xc009b000 [1] 1 0x200000 0xc009a000 [7] 3 0 (replicate 4096 9) 0x8048000 cpu_a
       eq_refl eq_refl ltac:(done) ltac:(lia)
       ltac:(by vm_compute) ltac:(by vm_compute) ltac:(vm_compute; reflexivity)
       ltac:(vm_compute; reflexivity) eq_refl ltac:(by rewrite length_replicate)))
    as (r & h' & Hx & Hq).
  - eapply models_mono; [|apply mem_of_models; vm_compute; reflexivity].
    unfold demo_user. do 6 rewrite cells_app. rewrite tcb_cells_models; [|vm_compute; reflexivity].
    rewrite cells_cons zeroed_frame quiet_lock_cells; [|vm_compute; reflexivity].
    rewrite vpool_cells_models; [|vm_compute; reflexivity].
    rewrite pool_cells_models; [|vm_compute; reflexivity].
    rewrite demo_pool_models cells_word; [|done]. rewrite cells_cons.
    iIntros "(HT & [HF _] & HL & HV & HP & HK & HD & HW & _)".
    iSplitL "HT"; [iExact "HT"|]. iSplitL "HF"; [iExact "HF"|]. iSplitL "HL"; [iExact "HL"|].
    iSplitL "HV"; [iExact "HV"|]. iSplitL "HP"; [iExact "HP"|]. iSplitL "HK"; [iExact "HK"|].
    iSplitL "HD"; [iExact "HD"|iExact "HW"].
  - exists r, h'. split; [exact Hx|]. eapply models_mono; [|apply Hq].
    destruct r; cbn [switches]; [by iIntros "[]"| |by iIntros "[]"..].
    iIntros "([-> _] & _ & _ & _ & _ & _ & HD & HW)".
    iSplitR; [done|]. iSplitL "HD"; [iExact "HD"|iExact "HW"].
Defined.
