(* ===== verification/Device.v ===== *)
(** The character devices: device/timer.c, device/console.c,
    device/ioqueue.c and device/keyboard.c. *)
From S2P Require Export Sync.

(** ** device/timer.c *)

Definition IRQ0_FREQUENCY : Z := 100.
Definition INPUT_FREQUENCY : Z := 1193180.
Definition COUNTER_RO_VALUE : Z := INPUT_FREQUENCY / IRQ0_FREQUENCY.
Definition COUNTER_R0_PORT : Z := 0x40.
Definition COUNTER_RO_NO : Z := 0.
Definition COUNTER_MODE : Z := 2.
Definition READ_WRITE_LATCH : Z := 3.
Definition PIT_CONTROL_PORT : Z := 0x43.

(** Every parameter is a [uint8_t]. *)
Definition frequency_set (counter_port counter_no rwl counter_mode counter_value : Z) : M unit :=
  let counter_port := w8 counter_port in
  let counter_no := w8 counter_no in
  let rwl := w8 rwl in
  let counter_mode := w8 counter_mode in
  let counter_value := w8 counter_value in
  out_byte PIT_CONTROL_PORT
    (Z.lor (Z.lor (Z.shiftl counter_no 6) (Z.shiftl rwl 4)) (Z.shiftl counter_mode 1)) ;;
  out_byte counter_port counter_value ;;
  out_byte counter_port (Z.shiftr counter_value 8).

Section device.
Context `{Symbols}.

Definition timer_init : M unit :=
  frequency_set COUNTER_R0_PORT COUNTER_RO_NO READ_WRITE_LATCH COUNTER_MODE COUNTER_RO_VALUE ;;
  st32 g_ticks 0 ;;
  register_handler 0x20 fn_intr_timer_handler ;;
  putStr "timer init done\n".

Definition ticks_to_sleep (sleep_ticks : Z) : M unit :=
  start_ticks <- ld32 g_ticks;
  loop (λ _ : unit,
    ticks <- ld32 g_ticks;
    if w32 (ticks - start_ticks) >? sleep_ticks then thread_yield ;; ret (inl tt)
    else ret (inr tt)) tt.

Definition mtime_sleep (m_seconds : Z) : M unit :=
  let frequency := 1000 / IRQ0_FREQUENCY in
  ASSERT (frequency >=? 0) "device/timer.c" 66 "mtime_sleep" "frequency >= 0" ;;
  let ticks := w32 (m_seconds + frequency - 1) / frequency in
  ticks_to_sleep ticks.

(** ** device/console.c *)

Definition console_init : M unit := lock_init g_console_lock.
Definition console_acquire : M unit := lock_acquire g_console_lock.
Definition console_release : M unit := lock_release g_console_lock.

Definition console_put_str (str : Z) : M unit :=
  console_acquire ;; putStrAt str ;; console_release.

(** The character is passed where an address is expected. *)
Definition console_putChar (ch : Z) : M unit :=
  console_acquire ;; putStrAt (w8 ch) ;; console_release.

Definition console_put_int (num : Z) : M unit :=
  console_acquire ;; putInt num ;; console_release.

(** ** device/ioqueue.c: struct ioqueue *)

Definition buf_size : Z := 64.
Definition ioq_io_lock (q : Z) : Z := q.
Definition ioq_producer (q : Z) : Z := q + 28.
Definition ioq_consumer (q : Z) : Z := q + 32.
Definition ioq_buf (q : Z) : Z := q + 36.
Definition ioq_head (q : Z) : Z := q + 100.
Definition ioq_tail (q : Z) : Z := q + 104.

Definition ioqueue_init (queue : Z) : M unit :=
  lock_init (ioq_io_lock queue) ;;
  st32 (ioq_producer queue) 0 ;; st32 (ioq_consumer queue) 0 ;;
  st32 (ioq_tail queue) 0 ;; st32 (ioq_head queue) 0.

Definition next_pos (pos : Z) : Z := w32 (pos + 1) mod buf_size.

Definition ioqueue_is_full (queue : Z) : M bool :=
  status <- get_intr_status;
  ASSERT (status =? INTR_OFF) "device/ioqueue.c" 18 "ioqueue_is_full"
    "get_intr_status() == INTR_OFF" ;;
  head <- ld32 (ioq_head queue);
  tail <- ld32 (ioq_tail queue);
  ret (next_pos head =? tail).

Definition ioqueue_is_empty (queue : Z) : M bool :=
  head <- ld32 (ioq_head queue);
  tail <- ld32 (ioq_tail queue);
  ret (head =? tail).

Definition ioq_wait (waiter : Z) : M unit :=
  ok <- (if negb (waiter =? 0) then w <- ld32 waiter; ret (w =? 0) else ret false);
  ASSERT ok "device/ioqueue.c" 29 "ioq_wait" "waiter != 0 && (*waiter == 0)" ;;
  curr <- running_thread;
  st32 waiter curr ;;
  thread_lock TASK_BLOCKED.

Definition ioq_wakeup (waiter : Z) : M unit :=
  w <- ld32 waiter;
  ASSERT (negb (w =? 0)) "device/ioqueue.c" 36 "ioq_wakeup" "*waiter != 0" ;;
  w <- ld32 waiter;
  thread_unlock w ;;
  st32 waiter 0.

(** Waiting, in both directions, until [blocked] is false. *)
Definition ioq_block (ioq : Z) (blocked : M bool) (waiter : Z) : M unit :=
  loop (λ _ : unit,
    b <- blocked;
    if (b : bool) then
      lock_acquire (ioq_io_lock ioq) ;;
      ioq_wait waiter ;;
      lock_release (ioq_io_lock ioq) ;;
      ret (inl tt)
    else ret (inr tt)) tt.

(** The waiter is woken through the thread's own address, not through the
    address of the field that holds it. *)
Definition ioq_getchar (ioq : Z) : M Z :=
  status <- get_intr_status;
  ASSERT (status =? INTR_OFF) "device/ioqueue.c" 43 "ioq_getchar"
    "get_intr_status() == INTR_OFF" ;;
  ioq_block ioq (ioqueue_is_empty ioq) (ioq_consumer ioq) ;;
  tail <- ld32 (ioq_tail ioq);
  byte <- ld8 (ioq_buf ioq + s32 tail);
  tail <- ld32 (ioq_tail ioq);
  st32 (ioq_tail ioq) (next_pos tail) ;;
  producer <- ld32 (ioq_producer ioq);
  when (negb (producer =? 0)) (producer <- ld32 (ioq_producer ioq); ioq_wakeup producer) ;;
  ret (s8 byte).

Definition ioq_putchar (ioq byte : Z) : M unit :=
  status <- get_intr_status;
  ASSERT (status =? INTR_OFF) "device/ioqueue.c" 61 "ioq_putchar"
    "get_intr_status() == INTR_OFF" ;;
  ioq_block ioq (ioqueue_is_full ioq) (ioq_producer ioq) ;;
  head <- ld32 (ioq_head ioq);
  st8 (ioq_buf ioq + s32 head) byte ;;
  head <- ld32 (ioq_head ioq);
  st32 (ioq_head ioq) (next_pos head) ;;
  consumer <- ld32 (ioq_consumer ioq);
  when (negb (consumer =? 0)) (consumer <- ld32 (ioq_consumer ioq); ioq_wakeup consumer).

(** ** device/keyboard.c *)

Definition KBD_BUF_PORT : Z := 0x60.
Definition shift_l_make : Z := 0x2a.
Definition shift_r_make : Z := 0x36.
Definition alt_l_make : Z := 0x38.
Definition alt_r_make : Z := 0xe038.
Definition ctrl_l_make : Z := 0x1d.
Definition ctrl_r_make : Z := 0xe01d.

(** The rows of [keymap]: the character without and with shift; 0 for keys
    without one. *)
Definition keymap : list (Z * Z) :=
  [(0, 0); (27, 27);
   (49, 33); (50, 64); (51, 35); (52, 36); (53, 37); (54, 94); (55, 38); (56, 42); (57, 40);
   (48, 41); (45, 95); (61, 43); (8, 8); (9, 9);
   (113, 81); (119, 87); (101, 69); (114, 82); (116, 84); (121, 89); (117, 85); (105, 73);
   (111, 79); (112, 80); (91, 123); (93, 125); (13, 13); (0, 0);
   (97, 65); (115, 83); (100, 68); (102, 70); (103, 71); (104, 72); (106, 74); (107, 75);
   (108, 76); (59, 58); (39, 34); (96, 126); (0, 0); (92, 124);
   (122, 90); (120, 88); (99, 67); (118, 86); (98, 66); (110, 78); (109, 77); (44, 60);
   (46, 62); (47, 63); (0, 0); (42, 42); (0, 0); (32, 32); (0, 0)].

(** [keymap[index][shift]]; the indices that reach it are below 0x3b. *)
Definition keymap_char (index : Z) (shift : bool) : Z :=
  let '(plain, shifted) := default (0, 0) (keymap !! Z.to_nat index) in
  if shift then shifted else plain.

(** Keys for which only shift, not alt, matters. *)
Definition two_char_key (scancode : Z) : bool :=
  (scancode <? 0x0e) || (scancode =? 0x29) || (scancode =? 0x1a) || (scancode =? 0x1b) ||
  (scancode =? 0x2b) || (scancode =? 0x27) || (scancode =? 0x28) || (scancode =? 0x33) ||
  (scancode =? 0x34) || (scancode =? 0x35).

Definition shift_of (scancode shift_down_last alt_down_last : Z) : bool :=
  if two_char_key scancode then shift_down_last =? 1
  else if negb (shift_down_last =? 0) && negb (alt_down_last =? 0) then false
  else negb (shift_down_last =? 0) || negb (alt_down_last =? 0).

Definition keyboard_break (scancode : Z) : M unit :=
  let make_code := Z.land scancode 0xff7f in
  if (make_code =? ctrl_l_make) || (make_code =? ctrl_r_make) then st32 g_ctrl_status 0
  else if (make_code =? shift_l_make) || (make_code =? shift_r_make) then st32 g_shift_status 0
  else when ((make_code =? alt_l_make) || (make_code =? alt_r_make)) (st32 g_alt_status 0).

Definition keyboard_make (scancode shift_down_last alt_down_last : Z) : M unit :=
  let index := w8 (Z.land scancode 0x00ff) in
  let ch := keymap_char index (shift_of scancode shift_down_last alt_down_last) in
  when (negb (ch =? 0))
    (full <- ioqueue_is_full g_kdb_buf;
     when (negb full) (putChar ch ;; ioq_putchar g_kdb_buf ch)).

Definition intr_keyboard_handler : M unit :=
  ctrl_down_last <- ld32 g_ctrl_status;
  shift_down_last <- ld32 g_shift_status;
  alt_down_last <- ld32 g_alt_status;
  scancode <- in_byte KBD_BUF_PORT;
  if scancode =? 0xe0 then st32 g_ext_scancode 1
  else
    ext_scancode <- ld32 g_ext_scancode;
    scancode <- (if ext_scancode =? 1 then
                   st32 g_ext_scancode 0 ;; ret (Z.lor scancode 0xe000)
                 else ret scancode);
    let is_breakcode := negb (Z.land scancode 0x0080 =? 0) in
    if is_breakcode then keyboard_break scancode
    else if ((scancode >? 0x00) && (scancode <? 0x3b)) ||
            ((scancode =? alt_r_make) && (scancode =? ctrl_l_make)) then
      keyboard_make scancode shift_down_last alt_down_last
    else putStr "unknow char\n".

Definition keyboard_init : M unit :=
  putStr "keyboard init \n" ;;
  ioqueue_init g_kdb_buf ;;
  register_handler 0x21 fn_intr_keyboard_handler ;;
  putStr "keyboard init done \n".

End device.

(** ** Representation *)

(** A queue holding the bytes [xs], with threads waiting at both ends
    (0: none). *)
Definition is_ioq (q producer consumer : Z) (xs : list Z) : hPropI :=
  (∃ buf t, ⌜length buf = 64%nat ∧ 0 <= t < 64 ∧ (length xs <= 63)%nat ∧
              ∀ i x, xs !! i = Some x → buf !! Z.to_nat ((t + Z.of_nat i) mod 64) = Some x⌝ ∗
   ioq_producer q ↦w producer ∗ ioq_consumer q ↦w consumer ∗ ioq_buf q ↦∗ buf ∗
   ioq_head q ↦w ((t + Z.of_nat (length xs)) mod 64) ∗ ioq_tail q ↦w t)%I.

Lemma next_pos_eq p : 0 <= p < 64 → next_pos p = (p + 1) mod 64.
Proof. intros Hp. unfold next_pos, buf_size. rewrite w32_small //. lia. Qed.

Section spec.
Context `{Symbols}.
Implicit Types (c : cpu) (xs : list Z).

Lemma ioqueue_is_full_wp q pr co xs c (Φ : res bool → hPropI) :
  if_on c = false → is_ioq q pr co xs -∗
  (is_ioq q pr co xs -∗ Φ (RRet (bool_decide (length xs = 63%nat)) c)) -∗
  wp (ioqueue_is_full q) c Φ.
Proof.
  iIntros (Hoff) "(%buf & %t & %Hq & Hp & Hc & Hb & Hh & Ht) HΦ". rewrite /ioqueue_is_full.
  wp_bind. iApply wp_get_intr_status. rewrite Hoff. wp_reduce.
  wp_bind. iApply wp_assert; [done|]. wp_reduce. wp_ld "Hh". wp_ld "Ht". wp_pure.
  destruct Hq as (Hl & Ht & Hx & Hq).
  rewrite next_pos_eq; [|apply Z.mod_pos_bound; lia].
  replace (((t + length xs) mod 64 + 1) mod 64 =? t) with (bool_decide (length xs = 63%nat)).
  - iApply "HΦ". iExists buf, t. by iFrame.
  - case_bool_decide; symmetry; [apply Z.eqb_eq|apply Z.eqb_neq]; Z.div_mod_to_equations; lia.
Qed.

Lemma ioqueue_is_empty_wp q pr co xs c (Φ : res bool → hPropI) :
  is_ioq q pr co xs -∗
  (is_ioq q pr co xs -∗ Φ (RRet (bool_decide (xs = [])) c)) -∗
  wp (ioqueue_is_empty q) c Φ.
Proof.
  iIntros "(%buf & %t & %Hq & Hp & Hc & Hb & Hh & Ht) HΦ". rewrite /ioqueue_is_empty.
  wp_ld "Hh". wp_ld "Ht". wp_pure. destruct Hq as (Hl & Ht & Hx & Hq).
  replace ((t + length xs) mod 64 =? t) with (bool_decide (xs = [])).
  - iApply "HΦ". iExists buf, t. by iFrame.
  - case_bool_decide as Hnil; symmetry; [apply Z.eqb_eq|apply Z.eqb_neq].
    + subst xs. simpl. Z.div_mod_to_equations; lia.
    + destruct xs; [done|]. simpl in *. Z.div_mod_to_equations; lia.
Qed.

(** Nothing to wait for. *)
Lemma ioq_block_wp (R : hPropI) ioq blocked waiter c (Φ : res unit → hPropI) :
  (R ⊢ wp blocked c (returns (λ b c', ⌜b = false ∧ c' = c⌝ ∗ R)%I)) →
  R -∗ (R -∗ Φ (RRet tt c)) -∗ wp (ioq_block ioq blocked waiter) c Φ.
Proof.
  intros Hb. iIntros "HR HΦ". rewrite /ioq_block. iApply wp_loop_start. iApply wp_loop_step.
  wp_bind. iApply (wp_wand with "[HR]"); [by iApply Hb|].
  iIntros ([b c'|?|?|? ?]) "H //=". iDestruct "H" as "[[-> ->] HR]". wp_pure. by iApply "HΦ".
Qed.

(** A byte goes in at the end. *)
Lemma ioq_putchar_wp q pr xs x c (Φ : res unit → hPropI) :
  if_on c = false → (length xs < 63)%nat → is_ioq q pr 0 xs -∗
  (is_ioq q pr 0 (xs ++ [w8 x]) -∗ Φ (RRet tt c)) -∗ wp (ioq_putchar q x) c Φ.
Proof.
  iIntros (Hoff Hlen) "HQ HΦ". rewrite /ioq_putchar.
  wp_bind. iApply wp_get_intr_status. rewrite Hoff. wp_reduce.
  wp_bind. iApply wp_assert; [done|]. wp_reduce.
  wp_bind. iApply (ioq_block_wp (is_ioq q pr 0 xs) with "HQ").
  { iIntros "HQ". iApply (ioqueue_is_full_wp with "HQ"); [done|]. iIntros "HQ /=". iFrame.
    iPureIntro. split; [|done]. apply bool_decide_false. lia. }
  iIntros "(%buf & %t & %Hq & Hp & Hc & Hb & Hh & Ht)". wp_reduce. destruct Hq as (Hl & Ht & Hx & Hq).
  assert (0 <= (t + length xs) mod 64 < 64) by (apply Z.mod_pos_bound; lia).
  wp_ld "Hh". rewrite s32_small; [|lia].
  destruct (lookup_lt_is_Some_2 buf (Z.to_nat ((t + length xs) mod 64))) as [b Hbuf]; [lia|].
  iDestruct (bytes_acc with "Hb") as "[Hc1 Hb]"; [done|]. wp_stb "Hc1".
  iDestruct ("Hb" with "Hc1") as "Hb". wp_ld "Hh". wp_st "Hh".
  rewrite next_pos_eq // w32_small; [|assert (0 <= ((t + length xs) mod 64 + 1) mod 64 < 64)
    by (apply Z.mod_pos_bound; lia); lia].
  wp_ld "Hc". iApply wp_when. simpl. iApply "HΦ". iExists _, t. iFrame "Hp Hc Hb Ht". iSplit.
  - iPureIntro. split_and!; [by rewrite length_insert|lia|lia|rewrite length_app /=; lia|].
    intros i y Hi. destruct (decide (i = length xs)) as [->|Hne].
    + rewrite lookup_app_r // Nat.sub_diag in Hi. simplify_eq/=. by rewrite list_lookup_insert_eq; [|lia].
    + assert (i < length xs)%nat.
      { apply lookup_lt_Some in Hi. rewrite length_app /= in Hi. lia. }
      rewrite lookup_app_l // in Hi. rewrite list_lookup_insert_ne; [by apply Hq|].
      intros E. assert ((t + length xs) mod 64 = (t + i) mod 64) by
        (assert (0 <= (t + i) mod 64 < 64) by (apply Z.mod_pos_bound; lia); lia).
      Z.div_mod_to_equations; lia.
  - replace (((t + length xs) mod 64 + 1) mod 64) with ((t + length (xs ++ [w8 x])) mod 64); [done|].
    rewrite length_app /=. Z.div_mod_to_equations; lia.
Qed.

(** The first byte comes out. *)
Lemma ioq_getchar_wp q co x xs c (Φ : res Z → hPropI) :
  if_on c = false → is_ioq q 0 co (x :: xs) -∗
  (is_ioq q 0 co xs -∗ Φ (RRet (s8 x) c)) -∗ wp (ioq_getchar q) c Φ.
Proof.
  iIntros (Hoff) "HQ HΦ". rewrite /ioq_getchar.
  wp_bind. iApply wp_get_intr_status. rewrite Hoff. wp_reduce.
  wp_bind. iApply wp_assert; [done|]. wp_reduce.
  wp_bind. iApply (ioq_block_wp (is_ioq q 0 co (x :: xs)) with "HQ").
  { iIntros "HQ". iApply (ioqueue_is_empty_wp with "HQ"). iIntros "HQ /=". by iFrame. }
  iIntros "(%buf & %t & %Hq & Hp & Hc & Hb & Hh & Ht)". wp_reduce. destruct Hq as (Hl & Ht & Hx & Hq).
  wp_ld "Ht". rewrite s32_small; [|lia].
  pose proof (Hq 0%nat x eq_refl) as Hx0. rewrite Z.add_0_r Z.mod_small // in Hx0.
  iDestruct (bytes_acc with "Hb") as "[Hb1 Hb]"; [done|]. wp_ldb "Hb1".
  iDestruct ("Hb" with "Hb1") as "Hb". rewrite list_insert_id //. wp_ld "Ht". wp_st "Ht".
  assert (0 <= (t + 1) mod 64 < 64) by (apply Z.mod_pos_bound; lia).
  rewrite next_pos_eq // w32_small; [|lia]. wp_ld "Hp". wp_bind. iApply wp_when. simpl. wp_pure.
  iApply "HΦ". iExists buf, ((t + 1) mod 64). iFrame "Hp Hc Hb Ht". iSplit.
  - iPureIntro. split_and!; [done|lia|lia|simpl in Hx; lia|]. intros i y Hi.
    pose proof (Hq (S i) y Hi) as Hy.
    replace (((t + 1) mod 64 + i) mod 64) with ((t + S i) mod 64); [done|].
    Z.div_mod_to_equations; lia.
  - replace (((t + 1) mod 64 + length xs) mod 64) with ((t + length (x :: xs)) mod 64); [done|].
    simpl. Z.div_mod_to_equations; lia.
Qed.

(** The calls of the two ends, and the queue of at most 63 bytes they make of
    the ring.  To put a byte in a full queue, or to take one from an empty one,
    is to wait: the abstract queue has no such call. *)
Inductive ioq_call := Put (x : Z) | Get | IsFull | IsNone.

Definition ioq_prog (q : Z) (x : ioq_call) : M Z :=
  match x with
  | Put x => ioq_putchar q x ;; ret 0
  | Get => ioq_getchar q
  | IsFull => b <- ioqueue_is_full q; ret (b2z b)
  | IsNone => b <- ioqueue_is_empty q; ret (b2z b)
  end.

Definition ioq_spec (x : ioq_call) (xs : list Z) : option (Z * list Z) :=
  match x with
  | Put x => if decide (length xs < 63)%nat then Some (0, xs ++ [w8 x]) else None
  | Get => match xs with [] => None | x :: xs => Some (s8 x, xs) end
  | IsFull => Some (b2z (bool_decide (length xs = 63%nat)), xs)
  | IsNone => Some (b2z (bool_decide (xs = [])), xs)
  end.

Definition ioq_repr (q : Z) (c0 : cpu) (xs : list Z) (c : cpu) : hPropI :=
  (⌜c = c0 ∧ if_on c0 = false⌝ ∗ is_ioq q 0 0 xs)%I.

#[export] Instance ioq_refines q c0 : Refines (ioq_prog q) ioq_spec (ioq_repr q c0).
Proof.
  intros x xs v xs' c Φ Hs. unfold ioq_spec, ioq_repr, ioq_prog in *.
  iIntros "([-> %Hoff] & HQ) HΦ".
  destruct x; [destruct (decide _); [|done]|destruct xs; [done|]|..]; simplify_eq.
  - wp_bind. iApply (ioq_putchar_wp with "HQ"); [done..|]. iIntros "HQ". wp_reduce. wp_pure.
    iApply "HΦ". by iFrame.
  - iApply (ioq_getchar_wp with "HQ"); [done|]. iIntros "HQ". iApply "HΦ". by iFrame.
  - wp_bind. iApply (ioqueue_is_full_wp with "HQ"); [done|]. iIntros "HQ". wp_reduce. wp_pure.
    iApply "HΦ". by iFrame.
  - wp_bind. iApply (ioqueue_is_empty_wp with "HQ"). iIntros "HQ". wp_reduce. wp_pure.
    iApply "HΦ". by iFrame.
Qed.

(** Sleeping returns at once. *)
Lemma mtime_sleep_wp ms t c (Φ : res unit → hPropI) :
  0 <= ms < 2 ^ 32 →
  g_ticks ↦w t -∗ (g_ticks ↦w t -∗ Φ (RRet tt c)) -∗ wp (mtime_sleep ms) c Φ.
Proof.
  iIntros (Hms) "Ht HΦ". rewrite /mtime_sleep.
  wp_bind. iApply wp_assert; [reflexivity|]. wp_reduce. rewrite /ticks_to_sleep. wp_ld "Ht".
  iApply wp_loop_start. iApply wp_loop_step. wp_ld "Ht". rewrite Z.sub_diag.
  change (w32 0) with 0. rewrite Z.gtb_ltb (proj2 (Z.ltb_ge _ _)); [|].
  - wp_pure. by iApply "HΦ".
  - change (1000 / IRQ0_FREQUENCY) with 10. apply Z.div_pos; [|lia].
    pose proof (w32_range (ms + 10 - 1)). lia.
Qed.

End spec.

(** ** What a scancode does, with no modifier recorded *)

(** The character a scancode puts in the buffer, [ext] telling whether the
    prefix 0xe0 came before it. *)
Definition key_char (s ext : Z) : list Z :=
  if (s =? 0xe0) || (ext =? 1) || negb ((0 <? s) && (s <? 0x3b)) then []
  else let ch := keymap_char s false in if ch =? 0 then [] else [ch].

Definition key_ext (s ext : Z) : Z := if s =? 0xe0 then 1 else if ext =? 1 then 0 else ext.

Definition modifiers `{Symbols} (ctrl shift alt : Z) : hPropI :=
  (g_ctrl_status ↦w ctrl ∗ g_shift_status ↦w shift ∗ g_alt_status ↦w alt)%I.

(** No key of [keymap] has a character outside a byte. *)
Lemma keymap_char_byte i b : 0 <= keymap_char i b < 256.
Proof.
  unfold keymap_char. destruct (keymap !! Z.to_nat i) as [[p q]|] eqn:E; simpl.
  - apply list_elem_of_lookup_2 in E.
    assert (forallb (λ pq, (0 <=? pq.1) && (pq.1 <? 256) && (0 <=? pq.2) && (pq.2 <? 256)) keymap = true)
      as Hall by (vm_compute; reflexivity).
    rewrite forallb_forall in Hall. apply list_elem_of_In in E. apply Hall in E. simpl in E.
    destruct b; lia.
  - destruct b; lia.
Qed.

Lemma land_break s : 0 <= s < 256 → negb (Z.land s 0x0080 =? 0) = (0x80 <=? s).
Proof.
  intros Hs. change 0x0080 with (2 ^ 7). rewrite land_pow2_eqb // negb_involutive.
  rewrite Z.testbit_odd Z.shiftr_div_pow2 //. change (2 ^ 7) with 128.
  assert (s / 128 = 0 ∨ s / 128 = 1) as [E|E] by (Z.div_mod_to_equations; lia); rewrite E; simpl;
    symmetry; [apply Z.leb_gt|apply Z.leb_le]; Z.div_mod_to_equations; lia.
Qed.

Section keyboard.
Context `{Symbols}.
Implicit Types (c : cpu) (xs : list Z).

Lemma keyboard_break_wp s c (Φ : res unit → hPropI) :
  modifiers 0 0 0 -∗ (modifiers 0 0 0 -∗ Φ (RRet tt c)) -∗ wp (keyboard_break s) c Φ.
Proof.
  iIntros "(Hc & Hs & Ha) HΦ". rewrite /keyboard_break.
  destruct (_ || _); [wp_st "Hc"; iApply "HΦ"; by iFrame|].
  destruct (_ || _); [wp_st "Hs"; iApply "HΦ"; by iFrame|].
  iApply wp_when. destruct (_ || _); [wp_st "Ha"|]; iApply "HΦ"; by iFrame.
Qed.

(** With no modifier down a make code delivers the first column of [keymap]. *)
Lemma keyboard_make_wp s pr xs c (Φ : res unit → hPropI) :
  if_on c = false → 0 <= s < 256 → is_ioq g_kdb_buf pr 0 xs -∗
  (∀ c', ⌜if_on c' = false⌝ -∗
     is_ioq g_kdb_buf pr 0 (xs ++ (if bool_decide (length xs = 63%nat) then []
       else if keymap_char s false =? 0 then [] else [keymap_char s false])) -∗ Φ (RRet tt c')) -∗
  wp (keyboard_make s 0 0) c Φ.
Proof.
  iIntros (Hoff Hs) "HQ HΦ". rewrite /keyboard_make.
  assert (shift_of s 0 0 = false) as -> by (unfold shift_of; by destruct (two_char_key s)).
  change 0x00ff with (Z.ones 8). rewrite Z.land_ones // Z.mod_small // w8_small //.
  pose proof (keymap_char_byte s false). iApply wp_when.
  destruct (Z.eqb_spec (keymap_char s false) 0) as [E|E]; simpl.
  { iApply ("HΦ" with "[//]"). case_bool_decide; by rewrite app_nil_r. }
  wp_bind. iApply (ioqueue_is_full_wp with "HQ"); [done|]. iIntros "HQ". wp_reduce.
  iApply wp_when. case_bool_decide as Hfull; simpl.
  { iApply ("HΦ" with "[//]"). by rewrite app_nil_r. }
  rewrite /putChar. wp_pure.
  iDestruct "HQ" as (buf t) "(%Hq & HQ)". destruct Hq as (Hl & Ht & Hx & Hq).
  iApply (ioq_putchar_wp _ pr xs with "[HQ]"); [done|lia|by iExists buf, t; iFrame|].
  iIntros "HQ". rewrite w8_small //. by iApply ("HΦ" with "[%]").
Qed.

End keyboard.

(** ** Properties *)

Section properties.
Context `{Symbols}.
Implicit Types (c : cpu) (xs : list Z).

(** The buffer between an interrupt handler and its readers is a queue, at
    every fill and at every position of its ring: what is put in with room
    left comes out after everything that was there. *)
Theorem ioqueue_fifo q x xs y c :
  if_on c = false → (length xs < 62)%nat →
  {{ is_ioq q 0 0 (x :: xs) }} (ioq_putchar q y ;; ioq_getchar q) @ c
  {{ r c', ⌜r = s8 x ∧ c' = c⌝ ∗ is_ioq q 0 0 (xs ++ [w8 y]) }}.
Proof.
  intros Hoff Hl. apply triple_wp. iIntros "HQ". wp_bind.
  iApply (ioq_putchar_wp with "HQ"); [done|simpl; lia|]. iIntros "HQ". wp_reduce.
  iApply (ioq_getchar_wp with "HQ"); [done|]. iIntros "HQ /=". by iFrame.
Qed.

(** C22: The ring of 64 bytes is a queue of at most 63: any calls of its two ends,
    none of which has to wait, give what they would on a list, wherever the
    ring starts and however often it wraps. *)
Theorem ioqueue_refines_queue q calls xs vs xs' c :
  spec_all ioq_spec calls xs = Some (vs, xs') →
  {{ ioq_repr q c xs c }} (run_all (ioq_prog q) calls) @ c
  {{ r c', ⌜r = vs⌝ ∗ ioq_repr q c xs' c' }}.
Proof.
  intros Hs. apply triple_wp. iIntros "HR". iApply (refines_all with "HR"); [done|].
  iIntros (c') "HR". cbn [returns]. by iFrame.
Qed.

(** C37: A reader that finds a producer waiting does not wake it: it takes the
    producer's saved stack pointer for a thread and stops the system, unless
    the stack happens to look like a blocked thread. *)
Theorem ioq_getchar_misses_producer q pr ksp st x xs co c :
  if_on c = false → pr ≠ 0 → ksp ≠ 0 → may_stop st = false →
  {{ is_ioq q pr co (x :: xs) ∗ pcb_self_kernel_stack pr ↦w ksp ∗ pcb_status ksp ↦w st }}
    (ioq_getchar q) @ c
  {{ panic c', is_ioq q pr co xs ∗ pcb_self_kernel_stack pr ↦w ksp }}.
Proof.
  intros Hoff Hpr Hksp Hst. apply triple_wp. iIntros "(HQ & Hk & Hs)". rewrite /ioq_getchar.
  wp_bind. iApply wp_get_intr_status. rewrite Hoff. wp_reduce.
  wp_bind. iApply wp_assert; [done|]. wp_reduce.
  wp_bind. iApply (ioq_block_wp (is_ioq q pr co (x :: xs)) with "HQ").
  { iIntros "HQ". iApply (ioqueue_is_empty_wp with "HQ"). iIntros "HQ /=". by iFrame. }
  iIntros "(%buf & %t & %Hq & Hp & Hc & Hb & Hh & Ht)". wp_reduce. destruct Hq as (Hl & Ht & Hx & Hq).
  wp_ld "Ht". rewrite s32_small; [|lia].
  pose proof (Hq 0%nat x eq_refl) as Hx0. rewrite Z.add_0_r Z.mod_small // in Hx0.
  iDestruct (bytes_acc with "Hb") as "[Hb1 Hb]"; [done|]. wp_ldb "Hb1".
  iDestruct ("Hb" with "Hb1") as "Hb". rewrite list_insert_id //. wp_ld "Ht". wp_st "Ht".
  assert (0 <= (t + 1) mod 64 < 64) by (apply Z.mod_pos_bound; lia).
  rewrite next_pos_eq // w32_small; [|lia]. wp_ld "Hp". wp_bind. iApply wp_when.
  rewrite (proj2 (Z.eqb_neq pr 0)) //. wp_reduce. wp_ld "Hp".
  rewrite /ioq_wakeup. iEval (rewrite /pcb_self_kernel_stack) in "Hk". wp_ld "Hk".
  wp_bind. iApply wp_assert; [by rewrite (proj2 (Z.eqb_neq ksp 0))|]. wp_reduce. wp_ld "Hk".
  wp_bind. rewrite /thread_unlock. wp_bind. iApply wp_intr_disable. wp_reduce. wp_ld "Hs".
  rewrite Hst. wp_bind. rewrite /ASSERT. iApply wp_exception_report. simpl. iFrame "Hk".
  iExists buf, ((t + 1) mod 64). iFrame "Hp Hc Hb Ht". iSplit.
  - iPureIntro. split_and!; [done|lia|lia|simpl in Hx; lia|]. intros i y Hi.
    pose proof (Hq (S i) y Hi) as Hy.
    replace (((t + 1) mod 64 + i) mod 64) with ((t + S i) mod 64); [done|].
    Z.div_mod_to_equations; lia.
  - replace (((t + 1) mod 64 + length xs) mod 64) with ((t + length (x :: xs)) mod 64); [done|].
    simpl. Z.div_mod_to_equations; lia.
Qed.

(** C36: The keyboard handler never records a modifier, so that whatever keys are
    pressed the buffer only gets characters of the first column of [keymap]:
    from the initial state, each byte the keyboard sends leaves the modifiers
    clear and delivers at most the plain character of its key. *)
Theorem keyboard_ignores_shift s rest ext pr xs c :
  if_on c = false → inputs c = s :: rest → 0 <= s < 256 → (0 <= ext <= 1) →
  {{ modifiers 0 0 0 ∗ g_ext_scancode ↦w ext ∗ is_ioq g_kdb_buf pr 0 xs }}
    intr_keyboard_handler @ c
  {{ r c', modifiers 0 0 0 ∗ g_ext_scancode ↦w key_ext s ext ∗
           is_ioq g_kdb_buf pr 0
             (xs ++ (if bool_decide (length xs = 63%nat) then [] else key_char s ext)) }}.
Proof.
  intros Hoff Hin Hs He. apply triple_wp. iIntros "((Hc & Hsh & Ha) & Hx & HQ)".
  rewrite /intr_keyboard_handler. wp_ld "Hc". wp_ld "Hsh". wp_ld "Ha".
  rewrite /in_byte. iApply wp_bind. wp_pure. rewrite Hin.
  wp_pure. wp_pure. wp_pure. rewrite w8_small //.
  set (c1 := log_event _ _). assert (if_on c1 = false) as Hoff1 by done.
  iAssert (modifiers 0 0 0) with "[$Hc $Hsh $Ha]" as "HM".
  unfold key_char, key_ext. destruct (Z.eqb_spec s 0xe0) as [->|Hne]; simpl.
  { wp_st "Hx". iFrame "HM Hx". case_bool_decide; by rewrite app_nil_r. }
  wp_ld "Hx". wp_bind. destruct (Z.eqb_spec ext 1) as [->|Hext]; simpl.
  - (* the second byte of an extended key *)
    wp_st "Hx". wp_pure. set (k := Z.lor s 0xe000).
    assert (k = s + 0xe000) as Ek.
    { unfold k. rewrite Z.lor_comm (lor_disjoint_add 0xe000 s 8) //. lia. }
    assert (∀ l : list Z, (if bool_decide (length xs = 63%nat) then l else l) = l) as Hif
      by (intros l; by case_bool_decide).
    destruct (negb (Z.land k 0x80 =? 0)).
    { iApply (keyboard_break_wp with "HM"). iIntros "HM /=". iFrame "HM Hx".
      by rewrite Hif app_nil_r. }
    replace (k <? 0x3b) with false by (symmetry; apply Z.ltb_ge; lia). rewrite andb_false_r.
    replace ((k =? alt_r_make) && (k =? ctrl_l_make)) with false; last first.
    { symmetry. unfold alt_r_make, ctrl_l_make. destruct (Z.eqb_spec k 0xe038); [|done].
      apply Z.eqb_neq. lia. }
    simpl. rewrite /putStr. wp_pure. simpl. iFrame "HM Hx". by rewrite Hif app_nil_r.
  - wp_pure. rewrite land_break //.
    destruct (Z.leb_spec 0x80 s).
    { iApply (keyboard_break_wp with "HM"). iIntros "HM /=". iFrame "HM Hx".
      rewrite (proj2 (Z.ltb_ge s 0x3b)); [|lia]. rewrite andb_false_r /=.
      case_bool_decide; by rewrite app_nil_r. }
    replace ((s =? alt_r_make) && (s =? ctrl_l_make)) with false; last first.
    { symmetry. unfold alt_r_make. by rewrite (proj2 (Z.eqb_neq s 0xe038)); [|lia]. }
    rewrite orb_false_r Z.gtb_ltb. destruct ((0 <? s) && (s <? 0x3b)); simpl.
    + iApply (keyboard_make_wp with "HQ"); [done|done|]. iIntros (c' _) "HQ /=". iFrame "HM Hx HQ".
    + rewrite /putStr. wp_pure. simpl. iFrame "HM Hx". case_bool_decide; by rewrite app_nil_r.
Qed.

(** The timer is asked for 100 interrupts a second, a divisor of 11931, but
    the divisor is passed in a byte: the chip is programmed with 155. *)
Theorem timer_init_divisor t h c :
  {{ g_ticks ↦w t ∗ (g_exception_funcptr_table + 4 * 0x20) ↦w h }} timer_init @ c
  {{ r c', ⌜trace c' = trace c ++ [EvOut 0x43 0x34; EvOut 0x40 155; EvOut 0x40 0;
                                   EvStr "timer init done\n"] ∧
            COUNTER_RO_VALUE = 11931⌝ ∗
           g_ticks ↦w 0 ∗
           (g_exception_funcptr_table + 4 * 0x20) ↦w w32 fn_intr_timer_handler }}.
Proof.
  apply triple_wp. iIntros "[Ht Hh]". rewrite /timer_init /frequency_set /out_byte.
  iApply wp_bind. wp_pure. wp_pure. wp_pure. wp_st "Ht". rewrite /register_handler.
  change (w8 32) with 32. wp_st "Hh". rewrite /putStr. wp_pure. simpl. iFrame. iPureIntro.
  split; [|reflexivity]. by rewrite -!app_assoc.
Qed.

(** Sleeping never sleeps: whatever the time asked for, [mtime_sleep] returns
    at once, without yielding. *)
Theorem mtime_sleep_returns ms t c :
  0 <= ms < 2 ^ 32 →
  {{ g_ticks ↦w t }} (mtime_sleep ms) @ c {{ r c', ⌜c' = c⌝ ∗ g_ticks ↦w t }}.
Proof.
  intros Hms. apply triple_wp. iIntros "Ht".
  iApply (mtime_sleep_wp with "Ht"); [done|]. iIntros "Ht /=". by iFrame.
Qed.

End properties.

(** ** Witnesses *)

(** A queue whose bytes start at position [t] of the ring. *)
Definition ioq_cells (q producer consumer : Z) (buf : list Z) (t n : Z) : list (Z * list Z) :=
  [(ioq_producer q, word_bytes producer); (ioq_consumer q, word_bytes consumer);
   (ioq_buf q, buf); (ioq_head q, word_bytes ((t + n) mod 64)); (ioq_tail q, word_bytes t)].

(** These cells hold the bytes the ring shows. *)
Lemma ioq_cells_ok q producer consumer buf t l :
  addr_ok producer && addr_ok consumer = true →
  length buf = 64%nat → 0 <= t < 64 → Z.of_nat (length l) < 64 →
  (∀ i x, l !! i = Some x → buf !! Z.to_nat ((t + Z.of_nat i) mod 64) = Some x) →
  cells (ioq_cells q producer consumer buf t (Z.of_nat (length l))) ⊢
  is_ioq q producer consumer l.
Proof.
  intros [H1%bool_decide_eq_true H2%bool_decide_eq_true]%andb_true_iff Hb Ht Hl Hi.
  unfold ioq_cells.
  rewrite cells_word; [|done]. rewrite cells_word; [|done].
  rewrite cells_cons cells_word; [|pose proof (Z.mod_pos_bound (t + Z.of_nat (length l)) 64); lia].
  rewrite cells_word; [|lia].
  iIntros "(H1 & H2 & H3 & H4 & H5 & _)". iExists buf, t.
  iFrame. iPureIntro. split_and!; try done; lia.
Qed.

(** Three bytes across the end of the ring. *)
Definition demo_ring : list Z := [66; 67] ++ replicate 61 0 ++ [65].

Lemma demo_ioq producer consumer :
  addr_ok producer && addr_ok consumer = true →
  cells (ioq_cells 0xc0030000 producer consumer demo_ring 63 3) ⊢
  is_ioq 0xc0030000 producer consumer [65; 66; 67].
Proof.
  intros H. apply (ioq_cells_ok _ _ _ demo_ring 63 [65; 66; 67]); [done|done|lia|done|].
  intros i x Hi. destruct i as [|[|[|]]]; simplify_eq/=; reflexivity.
Qed.

#[local] Existing Instance link_map.

Definition demo_queue : Z := 0xc0030000.

Lemma ioqueue_fifo_witness :
  ∃ r h', exec (ioq_putchar demo_queue 68 ;; ioq_getchar demo_queue)%prog cpu_a
      (mem_of (ioq_cells demo_queue 0 0 demo_ring 63 3)) r h' ∧
    h' ⊨ (returns (λ r c', ⌜r = 65 ∧ c' = cpu_a⌝ ∗ is_ioq demo_queue 0 0 [66; 67; 68]) r).
Proof.
  eapply triple_run.
  - apply (ioqueue_fifo demo_queue 65 [66; 67] 68 cpu_a); [reflexivity|simpl; lia].
  - eapply models_mono; [|apply mem_of_models; vm_compute; reflexivity]. by apply demo_ioq.
Defined.

(** Filled and emptied: the ring is passed from one end to the other. *)
Definition demo_ioq_calls : list ioq_call :=
  Get :: repeat (Put 68) 60 ++ [Put 0xe9] ++ [IsFull; Get; Get; Put 0x145] ++ repeat Get 61 ++ [IsNone].

Lemma ioqueue_refines_queue_witness :
  ∃ r h', exec (run_all (ioq_prog demo_queue) demo_ioq_calls) cpu_a
      (mem_of (ioq_cells demo_queue 0 0 demo_ring 63 3)) r h' ∧
    h' ⊨ (returns (λ vs _, ⌜vs = 65 :: repeat 0 61 ++ [1; 66; 67; 0] ++ repeat 68 60 ++ [-23; 0]⌝)%I r).
Proof.
  edestruct (triple_run _ _ _ _ (mem_of (ioq_cells demo_queue 0 0 demo_ring 63 3))
    (ioqueue_refines_queue demo_queue demo_ioq_calls [65; 66; 67]
       (65 :: repeat 0 61 ++ [1; 66; 67; 0] ++ repeat 68 60 ++ [-23; 0]) [0x45] cpu_a
       ltac:(vm_compute; reflexivity))) as (r & h' & Hx & Hq).
  - eapply models_mono; [|apply mem_of_models; vm_compute; reflexivity].
    rewrite demo_ioq //. iIntros "$". done.
  - exists r, h'. split; [exact Hx|]. eapply models_mono; [|apply Hq].
    destruct r; cbn [returns]; [|by iIntros "[]"..]. iIntros "[%Hr _]". by iPureIntro.
Defined.

Lemma ioq_getchar_misses_producer_witness :
  ∃ r h', exec (ioq_getchar demo_queue) cpu_a
      (mem_of (ioq_cells demo_queue 0xc0101000 0 demo_ring 63 3 ++
               [(pcb_self_kernel_stack 0xc0101000, word_bytes 0xc0101e50);
                (pcb_status 0xc0101e50, word_bytes 0)])) r h' ∧
    h' ⊨ (panics (λ c', is_ioq demo_queue 0xc0101000 0 [66; 67] ∗
                        pcb_self_kernel_stack 0xc0101000 ↦w 0xc0101e50)%I r).
Proof.
  eapply triple_run.
  - apply (ioq_getchar_misses_producer demo_queue 0xc0101000 0xc0101e50 0 65 [66; 67] 0 cpu_a); done.
  - eapply models_mono; [|apply mem_of_models; vm_compute; reflexivity].
    rewrite cells_app demo_ioq; [|done]. iIntros "[$ Hp]".
    rewrite cells_word; [|done]. rewrite cells_word; [|done]. iDestruct "Hp" as "($ & $ & _)".
Defined.

(** Left shift, then A: the buffer gets a small a. *)
Lemma keyboard_ignores_shift_witness :
  ∃ r h', exec intr_keyboard_handler (set_inputs [0x1e] cpu_a)
      (mem_of ([(g_ctrl_status, word_bytes 0); (g_shift_status, word_bytes 0);
                (g_alt_status, word_bytes 0); (g_ext_scancode, word_bytes 0)] ++
               ioq_cells g_kdb_buf 0 0 (replicate 64 0) 0 0)) r h' ∧
    h' ⊨ (returns (λ _ _, is_ioq g_kdb_buf 0 0 [97]) r).
Proof.
  edestruct (triple_run _ _ _ _ (mem_of ([(g_ctrl_status, word_bytes 0); (g_shift_status, word_bytes 0);
                (g_alt_status, word_bytes 0); (g_ext_scancode, word_bytes 0)] ++
               ioq_cells g_kdb_buf 0 0 (replicate 64 0) 0 0))
    (keyboard_ignores_shift 0x1e [] 0 0 [] (set_inputs [0x1e] cpu_a) eq_refl eq_refl
       ltac:(lia) ltac:(lia))) as (r & h' & Hx & Hq).
  - eapply models_mono; [|apply mem_of_models; vm_compute; reflexivity].
    rewrite cells_app. iIntros "[Hm Hq]".
    iDestruct (ioq_cells_ok _ _ _ _ 0 [] with "Hq") as "$"; [done|by rewrite length_replicate|lia|done|done|].
    repeat (rewrite cells_word; [|done]). iDestruct "Hm" as "($ & $ & $ & $ & _)".
  - exists r, h'. split; [done|]. eapply models_mono; [|apply Hq].
    destruct r; simpl; [|by iIntros "[]"..]. by iIntros "(_ & _ & $)".
Defined.

Lemma mtime_sleep_returns_witness :
  ∃ r h', exec (mtime_sleep 1000) cpu_a (mem_of [(g_ticks, word_bytes 42)]) r h' ∧
    h' ⊨ (returns (λ _ c', ⌜c' = cpu_a⌝ ∗ g_ticks ↦w 42) r).
Proof.
  eapply triple_run.
  - apply (mtime_sleep_returns 1000 42 cpu_a). lia.
  - eapply models_mono; [|apply mem_of_models; vm_compute; reflexivity].
    rewrite cells_word //. iIntros "[$ _]".
Defined.
