(* ===== verification/Stdio.v ===== *)
(** lib/stdio.c: number formatting and [vsprintf]; lib/kernel/stdio-kernel.c;
    lib/user/syscall.c and userprog/syscall-init.c: system calls. *)
From S2P Require Export Thread Device.

(** ** lib/stdio.c *)

(** [itoa] writes through the [char **] it is given, the address of a local
    of its caller: here it takes and returns that pointer.  A 32-bit number
    has at most 32 digits, so 32 nested calls are enough. *)
Fixpoint itoa_n (fuel : nat) (number str base : Z) : M Z :=
  match fuel with
  | O => out_of_fuel
  | S fuel =>
      let remainder := number mod base in
      let divRes := number / base in
      str <- (if negb (divRes =? 0) then itoa_n fuel divRes str base else ret str);
      (if remainder <? 10 then st8 str (remainder + 48)
       else st8 str (remainder - 10 + 65)) ;;
      ret (str + 1)
  end.

Definition itoa (number str base : Z) : M Z := itoa_n 32 number str base.

(** [va_arg] first moves to the next word, then reads it. *)
Definition va_next (ap : Z) : Z := ap + 4.

(** One turn of the loop of [vsprintf]. *)
Definition vsprintf_step : Z * Z * Z → M (Z * Z * Z + unit) :=
  λ '(format_index, str_index, ap),
    ch <- ld8 format_index;
    if ch =? 0 then ret (inr tt)
    else if negb (ch =? 37) then
      st8 str_index ch ;;
      ret (inl (format_index + 1, str_index + 1, ap))
    else
      let format_index := format_index + 1 in
      ch <- ld8 format_index;
      if ch =? 120 (* x *) then
        let ap := va_next ap in
        number <- ld32 ap;
        str_index <- itoa number str_index 16;
        ret (inl (format_index + 1, str_index, ap))
      else if ch =? 115 (* s *) then
        let ap := va_next ap in
        str_copy <- ld32 ap;
        strcpy str_index str_copy ;;
        len <- strlen str_copy;
        ret (inl (format_index + 1, str_index + len, ap))
      else if ch =? 99 (* c *) then
        let ap := va_next ap in
        b <- ld8 ap;
        st8 str_index b ;;
        ret (inl (format_index + 1, str_index + 1, ap))
      else if ch =? 100 (* d *) then
        let ap := va_next ap in
        number <- ld32 ap;
        (* [number] is unsigned: it is never below zero *)
        sn <- (if number <? 0 then st8 str_index 45 ;; ret (str_index + 1, w32 (0 - number))
               else ret (str_index, number));
        let '(str_index, number) := (sn : Z * Z) in
        str_index <- itoa number str_index 10;
        ret (inl (format_index + 1, str_index, ap))
      else ret (inl (format_index, str_index, ap)).

Definition vsprintf (str format ap : Z) : M Z :=
  loop vsprintf_step (format, str, ap) ;;
  strlen str.

(** The variadic functions: [format_slot] is the address of the parameter
    [format] on the caller's stack, after which the arguments follow. *)
Definition sprintf (buf format format_slot : Z) : M Z := vsprintf buf format format_slot.

Section stdio.
Context `{Symbols, Frames}.

(** ** userprog/syscall-init.c, kernel/kernel.asm *)

Definition SYS_GETPID : Z := 0.
Definition SYS_WRITE : Z := 1.
Definition SYS_MALLOC : Z := 2.
Definition SYS_FREE : Z := 3.

Definition sys_get_pid : M Z :=
  curr <- running_thread;
  ld16 (pcb_pid curr).

Definition sys_write (str : Z) : M Z :=
  console_put_str str ;;
  strlen str.

Definition syscall_table_init : M unit :=
  putStr "syscall table init start \n" ;;
  st32 (g_syscall_table + 4 * SYS_GETPID) fn_sys_get_pid ;;
  st32 (g_syscall_table + 4 * SYS_WRITE) fn_sys_write ;;
  st32 (g_syscall_table + 4 * SYS_MALLOC) fn_sys_malloc ;;
  st32 (g_syscall_table + 4 * SYS_FREE) fn_sys_free ;;
  putStr "syscall table init end \n".

(** The functions the table can point to; a call anywhere else faults.
    [sys_free] leaves eax undefined, and no caller looks at it. *)
Definition call_syscall (f ebx ecx edx : Z) : M Z :=
  if f =? fn_sys_get_pid then sys_get_pid
  else if f =? fn_sys_write then sys_write ebx
  else if f =? fn_sys_malloc then sys_malloc ebx
  else if f =? fn_sys_free then sys_free ebx ;; ret 0
  else λ _ s, Fault f s.

(** [system_call_handler]: eax selects the entry of the table. *)
Definition system_call_handler (eax ebx ecx edx : Z) : M Z :=
  f <- ld32 (g_syscall_table + 4 * eax);
  call_syscall f ebx ecx edx.

(** ** lib/user/syscall.c *)

(** [int $0x80] from user mode: the processor takes the kernel stack from the
    TSS and masks interrupts; 76 bytes of frame are pushed; [iret] restores. *)
Definition int80 (eax ebx ecx edx : Z) : M Z :=
  c <- get_cpu;
  sp0 <- ld32 (tss_esp0 g_tss);
  modify_cpu (set_esp (w32 (sp0 - sizeof_intr_stack))) ;;
  cli ;;
  r <- system_call_handler eax ebx ecx edx;
  modify_cpu (set_esp (esp c)) ;;
  modify_cpu (set_eflags (eflags c)) ;;
  ret r.

Definition getpid : M Z := int80 SYS_GETPID 0 0 0.
Definition write (str : Z) : M Z := int80 SYS_WRITE str 0 0.
Definition malloc (size : Z) : M Z := int80 SYS_MALLOC size 0 0.
Definition free (addr : Z) : M unit := int80 SYS_FREE addr 0 0 ;; ret tt.

(** ** printf and printk *)

(** [buf] is the address of the local array of 1024 bytes. *)
Definition clear_buf (buf : Z) : M unit := for_ 0 1024 (λ i, st8 (buf + i) 0).

Definition printf (buf format format_slot : Z) : M Z :=
  clear_buf buf ;;
  vsprintf buf format format_slot ;;
  write buf.

Definition printk (buf format format_slot : Z) : M Z :=
  clear_buf buf ;;
  vsprintf buf format format_slot ;;
  console_put_str buf ;;
  ret 0.

End stdio.

(** ** Digits *)

Definition digit_char (d : Z) : Z := if d <? 10 then d + 48 else d - 10 + 65.
Definition char_digit (b : Z) : Z := if b <? 58 then b - 48 else b - 65 + 10.

(** The numeral of [n], most significant digit first. *)
Fixpoint digits_n (fuel : nat) (base n : Z) : list Z :=
  match fuel with
  | O => []
  | S fuel => (if negb (n / base =? 0) then digits_n fuel base (n / base) else []) ++
              [digit_char (n mod base)]
  end.
Definition digits (base n : Z) : list Z := digits_n 32 base n.

(** The number a numeral denotes. *)
Definition numeral (base : Z) (ds : list Z) : Z := foldl (λ acc b, acc * base + char_digit b) 0 ds.

Lemma char_digit_char d : 0 <= d < 36 → char_digit (digit_char d) = d.
Proof. intros Hd. unfold char_digit, digit_char. repeat case_match; lia. Qed.

Lemma numeral_digits_n fuel base n :
  2 <= base <= 36 → 0 <= n < base ^ Z.of_nat fuel → numeral base (digits_n fuel base n) = n.
Proof.
  intros Hb. revert n. induction fuel as [|fuel IH]; intros n Hn.
  - change (Z.of_nat 0) with 0 in Hn. rewrite Z.pow_0_r in Hn. unfold numeral. simpl. lia.
  - cbn [digits_n]. unfold numeral in *. rewrite foldl_app. simpl.
    assert (0 <= n mod base < base) by (apply Z.mod_pos_bound; lia).
    rewrite char_digit_char; [|lia].
    assert (n = base * (n / base) + n mod base) as E by (apply Z.div_mod; lia).
    destruct (Z.eqb_spec (n / base) 0) as [Hz|Hz]; simpl; [rewrite Hz in E; lia|].
    rewrite IH; [lia|]. split; [apply Z.div_pos; lia|]. apply Z.div_lt_upper_bound; [lia|].
    rewrite -Z.pow_succ_r; [|lia]. rewrite -Nat2Z.inj_succ. lia.
Qed.

Lemma digits_n_chars fuel base n b :
  2 <= base <= 36 → b ∈ digits_n fuel base n → 48 <= b < 58 ∨ 65 <= b < 91.
Proof.
  intros Hb. revert n. induction fuel as [|fuel IH]; intros n; [by intros ?%elem_of_nil|].
  cbn [digits_n]. intros [Hin| ->%list_elem_of_singleton]%elem_of_app.
  - destruct (negb _); [by eapply IH|by apply elem_of_nil in Hin].
  - assert (0 <= n mod base < base) by (apply Z.mod_pos_bound; lia).
    unfold digit_char. case_match; lia.
Qed.

(** The only numeral with a leading zero is that of zero. *)
Lemma digits_n_head fuel base n :
  2 <= base <= 36 → 0 < n < base ^ Z.of_nat fuel → head (digits_n fuel base n) ≠ Some 48.
Proof.
  intros Hb. revert n. induction fuel as [|fuel IH]; intros n Hn; [done|]. cbn [digits_n].
  assert (n = base * (n / base) + n mod base) as E by (apply Z.div_mod; lia).
  assert (0 <= n mod base < base) by (apply Z.mod_pos_bound; lia).
  destruct (Z.eqb_spec (n / base) 0) as [Hz|Hz]; simpl.
  - intros [= Hd]. unfold digit_char in Hd. case_match; lia.
  - assert (0 < n / base < base ^ Z.of_nat fuel) as Hq.
    { assert (0 <= n / base) by (apply Z.div_pos; lia). split; [lia|].
      apply Z.div_lt_upper_bound; [lia|].
      rewrite -Z.pow_succ_r; [|lia]. rewrite -Nat2Z.inj_succ. lia. }
    specialize (IH _ Hq). destruct (digits_n fuel base (n / base)) eqn:Ed; [|done].
    destruct fuel; simpl in *; [lia|]. by destruct (if negb _ then _ else _).
Qed.

Lemma pow_base_32 base : 2 <= base → 2 ^ 32 <= base ^ 32.
Proof. intros Hb. apply Z.pow_le_mono_l. lia. Qed.

Section spec.
Implicit Types (c : cpu).

Lemma itoa_n_wp fuel base n str junk c (Φ : res Z → hPropI) :
  2 <= base <= 36 → 0 <= n < base ^ Z.of_nat (S fuel) →
  length junk = length (digits_n (S fuel) base n) →
  str ↦∗ junk -∗
  (str ↦∗ digits_n (S fuel) base n -∗ Φ (RRet (str + Z.of_nat (length junk)) c)) -∗
  wp (itoa_n (S fuel) n str base) c Φ.
Proof.
  intros Hb. iIntros (Hn Hl) "Hs HΦ".
  iInduction fuel as [|fuel IH] forall (n junk Φ Hn Hl); cbn [itoa_n] in *;
    (assert (0 <= n mod base < base) by (apply Z.mod_pos_bound; lia));
    (assert (n = base * (n / base) + n mod base) as E by (apply Z.div_mod; lia)).
  - change (Z.of_nat 1) with 1 in Hn. rewrite Z.pow_1_r in Hn.
    assert (n / base = 0) as Hz by (apply Z.div_small; lia).
    cbn [digits_n] in *. rewrite Hz in Hl |- *. wp_pure. simpl in *.
    destruct junk as [|b [|]]; [done| |done]. rewrite !bytes_cons !bytes_nil.
    iDestruct "Hs" as "[Hs _]".
    wp_bind. iApply (wp_wand _ _ (returns (λ _ c', ⌜c' = c⌝ ∗ str ↦ digit_char (n mod base))%I) with "[Hs]").
    { destruct (n mod base <? 10) eqn:Ed; iApply (wp_st8 with "Hs"); try done; iIntros "Hs /=";
        rewrite w8_small; try lia; unfold digit_char; rewrite Ed; by iFrame. }
    iIntros ([? ?|?|?|? ?]) "H //=". iDestruct "H" as "[-> Hs]". wp_pure. iApply "HΦ". by iFrame.
  - remember (digits_n (S fuel) base (n / base)) as ds eqn:Eds.
    cbn [digits_n] in Hl. cbn [digits_n] in Eds.
    assert (digits_n (S (S fuel)) base n =
      (if negb (n / base =? 0) then ds else []) ++ [digit_char (n mod base)]) as Ed by (by rewrite Eds).
    iEval (rewrite Ed) in "HΦ". clear Ed.
    iAssert (∃ j1 j2, ⌜junk = j1 ++ [j2] ∧ length j1 = length (if negb (n / base =? 0) then ds else [])⌝)%I
      as (j1 j2) "(-> & %Hj1)".
    { iPureIntro. rewrite Eds. destruct junk as [|j2 j1 _] using rev_ind; [by rewrite length_app /= in Hl; lia|].
      exists j1, j2. split; [done|]. rewrite !length_app /= in Hl. lia. }
    rewrite bytes_app bytes_cons bytes_nil. iDestruct "Hs" as "(Hs & Hd & _)".
    wp_bind. iApply (wp_wand _ _ (returns (λ p c', ⌜c' = c ∧ p = (str + Z.of_nat (length j1))%Z⌝ ∗
      str ↦∗ (if negb (n / base =? 0) then ds else []))%I) with "[Hs]").
    { destruct (Z.eqb_spec (n / base) 0) as [Hz|Hz]; simpl in *.
      - destruct j1; [|done]. iApply wp_ret. simpl. iFrame. iPureIntro. split; [done|lia].
      - iApply ("IH" with "[%] [%] Hs").
        + split; [apply Z.div_pos; lia|]. apply Z.div_lt_upper_bound; [lia|].
          rewrite -Z.pow_succ_r; [|lia]. rewrite -Nat2Z.inj_succ. lia.
        + by rewrite Hj1 Eds.
        + iIntros "Hs". rewrite Eds. by iFrame. }
    iIntros ([p c'|?|?|? ?]) "H //=". iDestruct "H" as "[[-> ->] Hs]".
    wp_bind. iApply (wp_wand _ _ (returns (λ _ c', ⌜c' = c⌝ ∗
      (str + Z.of_nat (length j1)) ↦ digit_char (n mod base))%I) with "[Hd]").
    { destruct (n mod base <? 10) eqn:Ed; iApply (wp_st8 with "Hd"); try done; iIntros "Hs /=";
        rewrite w8_small; try lia; unfold digit_char; rewrite Ed; by iFrame. }
    iIntros ([? ?|?|?|? ?]) "H //=". iDestruct "H" as "[-> Hd]". wp_pure.
    replace (str + length j1 + 1) with (str + length (j1 ++ [j2])) by (rewrite length_app /=; lia).
    iApply "HΦ". rewrite bytes_app bytes_cons bytes_nil Hj1. by iFrame.
Qed.

Lemma itoa_wp base n str junk c (Φ : res Z → hPropI) :
  2 <= base <= 36 → 0 <= n < 2 ^ 32 → length junk = length (digits base n) →
  str ↦∗ junk -∗
  (str ↦∗ digits base n -∗ Φ (RRet (str + Z.of_nat (length junk)) c)) -∗
  wp (itoa n str base) c Φ.
Proof.
  iIntros (Hb Hn Hl) "Hs HΦ". iApply (itoa_n_wp 31 base n str junk with "Hs HΦ"); [done| |done].
  pose proof (pow_base_32 base ltac:(lia)). change (Z.of_nat 32) with 32. lia.
Qed.

End spec.

(** ** Properties *)

Section properties.
Implicit Types (c : cpu).

(** [itoa] writes the numeral of the number, in any base it can have digits
    for: its characters are digits or capital letters, it denotes the number,
    and it has no leading zero. *)
Theorem itoa_numeral base n str junk c :
  2 <= base <= 36 → 0 <= n < 2 ^ 32 → length junk = length (digits base n) →
  {{ str ↦∗ junk }} (itoa n str base) @ c
  {{ p c', ⌜c' = c ∧ p = (str + Z.of_nat (length (digits base n)))%Z ∧
            numeral base (digits base n) = n ∧
            (∀ b, b ∈ digits base n → 48 <= b < 58 ∨ 65 <= b < 91) ∧
            (0 < n → head (digits base n) ≠ Some 48)⌝ ∗
           str ↦∗ digits base n }}.
Proof.
  intros Hb Hn Hl. apply triple_wp. iIntros "Hs".
  iApply (itoa_wp with "Hs"); [done..|]. iIntros "Hs /=". iFrame. iPureIntro.
  pose proof (pow_base_32 base ltac:(lia)). rewrite Hl. split_and!; [done|done| | |].
  - apply numeral_digits_n; [done|]. change (Z.of_nat 32) with 32. lia.
  - intros b. by apply digits_n_chars.
  - intros Hpos. apply digits_n_head; [done|]. change (Z.of_nat 32) with 32. lia.
Qed.

Lemma itoa_numeral_witness :
  ∃ r h', exec (itoa 0xbeef 0x1000 16) cpu0 (mem_of [(0x1000, [0; 0; 0; 0])]) r h' ∧
    h' ⊨ (returns (λ p c', 0x1000 ↦∗ [66; 69; 69; 70]) r).
Proof.
  destruct (triple_run _ _ _ _ (mem_of [(0x1000, [0; 0; 0; 0])])
    (itoa_numeral 16 0xbeef 0x1000 [0; 0; 0; 0] cpu0 ltac:(lia) ltac:(lia) ltac:(vm_compute; reflexivity)))
    as (r & h' & Hx & Hq).
  - eapply models_mono; [|apply mem_of_models; vm_compute; reflexivity].
    rewrite cells_cons. iIntros "[$ _]".
  - exists r, h'. split; [done|]. eapply models_mono; [|apply Hq].
    destruct r; simpl; [|by iIntros "[]"..]. by iIntros "(_ & $)".
Defined.

End properties.
