(* ===== verification/Format.v ===== *)
(** lib/stdio.c: [vsprintf] against a pure definition of what a format stands
    for. *)
From S2P Require Export Stdio.

(** ** What a format stands for *)

(** The conversions; anything else after a percent sign is a character. *)
Definition is_conversion (k : Z) : bool := bool_decide (k ∈ [120; 115; 99; 100]).

(** The text of an argument; [strings] are the strings in memory. *)
Definition convert (strings : gmap Z (list Z)) (k v : Z) : option (list Z) :=
  if k =? 120 (* x *) then Some (digits 16 v)
  else if k =? 115 (* s *) then strings !! v
  else if k =? 99 (* c *) then Some [w8 v]
  else Some (digits 10 v).

(** [None]: not enough arguments, or one that is not a string. *)
Fixpoint format_text (strings : gmap Z (list Z)) (f args : list Z) : option (list Z) :=
  match f with
  | [] => Some []
  | b :: f =>
      if b =? 37 then
        match f with
        | [] => Some []
        | k :: f' =>
            if is_conversion k then
              match args with
              | [] => None
              | v :: args =>
                  t ← convert strings k v;
                  rest ← format_text strings f' args;
                  Some (t ++ rest)
              end
            else format_text strings f args
        end
      else rest ← format_text strings f args; Some (b :: rest)
  end.

(** ** In memory *)

(** The arguments, from the word after [ap] on. *)
Definition args_at (ap : Z) (args : list Z) : hPropI := words (ap + 4) args.

Definition strings_at (strings : gmap Z (list Z)) : hPropI :=
  ([∗ map] p ↦ s ∈ strings, ⌜p ≠ 0⌝ ∗ cstr p s)%I.

(** The buffer: [k] zeros. *)
Definition room_at (a : Z) (k : nat) : hPropI := (a ↦∗ replicate k 0)%I.

Section spec.
Context (strings : gmap Z (list Z)).
Implicit Types (c : cpu).

(** One character. *)
Lemma room_cons a k : room_at a (S k) ⊣⊢ a ↦ 0 ∗ room_at (a + 1) k.
Proof. rewrite /room_at /= bytes_cons //. Qed.

Lemma room_app a j k : room_at a (j + k) ⊣⊢ room_at a j ∗ room_at (a + Z.of_nat j) k.
Proof. rewrite /room_at replicate_add bytes_app length_replicate //. Qed.

(** The text of a conversion, written where there is room for it. *)
Definition writes (m : Z → M Z) (t : list Z) : Prop :=
  ∀ si k c (Φ : res Z → hPropI), 0 < si → si + Z.of_nat k <= 2 ^ 32 → (length t < k)%nat →
  room_at si k -∗
  (si ↦∗ t -∗ room_at (si + Z.of_nat (length t)) (k - length t) -∗
   Φ (RRet (si + Z.of_nat (length t)) c)) -∗
  wp (m si) c Φ.

Lemma itoa_writes base n :
  2 <= base <= 36 → 0 <= n < 2 ^ 32 → writes (λ si, itoa n si base) (digits base n).
Proof.
  intros Hb Hn si k c Φ Hsi Hk Ht. iIntros "HR HΦ".
  replace k with (length (digits base n) + (k - length (digits base n)))%nat at 1 by lia.
  rewrite room_app. iDestruct "HR" as "[Hs HR]".
  iApply (itoa_wp base n si (replicate (length (digits base n)) 0) with "Hs");
    [done|done|by rewrite length_replicate|].
  iIntros "Hs". rewrite length_replicate. iApply ("HΦ" with "Hs HR").
Qed.

(** A percent sign and a conversion. *)
Lemma conversion_wp fi k v t si n ap c (Φ : res (Z * Z * Z + unit) → hPropI) :
  is_conversion k = true → convert strings k v = Some t →
  0 < si → si + Z.of_nat n <= 2 ^ 32 → (length t < n)%nat →
  fi ↦ 37 -∗ (fi + 1) ↦ k -∗ (ap + 4) ↦w v -∗ strings_at strings -∗ room_at si n -∗
  (fi ↦ 37 -∗ (fi + 1) ↦ k -∗ (ap + 4) ↦w v -∗ strings_at strings -∗
   si ↦∗ t -∗ room_at (si + Z.of_nat (length t)) (n - length t) -∗
   Φ (RRet (inl (fi + 1 + 1, si + Z.of_nat (length t), ap + 4)) c)) -∗
  wp (vsprintf_step (fi, si, ap)) c Φ.
Proof.
  iIntros (Hk Ht Hsi Hn Hl) "Hf Hk Hv Hm HR HΦ". rewrite /vsprintf_step.
  wp_ldb "Hf". wp_ldb "Hk". rewrite /va_next. iDestruct "Hv" as "[%Hv Hv]".
  iAssert ((ap + 4) ↦w v)%I with "[$Hv //]" as "Hv".
  iSpecialize ("HΦ" with "Hf Hk").
  unfold convert in Ht. unfold is_conversion in Hk. apply bool_decide_eq_true in Hk.
  destruct (Z.eqb_spec k 120) as [->|?]; [|destruct (Z.eqb_spec k 115) as [->|?];
    [|destruct (Z.eqb_spec k 99) as [->|?]]]; simplify_eq/=.
  - wp_ld "Hv". wp_bind. iApply (itoa_writes with "HR"); [lia|done|done|done|done|].
    iIntros "Hs HR". wp_pure. iApply ("HΦ" with "Hv Hm Hs HR").
  - wp_ld "Hv". iDestruct (big_sepM_lookup_acc with "Hm") as "[[%Hp Hs] Hm]"; [done|].
    replace n with (S (length t) + (n - S (length t)))%nat at 1 by lia.
    rewrite room_app. iDestruct "HR" as "[Hd HR]".
    wp_bind. iApply (strcpy_wp si v t with "Hs Hd"); [lia|done|by rewrite length_replicate|].
    iIntros "Hs [_ Hd]". wp_reduce. wp_bind. iApply (strlen_wp with "Hs"); [done|].
    iIntros "Hs". wp_reduce. wp_pure. rewrite w32_small; [|lia].
    rewrite bytes_app bytes_cons bytes_nil. iDestruct "Hd" as "(Hd & H0 & _)".
    iApply ("HΦ" with "Hv [Hs Hm] Hd"); [iApply ("Hm" with "[$Hs //]")|].
    replace (n - length t)%nat with (S (n - S (length t))) by lia. rewrite room_cons.
    replace (si + length t + 1) with (si + S (length t)) by lia. iFrame.
  - iDestruct "Hv" as "(%Hv' & H0 & Hv)". wp_ldb "H0".
    destruct n as [|n]; [lia|]. rewrite room_cons. iDestruct "HR" as "[Hd HR]".
    wp_stb "Hd". wp_pure.
    iApply ("HΦ" with "[H0 Hv] Hm [Hd]"); [by iFrame| |by rewrite /= Nat.sub_0_r].
    rewrite bytes_cons bytes_nil. rewrite /byte Z.shiftr_0_r w8_small; [|apply w8_range]. by iFrame.
  - assert (k = 100) as -> by set_solver. cbn [Z.eqb Pos.eqb]. wp_ld "Hv".
    rewrite (proj2 (Z.ltb_ge v 0)); [|lia]. wp_pure.
    wp_bind. iApply (itoa_writes with "HR"); [lia|done|done|done|done|].
    iIntros "Hs HR". wp_pure. iApply ("HΦ" with "Hv Hm Hs HR").
Qed.

(** A percent sign and something else: only the sign is passed over. *)
Lemma no_conversion_wp fi k si ap c (Φ : res (Z * Z * Z + unit) → hPropI) :
  is_conversion k = false →
  fi ↦ 37 -∗ (fi + 1) ↦ k -∗
  (fi ↦ 37 -∗ (fi + 1) ↦ k -∗ Φ (RRet (inl (fi + 1, si, ap)) c)) -∗
  wp (vsprintf_step (fi, si, ap)) c Φ.
Proof.
  iIntros (Hk) "Hf Hk HΦ". rewrite /vsprintf_step. wp_ldb "Hf". wp_ldb "Hk".
  unfold is_conversion in Hk. apply bool_decide_eq_false in Hk.
  do 4 (rewrite (proj2 (Z.eqb_neq k _)); [|set_solver]). wp_pure. iApply ("HΦ" with "Hf Hk").
Qed.

Lemma vsprintf_loop_wp f args out fi si n ap c (Φ : res unit → hPropI) :
  format_text strings f args = Some out → 0 < si → si + Z.of_nat n <= 2 ^ 32 →
  (length out < n)%nat →
  cstr fi f -∗ args_at ap args -∗ strings_at strings -∗ room_at si n -∗
  (cstr fi f -∗ args_at ap args -∗ strings_at strings -∗
   si ↦∗ out -∗ room_at (si + Z.of_nat (length out)) (n - length out) -∗ Φ (RRet tt c)) -∗
  wp_loop vsprintf_step (fi, si, ap) c Φ.
Proof.
  iIntros (Hout Hsi Hn Hl) "Hf Ha Hm HR HΦ".
  remember (length f) as j eqn:Ej.
  iInduction j as [j IH] "IH" using lt_wf_ind forall (f args out fi si n ap Hout Hsi Hn Hl Ej).
  iApply wp_loop_step. destruct f as [|b f]; [|destruct (Z.eqb_spec b 37) as [->|Hb]].
  - simplify_eq/=. rewrite cstr_nil. rewrite /vsprintf_step. wp_ldb "Hf". wp_pure.
    iApply ("HΦ" with "Hf Ha Hm []"); [by rewrite bytes_nil|by rewrite Z.add_0_r Nat.sub_0_r].
  - iEval (rewrite cstr_cons) in "Hf". iDestruct "Hf" as "(_ & Hf & Hr)".
    destruct (is_conversion (default 0 (head f))) eqn:Hk.
    + destruct f as [|k f]; [done|]. simpl in Hout, Hk. rewrite Hk in Hout.
      destruct args as [|v args]; [done|]. destruct (convert strings k v) as [t|] eqn:Ht; [|done].
      destruct (format_text strings f args) as [rest|] eqn:Er; simplify_eq/=.
      rewrite length_app in Hl. iEval (rewrite cstr_cons) in "Hr". iDestruct "Hr" as "(%Hk2 & Hk & Hr)".
      iDestruct "Ha" as "[Hv Ha]".
      iApply (conversion_wp with "Hf Hk Hv Hm HR"); [done|done|done|done|lia|].
      iIntros "Hf Hk Hv Hm Ht HR". cbn [wp_loop_k].
      iApply ("IH" with "[%] [//] [%] [%] [%] [//] Hr Ha Hm HR"); [lia|lia|lia|lia|].
      iIntros "Hr Ha Hm Hs HR". rewrite length_app bytes_app.
      iApply ("HΦ" with "[Hf Hk Hr] [$Hv $Ha] Hm [$Ht $Hs]"); [rewrite !cstr_cons; by iFrame|].
      by rewrite Nat2Z.inj_add Z.add_assoc Nat.sub_add_distr.
    + iDestruct (cstr_head with "Hr") as (k) "(-> & _ & Hk & Hr)".
      iApply (no_conversion_wp with "Hf Hk"); [done|]. iIntros "Hf Hk". cbn [wp_loop_k].
      iDestruct ("Hr" with "Hk") as "Hr".
      assert (format_text strings f args = Some out) as Hout'.
      { destruct f as [|k f]; [done|]. cbn [format_text Z.eqb Pos.eqb] in Hout. by rewrite Hk in Hout. }
      iApply ("IH" with "[%] [//] [//] [//] [//] [//] Hr Ha Hm HR"); [simpl in *; lia|].
      iIntros "Hr". iApply "HΦ". rewrite cstr_cons. by iFrame.
  - simpl in Hout. rewrite (proj2 (Z.eqb_neq b 37) Hb) in Hout.
    destruct (format_text strings f args) as [rest|] eqn:Er; simplify_eq/=.
    iEval (rewrite cstr_cons) in "Hf". iDestruct "Hf" as "(%Hb0 & Hf & Hr)".
    rewrite /vsprintf_step. wp_ldb "Hf".
    rewrite (proj2 (Z.eqb_neq b 37) Hb) (proj2 (Z.eqb_neq b 0)); [|lia]. cbn [negb].
    destruct n as [|n]; [lia|]. rewrite room_cons. iDestruct "HR" as "[Hd HR]".
    wp_stb "Hd". wp_pure. rewrite w8_small; [|lia].
    iApply ("IH" with "[%] [//] [%] [%] [%] [//] Hr Ha Hm HR"); [lia|lia|lia|lia|].
    iIntros "Hr Ha Hm Hs HR". iApply ("HΦ" with "[Hf Hr] Ha Hm [Hd Hs]").
    { rewrite cstr_cons. by iFrame. }
    { rewrite bytes_cons. iFrame. }
    replace (si + 1 + length rest) with (si + S (length rest)) by lia. done.
Qed.

(** C23: [vsprintf] writes into a cleared buffer what the format stands for, and
    gives the length of the string there: conversions take the arguments in
    order, another character after a percent sign is copied and the sign
    dropped, and the rest of the buffer stays clear. *)
Theorem vsprintf_format_text f args out fmt str n ap c :
  format_text strings f args = Some out → (length out < n)%nat →
  0 < str → str + Z.of_nat n <= 2 ^ 32 →
  {{ cstr fmt f ∗ args_at ap args ∗ strings_at strings ∗ room_at str n }}
    (vsprintf str fmt ap) @ c
  {{ r c', ⌜c' = c ∧ r = Z.of_nat (length (till_zero out))⌝ ∗
           cstr fmt f ∗ args_at ap args ∗ strings_at strings ∗
           str ↦∗ out ∗ room_at (str + Z.of_nat (length out)) (n - length out) }}.
Proof.
  intros Hout Hl Hs Hn. apply triple_wp. iIntros "(Hf & Ha & Hm & HR)". rewrite /vsprintf.
  wp_bind. iApply wp_loop_start.
  iApply (vsprintf_loop_wp with "Hf Ha Hm HR"); [done..|]. iIntros "Hf Ha Hm Ho HR". wp_reduce.
  assert (n - length out = S (n - S (length out)))%nat as En by lia.
  iEval (rewrite En room_cons) in "HR". iDestruct "HR" as "[H0 HR]".
  iDestruct (till_zero_cstr str (out ++ [0]) with "[Ho H0]") as "[Hc Ho]".
  { apply elem_of_app. right. by apply list_elem_of_singleton. }
  { rewrite bytes_app bytes_cons bytes_nil. iFrame. }
  rewrite till_zero_snoc.
  iApply (strlen_wp with "Hc"); [lia|]. iIntros "Hc". iDestruct ("Ho" with "Hc") as "Ho".
  rewrite bytes_app bytes_cons bytes_nil. iDestruct "Ho" as "(Ho & H0 & _)".
  cbn [returns]. rewrite En room_cons. iFrame. iPureIntro. split; [done|]. apply w32_small.
  pose proof (till_zero_length out). lia.
Qed.

End spec.

(** ** Example: s=%x%c%!, with a string first *)

Definition demo_format : list Z := [37; 115; 61; 37; 120; 37; 99; 37; 33].
Definition demo_strings : gmap Z (list Z) := {[0x3000 := [97; 98]]}.
Definition demo_text : list Z := [97; 98; 61; 66; 69; 69; 70; 65; 33].
Definition demo_print : list (Z * list Z) :=
  [(0x1000, demo_format ++ [0]); (0x2000, replicate 16 0); (0x3000, [97; 98] ++ [0]);
   (0x4000 + 4, word_bytes 0x3000); (0x4000 + 4 + 4, word_bytes 0xbeef);
   (0x4000 + 4 + 4 + 4, word_bytes 65)].

Lemma demo_print_models :
  cells demo_print ⊢
  cstr 0x1000 demo_format ∗ args_at 0x4000 [0x3000; 0xbeef; 65] ∗ strings_at demo_strings ∗
  room_at 0x2000 16.
Proof.
  unfold demo_print. do 3 rewrite cells_cons. do 3 (rewrite cells_word; [|done]).
  iIntros "(Hf & $ & Hs & $ & $ & $ & _)". rewrite /strings_at big_sepM_singleton /cstr.
  iFrame. iPureIntro. repeat split; try done; repeat constructor; lia.
Qed.

Lemma vsprintf_format_text_witness :
  ∃ r h', exec (vsprintf 0x2000 0x1000 0x4000) cpu0 (mem_of demo_print) r h' ∧
    h' ⊨ (returns (λ r c', ⌜r = 9⌝ ∗ 0x2000 ↦∗ demo_text) r).
Proof.
  edestruct (triple_run _ _ _ _ (mem_of demo_print)
    (vsprintf_format_text demo_strings demo_format [0x3000; 0xbeef; 65] demo_text 0x1000 0x2000 16
       0x4000 cpu0 ltac:(vm_compute; reflexivity) ltac:(simpl; lia) ltac:(lia) ltac:(lia)))
    as (r & h' & Hx & Hq).
  - eapply models_mono; [apply demo_print_models|apply mem_of_models; vm_compute; reflexivity].
  - exists r, h'. split; [exact Hx|]. eapply models_mono; [|apply Hq].
    destruct r; cbn [returns]; [|by iIntros "[]"..].
    iIntros "([_ ->] & _ & _ & _ & $ & _)". done.
Defined.
