(* ===== verification/Screen.v ===== *)
(** lib/kernel/print.asm: the text screen.  The routines write the cells of the
    video memory and keep the cursor in the display controller's registers;
    the terminal they implement is an abstract grid with a cursor. *)
From S2P Require Export Refine Interrupt Stdio.

(** ** The routines *)

(** The video segment, of boot/loader.asm: base [0xb8000], limit 7 pages, moved
    up by [0xc0000000] when paging is turned on. *)
Definition video_base : Z := 0xc00b8000.
Definition video_limit : Z := 0x7fff.

(** [mov byte [gs:off], v], [mov word [gs:off], v]: an offset above the limit
    is a general protection fault. *)
Definition segment_fault (a : Z) : M unit := λ _ s, Fault a s.
Definition video8 (off v : Z) : M unit :=
  if off <=? video_limit then st8 (video_base + off) v else segment_fault (video_base + off).
Definition video16 (off v : Z) : M unit :=
  if off + 1 <=? video_limit then st16 (video_base + off) v else segment_fault (video_base + off).

(** The value of a 16-bit register as a signed number, for [jl]. *)
Definition s16 (z : Z) : Z := if decide (w16 z < 2 ^ 15) then w16 z else w16 z - 2 ^ 16.

(** [.set_cursor]: [bh], then [bl]. *)
Definition write_cursor (bx : Z) : M unit :=
  out_byte 0x03d4 0x0e ;; out_byte 0x03d5 (byte 1 bx) ;;
  out_byte 0x03d4 0x0f ;; out_byte 0x03d5 (byte 0 bx).

Definition read_cursor : M Z :=
  out_byte 0x03d4 0x0e ;; ah <- in_byte 0x03d5;
  out_byte 0x03d4 0x0f ;; al <- in_byte 0x03d5;
  ret (al + 2 ^ 8 * ah).

(** [.cls]: [ecx] blank cells from offset [ebx]. *)
Definition cls_cells (ebx ecx : Z) : M unit := for_ 0 ecx (λ i, video16 (ebx + 2 * i) 0x0720).

Definition cls_screen : M unit := cls_cells 0 (80 * 25) ;; write_cursor 0.

Definition set_cursor_asm (cursor : Z) : M unit := write_cursor (w16 cursor).

(** [.roll_screen], up to [.set_cursor]: gives [bx].  [rep movsd] goes up. *)
Definition roll_screen : M Z :=
  for_ 0 960 (λ i, v <- ld32 (0xc00b80a0 + 4 * i); st32 (0xc00b8000 + 4 * i) v) ;;
  cls_cells 3840 80 ;;
  ret 1920.

(** [.is_line_feed] and what follows. *)
Definition line_feed (bx : Z) : M unit :=
  let bx := w16 (w16 (bx - bx mod 80) + 80) in
  bx <- (if s16 bx <? 2000 then ret bx else roll_screen);
  write_cursor bx.

(** [.is_backspace]. *)
Definition backspace (bx : Z) : M unit :=
  let bx := w16 (2 * w16 (bx - 1)) in
  video8 bx 0x20 ;;
  let bx := w16 (bx + 1) in
  video8 bx 0x07 ;;
  write_cursor (Z.shiftr bx 1).

(** [.put_other]. *)
Definition put_other (bx cl : Z) : M unit :=
  let bx := w16 (2 * bx) in
  video8 bx cl ;;
  let bx := w16 (bx + 1) in
  video8 bx 0x07 ;;
  let bx := w16 (Z.shiftr bx 1 + 1) in
  if s16 bx <? 2000 then write_cursor bx else line_feed bx.

Definition putChar_asm (ch : Z) : M unit :=
  bx <- read_cursor;
  let cl := w8 ch in
  if cl =? 0xd then line_feed bx
  else if cl =? 0xa then line_feed bx
  else if cl =? 0x8 then backspace bx
  else put_other bx cl.

Definition putStr_step (ebx : Z) : M (Z + unit) :=
  cl <- ld8 ebx;
  if cl =? 0 then ret (inr tt) else putChar_asm cl ;; ret (inl (w32 (ebx + 1))).
Definition putStr_asm (str : Z) : M unit := loop putStr_step str.

Section putInt.
(** Where the linker puts [put_int_buffer]. *)
Context (put_int_buffer : Z).

(** [.16based_4bits]: [ecx] digits, the last one at [edi]; gives [edi]. *)
Fixpoint based16_4bits (ecx : nat) (eax edi : Z) : M Z :=
  match ecx with
  | O => ret edi
  | S ecx =>
      let edx := Z.land eax 0x0000000f in
      let edx := if edx >? 9 then edx - 10 + 65 else edx + 48 in
      st8 (put_int_buffer + edi) edx ;;
      based16_4bits ecx (Z.shiftr eax 4) (edi - 1)
  end.

(** [.skip_prefix_0] and [.full0]: the place of the first digit to print, and the digit. *)
Definition skip_prefix_0 (edi : Z) : M (Z + Z * Z) :=
  if edi =? 8 then ret (inr (edi, 48))
  else
    cl <- ld8 (put_int_buffer + edi);
    if cl =? 48 then ret (inl (edi + 1)) else ret (inr (edi, cl)).

(** [.put_each_num]. *)
Definition put_each_num (x : Z * Z) : M (Z * Z + unit) :=
  let '(edi, cl) := x in
  putChar_asm cl ;;
  let edi := edi + 1 in
  cl <- ld8 (put_int_buffer + edi);
  if edi <? 8 then ret (inl (edi, cl)) else ret (inr tt).

Definition putInt_asm (num : Z) : M unit :=
  edi <- based16_4bits 8 (w32 num) 7;
  x <- loop skip_prefix_0 (edi + 1);
  loop put_each_num x.
End putInt.

(** ** The terminal *)

(** The characters of the 25 rows, one after the other, and the cursor. *)
Record term := Term { t_grid : list Z; t_cur : Z }.

Definition term_ok (t : term) : Prop := length (t_grid t) = 2000%nat ∧ 0 <= t_cur t < 2000.

Definition blank (k : nat) : list Z := replicate k 32.

(** To the start of the next row; below the last row everything moves up. *)
Definition next_row (g : list Z) (cur : Z) : term :=
  let cur := cur - cur mod 80 + 80 in
  if cur <? 2000 then Term g cur else Term (drop 80 g ++ blank 80) 1920.

Definition term_char (ch : Z) (t : term) : option term :=
  let 'Term g cur := t in
  if (ch =? 13) || (ch =? 10) then Some (next_row g cur)
  else if ch =? 8 then
    if cur =? 0 then None else Some (Term (<[Z.to_nat (cur - 1) := 32]> g) (cur - 1))
  else
    let g := <[Z.to_nat cur := ch]> g in
    Some (if cur + 1 <? 2000 then Term g (cur + 1) else next_row g (cur + 1)).

Fixpoint term_chars (cs : list Z) (t : term) : option term :=
  match cs with
  | [] => Some t
  | ch :: cs => t ← term_char ch t; term_chars cs t
  end.

(** ** The display controller *)

(** Its index register and the two halves of the cursor: it takes what is
    written and gives it back. *)
Record crtc := Crtc { ct_index : Z; ct_high : Z; ct_low : Z }.

Definition crtc_step (d : crtc) (e : io_event) : option crtc :=
  match e with
  | EvOut port v =>
      if port =? 0x3d4 then Some (Crtc v (ct_high d) (ct_low d))
      else if port =? 0x3d5 then
        if ct_index d =? 0x0e then Some (Crtc (ct_index d) v (ct_low d))
        else if ct_index d =? 0x0f then Some (Crtc (ct_index d) (ct_high d) v)
        else Some d
      else Some d
  | EvIn port v =>
      if port =? 0x3d5 then
        if ct_index d =? 0x0e then (if v =? ct_high d then Some d else None)
        else if ct_index d =? 0x0f then (if v =? ct_low d then Some d else None)
        else Some d
      else Some d
  | _ => Some d
  end.

(** The controller after the accesses of a trace, if that is what it answers. *)
Fixpoint crtc_run (es : list io_event) (d : crtc) : option crtc :=
  match es with
  | [] => Some d
  | e :: es => d ← crtc_step d e; crtc_run es d
  end.

Section screen.
Context (d0 : crtc).

(** The controller, which started as [d0], holds the cursor. *)
Definition cursor_at (cur : Z) (c : cpu) : Prop :=
  ∃ i, crtc_run (trace c) d0 = Some (Crtc i (byte 1 cur) (byte 0 cur)).

Lemma crtc_run_log e c :
  crtc_run (trace (log_event e c)) d0 = d ← crtc_run (trace c) d0; crtc_step d e.
Proof.
  cbn [log_event trace]. generalize (trace c) d0. intros es. induction es as [|x es IH]; intros d; simpl.
  - by destruct (crtc_step d e).
  - destruct (crtc_step d x); simpl; [by rewrite IH|done].
Qed.

Lemma crtc_run_inputs ins c : crtc_run (trace (set_inputs ins c)) d0 = crtc_run (trace c) d0.
Proof. done. Qed.

Lemma write_cursor_wp bx d c (Φ : res unit → hPropI) :
  crtc_run (trace c) d0 = Some d →
  (∀ c', ⌜cursor_at bx c' ∧ inputs c' = inputs c⌝ -∗ Φ (RRet tt c')) -∗ wp (write_cursor bx) c Φ.
Proof.
  iIntros (Hd) "HΦ". rewrite /write_cursor /out_byte. do 4 wp_pure. iApply "HΦ". iPureIntro.
  split; [|done]. eexists. rewrite !crtc_run_log Hd. cbn -[byte w8 w16].
  rewrite !(w8_small (byte _ _)); try apply byte_range. done.
Qed.

Lemma in_byte_wp port b rest c (Φ : res Z → hPropI) :
  inputs c = b :: rest →
  Φ (RRet (w8 b) (log_event (EvIn (w16 port) (w8 b)) (set_inputs rest c))) -∗ wp (in_byte port) c Φ.
Proof. iIntros (Hin) "HΦ". rewrite /in_byte. wp_pure. rewrite Hin. do 3 wp_pure. done. Qed.

Lemma read_cursor_wp cur ins c (Φ : res Z → hPropI) :
  0 <= cur < 2 ^ 16 → cursor_at cur c → inputs c = byte 1 cur :: byte 0 cur :: ins →
  (∀ c', ⌜cursor_at cur c' ∧ inputs c' = ins⌝ -∗ Φ (RRet cur c')) -∗ wp read_cursor c Φ.
Proof.
  iIntros (Hcur [i Hd] Hin) "HΦ". rewrite /read_cursor /out_byte. wp_pure.
  wp_bind. iApply in_byte_wp; [exact Hin|]. wp_reduce. wp_pure.
  wp_bind. iApply in_byte_wp; [done|]. wp_reduce. wp_pure.
  rewrite !(w8_small (byte _ _)); try apply byte_range. rewrite half_of_bytes //.
  iApply "HΦ". iPureIntro. split; [|done]. exists 0x0f.
  rewrite !(crtc_run_log, crtc_run_inputs) Hd.
  change (w16 980) with 980. change (w16 981) with 981. change (w8 14) with 14. change (w8 15) with 15.
  cbn -[byte]. rewrite Z.eqb_refl. cbn -[byte]. by rewrite Z.eqb_refl.
Qed.

(** *** The cells *)

(** Light grey on black. *)
Definition cell (k : nat) (ch : Z) : hPropI :=
  ((video_base + 2 * Z.of_nat k) ↦ ch ∗ (video_base + (2 * Z.of_nat k + 1)) ↦ 7)%I.

Definition screen_cells (g : list Z) : hPropI := ([∗ list] k ↦ ch ∈ g, cell k ch)%I.

Lemma cell_acc g k ch :
  g !! k = Some ch →
  screen_cells g -∗ cell k ch ∗ (∀ ch', cell k ch' -∗ screen_cells (<[k := ch']> g)).
Proof. iIntros (Hk) "H". by iApply (big_sepL_insert_acc with "H"). Qed.

Lemma video8_wp off off' v b c (Φ : res unit → hPropI) :
  off = off' → off <= video_limit →
  (video_base + off') ↦ b -∗ ((video_base + off') ↦ w8 v -∗ Φ (RRet tt c)) -∗ wp (video8 off v) c Φ.
Proof.
  iIntros (<- Hoff) "Hb HΦ". rewrite /video8. rewrite (proj2 (Z.leb_le _ _) Hoff).
  by iApply (wp_st8 with "Hb").
Qed.

Lemma blank_cell_wp k ch c (Φ : res unit → hPropI) :
  2 * Z.of_nat k + 1 <= video_limit →
  cell k ch -∗ (cell k 32 -∗ Φ (RRet tt c)) -∗ wp (video16 (2 * Z.of_nat k) 0x0720) c Φ.
Proof.
  iIntros (Hk) "[H0 H1] HΦ". rewrite /video16 (proj2 (Z.leb_le _ _) Hk) /st16.
  wp_stb "H0". rewrite Z.add_assoc. iApply (wp_st8 with "H1"); [lia|]. iIntros "H1".
  iApply "HΦ". rewrite /cell -Z.add_assoc. iFrame.
Qed.

Lemma cls_cells_wp g k n c (Φ : res unit → hPropI) :
  length g = 2000%nat → (k + n <= 2000)%nat →
  screen_cells g -∗ (screen_cells (take k g ++ blank n ++ drop (k + n) g) -∗ Φ (RRet tt c)) -∗
  wp (cls_cells (2 * Z.of_nat k) (Z.of_nat n)) c Φ.
Proof.
  iIntros (Hg Hn) "HS HΦ". rewrite /cls_cells.
  iApply (wp_for (λ i, screen_cells (take k g ++ blank (Z.to_nat i) ++ drop (k + Z.to_nat i) g))
    with "[HS]"); [lia| | |].
  - intros i Hi. iIntros "HS". assert (∃ j, i = Z.of_nat j ∧ (j < n)%nat) as (j & -> & Hj)
      by (exists (Z.to_nat i); lia).
    rewrite Nat2Z.id. replace (Z.to_nat (Z.of_nat j + 1)) with (S j) by lia.
    destruct (lookup_lt_is_Some_2 g (k + j)) as [x Hx]; [lia|]. rewrite (drop_S _ _ _ Hx).
    iDestruct (cell_acc _ (k + j) x with "HS") as "[Hc HS]".
    { rewrite lookup_app_r length_take; [|lia]. rewrite lookup_app_r length_replicate; [|lia].
      by replace (k + j - k `min` length g - j)%nat with 0%nat by lia. }
    replace (2 * Z.of_nat k + 2 * Z.of_nat j) with (2 * Z.of_nat (k + j)) by lia.
    iApply (blank_cell_wp with "Hc"); [unfold video_limit; lia|]. iIntros "Hc". wp_reduce.
    iSplit; [done|]. iSpecialize ("HS" with "Hc"). rewrite insert_app_r_alt length_take; [|lia].
    rewrite insert_app_r_alt length_replicate; [|lia].
    replace (k + j - k `min` length g - j)%nat with 0%nat by lia. cbn [insert list_insert].
    rewrite /blank replicate_S_end -!app_assoc. by replace (k + S j)%nat with (S (k + j)) by lia.
  - change (Z.to_nat 0) with 0%nat. rewrite Nat.add_0_r. simpl. by rewrite take_drop.
  - by rewrite Nat2Z.id.
Qed.

(** *** Scrolling *)

(** Two cells are a word. *)
Definition pair_word (x y : Z) : Z := x + 2 ^ 8 * 7 + 2 ^ 16 * y + 2 ^ 24 * 7.

Lemma pair_word_spec x y :
  0 <= x < 256 → 0 <= y < 256 →
  0 <= pair_word x y < 2 ^ 32 ∧ byte 0 (pair_word x y) = x ∧ byte 1 (pair_word x y) = 7 ∧
  byte 2 (pair_word x y) = y ∧ byte 3 (pair_word x y) = 7.
Proof. intros Hx Hy. apply word_of_bytes; lia. Qed.

Lemma cells_word_eq k x y :
  0 <= x < 256 → 0 <= y < 256 →
  cell k x ∗ cell (S k) y ⊣⊢ (video_base + 2 * Z.of_nat k) ↦w pair_word x y.
Proof.
  intros Hx Hy. destruct (pair_word_spec x y) as (Hr & E0 & E1 & E2 & E3); [done..|].
  rewrite /cell /pt32 E0 E1 E2 E3.
  replace (video_base + 2 * Z.of_nat (S k)) with (video_base + 2 * Z.of_nat k + 2) by lia.
  replace (video_base + (2 * Z.of_nat (S k) + 1)) with (video_base + 2 * Z.of_nat k + 3) by lia.
  rewrite !Z.add_assoc. iSplit; [iIntros "[[$ $] [$ $]]"; done|iIntros "(_ & $ & $ & $ & $)"].
Qed.

Lemma screen_range g : screen_cells g -∗ ⌜Forall (λ b, 0 <= b < 256) g⌝.
Proof.
  iIntros "H". rewrite Forall_lookup. iIntros (k x Hk).
  iDestruct (cell_acc with "H") as "[[Hx _] _]"; [exact Hk|]. by iApply pt_range.
Qed.

Lemma pair_acc l1 l2 x y :
  0 <= x < 256 → 0 <= y < 256 →
  screen_cells (l1 ++ x :: y :: l2) -∗ (video_base + 2 * Z.of_nat (length l1)) ↦w pair_word x y ∗
    (∀ x' y', ⌜0 <= x' < 256 ∧ 0 <= y' < 256⌝ -∗
       (video_base + 2 * Z.of_nat (length l1)) ↦w pair_word x' y' -∗
       screen_cells (l1 ++ x' :: y' :: l2)).
Proof.
  iIntros (Hx Hy) "H". rewrite /screen_cells. rewrite big_sepL_app !big_sepL_cons.
  iDestruct "H" as "(H1 & Hc & Hc' & H2)". rewrite Nat.add_0_r Nat.add_1_r.
  iSplitL "Hc Hc'"; [rewrite -cells_word_eq //; iFrame|].
  iIntros (x' y' [Hx' Hy']) "Hw". rewrite big_sepL_app !big_sepL_cons Nat.add_0_r Nat.add_1_r.
  rewrite -cells_word_eq //. iDestruct "Hw" as "[$ $]". iFrame.
Qed.

Lemma drop_two {A} (g : list A) k :
  (S k < length g)%nat → ∃ x y, drop k g = x :: y :: drop (2 + k) g.
Proof.
  intros Hk. destruct (lookup_lt_is_Some_2 g k) as [x Hx]; [lia|].
  destruct (lookup_lt_is_Some_2 g (S k)) as [y Hy]; [lia|].
  exists x, y. by rewrite (drop_S _ _ _ Hx) (drop_S _ _ _ Hy).
Qed.

Lemma take_two {A} (g : list A) k x y l :
  drop k g = x :: y :: l → take (2 + k) g = take k g ++ [x; y].
Proof.
  intros E. rewrite -{1}(take_drop k g) E. assert (k <= length g)%nat as Hk.
  { assert (length (drop k g) = length (x :: y :: l)) as El by (by rewrite E).
    rewrite length_drop in El. cbn [length] in El. lia. }
  rewrite take_app length_take Nat.min_l //. rewrite take_take Nat.min_r; [|lia].
  by replace (2 + k - k)%nat with 2%nat by lia.
Qed.

(** What the copy has done after [j] words. *)
Definition rolled (g : list Z) (j : nat) : list Z := take (2 * j) (drop 80 g) ++ drop (2 * j) g.

Lemma roll_word_wp g j c (Φ : res unit → hPropI) :
  length g = 2000%nat → (j < 960)%nat → Forall (λ b, 0 <= b < 256) g →
  screen_cells (rolled g j) -∗ (screen_cells (rolled g (S j)) -∗ Φ (RRet tt c)) -∗
  wp (v <- ld32 (0xc00b80a0 + 4 * Z.of_nat j); st32 (0xc00b8000 + 4 * Z.of_nat j) v) c Φ.
Proof.
  iIntros (Hg Hj Hb) "HS HΦ".
  destruct (drop_two (drop 80 g) (2 * j)) as (x & y & E); [rewrite length_drop; lia|].
  destruct (drop_two g (2 * j)) as (u & v & E'); [lia|].
  assert (0 <= x < 256 ∧ 0 <= y < 256) as [Hx Hy].
  { assert (Forall (λ b, 0 <= b < 256) (x :: y :: drop (2 + 2 * j) (drop 80 g))) as HF
      by (rewrite -E; by do 2 apply Forall_drop). by apply Forall_cons in HF as [? [? _]%Forall_cons]. }
  assert (0 <= u < 256 ∧ 0 <= v < 256) as [Hu Hv].
  { assert (Forall (λ b, 0 <= b < 256) (u :: v :: drop (2 + 2 * j) g)) as HF
      by (rewrite -E'; by apply Forall_drop). by apply Forall_cons in HF as [? [? _]%Forall_cons]. }
  assert (rolled g j = (take (2 * j) (drop 80 g) ++ take 80 (drop (2 * j) g)) ++
    x :: y :: drop (2 + 2 * j) (drop 80 g)) as Hsrc.
  { rewrite /rolled -app_assoc. f_equal. rewrite -E drop_drop -{1}(take_drop 80 (drop (2 * j) g)) drop_drop.
    by rewrite (Nat.add_comm 80). }
  rewrite {1}Hsrc. iDestruct (pair_acc with "HS") as "[Hw HS]"; [done..|].
  wp_bind. iApply (wp_ld32 with "Hw").
  { rewrite length_app !length_take !length_drop Hg. unfold video_base. lia. }
  iIntros "Hw". wp_reduce. iSpecialize ("HS" $! x y with "[//] Hw"). rewrite -Hsrc /rolled E'.
  iDestruct (pair_acc with "HS") as "[Hw HS]"; [done..|]. rewrite length_take length_drop.
  iApply (wp_st32 with "Hw"); [unfold video_base; lia|]. iIntros "Hw".
  destruct (pair_word_spec x y) as [Hr _]; [done..|]. rewrite w32_small; [|lia].
  iApply "HΦ". iSpecialize ("HS" $! x y with "[//] Hw").
  replace (2 * S j)%nat with (2 + 2 * j)%nat by lia. rewrite (take_two _ _ _ _ _ E) -app_assoc. done.
Qed.

Lemma roll_screen_wp g c (Φ : res Z → hPropI) :
  length g = 2000%nat →
  screen_cells g -∗ (screen_cells (drop 80 g ++ blank 80) -∗ Φ (RRet 1920 c)) -∗ wp roll_screen c Φ.
Proof.
  iIntros (Hg) "HS HΦ". iDestruct (screen_range with "HS") as %Hb. rewrite /roll_screen. wp_bind.
  iApply (wp_for (λ i, screen_cells (rolled g (Z.to_nat i))) with "[HS]"); [lia| |done|].
  - intros i Hi. assert (∃ j, i = Z.of_nat j ∧ (j < 960)%nat) as (j & -> & Hj) by (exists (Z.to_nat i); lia).
    rewrite Nat2Z.id. replace (Z.to_nat (Z.of_nat j + 1)) with (S j) by lia.
    iIntros "HS". iApply (roll_word_wp with "HS"); [done..|]. iIntros "HS". wp_reduce. by iFrame.
  - iIntros "HS". wp_reduce. change (Z.to_nat 960) with 960%nat. rewrite /rolled.
    replace (2 * 960)%nat with 1920%nat by lia. rewrite take_ge; [|rewrite length_drop; lia].
    wp_bind. iApply (cls_cells_wp _ 1920 80 with "HS"); [rewrite length_app !length_drop; lia|lia|].
    rewrite take_app_le; [|rewrite length_drop; lia]. rewrite take_ge; [|rewrite length_drop; lia].
    rewrite (drop_ge _ (1920 + 80)); [|rewrite length_app !length_drop; lia]. rewrite app_nil_r.
    iIntros "HS". wp_reduce. wp_pure. by iApply "HΦ".
Qed.

(** *** Characters *)

(** The video memory and the controller show the terminal. *)
Definition screen_at (t : term) (c : cpu) : hPropI :=
  (⌜term_ok t ∧ cursor_at (t_cur t) c⌝ ∗ screen_cells (t_grid t))%I.

(** What the controller gives when it is asked for the cursor. *)
Definition cursor_bytes (cur : Z) : list Z := [byte 1 cur; byte 0 cur].

Lemma s16_small z : 0 <= z < 32768 → s16 z = z.
Proof. intros Hz. unfold s16. rewrite w16_small; [|lia]. rewrite decide_True; lia. Qed.

Lemma shiftr_odd z : Z.shiftr (2 * z + 1) 1 = z.
Proof. rewrite Z.shiftr_div_pow2; [|lia]. change (2 ^ 1) with 2. Z.div_mod_to_equations. lia. Qed.

Lemma line_feed_wp g cur d c (Φ : res unit → hPropI) :
  length g = 2000%nat → 0 <= cur <= 2000 → crtc_run (trace c) d0 = Some d →
  screen_cells g -∗
  (∀ c', ⌜inputs c' = inputs c⌝ -∗ screen_at (next_row g cur) c' -∗ Φ (RRet tt c')) -∗
  wp (line_feed cur) c Φ.
Proof.
  iIntros (Hg Hcur Hd) "HS HΦ". rewrite /line_feed /next_row.
  assert (0 <= cur mod 80 < 80) as Hm by (apply Z.mod_pos_bound; lia).
  assert (cur mod 80 <= cur) by (apply Z.mod_le; lia).
  rewrite !w16_small; [|lia..]. rewrite s16_small; [|lia].
  destruct (Z.ltb_spec (cur - cur mod 80 + 80) 2000).
  - wp_pure. iApply write_cursor_wp; [done|]. iIntros (c' [Hc Hi]). iApply ("HΦ" with "[//]").
    iFrame. iPureIntro. split; [split; [done|]|done]. cbn [t_cur]. lia.
  - wp_bind. iApply (roll_screen_wp with "HS"); [done|]. iIntros "HS". wp_reduce.
    iApply write_cursor_wp; [done|]. iIntros (c' [Hc Hi]). iApply ("HΦ" with "[//]").
    iFrame. iPureIntro. split; [split; [|cbn [t_cur]; lia]|done].
    cbn [t_grid]. rewrite length_app length_drop length_replicate. lia.
Qed.

Lemma backspace_wp g cur d c (Φ : res unit → hPropI) :
  term_ok (Term g cur) → cur ≠ 0 → crtc_run (trace c) d0 = Some d →
  screen_cells g -∗
  (∀ c', ⌜inputs c' = inputs c⌝ -∗
     screen_at (Term (<[Z.to_nat (cur - 1) := 32]> g) (cur - 1)) c' -∗ Φ (RRet tt c')) -∗
  wp (backspace cur) c Φ.
Proof.
  iIntros ([Hg Hcur] Hne Hd) "HS HΦ". cbn [t_grid t_cur] in *. rewrite /backspace.
  rewrite !w16_small; [|lia..].
  destruct (lookup_lt_is_Some_2 g (Z.to_nat (cur - 1))) as [x Hx]; [lia|].
  iDestruct (cell_acc with "HS") as "[[H0 H1] HS]"; [exact Hx|].
  wp_bind. iApply (video8_wp with "H0"); [lia|unfold video_limit; lia|]. iIntros "H0". wp_reduce.
  wp_bind. iApply (video8_wp with "H1"); [lia|unfold video_limit; lia|]. iIntros "H1". wp_reduce.
  rewrite shiftr_odd. iApply write_cursor_wp; [done|]. iIntros (c' [Hc Hi]).
  iApply ("HΦ" with "[//]"). iDestruct ("HS" with "[$H0 $H1]") as "$". iPureIntro.
  split; [split; [by rewrite length_insert|cbn [t_cur]; lia]|done].
Qed.

Lemma put_other_wp g cur cl d c (Φ : res unit → hPropI) :
  term_ok (Term g cur) → 0 <= cl < 256 → crtc_run (trace c) d0 = Some d →
  screen_cells g -∗
  (∀ c', ⌜inputs c' = inputs c⌝ -∗
     screen_at (let g := <[Z.to_nat cur := cl]> g in
                if cur + 1 <? 2000 then Term g (cur + 1) else next_row g (cur + 1)) c' -∗
     Φ (RRet tt c')) -∗
  wp (put_other cur cl) c Φ.
Proof.
  iIntros ([Hg Hcur] Hcl Hd) "HS HΦ". cbn [t_grid t_cur] in *. rewrite /put_other.
  rewrite !(w16_small (2 * cur)); [|lia..]. rewrite !(w16_small (2 * cur + 1)); [|lia..].
  rewrite shiftr_odd w16_small; [|lia]. rewrite s16_small; [|lia].
  destruct (lookup_lt_is_Some_2 g (Z.to_nat cur)) as [x Hx]; [lia|].
  iDestruct (cell_acc with "HS") as "[[H0 H1] HS]"; [exact Hx|].
  wp_bind. iApply (video8_wp with "H0"); [lia|unfold video_limit; lia|]. iIntros "H0". wp_reduce.
  wp_bind. iApply (video8_wp with "H1"); [lia|unfold video_limit; lia|]. iIntros "H1". wp_reduce.
  rewrite (w8_small cl) //. iDestruct ("HS" with "[$H0 $H1]") as "HS".
  destruct (Z.ltb_spec (cur + 1) 2000).
  - iApply write_cursor_wp; [done|]. iIntros (c' [Hc Hi]).
    iApply ("HΦ" with "[//]"). iFrame. iPureIntro.
    split; [split; [by rewrite length_insert|cbn [t_cur]; lia]|done].
  - iApply (line_feed_wp with "HS HΦ"); [by rewrite length_insert|lia|done].
Qed.

Lemma putChar_asm_wp ch t t' ins c (Φ : res unit → hPropI) :
  term_char (w8 ch) t = Some t' → inputs c = cursor_bytes (t_cur t) ++ ins →
  screen_at t c -∗
  (∀ c', ⌜inputs c' = ins⌝ -∗ screen_at t' c' -∗ Φ (RRet tt c')) -∗ wp (putChar_asm ch) c Φ.
Proof.
  iIntros (Ht Hin) "[[%Hok %Hcur] HS] HΦ". destruct t as [g cur]. cbn [t_cur t_grid] in *.
  pose proof Hok as [Hg Hc0]. cbn [t_cur t_grid] in *.
  rewrite /putChar_asm. wp_bind. iApply read_cursor_wp; [|done|exact Hin|]; [lia|].
  iIntros (c1 [[i Hd] <-]). wp_reduce. unfold term_char in Ht.
  destruct (Z.eqb_spec (w8 ch) 13) as [_|H13].
  { injection Ht as <-. iApply (line_feed_wp with "HS HΦ"); [done|lia|done]. }
  destruct (Z.eqb_spec (w8 ch) 10) as [_|H10].
  { injection Ht as <-. iApply (line_feed_wp with "HS HΦ"); [done|lia|done]. }
  cbn [orb] in Ht. destruct (Z.eqb_spec (w8 ch) 8) as [_|H8].
  - destruct (Z.eqb_spec cur 0); [done|]. injection Ht as <-. by iApply (backspace_wp with "HS HΦ").
  - injection Ht as <-. iApply (put_other_wp with "HS HΦ"); [done|apply w8_range|done].
Qed.

(** *** Strings *)

(** What the controller gives while the characters are put. *)
Fixpoint chars_answers (cs : list Z) (t : term) : list Z :=
  match cs with
  | [] => []
  | ch :: cs =>
      cursor_bytes (t_cur t) ++ (if term_char ch t is Some t then chars_answers cs t else [])
  end.

Lemma putStr_asm_wp bs str t t' ins c (Φ : res unit → hPropI) :
  Forall (λ b, b ≠ 0) bs → 0 <= str → str + Z.of_nat (length bs) < 2 ^ 32 →
  term_chars bs t = Some t' → inputs c = chars_answers bs t ++ ins →
  str ↦∗ (bs ++ [0]) -∗ screen_at t c -∗
  (∀ c', ⌜inputs c' = ins⌝ -∗ str ↦∗ (bs ++ [0]) -∗ screen_at t' c' -∗ Φ (RRet tt c')) -∗
  wp (putStr_asm str) c Φ.
Proof.
  iIntros (Hbs H0 Hlen Ht Hin) "Hstr HS HΦ". rewrite /putStr_asm. iApply wp_loop_start.
  iInduction bs as [|b bs IH] forall (str t c Φ Hbs H0 Hlen Ht Hin);
    cbn [app term_chars chars_answers length] in *; iEval (rewrite bytes_cons) in "Hstr"; iDestruct "Hstr" as "[Hb Hstr]";
    iApply wp_loop_step; wp_ldb "Hb".
  - injection Ht as <-. iApply wp_ret. wp_reduce.
    iApply ("HΦ" with "[//] [Hb Hstr] HS"). rewrite bytes_cons. iFrame.
  - apply Forall_cons in Hbs as [Hb Hbs]. rewrite (proj2 (Z.eqb_neq b 0)) //.
    destruct (term_char b t) as [t1|] eqn:E; cbn [mbind option_bind] in Ht; [|done].
    iDestruct (pt_range with "Hb") as %Hr. rewrite -app_assoc in Hin.
    wp_bind. iApply (putChar_asm_wp with "HS"); [by rewrite w8_small|exact Hin|].
    iIntros (c1 Hin1) "HS". wp_reduce. wp_pure. rewrite w32_small; [|lia].
    iApply ("IH" with "[//] [%] [%] [//] [//] Hstr HS"); [lia|lia|].
    iIntros (c2 Hin2) "Hstr HS". iApply ("HΦ" with "[//] [Hb Hstr] HS"). rewrite bytes_cons. iFrame.
Qed.

(** *** Numbers *)

(** The last [k] hexadecimal digits. *)
Fixpoint hexs (k : nat) (n : Z) : list Z :=
  match k with
  | O => []
  | S k => hexs k (n / 16) ++ [digit_char (n mod 16)]
  end.

Fixpoint strip (l : list Z) : list Z :=
  match l with
  | [] => []
  | b :: l' => if b =? 48 then strip l' else l
  end.

Lemma length_hexs k n : length (hexs k n) = k.
Proof. revert n. induction k as [|k IH]; intros n; cbn [hexs]; [done|]. rewrite length_app IH /=. lia. Qed.

Lemma strip_snoc l d : strip (l ++ [d]) = (if strip l is [] then strip [d] else strip l ++ [d]).
Proof.
  induction l as [|b l IH]; [done|]. cbn [app strip]. destruct (b =? 48); [done|].
  reflexivity.
Qed.

Lemma strip_hexs k n :
  0 <= n < 16 ^ Z.of_nat k → strip (hexs k n) = if n =? 0 then [] else digits_n k 16 n.
Proof.
  revert n. induction k as [|k IH]; intros n Hn.
  - change (16 ^ Z.of_nat 0) with 1 in Hn. by replace n with 0 by lia.
  - rewrite Nat2Z.inj_succ Z.pow_succ_r in Hn; [|lia]. cbn [hexs digits_n]. rewrite strip_snoc.
    assert (n = 16 * (n / 16) + n mod 16) as En by (apply Z.div_mod; lia).
    assert (0 <= n mod 16 < 16) as Hm by (apply Z.mod_pos_bound; lia).
    assert (0 <= n / 16 < 16 ^ Z.of_nat k) as Hq.
    { split; [apply Z.div_pos; lia|apply Z.div_lt_upper_bound; lia]. }
    rewrite IH //. destruct (Z.eqb_spec (n / 16) 0) as [Hz|Hz]; cbn [negb].
    + cbn [strip app]. unfold digit_char. destruct (Z.eqb_spec n 0), (Z.ltb_spec (n mod 16) 10); try lia.
      * by rewrite (proj2 (Z.eqb_eq (n mod 16 + 48) 48)); [|lia].
      * by rewrite (proj2 (Z.eqb_neq (n mod 16 + 48) 48)); [|lia].
      * by rewrite (proj2 (Z.eqb_neq (n mod 16 - 10 + 65) 48)); [|lia].
    + rewrite (proj2 (Z.eqb_neq n 0)); [|lia].
      destruct (digits_n k 16 (n / 16)) as [|x l] eqn:Ed; [|done].
      destruct k as [|k]; [change (16 ^ Z.of_nat 0) with 1 in Hq; lia|].
      cbn [digits_n] in Ed. by destruct (if negb _ then _ else _).
Qed.

Lemma digits_n_enough k fuel base n :
  2 <= base → (0 < k <= fuel)%nat → 0 <= n < base ^ Z.of_nat k → digits_n fuel base n = digits_n k base n.
Proof.
  intros Hb. revert fuel n. induction k as [|k IH]; intros [|fuel] n Hk Hn; [lia..|]. cbn [digits_n]. f_equal.
  destruct (Z.eqb_spec (n / base) 0) as [|Hz]; cbn [negb]; [done|].
  rewrite Nat2Z.inj_succ Z.pow_succ_r in Hn; [|lia].
  assert (0 <= n / base < base ^ Z.of_nat k) as Hq.
  { split; [apply Z.div_pos; lia|apply Z.div_lt_upper_bound; lia]. }
  destruct k as [|k]; [rewrite Z.pow_0_r in Hq; lia|]. apply IH; [lia|done].
Qed.

(** Without leading zeros, the digits are the numeral [itoa] writes. *)
Lemma strip_digits n :
  0 <= n < 2 ^ 32 → (if strip (hexs 8 n) is [] then [48] else strip (hexs 8 n)) = digits 16 n.
Proof.
  intros Hn. change (2 ^ 32) with (16 ^ Z.of_nat 8) in Hn. unfold digits.
  rewrite (digits_n_enough 8 32) //; [|lia]. rewrite strip_hexs //.
  destruct (Z.eqb_spec n 0) as [->|Hz]; [done|].
  cbn [digits_n]. by destruct (if negb _ then _ else _).
Qed.

Context (put_int_buffer : Z).

Lemma digit_char_asm n :
  0 <= n →
  (let edx := Z.land n 0x0000000f in if edx >? 9 then edx - 10 + 65 else edx + 48) = digit_char (n mod 16).
Proof.
  intros Hn. change 0x0000000f with (Z.ones 4). rewrite Z.land_ones; [|lia]. change (2 ^ 4) with 16. cbv zeta.
  unfold digit_char. rewrite Z.gtb_ltb. destruct (Z.ltb_spec 9 (n mod 16)), (Z.ltb_spec (n mod 16) 10); lia.
Qed.

Lemma digit_char_byte d : 0 <= d < 16 → 0 <= digit_char d < 256.
Proof. intros Hd. unfold digit_char. destruct (Z.ltb_spec d 10); lia. Qed.

Lemma based16_wp k eax junk tail c (Φ : res Z → hPropI) :
  0 <= eax → length junk = k →
  put_int_buffer ↦∗ (junk ++ tail) -∗
  (put_int_buffer ↦∗ (hexs k eax ++ tail) -∗ Φ (RRet (-1) c)) -∗
  wp (based16_4bits put_int_buffer k eax (Z.of_nat k - 1)) c Φ.
Proof.
  iIntros (He Hl) "HB HΦ". iInduction k as [|k IH] forall (eax junk tail He Hl).
  - destruct junk; [|done]. cbn [based16_4bits hexs app]. iApply wp_ret. by iApply "HΦ".
  - destruct junk as [|x junk _] using rev_ind; [done|]. rewrite length_app /= in Hl.
    cbn [based16_4bits hexs]. cbv zeta.
    assert (0 <= eax mod 16 < 16) by (apply Z.mod_pos_bound; lia).
    pose proof (digit_char_byte (eax mod 16)) as Hd.
    pose proof (digit_char_asm eax He) as Ed. cbv zeta in Ed. rewrite Ed. rewrite -!app_assoc.
    iDestruct (bytes_acc _ _ k x with "HB") as "[Hx HB]".
    { rewrite lookup_app_r; [|lia]. by replace (k - length junk)%nat with 0%nat by lia. }
    wp_bind. iApply (wp_st8 with "Hx"); [lia|]. iIntros "Hx". wp_reduce.
    rewrite w8_small; [|lia]. iSpecialize ("HB" with "Hx").
    rewrite insert_app_r_alt; [|lia]. replace (k - length junk)%nat with 0%nat by lia.
    replace (Z.of_nat (S k) - 1 - 1) with (Z.of_nat k - 1) by lia.
    rewrite Z.shiftr_div_pow2; [|lia]. change (2 ^ 4) with 16.
    iApply ("IH" with "[%] [%] HB HΦ"); [apply Z.div_pos; lia|lia].
Qed.

(** The number, and two bytes after the buffer that are read and not used. *)
Definition int_buffer (bs : list Z) : hPropI := (⌜length bs = 10%nat⌝ ∗ put_int_buffer ↦∗ bs)%I.

Lemma skip_wp e l pad c (Φ : res (Z * Z) → hPropI) :
  (e + length l = 8)%nat →
  (put_int_buffer + Z.of_nat e) ↦∗ (l ++ pad) -∗
  ((put_int_buffer + Z.of_nat e) ↦∗ (l ++ pad) -∗
     Φ (RRet (8 - Z.of_nat (length (strip l)), hd 48 (strip l)) c)) -∗
  wp_loop (skip_prefix_0 put_int_buffer) (Z.of_nat e) c Φ.
Proof.
  iIntros (Hl) "HB HΦ". iInduction l as [|b l IH] forall (e Hl); cbn [length strip app] in *;
    iApply wp_loop_step; rewrite /skip_prefix_0.
  - rewrite (proj2 (Z.eqb_eq (Z.of_nat e) 8)); [|lia]. iApply wp_ret. wp_reduce.
    replace (Z.of_nat e) with (8 - Z.of_nat 0) by lia. iApply ("HΦ" with "[HB]").
    by replace (8 - Z.of_nat 0) with (Z.of_nat e) by lia.
  - rewrite (proj2 (Z.eqb_neq (Z.of_nat e) 8)); [|lia].
    iEval (rewrite bytes_cons) in "HB". iDestruct "HB" as "[Hb HB]". wp_ldb "Hb".
    destruct (Z.eqb_spec b 48) as [Hb|Hb].
    + wp_pure. replace (Z.of_nat e + 1) with (Z.of_nat (S e)) by lia.
      iApply ("IH" with "[%] [HB]"); [lia|by replace (put_int_buffer + Z.of_nat (S e)) with (put_int_buffer + Z.of_nat e + 1) by lia|].
      iIntros "HB". iApply "HΦ". rewrite bytes_cons. iFrame.
      by replace (put_int_buffer + Z.of_nat (S e)) with (put_int_buffer + Z.of_nat e + 1) by lia.
    + wp_pure. cbn [length hd]. replace (8 - Z.of_nat (S (length l))) with (Z.of_nat e) by lia.
      iApply "HΦ". rewrite bytes_cons. iFrame.
Qed.

Lemma put_each_wp e cl rest p pad t t' ins c (Φ : res unit → hPropI) :
  0 <= cl < 256 → (if rest is [] then 7 <= e else e + 1 + Z.of_nat (length rest) = 8) →
  term_chars (cl :: rest) t = Some t' → inputs c = chars_answers (cl :: rest) t ++ ins →
  (put_int_buffer + (e + 1)) ↦∗ (rest ++ p :: pad) -∗ screen_at t c -∗
  (∀ c', ⌜inputs c' = ins⌝ -∗ (put_int_buffer + (e + 1)) ↦∗ (rest ++ p :: pad) -∗
     screen_at t' c' -∗ Φ (RRet tt c')) -∗
  wp_loop (put_each_num put_int_buffer) (e, cl) c Φ.
Proof.
  iIntros (Hcl He Ht Hin) "HB HS HΦ".
  iInduction rest as [|b rest IH] forall (e cl t c Φ Hcl He Ht Hin);
    cbn [term_chars chars_answers app] in Ht, Hin; destruct (term_char cl t) as [t1|] eqn:E;
    cbn [mbind option_bind] in Ht; try done; rewrite -app_assoc in Hin;
    iApply wp_loop_step; wp_bind;
    (iApply (putChar_asm_wp with "HS"); [by rewrite w8_small|exact Hin|]);
    iIntros (c1 Hin1) "HS"; wp_reduce; iEval (cbn [app]; rewrite bytes_cons) in "HB";
    iDestruct "HB" as "[Hb HB]"; wp_ldb "Hb".
  - rewrite (proj2 (Z.ltb_ge (e + 1) 8)); [|lia]. injection Ht as <-. wp_pure.
    iApply ("HΦ" with "[//] [Hb HB] HS"). cbn [app]. rewrite bytes_cons. iFrame.
  - cbn [length] in He. rewrite (proj2 (Z.ltb_lt (e + 1) 8)); [|lia]. wp_pure.
    iDestruct (pt_range with "Hb") as %Hr. replace (put_int_buffer + (e + 1) + 1)
      with (put_int_buffer + (e + 1 + 1)) by lia.
    iApply ("IH" with "[//] [%] [//] [//] HB HS"); [destruct rest; cbn [length] in *; lia|].
    iIntros (c2 Hin2) "HB HS". iApply ("HΦ" with "[//] [Hb HB] HS"). cbn [app]. rewrite bytes_cons.
    iFrame. by replace (put_int_buffer + (e + 1) + 1) with (put_int_buffer + (e + 1 + 1)) by lia.
Qed.

Lemma strip_suffix l : ∃ z, l = replicate z 48 ++ strip l.
Proof.
  induction l as [|b l [z IH]]; cbn [strip]; [by exists O|]. destruct (Z.eqb_spec b 48) as [->|]; [|by exists O].
  exists (S z). cbn [replicate app]. by f_equal.
Qed.

Lemma putInt_asm_wp n bs t t' ins c (Φ : res unit → hPropI) :
  term_chars (digits 16 (w32 n)) t = Some t' →
  inputs c = chars_answers (digits 16 (w32 n)) t ++ ins →
  int_buffer bs -∗ screen_at t c -∗
  (∀ bs' c', ⌜inputs c' = ins⌝ -∗ int_buffer bs' -∗ screen_at t' c' -∗ Φ (RRet tt c')) -∗
  wp (putInt_asm put_int_buffer n) c Φ.
Proof.
  iIntros (Ht Hin) "[%Hl HB] HS HΦ". rewrite /putInt_asm. pose proof (w32_range n) as Hn.
  rewrite -{1}(take_drop 8 bs). destruct (drop_two bs 8) as (p & q & Ed); [lia|]. rewrite Ed.
  rewrite drop_ge; [|lia]. wp_bind. change 7 with (Z.of_nat 8 - 1).
  iApply (based16_wp 8 with "HB"); [lia|rewrite length_take; lia|]. iIntros "HB". wp_reduce.
  replace (-1 + 1) with (Z.of_nat 0) by lia.
  pose proof (length_hexs 8 (w32 n)) as Hh. rewrite -strip_digits // in Ht Hin.
  wp_bind. iApply wp_loop_start. iApply (skip_wp 0 (hexs 8 (w32 n)) [p; q] with "[HB]"); [lia|by rewrite Z.add_0_r|].
  rewrite Z.add_0_r. iIntros "HB". wp_reduce.
  destruct (strip_suffix (hexs 8 (w32 n))) as [z Ez].
  assert (z + length (strip (hexs 8 (w32 n))) = 8)%nat as Hz.
  { rewrite -Hh {2}Ez length_app length_replicate. done. }
  iDestruct (bytes_range with "HB") as %Hr.
  iApply wp_loop_start. destruct (strip (hexs 8 (w32 n))) as [|x r] eqn:Es; cbn [hd length] in *.
  - change (hexs 8 (w32 n) ++ [p; q]) with (hexs 8 (w32 n) ++ [p] ++ [q]) in *. rewrite app_assoc.
    iEval (rewrite bytes_app) in "HB". iDestruct "HB" as "[HB1 HB]". rewrite length_app Hh.
    iApply (put_each_wp _ 48 [] q [] with "[HB] HS"); [lia|lia|exact Ht|exact Hin| |].
    { by replace (put_int_buffer + (8 - Z.of_nat 0 + 1)) with (put_int_buffer + Z.of_nat (8 + length [p])) by (cbn [length]; lia). }
    iIntros (c1 Hin1) "HB HS". iApply ("HΦ" $! ((hexs 8 (w32 n) ++ [p]) ++ [q]) with "[//] [HB1 HB] HS").
    iSplit; [by rewrite 2!length_app Hh|]. rewrite (bytes_app _ (hexs 8 (w32 n) ++ [p])). iFrame "HB1".
    rewrite length_app Hh. iExact "HB".
  - rewrite Ez in Hr |- *.
    assert ((replicate z 48 ++ x :: r) ++ [p; q] = (replicate z 48 ++ [x]) ++ r ++ [p; q]) as El.
    { by rewrite -!app_assoc. }
    rewrite El in Hr |- *. iEval (rewrite bytes_app) in "HB". iDestruct "HB" as "[HB1 HB]".
    assert (put_int_buffer + (8 - Z.of_nat (S (length r)) + 1) =
      put_int_buffer + Z.of_nat (length (replicate z 48 ++ [x]))) as Ea.
    { rewrite length_app length_replicate. cbn [length]. lia. }
    iApply (put_each_wp _ x r p [q] with "[HB] HS"); [| |exact Ht|exact Hin| |].
    { by apply Forall_app in Hr as [[_ [? _]%Forall_cons]%Forall_app _]. }
    { destruct r; cbn [length]; lia. }
    { by rewrite Ea. }
    iIntros (c1 Hin1) "HB HS". iApply ("HΦ" $! ((replicate z 48 ++ [x]) ++ r ++ [p; q]) with "[//] [HB1 HB] HS").
    iSplit; [iPureIntro; rewrite -El -Ez length_app Hh //|]. rewrite (bytes_app _ _ (r ++ _)) Ea. iFrame.
Qed.

Lemma blank_all (g : list Z) n : length g = n → take 0 g ++ blank n ++ drop (0 + n) g = blank n.
Proof. intros Hg. rewrite take_0 drop_ge ?app_nil_r //. lia. Qed.

(** *** Calls *)

Inductive screen_call := Cls | Char (ch : Z) | Str (str : Z) | Int (num : Z) | Cursor (cursor : Z).

Definition show (x : screen_call) : M unit :=
  match x with
  | Cls => cls_screen
  | Char ch => putChar_asm ch
  | Str str => putStr_asm str
  | Int num => putInt_asm put_int_buffer num
  | Cursor cursor => set_cursor_asm cursor
  end.

(** The strings in memory, by address. *)
Context (strings : gmap Z (list Z)).

Definition string_at (str : Z) (bs : list Z) : hPropI :=
  (⌜Forall (λ b, b ≠ 0) bs ∧ 0 <= str ∧ str + Z.of_nat (length bs) < 2 ^ 32⌝ ∗ str ↦∗ (bs ++ [0]))%I.

(** The characters a call puts. *)
Definition chars_of (x : screen_call) : option (list Z) :=
  match x with
  | Char ch => Some [w8 ch]
  | Str str => strings !! str
  | Int num => Some (digits 16 (w32 num))
  | Cls | Cursor _ => None
  end.

Definition term_call (x : screen_call) (t : term) : option term :=
  match x with
  | Cls => Some (Term (blank 2000) 0)
  | Cursor cursor => if w16 cursor <? 2000 then Some (Term (t_grid t) (w16 cursor)) else None
  | _ => cs ← chars_of x; term_chars cs t
  end.

Definition answers (x : screen_call) (t : term) : list Z :=
  if chars_of x is Some cs then chars_answers cs t else [].

(** A call on the terminal, with what the ports are still to deliver. *)
Definition screen_spec (x : screen_call) (s : term * list Z) : option (unit * (term * list Z)) :=
  let '(t, ins) := s in
  let n := length (answers x t) in
  if decide (take n ins = answers x t) then t' ← term_call x t; Some (tt, (t', drop n ins)) else None.

Definition screen_repr (s : term * list Z) (c : cpu) : hPropI :=
  (⌜inputs c = s.2⌝ ∗ screen_at s.1 c ∗ (∃ bs, int_buffer bs) ∗
   [∗ map] str ↦ bs ∈ strings, string_at str bs)%I.

#[export] Instance screen_refines : Refines show screen_spec screen_repr.
Proof.
  iIntros (x [t ins] [] [t' ins'] c Φ Hs) "(%Hin & HS & [%bs HB] & HT) HΦ". cbn [fst snd] in *.
  unfold screen_spec in Hs. case_decide as Ha; [|done].
  destruct (term_call x t) as [t1|] eqn:Ht; cbn [mbind option_bind] in Hs; [|done]. injection Hs as -> <-.
  rewrite -(take_drop (length (answers x t)) ins) Ha in Hin. clear Ha.
  set (rest := drop _ _) in *. clearbody rest.
  destruct x as [|ch|str|num|cursor]; unfold answers in Hin; cbn [chars_of term_call show app] in *.
  - injection Ht as <-. iDestruct "HS" as "[[%Hok [%i %Hd]] HS]". rewrite /cls_screen.
    wp_bind. iApply (cls_cells_wp _ 0 2000 with "HS"); [apply Hok|done|]. iIntros "HS". wp_reduce.
    iApply write_cursor_wp; [done|]. iIntros (c' [Hc Hi]). iApply "HΦ".
    iSplit; [iPureIntro; by rewrite Hi Hin|]. iSplitL "HS"; [|iSplitL "HB"; [by iExists bs|iExact "HT"]].
    rewrite (blank_all _ 2000); [|apply Hok]. iSplit; [iPureIntro|iExact "HS"].
    split; [split; [apply length_replicate|cbn [t_cur fst]; lia]|exact Hc].
  - cbn [mbind option_bind term_chars chars_answers] in *.
    destruct (term_char (w8 ch) t) as [t2|] eqn:E; cbn [mbind option_bind] in Ht; [|done].
    injection Ht as <-. rewrite app_nil_r in Hin.
    iApply (putChar_asm_wp with "HS"); [done|exact Hin|]. iIntros (c' Hi) "HS". iApply "HΦ". by iFrame.
  - destruct (strings !! str) as [cs|] eqn:Estr; cbn [mbind option_bind] in Ht; [|done].
    iDestruct (big_sepM_lookup_acc with "HT") as "[[(%Hnz & %H0 & %Hl) Hstr] HT]"; [exact Estr|].
    iApply (putStr_asm_wp with "Hstr HS"); [done..|].
    iIntros (c' Hi) "Hstr HS". iApply "HΦ". iFrame "HS HB". iSplit; [done|]. iApply "HT". by iFrame.
  - iApply (putInt_asm_wp with "HB HS"); [done..|]. iIntros (bs' c' Hi) "HB HS". iApply "HΦ". by iFrame.
  - destruct (Z.ltb_spec (w16 cursor) 2000); [|done]. injection Ht as <-.
    iDestruct "HS" as "[[[%Hg %Hok] [%i %Hd]] HS]". rewrite /set_cursor_asm.
    iApply write_cursor_wp; [done|]. iIntros (c' [Hc Hi]). iApply "HΦ". iFrame.
    rewrite Hi. pose proof (w16_range cursor). iPureIntro.
    split; [exact Hin|]. split; [split; [exact Hg|cbn [fst t_cur]; lia]|exact Hc].
Qed.

Fixpoint term_calls (xs : list screen_call) (t : term) : option term :=
  match xs with
  | [] => Some t
  | x :: xs => t ← term_call x t; term_calls xs t
  end.

(** What the controller gives during a sequence of calls. *)
Fixpoint calls_answers (xs : list screen_call) (t : term) : list Z :=
  match xs with
  | [] => []
  | x :: xs => answers x t ++ (if term_call x t is Some t then calls_answers xs t else [])
  end.

Lemma screen_spec_all xs t t' ins :
  term_calls xs t = Some t' →
  spec_all screen_spec xs (t, calls_answers xs t ++ ins) = Some (replicate (length xs) tt, (t', ins)).
Proof.
  revert t. induction xs as [|x xs IH]; intros t Ht; cbn [term_calls calls_answers spec_all] in *.
  { by injection Ht as <-. }
  destruct (term_call x t) as [t1|] eqn:E; cbn [mbind option_bind] in Ht; [|done].
  assert (∀ rest, screen_spec x (t, answers x t ++ rest) = Some (tt, (t1, rest))) as Hx.
  { intros rest. unfold screen_spec. by rewrite take_app_length decide_True // E /= drop_app_length. }
  rewrite -app_assoc Hx. cbn [mbind option_bind]. rewrite IH //.
Qed.

(** C10: The routines of the screen are a terminal of 25 rows of 80 characters.
    Any calls of them, in any order, that the terminal takes, with the display
    controller giving back the cursor it was sent, leave in the video memory the
    grid and in the controller the cursor that the terminal has: lines wrap, the
    last row scrolls, a backspace blanks the character before, a string comes out
    up to its terminator, and a number as its hexadecimal numeral. *)
Theorem screen_calls_refine xs t t' ins c :
  term_calls xs t = Some t' → inputs c = calls_answers xs t ++ ins →
  {{ screen_at t c ∗ (∃ bs, int_buffer bs) ∗ [∗ map] str ↦ bs ∈ strings, string_at str bs }}
    (run_all show xs) @ c
  {{ _ c', ⌜inputs c' = ins⌝ ∗ screen_at t' c' ∗ (∃ bs, int_buffer bs) ∗
           [∗ map] str ↦ bs ∈ strings, string_at str bs }}.
Proof.
  intros Ht Hin. apply triple_wp. iIntros "H". iApply (refines_all xs (t, inputs c) with "[H]").
  - rewrite Hin. by apply screen_spec_all.
  - by iFrame.
  - by iIntros (c') "$".
Qed.

(** A backspace with the cursor at the first cell: [bx] becomes [0xffff], and the
    cell it stands for is outside the video segment. *)
Lemma wp_segment_fault a c (Φ : res unit → hPropI) : Φ (RFault a c) ⊢ wp (segment_fault a) c Φ.
Proof. split. intros h H. eapply wp_exec_intro; [|done]. intros hf _. by exists O. Qed.

Lemma backspace_at_origin_faults g ins c :
  inputs c = [0; 0] ++ ins →
  triple (screen_at (Term g 0) c) (putChar_asm 8) c
    (faults (λ a _, ⌜a = 0xc00c7ffe⌝ ∗ screen_cells g)%I).
Proof.
  intros Hin. apply triple_wp. iIntros "[[%Hok %Hc] HS]". rewrite /putChar_asm. wp_bind.
  iApply read_cursor_wp; [|exact Hc|exact Hin|]; [done|]. iIntros (c1 _). wp_reduce.
  change (w8 8) with 8. cbn [Z.eqb Pos.eqb]. rewrite /backspace /video8.
  change (w16 (2 * w16 (0 - 1))) with 0xfffe. cbn [Z.leb Z.compare Pos.compare Pos.compare_cont video_limit].
  wp_bind. iApply wp_segment_fault. cbn [wp_k faults]. by iFrame.
Qed.

End screen.

(** ** Example: an exception report that reaches the last row *)

Lemma screen_cells_from k g :
  (video_base + 2 * Z.of_nat k) ↦∗ (g ≫= λ ch, [ch; 7]) ⊢ [∗ list] i ↦ ch ∈ g, cell (k + i) ch.
Proof.
  revert k. induction g as [|ch g IH]; intros k; [by iIntros "_"|]. cbn [mbind list_bind app].
  rewrite !bytes_cons big_sepL_cons. iIntros "(H0 & H1 & H)". rewrite Nat.add_0_r /cell Z.add_assoc. iFrame.
  iDestruct (IH (S k) with "[H]") as "H".
  { by replace (video_base + 2 * Z.of_nat (S k)) with (video_base + 2 * Z.of_nat k + 1 + 1) by lia. }
  iApply (big_sepL_mono with "H"). intros i x _. by rewrite Nat.add_succ_comm.
Qed.

Definition demo_strings : gmap Z (list Z) := {[0xc0008000 := [35; 80; 70; 32]]}.   (* "#PF " *)
Definition demo_screen : list screen_call :=
  [Cls; Cursor 1990; Str 0xc0008000; Int 0xc0de; Char 8; Char 65; Char 66; Char 67; Char 10; Int 0].
Definition demo_term : term := Term (blank 2000) 0.
Definition demo_after : term := default demo_term (term_calls demo_strings demo_screen demo_term).

Lemma demo_term_calls : term_calls demo_strings demo_screen demo_term = Some demo_after.
Proof. vm_compute. reflexivity. Qed.

Definition demo_cpu : cpu :=
  Cpu 0xc009ef00 0x2 0x100000 (calls_answers demo_strings demo_screen demo_term) [].
Definition demo_video : list (Z * list Z) :=
  [(video_base, blank 2000 ≫= λ ch, [ch; 7]); (0xc0009000, replicate 10 0);
   (0xc0008000, [35; 80; 70; 32] ++ [0])].

Lemma demo_video_ok : regions_ok demo_video.
Proof. vm_compute. reflexivity. Qed.

Lemma demo_video_models :
  cells demo_video ⊢ screen_at (Crtc 0 0 0) demo_term demo_cpu ∗ (∃ bs, int_buffer 0xc0009000 bs) ∗
    [∗ map] str ↦ bs ∈ demo_strings, string_at str bs.
Proof.
  unfold demo_video. do 3 rewrite cells_cons. iIntros "(HV & HB & HS & _)". iSplitL "HV"; [|iSplitL "HB"].
  - iSplit; [iPureIntro; split; [split; [apply length_replicate|cbn [demo_term t_cur]; lia]|by exists 0]|].
    iDestruct (screen_cells_from 0 with "[HV]") as "H"; [by rewrite Z.add_0_r|]. iExact "H".
  - iExists (replicate 10 0). iSplit; [done|]. iExact "HB".
  - rewrite /demo_strings big_sepM_singleton. iSplit; [|iExact "HS"]. iPureIntro.
    split; [repeat constructor; lia|cbn [length]; lia].
Qed.

Lemma screen_calls_refine_witness :
  ∃ r h', exec (run_all (show 0xc0009000) demo_screen) demo_cpu (mem_of demo_video) r h' ∧
    h' ⊨ (returns (λ _ c', ⌜inputs c' = []⌝ ∗ screen_at (Crtc 0 0 0) demo_after c')%I r).
Proof.
  edestruct (triple_run _ _ _ _ (mem_of demo_video)
    (screen_calls_refine (Crtc 0 0 0) 0xc0009000 demo_strings demo_screen demo_term demo_after [] demo_cpu
       demo_term_calls (eq_sym (app_nil_r _)))) as (r & h' & Hx & Hq).
  - eapply models_mono; [apply demo_video_models|apply mem_of_models, demo_video_ok].
  - exists r, h'. split; [exact Hx|]. eapply models_mono; [|apply Hq].
    destruct r; cbn [returns]; [|by iIntros "[]"..]. iIntros "($ & $ & _)".
Defined.
