(* ===== verification/Ide.v ===== *)
(** device/ide.c: the ATA driver.  The channels and the disks on them, the
    registers of a controller, transfers of sectors, the hard disk interrupt
    and the partition tables.

    What the ports deliver is the CPU's [inputs], what they are sent its trace.
    The text and the arguments of a printed message are in the frame of the
    function that prints it: [Frames] says where. *)
From S2P Require Export Arena Stdio.

(** ** Arguments *)

(** The words a caller pushes, from the last one up. *)
Fixpoint push_args (slot : Z) (vs : list Z) : M unit :=
  match vs with
  | [] => ret tt
  | v :: vs => st32 slot v ;; push_args (slot + 4) vs
  end.

(** ** Layout *)

(** struct partition *)
Definition part_start_lba (p : Z) : Z := p.
Definition part_sector_counter (p : Z) : Z := p + 4.
Definition part_my_disk (p : Z) : Z := p + 8.
Definition part_part_tag (p : Z) : Z := p + 12.
Definition part_name (p : Z) : Z := p + 20.
Definition part_sb (p : Z) : Z := p + 28.
Definition part_block_bitmap (p : Z) : Z := p + 32.
Definition part_inode_bitmap (p : Z) : Z := p + 40.
Definition part_open_inodes (p : Z) : Z := p + 48.
Definition sizeof_partition : Z := 64.
Definition part_of_part_tag (e : Z) : Z := e - 12.

(** struct disk *)
Definition disk_name (d : Z) : Z := d.
Definition disk_my_channel (d : Z) : Z := d + 8.
Definition disk_dev_no (d : Z) : Z := d + 12.     (* uint8_t *)
Definition disk_prim_parts (d i : Z) : Z := d + 16 + sizeof_partition * i.
Definition disk_logic_parts (d i : Z) : Z := d + 272 + sizeof_partition * i.
Definition sizeof_disk : Z := 784.

(** struct ide_channel *)
Definition chan_name (ch : Z) : Z := ch.
Definition chan_port_base (ch : Z) : Z := ch + 8.            (* uint16_t *)
Definition chan_interrupt_number (ch : Z) : Z := ch + 10.    (* uint8_t *)
Definition chan_lock (ch : Z) : Z := ch + 12.
Definition chan_expection_interrupt (ch : Z) : Z := ch + 40.
Definition chan_disk_done_sem (ch : Z) : Z := ch + 44.
Definition chan_devices (ch i : Z) : Z := ch + 64 + sizeof_disk * i.
Definition sizeof_ide_channel : Z := 1632.

(** struct partition_table_entry, struct boot_sector *)
Definition entry_fs_type (e : Z) : Z := e + 4.    (* uint8_t *)
Definition entry_start_lba (e : Z) : Z := e + 8.
Definition entry_sec_cnt (e : Z) : Z := e + 12.
Definition sizeof_partition_table_entry : Z := 16.
Definition bs_partition_table (b : Z) : Z := b + 446.
Definition sizeof_boot_sector : Z := 512.

(** ** Registers and commands *)

Definition reg_data (channel : Z) : M Z := b <- ld16 (chan_port_base channel); ret (b + 0).
Definition reg_sector_count (channel : Z) : M Z := b <- ld16 (chan_port_base channel); ret (b + 2).
Definition reg_lba_l (channel : Z) : M Z := b <- ld16 (chan_port_base channel); ret (b + 3).
Definition reg_lba_m (channel : Z) : M Z := b <- ld16 (chan_port_base channel); ret (b + 4).
Definition reg_lba_h (channel : Z) : M Z := b <- ld16 (chan_port_base channel); ret (b + 5).
Definition reg_dev (channel : Z) : M Z := b <- ld16 (chan_port_base channel); ret (b + 6).
Definition reg_status (channel : Z) : M Z := b <- ld16 (chan_port_base channel); ret (b + 7).
Definition reg_cmd (channel : Z) : M Z := reg_status channel.

Definition BIT_ALT_STAT_BUSY : Z := 0x80.
Definition BIT_ALT_STAT_DATA_READY : Z := 0x8.
Definition BIT_DEV_DEFAULT : Z := 0xa0.
Definition BIT_DEV_LBA : Z := 0x40.
Definition BIT_DEV_DEV : Z := 0x10.
Definition CMD_IDENTIFY : Z := 0xec.
Definition CMD_READ_SECTOR : Z := 0x20.
Definition CMD_WRITE_SECTOR : Z := 0x30.
Definition max_lba : Z := 80 * 1024 * 1024 / 512 - 1.

(** [out_byte(reg(channel), data)]. *)
Definition out_reg (reg : M Z) (data : Z) : M unit := port <- reg; out_byte port data.
Definition in_reg (reg : M Z) : M Z := port <- reg; in_byte port.

Section ide.
Context `{Symbols, Frames}.

Definition call_printk (format : string) (args : list Z) : M unit :=
  push_args fr_args (str_lit format :: args) ;;
  printk fr_printk (str_lit format) fr_args ;; ret tt.

Definition call_sprintf (buf : Z) (format : string) (args : list Z) : M unit :=
  push_args fr_args (buf :: str_lit format :: args) ;;
  sprintf buf (str_lit format) (fr_args + 4) ;; ret tt.

(** ** Commands to a controller *)

Definition select_disk (hd : Z) : M unit :=
  let reg_device := Z.lor BIT_DEV_LBA BIT_DEV_DEFAULT in
  dev_no <- ld8 (disk_dev_no hd);
  let reg_device := if dev_no =? 1 then Z.lor reg_device BIT_DEV_DEV else reg_device in
  channel <- ld32 (disk_my_channel hd);
  out_reg (reg_dev channel) reg_device.

(** [sec_cnt] is a [uint8_t]: 256 sectors are asked for with 0. *)
Definition select_sector (hd lba sec_cnt : Z) : M unit :=
  let sec_cnt := w8 sec_cnt in
  ASSERT (lba <=? max_lba) "device/ide.c" 147 "select_sector" "lba <= max_lba" ;;
  channel <- ld32 (disk_my_channel hd);
  out_reg (reg_sector_count channel) sec_cnt ;;
  channel <- ld32 (disk_my_channel hd);
  out_reg (reg_lba_l channel) lba ;;
  channel <- ld32 (disk_my_channel hd);
  out_reg (reg_lba_m channel) (Z.shiftr lba 8) ;;
  channel <- ld32 (disk_my_channel hd);
  out_reg (reg_lba_h channel) (Z.shiftr lba 16) ;;
  dev_no <- ld8 (disk_dev_no hd);
  let last_8_bits :=
    w8 (Z.lor (Z.lor (Z.lor BIT_DEV_DEFAULT BIT_DEV_LBA)
                     (if dev_no =? 1 then BIT_DEV_DEV else 0)) (Z.shiftr lba 24)) in
  channel <- ld32 (disk_my_channel hd);
  out_reg (reg_dev channel) last_8_bits.

Definition cmd_out (channel cmd : Z) : M unit :=
  ASSERT (negb (channel =? 0)) "device/ide.c" 160 "cmd_out" "channel != 0" ;;
  st32 (chan_expection_interrupt channel) 1 ;;
  out_reg (reg_cmd channel) cmd.

Definition sector_bytes (sec_cnt : Z) : Z :=
  if w8 sec_cnt =? 0 then 256 * 512 else w8 sec_cnt * 512.

Definition read_from_sector (hd buf sec_cnt : Z) : M unit :=
  let bytes_cnt := sector_bytes sec_cnt in
  channel <- ld32 (disk_my_channel hd);
  port <- reg_data channel;
  in_multibyte port buf (bytes_cnt / 2).

Definition write_to_sector (hd buf sec_cnt : Z) : M unit :=
  let bytes_cnt := sector_bytes sec_cnt in
  channel <- ld32 (disk_my_channel hd);
  port <- reg_data channel;
  out_multibyte port buf (bytes_cnt / 2).

(** [time_limit -= 10 >= 0] takes away the value of [10 >= 0], which is 1, and
    the loop ends when [time_limit] comes to 0. *)
Definition busy_wait (hd : Z) : M Z :=
  channel <- ld32 (disk_my_channel hd);
  loop (λ time_limit,
    let time_limit := w16 (time_limit - b2z (0 <=? 10)) in
    if negb (time_limit =? 0) then
      status <- in_reg (reg_status channel);
      if Z.land status BIT_ALT_STAT_BUSY =? 0 then
        status <- in_reg (reg_status channel);
        ret (inr (Z.land status BIT_ALT_STAT_DATA_READY))
      else mtime_sleep 10 ;; ret (inl time_limit)
    else ret (inr 0)) (30 * 1000).

(** ** Transfers *)

(** The sectors of the next command: no more than 256. *)
Definition sec_op_of (sec_cnt sec_done : Z) : Z :=
  if w32 (sec_cnt - sec_done) >=? 256 then 256 else w32 (sec_cnt - sec_done).

Definition read_failed (hd lba line : Z) (format : string) (func : string) : M unit :=
  call_sprintf fr_error format [disk_name hd; lba] ;;
  exception_report_at "device/ide.c" line func fr_error.

(** One turn of the loop of [ide_read]. *)
Definition read_chunk (hd lba buf sec_cnt sec_done : Z) : M (Z + unit) :=
  if sec_done <? sec_cnt then
    let sec_op := sec_op_of sec_cnt sec_done in
    select_sector hd (w32 (lba + sec_done)) sec_op ;;
    channel <- ld32 (disk_my_channel hd);
    cmd_out channel CMD_READ_SECTOR ;;
    channel <- ld32 (disk_my_channel hd);
    sem_down (chan_disk_done_sem channel) ;;
    ready <- busy_wait hd;
    when (ready =? 0)
      (read_failed hd lba 239 "%s read sector %d failed!!!!!\n" "ide_read") ;;
    read_from_sector hd (w32 (buf + 512 * sec_done)) sec_op ;;
    ret (inl (w32 (sec_done + sec_op)))
  else ret (inr tt).

Definition ide_read (hd lba buf sec_cnt : Z) : M unit :=
  ASSERT (lba <=? max_lba) "device/ide.c" 214 "ide_read" "lba <= max_lba" ;;
  ASSERT (sec_cnt >? 0) "device/ide.c" 215 "ide_read" "sec_cnt > 0" ;;
  channel <- ld32 (disk_my_channel hd);
  lock_acquire (chan_lock channel) ;;
  select_disk hd ;;
  loop (read_chunk hd lba buf sec_cnt) 0 ;;
  channel <- ld32 (disk_my_channel hd);
  lock_release (chan_lock channel).

(** One turn of the loop of [ide_write]. *)
Definition write_chunk (hd lba buf sec_cnt sec_done : Z) : M (Z + unit) :=
  if sec_done <? sec_cnt then
    let sec_op := sec_op_of sec_cnt sec_done in
    select_sector hd (w32 (lba + sec_done)) sec_op ;;
    channel <- ld32 (disk_my_channel hd);
    cmd_out channel CMD_WRITE_SECTOR ;;
    ready <- busy_wait hd;
    when (ready =? 0)
      (read_failed hd lba 274 "%s write sector %d failed!!!!!\n" "ide_write") ;;
    write_to_sector hd (w32 (buf + 512 * sec_done)) sec_op ;;
    channel <- ld32 (disk_my_channel hd);
    sem_down (chan_disk_done_sem channel) ;;
    ret (inl (w32 (sec_done + sec_op)))
  else ret (inr tt).

Definition ide_write (hd lba buf sec_cnt : Z) : M unit :=
  ASSERT (lba <=? max_lba) "device/ide.c" 249 "ide_write" "lba <= max_lba" ;;
  ASSERT (sec_cnt >? 0) "device/ide.c" 250 "ide_write" "sec_cnt > 0" ;;
  channel <- ld32 (disk_my_channel hd);
  lock_acquire (chan_lock channel) ;;
  select_disk hd ;;
  loop (write_chunk hd lba buf sec_cnt) 0 ;;
  channel <- ld32 (disk_my_channel hd);
  lock_release (chan_lock channel).

(** ** Identification *)

(** [idx] is a [uint8_t]. *)
Definition swap_pairs_bytes (dst buf len : Z) : M unit :=
  idx <- loop (λ '(idx, dst),
    if idx <? len then
      b <- ld8 dst;
      st8 (buf + (idx + 1)) b ;;
      let dst := dst + 1 in
      b <- ld8 dst;
      st8 (buf + idx) b ;;
      let dst := dst + 1 in
      ret (inl (w8 (idx + 2), dst))
    else ret (inr idx)) (0, dst);
  st8 (buf + idx) 0.

Definition identify_disk (hd : Z) : M unit :=
  select_disk hd ;;
  channel <- ld32 (disk_my_channel hd);
  cmd_out channel CMD_IDENTIFY ;;
  channel <- ld32 (disk_my_channel hd);
  sem_down (chan_disk_done_sem channel) ;;
  ready <- busy_wait hd;
  when (ready =? 0)
    (call_sprintf fr_error "%s identify failed!!!!!\n" [disk_name hd] ;;
     exception_report_at "device/ide.c" 305 "identify_disk" fr_error) ;;
  read_from_sector hd fr_hd_info 1 ;;
  let sn_start := 10 * 2 in let sn_len := 20 in
  let md_start := 27 * 2 in let md_len := 40 in
  swap_pairs_bytes (fr_hd_info + sn_start) fr_buf sn_len ;;
  call_printk " disk %s info: \n  SN: %s\n" [disk_name hd; fr_buf] ;;
  memset fr_buf 0 64 ;;
  swap_pairs_bytes (fr_hd_info + md_start) fr_buf md_len ;;
  call_printk "  MODULE: %s\n" [fr_buf] ;;
  sectors <- ld32 (fr_hd_info + 60 * 2);
  call_printk "  SECTORS: %d\n" [sectors] ;;
  call_printk "  CAPACITY: %d\n" [w32 (sectors * 512) / 1024 / 1024].

(** ** The interrupt *)

Definition ide_channel_at (i : Z) : Z := g_ide_channels + sizeof_ide_channel * i.

Definition intr_hd_handler (irq_no : Z) : M unit :=
  ASSERT ((irq_no =? 0x2e) || (irq_no =? 0x2f)) "device/ide.c" 325 "intr_hd_handler"
    "irq_no == 0x2e || irq_no == 0x2f" ;;
  let index := w8 (irq_no - 0x2e) in
  let channel := ide_channel_at index in
  expected <- ld32 (chan_expection_interrupt (ide_channel_at index));
  when (expected =? 1)
    (st32 (chan_expection_interrupt (ide_channel_at index)) 0 ;;
     sem_up (chan_disk_done_sem (ide_channel_at index)) ;;
     in_reg (reg_status channel) ;; ret tt).

(** ** Partition tables *)

(** What both kinds of partition get: its place, its disk, its link, its name. *)
Definition record_primary (hd ext_lba p : Z) : M unit :=
  i <- ld8 g_primary_idx;
  start_lba <- ld32 (entry_start_lba p);
  st32 (part_start_lba (disk_prim_parts hd i)) (ext_lba + start_lba) ;;
  sec_cnt <- ld32 (entry_sec_cnt p);
  st32 (part_sector_counter (disk_prim_parts hd i)) sec_cnt ;;
  st32 (part_my_disk (disk_prim_parts hd i)) hd ;;
  list_append g_partition_list (part_part_tag (disk_prim_parts hd i)) ;;
  i <- ld8 g_primary_idx;
  call_sprintf (part_name (disk_prim_parts hd i)) "%s%d" [disk_name hd; i + 1] ;;
  i <- ld8 g_primary_idx;
  st8 g_primary_idx (i + 1) ;;
  i <- ld8 g_primary_idx;
  ASSERT (i <? 4) "device/ide.c" 428 "partition_scan" "primary_idx < 4".

Definition record_logic (hd ext_lba p : Z) : M unit :=
  i <- ld8 g_logic_idx;
  start_lba <- ld32 (entry_start_lba p);
  st32 (part_start_lba (disk_logic_parts hd i)) (ext_lba + start_lba) ;;
  sec_cnt <- ld32 (entry_sec_cnt p);
  st32 (part_sector_counter (disk_logic_parts hd i)) sec_cnt ;;
  st32 (part_my_disk (disk_logic_parts hd i)) hd ;;
  list_append g_partition_list (part_part_tag (disk_logic_parts hd i)) ;;
  i <- ld8 g_logic_idx;
  call_sprintf (part_name (disk_logic_parts hd i)) "%s%d" [disk_name hd; i + 5] ;;
  i <- ld8 g_logic_idx;
  st8 g_logic_idx (i + 1).

(** One turn of the loop of [partition_scan]; [scan] is the function itself.
    [inr true] is the [return] in the middle, which does not free the sector. *)
Definition scan_entry (scan : Z → Z → M unit) (hd ext_lba : Z) :
    Z * Z → M (Z * Z + bool) :=
  λ '(part_idx, p),
    if part_idx <? 4 then
      fs_type <- ld8 (entry_fs_type p);
      full <- (if fs_type =? 0x5 then
                 base <- ld32 g_extra_lba_base;
                 (if negb (base =? 0) then
                    start_lba <- ld32 (entry_start_lba p);
                    base <- ld32 g_extra_lba_base;
                    scan hd (w32 (start_lba + base))
                  else
                    start_lba <- ld32 (entry_start_lba p);
                    st32 g_extra_lba_base start_lba ;;
                    scan hd start_lba) ;;
                 ret false
               else if negb (fs_type =? 0) then
                 if ext_lba =? 0 then record_primary hd ext_lba p ;; ret false
                 else
                   record_logic hd ext_lba p ;;
                   i <- ld8 g_logic_idx;
                   ret (i >=? 8)
               else ret false);
      if (full : bool) then ret (inr true)
      else ret (inl (part_idx + 1, p + sizeof_partition_table_entry))
    else ret (inr false).

(** The chain of extended partitions is what the disk says it is: the depth of
    the recursion is bounded by the fuel. *)
Fixpoint partition_scan_n (k : nat) (hd ext_lba : Z) : M unit :=
  match k with
  | O => out_of_fuel
  | S k =>
      bs <- sys_malloc sizeof_boot_sector;
      ide_read hd ext_lba bs 1 ;;
      full <- loop (scan_entry (partition_scan_n k) hd ext_lba) (0, bs_partition_table bs);
      if (full : bool) then ret tt else sys_free bs
  end.

Definition partition_scan (hd ext_lba : Z) : M unit := λ n, partition_scan_n n hd ext_lba n.

Definition partition_info (pelem arg : Z) : M bool :=
  let part := part_of_part_tag pelem in
  start_lba <- ld32 (part_start_lba part);
  sec_cnt <- ld32 (part_sector_counter part);
  call_printk "  %s start_lba: 0x%x, sec_cnt: 0x%x\n" [part_name part; start_lba; sec_cnt] ;;
  ret false.

(** ** Initialisation *)

Definition init_channel (channelogic_idx : Z) : M unit :=
  let channel := ide_channel_at channelogic_idx in
  call_sprintf (chan_name channel) "ide%d" [channelogic_idx] ;;
  (if channelogic_idx =? 0 then
     st16 (chan_port_base channel) 0x1f0 ;;
     st8 (chan_interrupt_number channel) (0x20 + 14)
   else when (channelogic_idx =? 1)
     (st16 (chan_port_base channel) 0x170 ;;
      st8 (chan_interrupt_number channel) (0x20 + 15))) ;;
  st32 (chan_expection_interrupt channel) 0 ;;
  lock_init (chan_lock channel) ;;
  sem_init (chan_disk_done_sem channel) 0 ;;
  interrupt_number <- ld8 (chan_interrupt_number channel);
  register_handler interrupt_number fn_intr_hd_handler.

Definition init_device (channelogic_idx dev_no : Z) : M unit :=
  let channel := ide_channel_at channelogic_idx in
  let hd := chan_devices channel dev_no in
  st32 (disk_my_channel hd) channel ;;
  st8 (disk_dev_no hd) dev_no ;;
  call_sprintf (disk_name hd) "sd%c" [97 + channelogic_idx * 2 + dev_no] ;;
  identify_disk hd ;;
  when (negb (dev_no =? 0)) (partition_scan hd 0) ;;
  st8 g_primary_idx 0 ;; st8 g_logic_idx 0.

Definition ide_init : M unit :=
  call_printk "ide_init start\n" [] ;;
  hd_cnt <- ld8 0x475;
  call_printk "   ide_init hd_cnt:%d\n" [hd_cnt] ;;
  ASSERT (hd_cnt >? 0) "device/ide.c" 79 "ide_init" "hd_cnt > 0" ;;
  list_init g_partition_list ;;
  st8 g_channel_cnt (DIV_ROUND_UP hd_cnt 2) ;;
  (channel_cnt <- ld8 g_channel_cnt; putInt channel_cnt) ;;
  loop (λ channelogic_idx,
    channel_cnt <- ld8 g_channel_cnt;
    if channelogic_idx <? channel_cnt then
      init_channel channelogic_idx ;;
      for_ 0 2 (init_device channelogic_idx) ;;
      ret (inl (w8 (channelogic_idx + 1)))
    else ret (inr tt)) 0 ;;
  call_printk "\n   all partition info\n" [] ;;
  list_traveral g_partition_list partition_info 0 ;;
  call_printk "ide_init done\n" [].

End ide.
