(* ===== verification/Traps.v ===== *)
(** kernel/kernel.asm: the entry of the interrupts, and what the idle thread
    does when one arrives while it halts. *)
From S2P Require Export Ide.

Section traps.
Context `{Symbols, Frames}.

(** The functions the handler table can point to, called with the vector
    number; a call anywhere else faults.  [cr2] is the page fault address. *)
Definition call_handler (cr2 f vec_number : Z) : M unit :=
  if f =? fn_intr_hd_handler then intr_hd_handler vec_number
  else if f =? fn_intr_timer_handler then intr_timer_handler
  else if f =? fn_intr_keyboard_handler then intr_keyboard_handler
  else if f =? fn_general_exception_handler then general_exception_handler cr2 vec_number
  else λ _ s, Fault f s.

(** An interrupt of kernel code: the gate masks interrupts, the entry stub saves
    the registers, acknowledges both controllers and calls the handler;
    [iret] restores the flags. *)
Definition interrupt_entry (cr2 vec_number : Z) : M unit :=
  c <- get_cpu;
  cli ;;
  out_byte 0x20 0x20 ;;
  out_byte 0xa0 0x20 ;;
  f <- ld32 (g_exception_funcptr_table + 4 * vec_number);
  call_handler cr2 f vec_number ;;
  modify_cpu (set_eflags (eflags c)).

(** The idle thread from one switch to the next: it comes back from
    [thread_lock] with interrupts on, halts, is interrupted, and blocks again. *)
Definition idle_turn (vec_number : Z) : M unit :=
  intr_set_status INTR_ON ;;
  sti_hlt ;;
  interrupt_entry 0 vec_number ;;
  thread_lock TASK_BLOCKED.

End traps.
