(* ===== verification/Context.v ===== *)
(** The register level: what the assembly of kernel/kernel.asm and
    thread/switch.asm saves on the stack and brings back.  The rest of the
    library keeps of the registers only the stack pointer, the flags and the
    directory; here is the register file, and the interrupt entry, the system
    call entry and the thread switch instruction by instruction.  Segment registers
    have sixteen bits, and a return to a segment that is not code is a fault. *)
From S2P Require Export Traps.

(** ** Registers and the stack *)

Record regs := Regs {
  r_eax : Z; r_ecx : Z; r_edx : Z; r_ebx : Z; r_ebp : Z; r_esi : Z; r_edi : Z;
  r_ds : Z; r_es : Z; r_fs : Z; r_gs : Z; r_cs : Z; r_ss : Z; r_eip : Z
}.

Definition set_eax (v : Z) (r : regs) : regs :=
  Regs v (r_ecx r) (r_edx r) (r_ebx r) (r_ebp r) (r_esi r) (r_edi r)
    (r_ds r) (r_es r) (r_fs r) (r_gs r) (r_cs r) (r_ss r) (r_eip r).

Definition push (v : Z) : M unit :=
  c <- get_cpu;
  modify_cpu (set_esp (esp c - 4)) ;;
  st32 (esp c - 4) v.

Definition pop : M Z :=
  c <- get_cpu;
  v <- ld32 (esp c);
  modify_cpu (set_esp (esp c + 4)) ;;
  ret v.

(** A segment register takes the low half of the word. *)
Definition pop_seg : M Z := v <- pop; ret (w16 v).

(** [add esp, n] *)
Definition add_esp (n : Z) : M unit := modify_cpu (λ c, set_esp (esp c + n) c).

Definition pushad (r : regs) : M unit :=
  c <- get_cpu;
  push (r_eax r) ;; push (r_ecx r) ;; push (r_edx r) ;; push (r_ebx r) ;;
  push (esp c) ;; push (r_ebp r) ;; push (r_esi r) ;; push (r_edi r).

(** The stack pointer it saved is thrown away. *)
Definition popad (r : regs) : M regs :=
  edi <- pop; esi <- pop; ebp <- pop; add_esp 4 ;;
  ebx <- pop; edx <- pop; ecx <- pop; eax <- pop;
  ret (Regs eax ecx edx ebx ebp esi edi (r_ds r) (r_es r) (r_fs r) (r_gs r)
         (r_cs r) (r_ss r) (r_eip r)).

(** ** The processor *)

(** Privilege level 3 in a code selector. *)
Definition user_mode (cs : Z) : bool := cs mod 4 =? 3.

(** The code segments of the GDT. *)
Definition code_selector (cs : Z) : bool := (cs =? SELECTOR_K_CODE) || (cs =? SELECTOR_U_CODE).

(** The exceptions for which the processor pushes an error code. *)
Definition has_error_code (vec : Z) : bool :=
  bool_decide (vec ∈ [8; 10; 11; 12; 13; 14; 17]).

Section entries.
Context `{Symbols, Frames}.

(** Through an interrupt gate: from user mode onto the stack the TSS names,
    where the old one is saved; then the flags and the place to return to, and
    interrupts are masked. *)
Definition deliver (error : option Z) (r : regs) : M unit :=
  c <- get_cpu;
  when (user_mode (r_cs r))
    (sp0 <- ld32 (tss_esp0 g_tss);
     modify_cpu (set_esp sp0) ;;
     push (r_ss r) ;;
     push (esp c)) ;;
  push (eflags c) ;;
  push (r_cs r) ;;
  push (r_eip r) ;;
  (match error with Some e => push e | None => ret tt end) ;;
  cli.

(** A selector of something else than code is a protection fault. *)
Definition iret (r : regs) : M regs :=
  eip <- pop;
  cs <- pop_seg;
  flags <- pop;
  if code_selector cs then
    modify_cpu (set_eflags flags) ;;
    ss <- (if user_mode cs then
             sp <- pop;
             ss <- pop_seg;
             modify_cpu (set_esp sp) ;;
             ret ss
           else ret (r_ss r));
    ret (Regs (r_eax r) (r_ecx r) (r_edx r) (r_ebx r) (r_ebp r) (r_esi r) (r_edi r)
           (r_ds r) (r_es r) (r_fs r) (r_gs r) cs ss eip)
  else λ _ s, Fault cs s.

(** ** kernel/kernel.asm *)

(** The same five instructions in both entries. *)
Definition save_registers (r : regs) : M unit :=
  push (r_ds r) ;; push (r_es r) ;; push (r_fs r) ;; push (r_gs r) ;;
  pushad r.

(** [exit_intr] *)
Definition exit_intr_regs (r : regs) : M regs :=
  r <- popad r;
  gs <- pop_seg;
  fs <- pop_seg;
  es <- pop_seg;
  ds <- pop_seg;
  add_esp 4 ;;
  iret (Regs (r_eax r) (r_ecx r) (r_edx r) (r_ebx r) (r_ebp r) (r_esi r) (r_edi r)
          ds es fs gs (r_cs r) (r_ss r) (r_eip r)).

(** The vectors whose stub is made with ZERO. *)
Definition stub_pushes_zero (vec : Z) : bool := negb ((vec =? 0x0d) || (vec =? 0x1e)).

(** A call: [ra] is the address after it, which the function takes back. *)
Definition call {A} (ra : Z) (f : M A) : M A :=
  push ra ;; v <- f; pop ;; ret v.

(** [interrupt_deal vec].  C code leaves whatever it likes, [left], in the
    registers; all of them are popped. *)
Definition interrupt_stub (ra cr2 vec : Z) (r left : regs) : M regs :=
  when (stub_pushes_zero vec) (push 0) ;;
  save_registers r ;;
  out_byte 0x20 0x20 ;;
  out_byte 0xa0 0x20 ;;
  push vec ;;
  f <- ld32 (g_exception_funcptr_table + vec * 4);
  call ra (call_handler cr2 f vec) ;;
  add_esp 4 ;;
  exit_intr_regs left.

(** [system_call_handler].  The function is called with three arguments. *)
Definition syscall_stub (ra : Z) (r left : regs) : M regs :=
  push 0 ;;
  save_registers r ;;
  push 0x80 ;;
  push (r_edx r) ;;
  push (r_ecx r) ;;
  push (r_ebx r) ;;
  eax <- call ra (system_call_handler (r_eax r) (r_ebx r) (r_ecx r) (r_edx r));
  add_esp 12 ;;
  (c <- get_cpu; st32 (esp c + 8 * 4) eax) ;;
  add_esp 4 ;;
  exit_intr_regs (set_eax eax left).

(** ** thread/switch.asm *)

(** [switch_to], called with its two arguments and the return address on the
    stack: the registers a C function must keep are saved, the stacks are
    exchanged, and what the other thread saved is taken, with the address it
    goes on at. *)
Definition switch_to_regs (r : regs) : M regs :=
  push (r_esi r) ;; push (r_edi r) ;; push (r_ebx r) ;; push (r_ebp r) ;;
  c <- get_cpu;
  curr <- ld32 (esp c + 20);
  st32 curr (esp c) ;;
  next <- ld32 (esp c + 24);
  sp <- ld32 next;
  modify_cpu (set_esp sp) ;;
  ebp <- pop; ebx <- pop; edi <- pop; esi <- pop;
  eip <- pop;
  ret (Regs next (r_ecx r) (r_edx r) ebx ebp esi edi
         (r_ds r) (r_es r) (r_fs r) (r_gs r) (r_cs r) (r_ss r) eip).

End entries.

(** ** The stack as a list of words *)

(** The [n] words below [a], whatever they hold. *)
Fixpoint room (a : Z) (n : nat) : hPropI :=
  match n with
  | O => emp
  | S n => (a - 4) ↦w - ∗ room (a - 4) n
  end%I.

(** The stack at [a]: [vs] on top, room for [n] words more. *)
Definition stack (a : Z) (n : nat) (vs : list Z) : hPropI := (words a vs ∗ room a n)%I.

Section stack.
Implicit Types (c : cpu).

Lemma stack_eq a a' n n' vs : a = a' → n = n' → stack a n vs -∗ stack a' n' vs.
Proof. by iIntros (-> ->) "$". Qed.

Lemma push_wp a v n vs c (Φ : res unit → hPropI) :
  esp c = a → 0 <= v < 2 ^ 32 →
  stack a (S n) vs -∗
  (stack (a - 4) n (v :: vs) -∗ Φ (RRet tt (set_esp (a - 4) c))) -∗
  wp (push v) c Φ.
Proof.
  iIntros (<- Hv) "[Hw [[%x Hx] Hr]] HΦ". rewrite /push. wp_pure. wp_pure. wp_st "Hx".
  rewrite w32_small; [|lia]. iApply "HΦ". rewrite /stack /=.
  replace (esp c - 4 + 4) with (esp c) by lia. iFrame.
Qed.

Lemma pop_wp a v n vs c (Φ : res Z → hPropI) :
  esp c = a →
  stack a n (v :: vs) -∗
  (stack (a + 4) (S n) vs -∗ Φ (RRet v (set_esp (a + 4) c))) -∗
  wp pop c Φ.
Proof.
  iIntros (<-) "[[Hv Hw] Hr] HΦ". rewrite /pop. wp_pure. wp_ld "Hv". wp_pure. wp_pure.
  iApply "HΦ". rewrite /stack /=. replace (esp c + 4 - 4) with (esp c) by lia. iFrame.
Qed.

(** Accesses to the stack. *)
Lemma stack_st_wp a b xs x ys v n c (Φ : res unit → hPropI) :
  b = a + 4 * Z.of_nat (length xs) → 0 <= v < 2 ^ 32 →
  stack a n (xs ++ x :: ys) -∗
  (stack a n (xs ++ v :: ys) -∗ Φ (RRet tt c)) -∗
  wp (st32 b v) c Φ.
Proof.
  iIntros (-> Hv) "[Hw Hr] HΦ". rewrite words_at. iDestruct "Hw" as "(Hx & Hv & Hy)".
  iApply (wp_st32 with "Hv"); [done|]. iIntros "Hv". rewrite w32_small; [|done].
  iApply "HΦ". rewrite /stack words_at. iFrame.
Qed.

Lemma stack_ld_wp a b xs x ys n c (Φ : res Z → hPropI) :
  b = a + 4 * Z.of_nat (length xs) →
  stack a n (xs ++ x :: ys) -∗
  (stack a n (xs ++ x :: ys) -∗ Φ (RRet x c)) -∗
  wp (ld32 b) c Φ.
Proof.
  iIntros (->) "[Hw Hr] HΦ". rewrite words_at. iDestruct "Hw" as "(Hx & Hv & Hy)".
  iApply (wp_ld32 with "Hv"); [done|]. iIntros "Hv". iApply "HΦ". rewrite /stack words_at. iFrame.
Qed.

Lemma add_esp_wp a ws k n vs c (Φ : res unit → hPropI) :
  esp c = a → k = 4 * Z.of_nat (length ws) →
  stack a n (ws ++ vs) -∗
  (stack (a + k) (length ws + n) vs -∗ Φ (RRet tt (set_esp (a + k) c))) -∗
  wp (add_esp k) c Φ.
Proof.
  iIntros (<- ->) "HS HΦ". rewrite /add_esp. iApply wp_modify_cpu. iApply "HΦ".
  generalize (esp c). intros a. iInduction ws as [|w ws IH] forall (a n); simpl.
  - by rewrite Z.mul_0_r Z.add_0_r.
  - rewrite Nat2Z.inj_succ. replace (a + 4 * Z.succ (length ws)) with (a + 4 + 4 * length ws) by lia.
    replace (S (length ws + n)) with (length ws + S n)%nat by lia. iApply "IH".
    iDestruct "HS" as "[[Hv $] Hr] /=". replace (a + 4 - 4) with a by lia. iFrame.
Qed.

End stack.

Lemma set_esp_twice a b (c : cpu) : set_esp a (set_esp b c) = set_esp a c.
Proof. done. Qed.

Lemma set_eflags_esp f a (c : cpu) : set_eflags f (set_esp a c) = set_esp a (set_eflags f c).
Proof. done. Qed.

(** Run one push, one pop, one drop of [ws] on the stack [H]. *)
Ltac wp_cpu := rewrite ?set_eflags_esp ?set_esp_twice ?Z.sub_simpl_r; wp_reduce.
Tactic Notation "wp_push" constr(H) :=
  iApply wp_bind; iApply (push_wp with H); [done|cbn [esp set_esp]; try lia|]; iIntros H; wp_cpu.
Tactic Notation "wp_pop" constr(H) :=
  iApply wp_bind; iApply (pop_wp with H); [done|]; iIntros H; wp_cpu.
Tactic Notation "wp_drop" constr(H) constr(ws) :=
  iApply wp_bind; iApply (add_esp_wp _ ws with H); [done|done|]; iIntros H; wp_cpu.

(** The same in code that may be switched away from. *)
Ltac wpi_cpu := rewrite ?set_eflags_esp ?set_esp_twice ?Z.sub_simpl_r; wpi_reduce.
Tactic Notation "wpi_push" constr(H) :=
  wpi_bind; iApply (push_wp with H); [done|cbn [esp set_esp]; try lia|]; iIntros H; wpi_cpu.
Tactic Notation "wpi_drop" constr(H) constr(ws) :=
  wpi_bind; iApply (add_esp_wp _ ws with H); [done|done|]; iIntros H; wpi_cpu.

Lemma pop_seg_wp a v n vs (c : cpu) (Φ : res Z → hPropI) :
  esp c = a → 0 <= v < 2 ^ 16 →
  stack a n (v :: vs) -∗
  (stack (a + 4) (S n) vs -∗ Φ (RRet v (set_esp (a + 4) c))) -∗
  wp pop_seg c Φ.
Proof.
  iIntros (He Hv) "HS HΦ". rewrite /pop_seg. iApply wp_bind. iApply (pop_wp with "HS"); [done|].
  iIntros "HS". wp_reduce. iApply wp_ret. rewrite /w16 Z.mod_small //. by iApply "HΦ".
Qed.

Tactic Notation "wp_pop_seg" constr(H) :=
  iApply wp_bind; iApply (pop_seg_wp with H); [done|done|]; iIntros H; wp_cpu.

(** ** Entries and exits *)

Definition regs_ok (r : regs) : Prop :=
  Forall word_ok [r_eax r; r_ecx r; r_edx r; r_ebx r; r_ebp r; r_esi r; r_edi r;
                  r_ds r; r_es r; r_fs r; r_gs r; r_cs r; r_ss r; r_eip r].

(** Code that runs: the segment registers have sixteen bits, and that of the code
    selects one of the two code segments. *)
Definition runs_ok (r : regs) : Prop :=
  regs_ok r ∧ Forall (λ v, 0 <= v < 2 ^ 16) [r_ds r; r_es r; r_fs r; r_gs r; r_cs r; r_ss r] ∧
  code_selector (r_cs r) = true.

(** What [pushad] and the segment pushes leave, for a stack pointer [sp]. *)
Definition saved_regs (sp : Z) (r : regs) : list Z :=
  [r_edi r; r_esi r; r_ebp r; sp; r_ebx r; r_edx r; r_ecx r; r_eax r;
   r_gs r; r_fs r; r_es r; r_ds r].

Ltac regs_range H :=
  unfold regs_ok, word_ok in H; repeat match goal with
  | H : Forall _ (_ :: _) |- _ => apply Forall_cons in H as [? H]
  end.

Section entry_wp.
Implicit Types (c : cpu) (r : regs).

Lemma save_wp r n vs c (Φ : res unit → hPropI) :
  regs_ok r → 16 <= esp c < 2 ^ 32 →
  stack (esp c) (12 + n) vs -∗
  (stack (esp c - 48) n (saved_regs (esp c - 16) r ++ vs) -∗
   Φ (RRet tt (set_esp (esp c - 48) c))) -∗
  wp (save_registers r) c Φ.
Proof.
  iIntros (Hr Hsp) "HS HΦ". regs_range Hr. cbn [Nat.add] in *.
  rewrite /save_registers. do 4 wp_push "HS". rewrite /pushad. wp_pure.
  do 7 wp_push "HS". iApply (push_wp with "HS"); [done|cbn [esp set_esp]; lia|]. iIntros "HS". wp_cpu.
  replace (esp c - 4 - 4 - 4 - 4 - 4 - 4 - 4 - 4 - 4 - 4 - 4 - 4) with (esp c - 48) by lia.
  replace (esp c - 16) with (esp c - 4 - 4 - 4 - 4) by lia. by iApply "HΦ".
Qed.

(** Back to the interrupted code: for user mode the frame has the stack to go
    back to. *)
Definition outer_frame (usp : Z) r : list Z := if user_mode (r_cs r) then [usp; r_ss r] else [].

Lemma exit_wp r0 r w fl ssp usp n vs c (Φ : res regs → hPropI) :
  runs_ok r → (user_mode (r_cs r) = false → r_ss r0 = r_ss r) →
  stack (esp c) n (saved_regs ssp r ++ [w; r_eip r; r_cs r; fl] ++ outer_frame usp r ++ vs) -∗
  (stack (esp c + 4 * Z.of_nat (16 + length (outer_frame usp r)))
     (16 + length (outer_frame usp r) + n) vs -∗
   Φ (RRet r (set_esp (if user_mode (r_cs r) then usp else esp c + 64) (set_eflags fl c)))) -∗
  wp (exit_intr_regs r0) c Φ.
Proof.
  iIntros ((_ & Hseg & Hcs) Hss) "HS HΦ". rewrite /exit_intr_regs /popad. iApply wp_bind.
  repeat (apply Forall_cons in Hseg as [? Hseg]).
  do 3 wp_pop "HS". wp_drop "HS" [ssp]. do 4 wp_pop "HS". wp_pure. do 4 wp_pop_seg "HS".
  wp_drop "HS" [w]. rewrite /iret. wp_pop "HS". wp_pop_seg "HS". wp_pop "HS". rewrite Hcs.
  wp_pure. wp_cpu. cbn [r_eax r_ecx r_edx r_ebx r_ebp r_esi r_edi r_ss].
  rewrite /outer_frame. destruct (user_mode (r_cs r)).
  - iApply wp_bind. wp_pop "HS". wp_pop_seg "HS". do 2 (wp_pure; wp_cpu).
    destruct r. cbn. wp_pure.
    replace (esp c + 4 * Z.of_nat 18) with
      (esp c + 4 + 4 + 4 + 4 + 4 + 4 + 4 + 4 + 4 + 4 + 4 + 4 + 4 + 4 + 4 + 4 + 4 + 4) by lia.
    by iApply "HΦ".
  - wp_pure. rewrite Hss //. destruct r. cbn. wp_pure.
    replace (esp c + 4 * Z.of_nat 16) with
      (esp c + 4 + 4 + 4 + 4 + 4 + 4 + 4 + 4 + 4 + 4 + 4 + 4 + 4 + 4 + 4 + 4) by lia.
    replace (esp c + 64) with
      (esp c + 4 + 4 + 4 + 4 + 4 + 4 + 4 + 4 + 4 + 4 + 4 + 4 + 4 + 4 + 4 + 4) by lia.
    by iApply "HΦ".
Qed.

(** The processor's frame under the word that [exit_intr] skips. *)
Definition frame (fl usp : Z) r : list Z := [r_eip r; r_cs r; fl] ++ outer_frame usp r.

Context `{Symbols, Frames}.

Definition error_words (error : option Z) : list Z :=
  match error with Some e => [e] | None => [] end.

(** The stack an interrupt uses, and the field of the TSS that names it. *)
Definition entry_top (sp0 : Z) r c : Z := if user_mode (r_cs r) then sp0 else esp c.
Definition tss_stack (sp0 : Z) r : hPropI :=
  (if user_mode (r_cs r) then tss_esp0 g_tss ↦w sp0 else emp)%I.

Lemma deliver_wp error r sp0 n vs c (Φ : res unit → hPropI) :
  let k := (length (error_words error) + length (frame (eflags c) (esp c) r))%nat in
  regs_ok r → word_ok (esp c) → word_ok (eflags c) → Forall word_ok (error_words error) →
  tss_stack sp0 r -∗ stack (entry_top sp0 r c) (k + n) vs -∗
  (tss_stack sp0 r -∗
   stack (entry_top sp0 r c - 4 * Z.of_nat k) n
     (error_words error ++ frame (eflags c) (esp c) r ++ vs) -∗
   Φ (RRet tt (cli_cpu (set_esp (entry_top sp0 r c - 4 * Z.of_nat k) c)))) -∗
  wp (deliver error r) c Φ.
Proof.
  iIntros (k Hr Hsp Hfl He) "HT HS HΦ". regs_range Hr. unfold word_ok in *.
  rewrite /deliver. wp_pure. subst k. rewrite /frame length_app. set (o := outer_frame (esp c) r).
  set (k := length o). set (top := entry_top sp0 r c).
  iApply wp_bind. iApply (wp_wand _ _ (returns (λ _ c1, ⌜c1 = set_esp (top - 4 * Z.of_nat k) c⌝ ∗
    tss_stack sp0 r ∗ stack (top - 4 * Z.of_nat k) (length (error_words error) + 3 + n) (o ++ vs)))%I
    with "[HT HS]").
  { subst o k top. unfold outer_frame, entry_top, tss_stack.
    destruct (user_mode (r_cs r)); cbn [when length app].
    - wp_ld "HT". wp_pure. cbn [length Nat.add].
      replace (length (error_words error) + 5 + n)%nat
        with (S (S (length (error_words error) + 3 + n)))%nat by lia.
      wp_push "HS". iApply (push_wp with "HS"); [done|done|]. iIntros "HS". wp_cpu. iFrame "HT".
      replace (sp0 - 4 * Z.of_nat 2) with (sp0 - 4 - 4) by lia. by iFrame.
    - iApply wp_ret. rewrite /returns Z.mul_0_r Z.sub_0_r Nat.add_0_r.
      iFrame "HT HS". iPureIntro. by destruct c. }
  iIntros ([u c1|?|?|? ?]) "H //=". iDestruct "H" as "(-> & HT & HS)".
  iSpecialize ("HΦ" with "HT").
  destruct error as [e|]; cbn [error_words length app Nat.add] in *.
  - apply Forall_cons in He as [He _]. do 4 wp_push "HS".
    replace (top - 4 * Z.of_nat (S (S (S (S k))))) with (top - 4 * Z.of_nat k - 4 - 4 - 4 - 4) by lia.
    iApply wp_modify_cpu. by iApply "HΦ".
  - do 3 wp_push "HS".
    replace (top - 4 * Z.of_nat (S (S (S k)))) with (top - 4 * Z.of_nat k - 4 - 4 - 4) by lia.
    iApply wp_modify_cpu. by iApply "HΦ".
Qed.

(** ** Interrupts are transparent *)

Context (me : Z) (others : M unit).

(** The processor as the handler of an entry finds it. *)
Definition entered (sp : Z) c c1 : Prop :=
  esp c1 = sp ∧ if_on c1 = false ∧ inputs c1 = inputs c ∧ cr3 c1 = cr3 c.

Lemma interrupt_stub_wpi a ra cr2 vec f r left w fl usp n vs c (Φ : res regs → hPropI) :
  a = (if stub_pushes_zero vec then esp c - 4 else esp c) →
  runs_ok r → word_ok ra → word_ok vec → 60 <= esp c < 2 ^ 32 → stays Φ →
  (user_mode (r_cs r) = false → r_ss left = r_ss r) →
  if_on c = false → (if stub_pushes_zero vec then w = 0 else True) →
  (g_exception_funcptr_table + vec * 4) ↦w f -∗
  stack (esp c) (if stub_pushes_zero vec then 15 + n else 14 + n)%nat
    ((if stub_pushes_zero vec then [] else [w]) ++ frame fl usp r ++ vs) -∗
  (∀ c1, ⌜entered (a - 56) c c1⌝ -∗ (g_exception_funcptr_table + vec * 4) ↦w f -∗
   wpi me others (call_handler cr2 f vec) c1 (returns (λ _ c2, ⌜esp c2 = esp c1⌝ ∗
     (stack (a + 4 * Z.of_nat (length (w :: frame fl usp r)))
        (length (w :: frame fl usp r) + 14 + n) vs -∗
      Φ (RRet r (set_esp (if user_mode (r_cs r) then usp else a + 16) (set_eflags fl c2))))))) -∗
  wpi me others (interrupt_stub ra cr2 vec r left) c Φ.
Proof.
  iIntros (Ea Hr Hra Hv Hsp Hstays Hss Hoff Hw) "Hf HS HH". unfold word_ok in *.
  assert (56 <= a < 2 ^ 32) as Ha by (destruct (stub_pushes_zero vec); lia).
  rewrite /interrupt_stub. wpi_bind.
  iApply (wp_wand _ _ (returns (λ _ c1, ⌜c1 = set_esp a c⌝ ∗
    stack a (14 + n) (w :: frame fl usp r ++ vs)))%I with "[HS]").
  { subst a. destruct (stub_pushes_zero vec); cbn [when].
    - subst w. iApply (push_wp with "HS"); [done|done|]. iIntros "HS /=". by iFrame.
    - iApply wp_ret. iFrame "HS". iPureIntro. by destruct c. }
  iIntros ([u c1|?|?|? ?]) "H //=". iDestruct "H" as "[-> HS]".
  wpi_bind. iApply (save_wp r (2 + n) _ (set_esp a c) with "[HS]");
    [apply Hr|simpl; lia|iExact "HS"|].
  iIntros "HS". wpi_cpu. do 2 (wpi_bind; iApply wp_emit; wpi_cpu).
  rewrite {1 2}/log_event. cbn [esp set_esp eflags cr3 inputs trace].
  wpi_push "HS". wpi_ld "Hf". rewrite /call. iApply wpi_bind. wpi_push "HS". iApply wpi_bind.
  iApply (wpi_wand with "[HH Hf]"); [iApply ("HH" with "[] Hf"); iPureIntro; split_and!; [simpl; lia|done..]|].
  iIntros ([u1 c2|?|?|? ?]) "H //=". iDestruct "H" as "[%Hc2 HΦ]". cbn [esp set_esp] in Hc2.
  wpi_bind. iApply (pop_wp with "HS"); [done|]. iIntros "HS". wpi_cpu.
  iApply wpi_wp; [auto|]. iApply wp_ret. wpi_cpu.
  wpi_drop "HS" [vec]. iApply wpi_wp; [done|].
  iApply (exit_wp left r w fl _ usp with "[HS]"); [done|done|..].
  { cbn [esp set_esp]. rewrite /frame. cbn [app]. iExact "HS". }
  iIntros "HS". rewrite set_eflags_esp set_esp_twice. cbn [esp set_esp].
  replace (a - 48 + 64) with (a + 16) by lia. iApply "HΦ".
  replace (16 + length (outer_frame usp r) + (length [vec] + S n))%nat
    with (S (S (S (S (length (outer_frame usp r) + 14 + n))))) by (simpl; lia).
  replace (a - 48 + 4 * Z.of_nat (16 + length (outer_frame usp r)))
    with (a + 4 * Z.of_nat (S (S (S (S (length (outer_frame usp r))))))) by lia. done.
Qed.

(** The words an interrupt takes of the stack it uses: the frame, the error
    code or the zero, the registers, and the handler's argument and return
    address. *)
Definition entry_words r c : nat := (15 + length (frame (eflags c) (esp c) r))%nat.

(** C8: An interrupt, of user or kernel code, returns to the interrupted code
    with every register, the stack pointer and the flags as they were, and the
    stack it used free again, whatever the handler leaves in the registers and
    whatever threads run before the handler returns; the vectors are those
    whose stub pushes a zero exactly when the processor pushes no error code. *)
Theorem interrupt_resumes sp0 ra cr2 vec f error r left vs c (P : hPropI)
    (Q : cpu → hPropI) :
  runs_ok r → Forall word_ok ([esp c; eflags c; ra; vec] ++ error_words error) →
  84 <= entry_top sp0 r c < 2 ^ 32 →
  bool_decide (is_Some error) = has_error_code vec →
  stub_pushes_zero vec = negb (has_error_code vec) →
  (user_mode (r_cs r) = false → r_ss left = r_ss r) →
  (∀ c1, entered (entry_top sp0 r c - 4 * Z.of_nat (entry_words r c)) c c1 →
   tss_stack sp0 r ∗ (g_exception_funcptr_table + vec * 4) ↦w f ∗ P ⊢
   wpi me others (call_handler cr2 f vec) c1
     (returns (λ _ c2, ⌜esp c2 = esp c1⌝ ∗ Q c2))) →
  {{ tss_stack sp0 r ∗ (g_exception_funcptr_table + vec * 4) ↦w f ∗ P ∗
     stack (entry_top sp0 r c) (entry_words r c) vs }}
    (interleave me others (deliver error r ;; interrupt_stub ra cr2 vec r left)) @ c
  {{ r' c', ⌜r' = r⌝ ∗ stack (entry_top sp0 r c) (entry_words r c) vs ∗
            ∃ c2, ⌜c' = set_esp (esp c) (set_eflags (eflags c) c2)⌝ ∗ Q c2 }}.
Proof.
  intros Hr Hw Htop Herr Hz Hss HH. apply triple_wp. iIntros "(HT & Hf & HP & HS)".
  iEval (rewrite -/(wpi _ _ _ _ _)).
  do 4 apply Forall_cons in Hw as [? Hw]. cbn [app] in Hw.
  set (fr := frame (eflags c) (esp c) r). set (m := (if stub_pushes_zero vec then 15 else 14)%nat).
  assert (entry_words r c = (length (error_words error) + length fr + m)%nat) as Ew.
  { subst m. rewrite /entry_words -/fr Hz -Herr. destruct error; simpl; lia. }
  assert (length fr <= 5)%nat by (subst fr; rewrite /frame /outer_frame; by case_match; simpl; lia).
  wpi_bind. iApply (deliver_wp error r sp0 m with "HT [HS]"); [apply Hr|done..|by rewrite Ew|].
  iIntros "HT HS". wpi_reduce. fold fr.
  set (t := entry_top sp0 r c - 4 * Z.of_nat (length (error_words error) + length fr)).
  assert (60 <= t < 2 ^ 32) by (subst t; destruct error; cbn [error_words length]; lia).
  iApply (interrupt_stub_wpi (if stub_pushes_zero vec then t - 4 else t) ra cr2 vec f r left
    (default 0 error) (eflags c) (esp c) 0 vs with "Hf [HS]"); [done|done|done|done|done|done|done|apply if_on_cli| |..].
  { rewrite Hz -Herr. by destruct error. }
  { subst m. rewrite Hz -Herr. destruct error; iExact "HS". }
  iIntros (c1 [He1 Hc1]) "Hf". iApply (wpi_wand with "[HP HT Hf]").
  { iApply HH; [split; [|exact Hc1]|iFrame "HT Hf HP"]. rewrite He1 Ew. subst t m. fold fr. generalize (length fr). intros k.
    rewrite Hz -Herr. destruct error; simpl; lia. }
  iIntros ([u c2|?|?|? ?]) "H //=". iDestruct "H" as "[%Hc2 HQ]". iSplit; [done|]. iIntros "HS".
  iSplit; [done|]. rewrite Ew. subst m t fr. rewrite /frame length_app Hz -Herr.
  iSplitL "HS"; [|iExists c2; iFrame "HQ"; iPureIntro; f_equal; rewrite /entry_top /outer_frame].
  - iApply (stack_eq with "HS"); destruct error; simpl; lia.
  - destruct (user_mode (r_cs r)); [done|]. destruct error; simpl; lia.
Qed.

(** C12: A system call from user mode returns to the program with the result in
    eax and every other register, the stack pointer and the flags as they were;
    it runs with interrupts masked on the stack the TSS names, 92 bytes down,
    and leaves that stack free. *)
Theorem syscall_returns sp0 ra r left vs c (P : hPropI) (Q : Z → cpu → hPropI) :
  runs_ok r → Forall word_ok [esp c; eflags c; ra] → user_mode (r_cs r) = true →
  92 <= sp0 < 2 ^ 32 →
  (∀ c1, entered (sp0 - 92) c c1 →
   tss_esp0 g_tss ↦w sp0 ∗ P ⊢
   wpi me others (system_call_handler (r_eax r) (r_ebx r) (r_ecx r) (r_edx r)) c1
     (returns (λ v c2, ⌜word_ok v ∧ esp c2 = esp c1⌝ ∗ Q v c2))) →
  {{ tss_esp0 g_tss ↦w sp0 ∗ P ∗ stack sp0 23 vs }}
    (interleave me others (deliver None r ;; syscall_stub ra r left)) @ c
  {{ r' c', stack sp0 23 vs ∗ ∃ v c2,
       ⌜r' = set_eax v r ∧ c' = set_esp (esp c) (set_eflags (eflags c) c2)⌝ ∗ Q v c2 }}.
Proof.
  intros Hr Hw Hu Hsp HH. apply triple_wp. iIntros "(HT & HP & HS)".
  iEval (rewrite -/(wpi _ _ _ _ _)).
  do 3 apply Forall_cons in Hw as [? Hw]. unfold word_ok in *.
  assert (outer_frame (esp c) r = [esp c; r_ss r]) as Eo by rewrite /outer_frame Hu //.
  assert (entry_top sp0 r c = sp0) as Et by rewrite /entry_top Hu //.
  wpi_bind. pose proof Hr as (Hrok & Hseg & Hcs).
  iApply (deliver_wp None r sp0 18 vs with "[HT] [HS]"); [done|done|done|done| | |].
  { rewrite /tss_stack Hu. iExact "HT". }
  { rewrite Et /frame Eo. iExact "HS". }
  rewrite /tss_stack Hu Et /frame Eo. iIntros "HT HS". wpi_reduce.
  set (t := sp0 - 4 * Z.of_nat _). assert (t = sp0 - 20) as Ht by done. clearbody t.
  rewrite /syscall_stub. wpi_push "HS".
  wpi_bind. iApply (save_wp r 5 _ (set_esp (t - 4) (cli_cpu (set_esp t c))) with "[HS]");
    [done|simpl; lia|iExact "HS"|].
  iIntros "HS". wpi_cpu. pose proof Hrok as Hrange. regs_range Hrange. do 4 wpi_push "HS".
  rewrite /call. iApply wpi_bind. wpi_push "HS". iApply wpi_bind.
  iApply (wpi_wand with "[HP HT]").
  { iApply HH; [|iFrame "HT HP"]. split_and!; [simpl; lia|apply if_on_cli|done..]. }
  iIntros ([v c2|?|?|? ?]) "H //=". iDestruct "H" as "[[%Hv %Hc2] HQ]". cbn [esp set_esp] in Hc2.
  wpi_bind. iApply (pop_wp with "HS"); [done|]. iIntros "HS". wpi_cpu.
  iApply wpi_wp; [auto|]. iApply wp_ret. wpi_cpu.
  wpi_drop "HS" [r_ebx r; r_ecx r; r_edx r].
  iApply wpi_bind. wpi_bind. iApply wp_get_cpu. wpi_reduce. iApply wpi_wp; [auto|].
  iApply (stack_st_wp (t - 4 - 48 - 4 - 4 - 4 - 4 + 12) _
    [0x80; r_edi r; r_esi r; r_ebp r; sp0 - 40; r_ebx r; r_edx r; r_ecx r]
    with "[HS]"); [simpl; lia|done| |].
  { replace (sp0 - 40) with (esp (set_esp (t - 4) (cli_cpu (set_esp t c))) - 16) by (simpl; lia). iExact "HS". }
  iIntros "HS". wpi_reduce. wpi_drop "HS" [0x80]. iApply wpi_wp; [auto|].
  iApply (exit_wp (set_eax v left) (set_eax v r) 0 (eflags c) (sp0 - 40) (esp c) with "[HS]").
  { split; [|exact (proj2 Hr)]. apply Forall_cons in Hrok as [_ Hrok].
    apply Forall_cons. split; [exact Hv|exact Hrok]. }
  { cbn [r_cs set_eax]. by rewrite Hu. }
  { rewrite /outer_frame. cbn [r_cs set_eax esp set_esp]. rewrite Hu. iExact "HS". }
  rewrite /outer_frame. cbn [r_cs set_eax esp set_esp]. rewrite Hu. iIntros "HS /=".
  iSplitL "HS"; [iApply (stack_eq with "HS"); simpl; lia|]. iExists v, c2. by iFrame "HQ".
Qed.

End entry_wp.

(** ** The switch *)

Section switch_wp.
Implicit Types (c : cpu) (r : regs).

(** A thread that is not running: its control block holds its stack pointer,
    its stack the registers it keeps and where it goes on. *)
Definition callee_regs r : list Z := [r_ebp r; r_ebx r; r_edi r; r_esi r].
Definition parked (a sp : Z) (n : nat) r (ra : Z) (vs : list Z) : hPropI :=
  (a ↦w sp ∗ stack sp n (callee_regs r ++ ra :: vs))%I.

(** The registers after a switch from [r] to a thread parked with [rn]. *)
Definition switched (next ra : Z) rn r : regs :=
  Regs next (r_ecx r) (r_edx r) (r_ebx rn) (r_ebp rn) (r_esi rn) (r_edi rn)
    (r_ds r) (r_es r) (r_fs r) (r_gs r) (r_cs r) (r_ss r) ra.

Lemma switch_to_regs_wp curr next r ra rn ran sp n m vs vsn c (Φ : res regs → hPropI) :
  regs_ok r → 16 <= esp c < 2 ^ 32 →
  curr ↦w - -∗ stack (esp c) (4 + n) (ra :: curr :: next :: vs) -∗ parked next sp m rn ran vsn -∗
  (parked curr (esp c - 16) n r ra (curr :: next :: vs) -∗
   next ↦w sp -∗ stack (sp + 20) (5 + m) vsn -∗
   Φ (RRet (switched next ran rn r) (set_esp (sp + 20) c))) -∗
  wp (switch_to_regs r) c Φ.
Proof.
  iIntros (Hr Hsp) "[%x Hc] HS [Hn HN] HΦ". regs_range Hr. rewrite /switch_to_regs.
  do 4 wp_push "HS". wp_pure.
  set (sp1 := esp c - 4 - 4 - 4 - 4). assert (sp1 = esp c - 16) as E1 by (subst sp1; lia).
  clearbody sp1. cbn [esp set_esp].
  iApply wp_bind. iApply (stack_ld_wp sp1 _ (callee_regs r ++ [ra]) with "[HS]");
    [simpl; lia|iExact "HS"|]. iIntros "HS". wp_reduce. wp_st "Hc". cbn [esp set_esp].
  rewrite w32_small; [|lia].
  iApply wp_bind. iApply (stack_ld_wp sp1 _ (callee_regs r ++ [ra; curr]) with "[HS]");
    [simpl; lia|iExact "HS"|]. iIntros "HS". wp_reduce. wp_ld "Hn". wp_pure. wp_cpu.
  rewrite /callee_regs. cbn [app]. do 4 wp_pop "HN". wp_pop "HN". iApply wp_ret.
  replace (sp + 20) with (sp + 4 + 4 + 4 + 4 + 4) by lia. rewrite E1.
  by iApply ("HΦ" with "[$Hc $HS] Hn HN").
Qed.

(** C9: A thread that is switched away from and later switched back to, whatever
    the threads in between do with the registers and with the memory that is
    not its own, goes on after its call of switch_to with the registers a C
    function keeps, its stack pointer and its stack as they were. *)
Theorem switch_there_and_back (between : regs → M regs) curr next r ra rn ran sp n m vs vsn c
    (P : hPropI) (Q : regs → cpu → hPropI) :
  regs_ok r → 16 <= esp c < 2 ^ 32 →
  (∀ c1, esp c1 = sp + 20 →
   next ↦w sp ∗ stack (sp + 20) (5 + m) vsn ∗ P ⊢
   wp (between (switched next ran rn r)) c1 (returns (λ r2 c2,
     ∃ prev ra2 k vs2, ⌜regs_ok r2 ∧ 16 <= esp c2 < 2 ^ 32⌝ ∗
       prev ↦w - ∗ stack (esp c2) (4 + k) (ra2 :: prev :: curr :: vs2) ∗
       (parked prev (esp c2 - 16) k r2 ra2 (prev :: curr :: vs2) -∗ Q r2 c2)))) →
  {{ curr ↦w - ∗ stack (esp c) (4 + n) (ra :: curr :: next :: vs) ∗
     parked next sp m rn ran vsn ∗ P }}
    (r1 <- switch_to_regs r; r2 <- between r1; switch_to_regs r2) @ c
  {{ r3 c3, ∃ r2 c2,
       ⌜r3 = switched curr ra r r2 ∧ c3 = set_esp (esp c + 4)%Z c2⌝ ∗
       curr ↦w (esp c - 16) ∗ stack (esp c + 4) (5 + n) (curr :: next :: vs) ∗ Q r2 c2 }}.
Proof.
  intros Hr Hsp HB. apply triple_wp. iIntros "(Hc & HS & HN & HP)". wp_bind.
  iApply (switch_to_regs_wp curr next r ra rn ran with "Hc HS HN"); [done|done|].
  iIntros "HC Hn HN". wp_reduce. wp_bind. iApply (wp_wand with "[HP Hn HN]").
  { iApply HB; [done|iFrame "Hn HN HP"]. }
  iIntros ([r2 c2|?|?|? ?]) "H //=". iDestruct "H" as (prev ra2 k vs2 [Hr2 Hsp2]) "(Hp & HS & HQ)".
  iApply (switch_to_regs_wp prev curr r2 ra2 r ra with "Hp HS HC"); [done|done|].
  iIntros "HP Hc HS". cbn [returns]. iExists r2, c2. replace (esp c - 16 + 20) with (esp c + 4) by lia.
  iFrame "Hc HS". iSplit; [done|]. by iApply "HQ".
Qed.

End switch_wp.

(** ** Examples *)

#[local] Existing Instance link_map.
#[local] Existing Instance demo_frames.

Ltac range := by vm_compute; split; congruence.

(** The stack at [a] as cells. *)
Fixpoint words_cells (a : Z) (vs : list Z) : list (Z * list Z) :=
  match vs with [] => [] | v :: vs => (a, word_bytes v) :: words_cells (a + 4) vs end.
Fixpoint room_cells (a : Z) (n : nat) : list (Z * list Z) :=
  match n with O => [] | S n => (a - 4, word_bytes 0) :: room_cells (a - 4) n end.

Lemma stack_cells a n vs :
  Forall word_ok vs → cells (words_cells a vs ++ room_cells a n) ⊢ stack a n vs.
Proof.
  rewrite cells_app /stack. intros Hv. apply bi.sep_mono.
  - revert a. induction Hv as [|v vs ? _ IH]; intros a; [by iIntros "_"|].
    cbn [words words_cells]. rewrite cells_word // IH. done.
  - revert a. induction n as [|n IH]; intros a; [by iIntros "_"|].
    cbn [room room_cells]. rewrite cells_word // IH. iIntros "[Hx $]". by iExists 0.
Qed.

(** A user program about to ask for its process number, its kernel stack page. *)
Definition regs_user : regs := Regs 0 2 3 4 5 6 7 0x33 0x33 0x33 0 0x2b 0x33 0x08048010.
Definition regs_clobbered : regs := Regs 9 9 9 9 9 9 9 9 9 9 9 9 9 9.
Definition cpu_user : cpu := Cpu 0xbffffff0 0x202 0x100000 [] [].
Definition kernel_page : Z := 0xc0101000.

Lemma regs_user_ok : regs_ok regs_user.
Proof. repeat constructor; vm_compute; congruence. Qed.

Lemma regs_user_runs : runs_ok regs_user.
Proof. split; [apply regs_user_ok|]. split; [repeat constructor; vm_compute; congruence|done]. Qed.

Definition demo_irq7 : list (Z * list Z) :=
  [(tss_esp0 g_tss, word_bytes (kernel_page + 4096));
   (g_exception_funcptr_table + 0x27 * 4, word_bytes fn_general_exception_handler)] ++
  words_cells (kernel_page + 4096) [] ++ room_cells (kernel_page + 4096) 20.

(** The spurious interrupt of the first controller, in a user program. *)
Lemma interrupt_resumes_witness :
  ∃ r h', exec (interleave kernel_page (ret tt)
      (deliver None regs_user ;; interrupt_stub 0xc0001500 0 0x27 regs_user regs_clobbered))
      cpu_user (mem_of demo_irq7) r h' ∧
    h' ⊨ (returns (λ r' c', ⌜r' = regs_user ∧ esp c' = 0xbffffff0 ∧ eflags c' = 0x202⌝)%I r).
Proof.
  edestruct (triple_run _ _ _ _ (mem_of demo_irq7)
    (interrupt_resumes kernel_page (ret tt) (kernel_page + 4096) 0xc0001500 0 0x27
       fn_general_exception_handler None regs_user regs_clobbered [] cpu_user emp (λ _, emp)%I
       regs_user_runs ltac:(repeat constructor; vm_compute; congruence)
       ltac:(range) eq_refl eq_refl ltac:(discriminate)
       ltac:(intros c1 _; rewrite -wpi_wp; [iIntros "_"; iApply wp_ret; by iSplit|apply stays_returns])))
    as (r & h' & Hx & Hq).
  - eapply models_mono; [|apply mem_of_models; vm_compute; reflexivity].
    unfold demo_irq7. rewrite cells_app stack_cells; [|constructor].
    iIntros "[HA HS]". do 2 (iEval (rewrite cells_word; [|range]) in "HA").
    iDestruct "HA" as "(H1 & H2 & _)".
    iSplitL "H1"; [iExact "H1"|]. iSplitL "H2"; [iExact "H2"|]. iSplitR; [done|iExact "HS"].
  - exists r, h'. split; [exact Hx|]. eapply models_mono; [|apply Hq].
    destruct r; cbn [returns]; [|by iIntros "[]"..].
    iIntros "(-> & _ & %c2 & -> & _)". done.
Defined.

Definition demo_getpid : list (Z * list Z) :=
  [(tss_esp0 g_tss, word_bytes (kernel_page + 4096));
   (g_syscall_table + 4 * SYS_GETPID, word_bytes fn_sys_get_pid);
   (pcb_pid kernel_page, [7; 0])] ++
  words_cells (kernel_page + 4096) [] ++ room_cells (kernel_page + 4096) 23.

Lemma demo_getpid_wp c1 :
  entered (kernel_page + 4096 - 92) cpu_user c1 →
  tss_esp0 g_tss ↦w (kernel_page + 4096) ∗
  (g_syscall_table + 4 * SYS_GETPID) ↦w fn_sys_get_pid ∗ pcb_pid kernel_page ↦ₕ 7 ⊢
  wpi kernel_page (ret tt) (system_call_handler (r_eax regs_user) (r_ebx regs_user)
      (r_ecx regs_user) (r_edx regs_user)) c1
    (returns (λ v c2, ⌜word_ok v ∧ esp c2 = esp c1⌝ ∗ ⌜v = 7⌝)).
Proof.
  intros [He _]. rewrite -wpi_wp; [|apply stays_returns]. iIntros "(HT & Hf & Hp)".
  rewrite /system_call_handler. wp_ld "Hf". cbn. rewrite /sys_get_pid.
  iApply wp_bind. iApply running_thread_wp. rewrite He. wp_reduce.
  iApply (wp_ld16 with "Hp"); [done|]. iIntros "Hp". by iSplit.
Qed.

(** Process 7 asks for its number. *)
Lemma syscall_returns_witness :
  ∃ r h', exec (interleave kernel_page (ret tt)
      (deliver None regs_user ;; syscall_stub 0xc0001600 regs_user regs_clobbered))
      cpu_user (mem_of demo_getpid) r h' ∧
    h' ⊨ (returns (λ r' c', ⌜r' = set_eax 7 regs_user ∧ esp c' = 0xbffffff0⌝)%I r).
Proof.
  edestruct (triple_run _ _ _ _ (mem_of demo_getpid)
    (syscall_returns kernel_page (ret tt) (kernel_page + 4096) 0xc0001600 regs_user regs_clobbered
       [] cpu_user ((g_syscall_table + 4 * SYS_GETPID) ↦w fn_sys_get_pid ∗ pcb_pid kernel_page ↦ₕ 7)
       (λ v _, ⌜v = 7⌝)%I
       regs_user_runs ltac:(repeat constructor; vm_compute; congruence) eq_refl
       ltac:(range) demo_getpid_wp))
    as (r & h' & Hx & Hq).
  - eapply models_mono; [|apply mem_of_models; vm_compute; reflexivity].
    unfold demo_getpid. rewrite cells_app stack_cells; [|constructor].
    iIntros "[HA HS]". do 2 (iEval (rewrite cells_word; [|range]) in "HA").
    iEval (rewrite cells_cons !bytes_cons) in "HA".
    iDestruct "HA" as "(H1 & H2 & (H3 & H4 & _) & _)".
    iSplitL "H1"; [iExact "H1"|]. iSplitR "HS"; [|iExact "HS"]. iSplitL "H2"; [iExact "H2"|].
    iSplitR; [done|]. iSplitL "H3"; [iExact "H3"|iExact "H4"].
  - exists r, h'. split; [exact Hx|]. eapply models_mono; [|apply Hq].
    destruct r; cbn [returns]; [|by iIntros "[]"..].
    iIntros "(_ & %v & %c2 & [-> ->] & ->)". done.
Defined.

(** A thread at the entry of switch_to, and one parked whose function ends in
    its own call, back to the first. *)
Definition cpu_switch : cpu := Cpu 0xc0101f00 0x2 0x100000 [] [].
Definition other_page : Z := 0xc0102000.
Definition back (r : regs) : M regs :=
  push kernel_page ;; push other_page ;; push 0xc0001700 ;; ret r.

Definition demo_switch : list (Z * list Z) :=
  [(kernel_page, word_bytes 0); (other_page, word_bytes 0xc0102e00)] ++
  (words_cells 0xc0101f00 [0xc0001650; kernel_page; other_page] ++ room_cells 0xc0101f00 4) ++
  (words_cells 0xc0102e00 [11; 12; 13; 14; 0xc0001660] ++ room_cells 0xc0102e00 2).

Lemma back_wp c1 :
  esp c1 = 0xc0102e14 →
  other_page ↦w 0xc0102e00 ∗ stack 0xc0102e14 7 [] ∗ emp ⊢
  wp (back (switched other_page 0xc0001660 (Regs 0 0 0 12 11 14 13 0 0 0 0 0 0 0) regs_user)) c1
    (returns (λ r2 c2, ∃ prev ra2 k vs2, ⌜regs_ok r2 ∧ 16 <= esp c2 < 2 ^ 32⌝ ∗
       prev ↦w - ∗ stack (esp c2) (4 + k) (ra2 :: prev :: kernel_page :: vs2) ∗
       (parked prev (esp c2 - 16) k r2 ra2 (prev :: kernel_page :: vs2) -∗
        ⌜r_edi r2 = 13⌝))).
Proof.
  iIntros (He) "(Hn & HS & _)". rewrite /back /kernel_page /other_page -He.
  do 3 wp_push "HS". iApply wp_ret. iExists other_page, 0xc0001700, 0%nat, [].
  iSplit; [iPureIntro; split; [repeat constructor; vm_compute; congruence|simpl; lia]|].
  iSplitL "Hn"; [by iExists _|]. iFrame "HS". by iIntros "_".
Qed.

Lemma switch_there_and_back_witness :
  ∃ r h', exec (r1 <- switch_to_regs regs_user; r2 <- back r1; switch_to_regs r2)
      cpu_switch (mem_of demo_switch) r h' ∧
    h' ⊨ (returns (λ r3 c3, ⌜r_ebx r3 = r_ebx regs_user ∧ r_eip r3 = 0xc0001650 ∧
                             esp c3 = 0xc0101f04⌝)%I r).
Proof.
  edestruct (triple_run _ _ _ _ (mem_of demo_switch)
    (switch_there_and_back back kernel_page other_page regs_user 0xc0001650
       (Regs 0 0 0 12 11 14 13 0 0 0 0 0 0 0) 0xc0001660 0xc0102e00 0 2 [] [] cpu_switch
       emp (λ r2 _, ⌜r_edi r2 = 13⌝)%I regs_user_ok ltac:(range) back_wp))
    as (r & h' & Hx & Hq).
  - eapply models_mono; [|apply mem_of_models; vm_compute; reflexivity].
    unfold demo_switch. rewrite cells_app cells_app.
    do 2 (rewrite stack_cells; [|repeat constructor; vm_compute; congruence]).
    iIntros "(HA & HS & HN)". do 2 (iEval (rewrite cells_word; [|range]) in "HA").
    iDestruct "HA" as "(Hc & Hn & _)". iSplitL "Hc"; [by iExists _|]. iFrame "HS".
    by iSplitL "Hn HN"; [iSplitL "Hn"|].
  - exists r, h'. split; [exact Hx|]. eapply models_mono; [|apply Hq].
    destruct r; cbn [returns]; [|by iIntros "[]"..].
    iIntros "(%r2 & %c2 & [-> ->] & _)". done.
Defined.
