(* ===== verification/Transfer.v ===== *)
(** The disk driver against the controller it drives: an abstract ATA channel
    that watches the ports, and the transfers of device/ide.c, which block for
    the interrupt of each command while the idle thread runs. *)
From S2P Require Export Traps.

(** ** The controller *)

Record request := Request {
  rq_cmd : Z;
  rq_dev : Z;      (* 0 master, 1 slave *)
  rq_lba : Z;      (* 28 bits *)
  rq_count : Z     (* sectors, 1 to 256 *)
}.

(** The command block registers, what has been asked for, what has been sent. *)
Record ata := Ata {
  a_count : Z; a_low : Z; a_mid : Z; a_high : Z; a_dev : Z;
  a_requests : list request;
  a_sent : list Z
}.
Definition ata0 : ata := Ata 0 0 0 0 0 [] [].

(** What the registers say when a command arrives. *)
Definition ata_request (a : ata) (cmd : Z) : request :=
  Request cmd (b2z (Z.testbit (a_dev a) 4))
    (a_low a + 2 ^ 8 * a_mid a + 2 ^ 16 * a_high a + 2 ^ 24 * (a_dev a mod 16))
    (if a_count a =? 0 then 256 else a_count a).

Definition ata_step (base : Z) (a : ata) (e : io_event) : ata :=
  let 'Ata n l m h d rs out := a in
  match e with
  | EvOut p v =>
      if p =? base + 2 then Ata v l m h d rs out
      else if p =? base + 3 then Ata n v m h d rs out
      else if p =? base + 4 then Ata n l v h d rs out
      else if p =? base + 5 then Ata n l m v d rs out
      else if p =? base + 6 then Ata n l m h v rs out
      else if p =? base + 7 then Ata n l m h d (rs ++ [ata_request a v]) out
      else a
  | EvOutWords p data => if p =? base then Ata n l m h d rs (out ++ data) else a
  | _ => a
  end.

Definition controller (base : Z) (c : cpu) : ata := foldl (ata_step base) ata0 (trace c).

Lemma controller_log base e c :
  controller base (log_event e c) = ata_step base (controller base c) e.
Proof. unfold controller. simpl. by rewrite foldl_app. Qed.

(** The two channels of a PC. *)
Definition ata_base (base : Z) : Prop := base = 0x1f0 ∨ base = 0x170.

(** What a step of the driver may do to the processor: it keeps its stack and
    interrupt flag, consumes input and drives the controller. *)
Definition drove (base : Z) (c c' : cpu) (inp : list Z) (a : ata) : Prop :=
  esp c' = esp c ∧ if_on c' = if_on c ∧ inputs c' = inp ∧ controller base c' = a.

Lemma drove_refl base c : drove base c c (inputs c) (controller base c).
Proof. done. Qed.

Lemma drove_trans base c c1 c2 inp1 a1 inp2 a2 :
  drove base c c1 inp1 a1 → drove base c1 c2 inp2 a2 → drove base c c2 inp2 a2.
Proof. intros (E1 & I1 & _) (E2 & I2 & E3 & E4). split_and!; congruence. Qed.

(** ** Polling *)

(** [busy_wait] polls as long as its counter, from 30000, does not come to 0. *)
Definition polls : nat := Z.to_nat 29999.

(** What [n] polls of the status make of what the port delivers: the answer
    and what is left; [None] if it delivers too little. *)
Fixpoint poll (n : nat) (l : list Z) : option (Z * list Z) :=
  match n, l with
  | O, _ => Some (0, l)
  | S n, st :: l =>
      if Z.testbit st 7 then poll n l
      else match l with
           | st' :: l => Some (Z.land (w8 st') BIT_ALT_STAT_DATA_READY, l)
           | [] => None
           end
  | S _, [] => None
  end.

Lemma poll_total n l :
  (n < length l)%nat → ∃ r k, poll n l = Some (r, drop k l) ∧ (k <= S n)%nat ∧ (r = 0 ∨ r = 8).
Proof.
  revert l. induction n as [|n IH]; intros l Hl; [exists 0, 0%nat; split_and!; [done|lia|by left]|].
  destruct l as [|st l]; simpl in *; [lia|]. destruct (Z.testbit st 7).
  - destruct (IH l ltac:(lia)) as (r & k & E & Hk & Hr). exists r, (S k). split_and!; [done|lia|done].
  - destruct l as [|st' l]; simpl in *; [lia|]. eexists _, 2%nat. split_and!; [done|lia|].
    change BIT_ALT_STAT_DATA_READY with (2 ^ 3). rewrite land_pow2; [|done].
    destruct (Z.testbit _ 3); auto.
Qed.

Lemma poll_busy n l :
  (n <= length l)%nat → Forall (λ st, Z.testbit st 7 = true) (take n l) →
  poll n l = Some (0, drop n l).
Proof.
  revert l. induction n as [|n IH]; intros [|st l] Hl Hb; simpl in *; try done; [lia|].
  apply Forall_cons in Hb as [-> Hb]. apply IH; [lia|done].
Qed.

Lemma w8_testbit v i : 0 <= i < 8 → Z.testbit (w8 v) i = Z.testbit v i.
Proof. intros Hi. unfold w8. apply Z.mod_pow2_bits_low. lia. Qed.

(** ** Statements of the driver *)

(** A disk [hd], master or slave, on the channel [ch] at ports [base]. *)
Definition is_disk (hd ch dev base : Z) : hPropI :=
  (disk_my_channel hd ↦w ch ∗ disk_dev_no hd ↦ dev ∗ chan_port_base ch ↦ₕ base)%I.

Section wp.
Context `{Symbols}.
Implicit Types (c : cpu).

Lemma out_reg_wp ch base k v c (Φ : res unit → hPropI) :
  ata_base base → 0 <= k < 8 →
  chan_port_base ch ↦ₕ base -∗
  (chan_port_base ch ↦ₕ base -∗ Φ (RRet tt (log_event (EvOut (base + k) (w8 v)) c))) -∗
  wp (out_reg (b <- ld16 (chan_port_base ch); ret (b + k)) v) c Φ.
Proof.
  iIntros (Hb Hk) "Hp HΦ". rewrite /out_reg /out_byte. wp_bind. wp_bind.
  iApply (wp_ld16 with "Hp"); [done|]. iIntros "Hp". wp_reduce. wp_pure. wp_pure.
  rewrite w16_small; [by iApply "HΦ"|]. destruct Hb; lia.
Qed.

Lemma in_reg_wp ch base k b rest c (Φ : res Z → hPropI) :
  inputs c = b :: rest →
  chan_port_base ch ↦ₕ base -∗
  (∀ c', ⌜drove base c c' rest (controller base c)⌝ -∗
     chan_port_base ch ↦ₕ base -∗ Φ (RRet (w8 b) c')) -∗
  wp (in_reg (b <- ld16 (chan_port_base ch); ret (b + k))) c Φ.
Proof.
  iIntros (Hin) "Hp HΦ". rewrite /in_reg /in_byte. wp_bind. wp_bind.
  iApply (wp_ld16 with "Hp"); [done|]. iIntros "Hp". wp_reduce. wp_pure. wp_pure. rewrite Hin.
  wp_pure. wp_pure. wp_pure. iApply ("HΦ" with "[%] Hp"). split_and!; [done..|].
  by rewrite controller_log; destruct (controller _ _).
Qed.

Lemma busy_wait_wp hd ch dev base t r rest c (Φ : res Z → hPropI) :
  poll polls (inputs c) = Some (r, rest) →
  is_disk hd ch dev base -∗ g_ticks ↦w t -∗
  (∀ c', ⌜drove base c c' rest (controller base c)⌝ -∗
     is_disk hd ch dev base -∗ g_ticks ↦w t -∗ Φ (RRet r c')) -∗
  wp (busy_wait hd) c Φ.
Proof.
  iIntros (Hpoll) "(Hch & Hdev & Hp) Ht HΦ". rewrite /busy_wait. wp_ld "Hch".
  iApply wp_loop_start. replace (30 * 1000) with (Z.of_nat (S polls)) by (unfold polls; lia).
  assert (Z.of_nat polls < 30000) as Hn by (unfold polls; lia). revert Hpoll Hn.
  generalize polls. intros n Hpoll Hn.
  iInduction n as [|n IH] forall (c Hpoll Hn); iApply wp_loop_step;
    change (b2z (0 <=? 10)) with 1; [change (Z.of_nat 1 - 1) with 0|replace (Z.of_nat (S (S n)) - 1) with (Z.of_nat (S n)) by lia];
    (rewrite w16_small; [|lia]).
  - wp_reduce. wp_pure. simplify_eq/=. iApply ("HΦ" with "[%] [$Hch $Hdev $Hp] Ht"). apply drove_refl.
  - rewrite (proj2 (Z.eqb_neq _ 0)); [|lia]. wp_reduce.
    simpl in Hpoll. destruct (inputs c) as [|st l] eqn:Hin; [done|].
    wp_bind. iApply (in_reg_wp with "Hp"); [done|]. iIntros (c1 Hc1) "Hp". wp_reduce.
    change BIT_ALT_STAT_BUSY with (2 ^ 7). rewrite land_pow2_eqb // w8_testbit //.
    pose proof Hc1 as (_ & _ & Hin1 & _).
    destruct (Z.testbit st 7); wp_reduce.
    + wp_bind. iApply (mtime_sleep_wp with "Ht"); [lia|]. iIntros "Ht". wp_reduce. wp_pure.
      iApply ("IH" $! c1 with "[%] [%] Hdev Hp Ht [HΦ] Hch"); [by rewrite Hin1|lia|].
      iIntros (c' Hc'). iApply "HΦ". iPureIntro. destruct Hc1 as (? & ? & ? & E).
      rewrite -E. by eapply drove_trans.
    + destruct l as [|st' l]; [done|]. simplify_eq.
      wp_bind. iApply (in_reg_wp with "Hp"); [done|]. iIntros (c2 Hc2) "Hp". wp_reduce. wp_pure.
      iApply ("HΦ" with "[%] [$Hch $Hdev $Hp] Ht").
      destruct Hc1 as (? & ? & ? & E). rewrite -E. by eapply drove_trans.
Qed.

(** ** Addressing *)

(** The registers hold a request for [n] sectors of a disk from [lba]. *)
Definition addressed (a : ata) (dev lba n : Z) (rs : list request) (out : list Z) : Prop :=
  a_requests a = rs ∧ a_sent a = out ∧ ∀ cmd, ata_request a cmd = Request cmd dev lba n.

Lemma select_disk_wp hd ch dev base c (Φ : res unit → hPropI) :
  ata_base base →
  is_disk hd ch dev base -∗
  (∀ c', ⌜∃ a, drove base c c' (inputs c) a ∧ a_requests a = a_requests (controller base c) ∧
               a_sent a = a_sent (controller base c)⌝ -∗
     is_disk hd ch dev base -∗ Φ (RRet tt c')) -∗
  wp (select_disk hd) c Φ.
Proof.
  iIntros (Hb) "(Hch & Hdev & Hp) HΦ". rewrite /select_disk. wp_ldb "Hdev". wp_ld "Hch".
  iApply (out_reg_wp with "Hp"); [done|lia|]. iIntros "Hp".
  iApply ("HΦ" with "[%] [$Hch $Hdev $Hp]"). eexists. split; [by split_and!|].
  rewrite controller_log. destruct (controller base c). simpl. by destruct Hb as [-> | ->].
Qed.

Lemma dev_register dev lba :
  0 <= lba <= max_lba →
  w8 (w8 (Z.lor (Z.lor (Z.lor BIT_DEV_DEFAULT BIT_DEV_LBA) (if dev =? 1 then BIT_DEV_DEV else 0))
            (Z.shiftr lba 24))) = if dev =? 1 then 0xf0 else 0xe0.
Proof.
  intros Hl. change max_lba with 163839 in Hl. rewrite Z.shiftr_div_pow2; [|done]. rewrite Z.div_small; [|lia].
  rewrite Z.lor_0_r. by destruct (dev =? 1).
Qed.

(** The sector registers get the address and the count that were asked for. *)
Lemma select_sector_wp hd ch dev base lba n c (Φ : res unit → hPropI) :
  ata_base base → 0 <= dev < 2 → 0 <= lba <= max_lba → 0 < n <= 256 →
  is_disk hd ch dev base -∗
  (∀ c', ⌜∃ a, drove base c c' (inputs c) a ∧
            addressed a dev lba n (a_requests (controller base c)) (a_sent (controller base c))⌝ -∗
     is_disk hd ch dev base -∗ Φ (RRet tt c')) -∗
  wp (select_sector hd lba n) c Φ.
Proof.
  iIntros (Hb Hdev Hlba Hn) "(Hch & Hd & Hp) HΦ". rewrite /select_sector.
  wp_bind. iApply wp_assert; [apply Z.leb_le; lia|]. wp_reduce.
  do 4 (wp_ld "Hch"; wp_bind; iApply (out_reg_wp with "Hp"); [done|lia|]; iIntros "Hp"; wp_reduce).
  wp_ldb "Hd". wp_ld "Hch". iApply (out_reg_wp with "Hp"); [done|lia|]. iIntros "Hp".
  iApply ("HΦ" with "[%] [$Hch $Hd $Hp]"). eexists. split; [by split_and!|].
  rewrite !controller_log dev_register //. change max_lba with 163839 in Hlba.
  pose proof (bytes_of_word lba ltac:(lia)) as Hbytes.
  assert (byte 3 lba = 0) as H3.
  { unfold byte. rewrite Z.shiftr_div_pow2 // Z.div_small //. change (8 * 3) with 24. lia. }
  destruct (controller base c) as [n0 l0 m0 h0 d0 rs0 out0]. unfold addressed, ata_request.
  assert (w8 lba = byte 0 lba) as E0 by (unfold byte; by rewrite Z.shiftr_0_r).
  assert ((if w8 (w8 n) =? 0 then 256 else w8 (w8 n)) = n) as En.
  { destruct (decide (n = 256)) as [->|]; [done|]. rewrite !w8_small; try lia.
    by rewrite (proj2 (Z.eqb_neq n 0)); [|lia]. }
  assert (b2z (Z.testbit (if dev =? 1 then 0xf0 else 0xe0) 4) = dev ∧
          (if dev =? 1 then 0xf0 else 0xe0) mod 16 = 0) as [Ed Em].
  { destruct (Z.eqb_spec dev 1) as [->|]; [done|]. by replace dev with 0 by lia. }
  assert (w8 (Z.shiftr lba 8) = byte 1 lba ∧ w8 (Z.shiftr lba 16) = byte 2 lba) as [E1 E2] by done.
  destruct Hb as [-> | ->]; simpl; (split_and!; [done|done|]); intros cmd;
    rewrite En Ed Em E0 E1 E2; f_equal; lia.
Qed.

(** ** Commands and data *)

(** The request goes out as the registers have it. *)
Lemma cmd_out_wp ch base dev lba n rs out cmd v c (Φ : res unit → hPropI) :
  ata_base base → ch ≠ 0 → 0 <= cmd < 256 → addressed (controller base c) dev lba n rs out →
  chan_port_base ch ↦ₕ base -∗ chan_expection_interrupt ch ↦w v -∗
  (∀ c', ⌜∃ a, drove base c c' (inputs c) a ∧
            a_requests a = rs ++ [Request cmd dev lba n] ∧ a_sent a = out⌝ -∗
     chan_port_base ch ↦ₕ base -∗ chan_expection_interrupt ch ↦w 1 -∗ Φ (RRet tt c')) -∗
  wp (cmd_out ch cmd) c Φ.
Proof.
  iIntros (Hb Hch Hcmd (Hrs & Hout & Hrq)) "Hp He HΦ". rewrite /cmd_out.
  wp_bind. iApply wp_assert; [by rewrite (proj2 (Z.eqb_neq ch 0))|]. wp_reduce. wp_st "He".
  iApply (out_reg_wp with "Hp"); [done|lia|]. iIntros "Hp".
  iApply ("HΦ" with "[%] Hp He"). eexists. split; [by split_and!|].
  rewrite controller_log w8_small //. specialize (Hrq cmd).
  destruct (controller base c). simpl in *. subst.
  destruct Hb as [-> | ->]; simpl; (split; [|done]); do 2 f_equal; exact Hrq.
Qed.

Lemma sector_bytes_eq n : 0 < n <= 256 → 2 * (sector_bytes n / 2) = 512 * n.
Proof.
  intros Hn. unfold sector_bytes. destruct (decide (n = 256)) as [->|]; [done|].
  rewrite w8_small; [|lia]. rewrite (proj2 (Z.eqb_neq n 0)); [|lia].
  replace (n * 512) with ((256 * n) * 2) by lia. rewrite Z.div_mul; lia.
Qed.

Lemma read_from_sector_wp hd ch dev base buf n data rest junk c (Φ : res unit → hPropI) :
  ata_base base → 0 < n <= 256 → inputs c = data ++ rest → Z.of_nat (length data) = 512 * n →
  length junk = length data →
  is_disk hd ch dev base -∗ buf ↦∗ junk -∗
  (∀ c', ⌜drove base c c' rest (controller base c)⌝ -∗
     is_disk hd ch dev base -∗ buf ↦∗ (w8 <$> data) -∗ Φ (RRet tt c')) -∗
  wp (read_from_sector hd buf n) c Φ.
Proof.
  iIntros (Hb Hn Hin Hdata Hjunk) "(Hch & Hdev & Hp) Hbuf HΦ". rewrite /read_from_sector.
  wp_ld "Hch". rewrite /reg_data. wp_bind. wp_bind. iApply (wp_ld16 with "Hp"); [done|].
  iIntros "Hp". wp_reduce. wp_pure. rewrite /in_multibyte. wp_pure. rewrite sector_bytes_eq // Hin.
  replace (Z.to_nat (512 * n)) with (length data) by lia.
  rewrite (proj2 (Nat.ltb_ge _ _)); [|rewrite length_app; lia]. wp_pure. wp_pure.
  rewrite take_app_length drop_app_length.
  iApply (wp_st_bytes with "Hbuf"); [by rewrite length_fmap|]. iIntros "Hbuf".
  iApply ("HΦ" with "[%] [$Hch $Hdev $Hp]").
  - split_and!; [done..|]. rewrite controller_log. by destruct (controller _ _).
  - rewrite -list_fmap_compose. rewrite (list_fmap_ext (w8 ∘ w8) w8); [done|].
    intros i x _. simpl. apply w8_small, w8_range.
Qed.

Lemma write_to_sector_wp hd ch dev base buf n data c (Φ : res unit → hPropI) :
  ata_base base → 0 < n <= 256 → Z.of_nat (length data) = 512 * n →
  is_disk hd ch dev base -∗ buf ↦∗ data -∗
  (∀ c', ⌜∃ a, drove base c c' (inputs c) a ∧ a_requests a = a_requests (controller base c) ∧
            a_sent a = a_sent (controller base c) ++ data⌝ -∗
     is_disk hd ch dev base -∗ buf ↦∗ data -∗ Φ (RRet tt c')) -∗
  wp (write_to_sector hd buf n) c Φ.
Proof.
  iIntros (Hb Hn Hdata) "(Hch & Hdev & Hp) Hbuf HΦ". rewrite /write_to_sector.
  wp_ld "Hch". rewrite /reg_data. wp_bind. wp_bind. iApply (wp_ld16 with "Hp"); [done|].
  iIntros "Hp". wp_reduce. wp_pure. rewrite /out_multibyte sector_bytes_eq //.
  wp_bind. iApply (wp_ld_bytes with "Hbuf"); [lia|]. iIntros "Hbuf". wp_reduce. wp_pure.
  iApply ("HΦ" with "[%] [$Hch $Hdev $Hp] Hbuf"). eexists. split; [by split_and!|].
  rewrite controller_log Z.add_0_r w16_small; [|destruct Hb; lia].
  destruct (controller _ _). simpl. by rewrite Z.eqb_refl.
Qed.

(** ** The interrupt *)

(** A command is over: the thread that waits for it becomes ready. *)
Lemma intr_hd_handler_wp i base w m q tw b rest c (Φ : res unit → hPropI) :
  0 <= i < 2 → m !! w = Some tw → may_stop (t_status tw) = true → inputs c = b :: rest →
  chan_port_base (ide_channel_at i) ↦ₕ base -∗
  chan_expection_interrupt (ide_channel_at i) ↦w 1 -∗
  is_sem (chan_disk_done_sem (ide_channel_at i)) 0 [w] -∗
  is_queue g_ready_thread_list q -∗ tcbs m -∗
  (∀ c', ⌜drove base c c' rest (controller base c)⌝ -∗
     chan_port_base (ide_channel_at i) ↦ₕ base -∗
     chan_expection_interrupt (ide_channel_at i) ↦w 0 -∗
     is_sem (chan_disk_done_sem (ide_channel_at i)) 1 [] -∗
     is_queue g_ready_thread_list (w :: q) -∗ tcbs (<[w := set_t_status TASK_READY tw]> m) -∗
     Φ (RRet tt c')) -∗
  wp (intr_hd_handler (0x2e + i)) c Φ.
Proof.
  iIntros (Hi Hw Hst Hin) "Hp He Hs HR HT HΦ". rewrite /intr_hd_handler.
  wp_bind. iApply wp_assert.
  { destruct (Z.eqb_spec (0x2e + i) 0x2e); [done|]. simpl. apply Z.eqb_eq. lia. }
  wp_reduce. replace (0x2e + i - 0x2e) with i by lia. rewrite w8_small; [|lia].
  wp_ld "He". iApply wp_when. wp_reduce. wp_st "He".
  wp_bind. iApply (sem_up_wake_wp with "Hs HR HT"); [done|done|]. iIntros "Hs HR HT". wp_reduce.
  wp_bind. iApply (in_reg_wp with "Hp"); [done|]. iIntros (c' Hc') "Hp". wp_reduce. wp_pure.
  iApply ("HΦ" with "[//] Hp He Hs HR HT").
Qed.

End wp.

(** ** Waiting for the interrupt *)

(** The running kernel thread [me], and the idle thread, which is blocked where
    [schedule] left it; nobody else is ready. *)
Definition idle_pair `{Symbols} (me idle : Z) : hPropI :=
  (∃ m tag ta ti,
     ⌜me ≠ idle ∧ m !! me = Some ta ∧ t_pgdir ta = 0 ∧
      m !! idle = Some ti ∧ t_status ti = TASK_BLOCKED ∧ t_pgdir ti = 0 ∧
      Z.land (t_sp ti) 0xfffff000 = idle⌝ ∗
     sched m [] idle tag ∗ node (pcb_general_tag me) ∗ node (pcb_general_tag idle))%I.

Section wait.
Context `{Symbols, Frames}.
Implicit Types (c : cpu) (m : gmap Z tcb).

Lemma tcbs_sp_range m p t : m !! p = Some t → tcbs m ⊢ ⌜0 <= t_sp t < 2 ^ 32⌝.
Proof.
  iIntros (Hp) "HT". iDestruct (tcbs_acc with "HT") as "[(_ & Hsp & _) _]"; [done|].
  iApply (pt32_range with "Hsp").
Qed.

(** The map after the thread has blocked and the idle thread was taken. *)
Lemma block_to_idle me idle sp m ta ti :
  me ≠ idle → m !! me = Some ta → m !! idle = Some ti → t_status ti = TASK_BLOCKED →
  ∃ m', abs_schedule idle me (<[me := set_t_status TASK_BLOCKED ta]> m) [] =
          Some (idle, set_t_status TASK_RUNNING (set_t_status TASK_READY ti), m', []) ∧
        abs_switch me sp m' !! me = Some (set_t_sp (w32 sp) (set_t_status TASK_BLOCKED ta)) ∧
        abs_switch me sp m' !! idle =
          Some (set_t_status TASK_RUNNING (set_t_status TASK_READY ti)).
Proof.
  intros Hne Hme Hidle Hst. unfold abs_schedule, abs_requeue. rewrite lookup_insert_eq /=.
  rewrite lookup_insert_ne // Hidle /= Hst /= lookup_insert_eq /=. eexists.
  split; [reflexivity|]. unfold abs_switch. split.
  - rewrite lookup_alter_eq. do 2 (rewrite lookup_insert_ne; [|done]). by rewrite lookup_insert_eq.
  - by rewrite lookup_alter_ne // lookup_insert_eq.
Qed.

(** And the way back. *)
Lemma idle_to_ready me idle sp m ta ti :
  me ≠ idle → m !! me = Some ta → m !! idle = Some ti →
  ∃ m', abs_schedule idle idle (<[idle := set_t_status TASK_BLOCKED ti]> m) [me] =
          Some (me, set_t_status TASK_RUNNING ta, m', []) ∧
        abs_switch idle sp m' !! me = Some (set_t_status TASK_RUNNING ta) ∧
        abs_switch idle sp m' !! idle = Some (set_t_sp (w32 sp) (set_t_status TASK_BLOCKED ti)).
Proof.
  intros Hne Hme Hidle. unfold abs_schedule, abs_requeue. rewrite lookup_insert_eq /=.
  rewrite lookup_insert_ne // Hme /=. eexists. split; [reflexivity|]. unfold abs_switch. split.
  - by rewrite lookup_alter_ne // lookup_insert_eq.
  - rewrite lookup_alter_eq lookup_insert_ne //. by rewrite lookup_insert_eq.
Qed.

(** The idle thread's turn: it halts, the disk interrupts, and the thread that
    waits for the disk gets the processor back where it left it. *)
Lemma idle_turn_wp me idle i base m tag ta ti b rest c (Q : cpu → hPropI) :
  0 <= i < 2 → ata_base base → me ≠ idle → m !! me = Some ta → t_status ta = TASK_BLOCKED →
  t_pgdir ta = 0 → m !! idle = Some ti → t_pgdir ti = 0 →
  Z.land (t_sp ta) 0xfffff000 = me → Z.land (esp c) 0xfffff000 = idle → 0 <= esp c < 2 ^ 32 →
  inputs c = b :: rest →
  (g_exception_funcptr_table + 4 * (0x2e + i)) ↦w fn_intr_hd_handler -∗
  chan_port_base (ide_channel_at i) ↦ₕ base -∗
  chan_expection_interrupt (ide_channel_at i) ↦w 1 -∗
  is_sem (chan_disk_done_sem (ide_channel_at i)) 0 [me] -∗
  sched m [] idle tag -∗ node (pcb_general_tag idle) -∗
  (∀ c', ⌜esp c' = t_sp ta ∧ if_on c' = false ∧ inputs c' = rest ∧
          controller base c' = controller base c⌝ -∗
     (g_exception_funcptr_table + 4 * (0x2e + i)) ↦w fn_intr_hd_handler -∗
     chan_port_base (ide_channel_at i) ↦ₕ base -∗
     chan_expection_interrupt (ide_channel_at i) ↦w 0 -∗
     is_sem (chan_disk_done_sem (ide_channel_at i)) 1 [] -∗
     idle_pair me idle -∗ Q c') -∗
  wp (idle_turn (0x2e + i)) c (switches Q).
Proof.
  iIntros (Hi Hb Hne Hme Hst Hdir Hidle Hdiri Hsp Hesp Hr Hin) "Hf Hp He Hs (HR & HT & HG) Hni HQ".
  iDestruct (tcbs_sp_range m me ta with "HT") as %Hspr; [done|].
  rewrite /idle_turn. wp_bind. iApply wp_intr_set_status. wp_reduce.
  rewrite /sti_hlt /sti. wp_bind. wp_pure. wp_pure.
  wp_bind. rewrite /interrupt_entry /cli /out_byte. do 4 wp_pure. wp_ld "Hf".
  rewrite /call_handler Z.eqb_refl. wp_bind.
  iApply (intr_hd_handler_wp with "Hp He Hs HR HT"); [done|done|by rewrite Hst|done|].
  iIntros (c1 Hc1) "Hp He Hs HR HT". wp_reduce. wp_pure. destruct Hc1 as (He1 & _ & Hin1 & Hct1).
  set (ta' := set_t_status TASK_READY ta).
  destruct (idle_to_ready me idle (esp c1) (<[me := ta']> m) ta' ti) as (m' & Habs & E1 & E2);
    [done|by rewrite lookup_insert_eq|by rewrite lookup_insert_ne|].
  iApply (thread_lock_wp _ [me] idle ti TASK_BLOCKED _ _ _ _ _ _ 0 0 with "HR HT HG [] []").
  - simpl. by rewrite He1.
  - by rewrite lookup_insert_ne.
  - done.
  - done.
  - done.
  - by rewrite /aspace /= Hdir.
  - simpl. iIntros "HR HT HG Hn _". iApply ("HQ" with "[%] Hf Hp He Hs [-]").
    + split_and!; [by rewrite /resume_sp E1|apply if_on_cli|done|].
      trans (controller base c1); [done|]. rewrite Hct1. unfold controller. simpl.
      rewrite !foldl_app. destruct Hb as [-> | ->]; simpl; by destruct (foldl _ _ _).
    + iExists _, _, _, _. iFrame. iPureIntro. split_and!; try done.
      simpl. rewrite He1 w32_small //.
Qed.

(** A disk on channel [i], and what the interrupt of the channel works on;
    [expected]: the driver has given a command. *)
Definition disk_line (hd i dev base expected : Z) : hPropI :=
  (is_disk hd (ide_channel_at i) dev base ∗
   (g_exception_funcptr_table + 4 * (0x2e + i)) ↦w fn_intr_hd_handler ∗
   chan_expection_interrupt (ide_channel_at i) ↦w expected ∗
   is_sem (chan_disk_done_sem (ide_channel_at i)) 0 [])%I.

Lemma idle_pair_range me idle : idle_pair me idle ⊢ ⌜0 < me < 2 ^ 32⌝.
Proof.
  iIntros "(%m & %tag & %ta & %ti & %Hm & (_ & HT & _) & _)".
  destruct Hm as (_ & Hme & _).
  iDestruct (tcbs_acc with "HT") as "[(%Hp & _) _]"; [exact Hme|]. iPureIntro. lia.
Qed.

(** Waiting for a command: the thread blocks, and goes on after the interrupt. *)
Lemma wait_disk_wp me idle hd i dev base b rest c (Φ : res unit → hPropI) :
  0 <= i < 2 → ata_base base → Z.land (esp c) 0xfffff000 = me → 0 <= esp c < 2 ^ 32 →
  inputs c = b :: rest → stays Φ →
  disk_line hd i dev base 1 -∗ idle_pair me idle -∗
  (∀ c', ⌜drove base c c' rest (controller base c)⌝ -∗
     disk_line hd i dev base 0 -∗ idle_pair me idle -∗ Φ (RRet tt c')) -∗
  wpi me (idle_turn (0x2e + i)) (sem_down (chan_disk_done_sem (ide_channel_at i))) c Φ.
Proof.
  iIntros (Hi Hb Hesp Hr Hin Hstays) "((Hch & Hdev & Hp) & Hf & He & Hs) (%m & %tag & %ta & %ti & %Hm & HS & Hn & Hni) HΦ".
  destruct Hm as (Hne & Hme & Hdir & Hidle & Hst & Hdiri & Hsp).
  destruct (block_to_idle me idle (esp c) m ta ti) as (m' & Habs & E1 & E2); [done..|].
  iDestruct "HS" as "(HR & HT & HG)". iDestruct (tcbs_sp_range m idle ti with "HT") as %Hspr; [done|].
  iApply (sem_down_resume_wp me _ _ m [] ta idle tag _ _ _ _ 0 0 with "Hs Hn [$HR $HT $HG] Hni []");
    [done|done|done|done|by rewrite /aspace /= Hdiri|].
  iIntros "Hs HS Hni _".
  iApply (idle_turn_wp me idle i base with "Hf Hp He Hs HS Hni");
    [done|done|done|done|done|done|done|done|by rewrite /= w32_small|by rewrite /resume_sp E2|
     by rewrite /resume_sp E2|done|].
  iIntros (c' (Hesp' & Hoff & Hin' & Hctl)) "Hf Hp He Hs HP". simpl in Hesp'.
  rewrite w32_small // in Hesp'. iSplit; [by rewrite Hesp'|]. iFrame "Hs". iIntros "Hs".
  iApply ("HΦ" with "[%] [$Hch $Hdev $Hf $Hp $He $Hs] HP").
  destruct (if_on c) eqn:Hon.
  - change (with_status (b2z true) c') with (sti_cpu c').
    split_and!; [done|by rewrite if_on_sti|done|done].
  - change (with_status (b2z false) c') with (cli_cpu c'). rewrite cli_cpu_off //.
    split_and!; [done|by rewrite Hoff|done|done].
Qed.

(** ** Chunks *)

(** The commands a transfer of [n] sectors takes: 256 sectors each, but the last. *)
Fixpoint chunks_n (k : nat) (lba n : Z) : list (Z * Z) :=
  match k with
  | O => []
  | S k => if n <=? 0 then [] else (lba, Z.min 256 n) :: chunks_n k (lba + 256) (n - 256)
  end.
Definition chunks (lba n : Z) : list (Z * Z) := chunks_n (Z.to_nat n) lba n.
Definition chunk_requests (cmd dev : Z) (cs : list (Z * Z)) : list request :=
  (λ '(lba, n), Request cmd dev lba n) <$> cs.

Lemma chunks_n_enough k lba n : n <= Z.of_nat k → chunks_n k lba n = chunks lba n.
Proof.
  unfold chunks. revert lba n. induction k as [k IH] using lt_wf_ind. intros lba n Hn.
  destruct (Z.leb_spec n 0).
  - destruct k, (Z.to_nat n); simpl; rewrite ?(proj2 (Z.leb_le n 0)) //; lia.
  - destruct k as [|k]; [lia|]. destruct (Z.to_nat n) as [|j] eqn:Ej; [lia|]. simpl.
    rewrite (proj2 (Z.leb_gt n 0)) //. f_equal.
    rewrite (IH k); [|lia|lia]. destruct (decide (j = k)) as [->|]; [rewrite (IH k); [done|lia|lia]|].
    rewrite (IH j); [done|lia|lia].
Qed.

Lemma chunks_cons lba n :
  0 < n → chunks lba n = (lba, Z.min 256 n) :: chunks (lba + 256) (n - Z.min 256 n).
Proof.
  intros Hn. unfold chunks at 1. destruct (Z.to_nat n) as [|k] eqn:Ek; [lia|]. simpl.
  rewrite (proj2 (Z.leb_gt n 0)) //. f_equal. rewrite chunks_n_enough; [|lia].
  destruct (decide (n <= 256)).
  - rewrite (Z.min_r 256 n) // Z.sub_diag. unfold chunks.
    destruct (Z.to_nat (n - 256)) eqn:E; simpl; [done|lia].
  - rewrite (Z.min_l 256 n); [done|lia].
Qed.

Lemma chunks_nil lba : chunks lba 0 = [].
Proof. done. Qed.

(** What the ports deliver during a read: for each command the status read by
    the interrupt handler, the polls, and the sectors. *)
Inductive delivers : list (Z * Z) → list Z → list Z → list Z → Prop :=
  | delivers_nil rest : delivers [] rest [] rest
  | delivers_cons lba n cs irq l block l' data rest :
      poll polls l = Some (8, block ++ l') → Z.of_nat (length block) = 512 * n →
      delivers cs l' data rest →
      delivers ((lba, n) :: cs) (irq :: l) ((w8 <$> block) ++ data) rest.

Lemma sec_op_eq cnt n : 0 <= n < cnt → cnt < 2 ^ 32 → sec_op_of cnt n = Z.min 256 (cnt - n).
Proof.
  intros Hn Hc. unfold sec_op_of. rewrite w32_small; [|lia].
  rewrite Z.geb_leb. destruct (Z.leb_spec 256 (cnt - n)); lia.
Qed.

(** During a write: the polls, then the status read by the handler. *)
Inductive accepts : list (Z * Z) → list Z → list Z → Prop :=
  | accepts_nil rest : accepts [] rest rest
  | accepts_cons lba n cs l irq l' rest :
      poll polls l = Some (8, irq :: l') → accepts cs l' rest →
      accepts ((lba, n) :: cs) l rest.

End wait.

(** ** Transfers *)

Section transfer.
Context `{Symbols, Frames}.
Implicit Types (c : cpu).

(** A transfer of [cnt] sectors between memory at [buf] and the disk [hd], on
    channel [i], from [lba], by the kernel thread [me]. *)
Context (me idle hd i dev base lba buf cnt : Z).
Hypothesis Hi : 0 <= i < 2.
Hypothesis Hb : ata_base base.
Hypothesis Hdev : 0 <= dev < 2.
Hypothesis Hg : 0 < g_ide_channels.
Hypothesis Hlba : 0 <= lba ∧ lba + cnt - 1 <= max_lba.
Hypothesis Hcnt : 0 < cnt < 2 ^ 32.
Hypothesis Hbuf : 0 <= buf ∧ buf + 512 * cnt <= 2 ^ 32.

#[local] Abbreviation run := (wpi me (idle_turn (0x2e + i))).

Definition on_stack (c : cpu) : Prop := Z.land (esp c) 0xfffff000 = me ∧ 0 <= esp c < 2 ^ 32.

Lemma on_stack_drove c c' inp a : on_stack c → drove base c c' inp a → on_stack c'.
Proof. intros [H1 H2] (E & _). unfold on_stack. by rewrite E. Qed.

(** The start of a command: the registers, then the command. *)
Lemma start_command n v cmd k c (Φ : res (Z + unit) → hPropI) :
  0 <= n < cnt → 0 <= cmd < 256 → stays Φ →
  disk_line hd i dev base v -∗
  (∀ c', ⌜∃ a, drove base c c' (inputs c) a ∧ a_sent a = a_sent (controller base c) ∧
            a_requests a = a_requests (controller base c) ++
              [Request cmd dev (lba + n) (Z.min 256 (cnt - n))]⌝ -∗
     disk_line hd i dev base 1 -∗ run k c' Φ) -∗
  run (select_sector hd (w32 (lba + n)) (Z.min 256 (cnt - n)) ;;
       channel <- ld32 (disk_my_channel hd);
       cmd_out channel cmd ;; k) c Φ.
Proof.
  iIntros (Hn Hcmd Hstays) "(HD & Hf & He & Hs) HΦ". pose proof Hlba as [Hl1 Hl2].
  change max_lba with 163839 in Hl2. rewrite w32_small; [|lia].
  wpi_bind. iApply (select_sector_wp with "HD"); [done|done|change max_lba with 163839; lia|lia|].
  iIntros (c1 (a1 & Hc1 & Ha1)) "(Hch & Hd & Hp)". wpi_reduce. wpi_ld "Hch".
  destruct Hc1 as (He1 & Hi1 & Hin1 & Hct1).
  wpi_bind. iApply (cmd_out_wp with "Hp He");
    [done|unfold ide_channel_at, sizeof_ide_channel; lia|done|by rewrite Hct1|].
  iIntros (c2 (a2 & (He2 & Hi2 & Hin2 & Hct2) & Ha2 & Hs2)) "Hp He". wpi_reduce.
  iApply ("HΦ" with "[%] [$Hch $Hd $Hp $Hf $He $Hs]").
  exists a2. split_and!; [split_and!; congruence|done|done].
Qed.

(** One command of a read. *)
Lemma read_chunk_wp n v t irq l block rest junk c (Φ : res (Z + unit) → hPropI) :
  on_stack c → 0 <= n < cnt → inputs c = irq :: l → poll polls l = Some (8, block ++ rest) →
  Z.of_nat (length block) = 512 * Z.min 256 (cnt - n) → length junk = length block → stays Φ →
  disk_line hd i dev base v -∗ idle_pair me idle -∗ g_ticks ↦w t -∗
  (buf + 512 * n) ↦∗ junk -∗
  (∀ c', ⌜∃ a, drove base c c' rest a ∧ a_sent a = a_sent (controller base c) ∧
            a_requests a = a_requests (controller base c) ++
              [Request CMD_READ_SECTOR dev (lba + n) (Z.min 256 (cnt - n))]⌝ -∗
     disk_line hd i dev base 0 -∗ idle_pair me idle -∗ g_ticks ↦w t -∗
     (buf + 512 * n) ↦∗ (w8 <$> block) -∗
     Φ (RRet (inl (n + Z.min 256 (cnt - n))) c')) -∗
  run (read_chunk hd lba buf cnt n) c Φ.
Proof.
  iIntros (Hc Hn Hin Hpoll Hblock Hjunk Hstays) "HD HP Ht Hbuf HΦ".
  rewrite /read_chunk (proj2 (Z.ltb_lt n cnt)); [|lia]. rewrite sec_op_eq //; [|lia].
  iApply (start_command with "HD"); [done|done|done|].
  iIntros (c1 (a1 & Hc1 & As1 & Ha1)) "((Hch & Hd & Hp) & Hf & He & Hs)".
  destruct (on_stack_drove _ _ _ _ Hc Hc1) as [Hp1 Hr1]. destruct Hc1 as (He1 & Hi1 & Hin1 & Hct1).
  wpi_ld "Hch". iApply wpi_bind.
  iApply (wait_disk_wp me idle hd i dev base irq l with "[$Hch $Hd $Hp $Hf $He $Hs] HP");
    [done|done|done|done|congruence|auto|].
  iIntros (c3 (He3 & Hi3 & Hin3 & Hct3)) "(HD & Hf & He & Hs) HP". wpi_reduce.
  wpi_bind. iApply (busy_wait_wp with "HD Ht"); [by rewrite Hin3|].
  iIntros (c4 (He4 & Hi4 & Hin4 & Hct4)) "HD Ht". wpi_reduce.
  wpi_bind. iApply wp_when. wpi_reduce. rewrite w32_small; [|lia].
  wpi_bind. iApply (read_from_sector_wp with "HD Hbuf"); [done|lia|done|done|done|].
  iIntros (c5 (He5 & Hi5 & Hin5 & Hct5)) "HD Hbuf". wpi_reduce. rewrite w32_small; [|lia].
  iApply wpi_wp; [done|]. iApply wp_ret.
  iApply ("HΦ" with "[%] [$HD $Hf $He $Hs] HP Ht Hbuf"). exists (controller base c5).
  split; [split_and!; congruence|]. by rewrite Hct5 Hct4 Hct3 Hct1 As1 Ha1.
Qed.

(** One command of a write: the data goes out before the thread waits. *)
Lemma write_chunk_wp n v t irq l block c (Φ : res (Z + unit) → hPropI) :
  on_stack c → 0 <= n < cnt → poll polls (inputs c) = Some (8, irq :: l) →
  Z.of_nat (length block) = 512 * Z.min 256 (cnt - n) → stays Φ →
  disk_line hd i dev base v -∗ idle_pair me idle -∗ g_ticks ↦w t -∗
  (buf + 512 * n) ↦∗ block -∗
  (∀ c', ⌜∃ a, drove base c c' l a ∧ a_sent a = a_sent (controller base c) ++ block ∧
            a_requests a = a_requests (controller base c) ++
              [Request CMD_WRITE_SECTOR dev (lba + n) (Z.min 256 (cnt - n))]⌝ -∗
     disk_line hd i dev base 0 -∗ idle_pair me idle -∗ g_ticks ↦w t -∗
     (buf + 512 * n) ↦∗ block -∗
     Φ (RRet (inl (n + Z.min 256 (cnt - n))) c')) -∗
  run (write_chunk hd lba buf cnt n) c Φ.
Proof.
  iIntros (Hc Hn Hpoll Hblock Hstays) "HD HP Ht Hbuf HΦ".
  rewrite /write_chunk (proj2 (Z.ltb_lt n cnt)); [|lia]. rewrite sec_op_eq //; [|lia].
  iApply (start_command with "HD"); [done|done|done|].
  iIntros (c1 (a1 & Hc1 & As1 & Ha1)) "(HD & Hf & He & Hs)".
  destruct Hc1 as (He1 & Hi1 & Hin1 & Hct1).
  wpi_bind. iApply (busy_wait_wp with "HD Ht"); [by rewrite Hin1|].
  iIntros (c2 (He2 & Hi2 & Hin2 & Hct2)) "HD Ht". wpi_reduce.
  wpi_bind. iApply wp_when. wpi_reduce. rewrite w32_small; [|lia].
  wpi_bind. iApply (write_to_sector_wp with "HD Hbuf"); [done|lia|done|].
  iIntros (c3 (a3 & (He3 & Hi3 & Hin3 & Hct3) & Ha3 & As3)) "(Hch & Hd & Hp) Hbuf". wpi_reduce.
  wpi_ld "Hch". iApply wpi_bind. destruct Hc as [Hp1 Hr1].
  iApply (wait_disk_wp me idle hd i dev base irq l with "[$Hch $Hd $Hp $Hf $He $Hs] HP");
    [done|done|by rewrite He3 He2 He1|by rewrite He3 He2 He1|congruence|auto|].
  iIntros (c4 (He4 & Hi4 & Hin4 & Hct4)) "HD HP". wpi_reduce. rewrite w32_small; [|lia].
  iApply wpi_wp; [done|]. iApply wp_ret.
  iApply ("HΦ" with "[%] HD HP Ht Hbuf"). exists (controller base c4).
  split; [split_and!; congruence|]. rewrite Hct4 Hct3. split; [by rewrite As3 Hct2 Hct1 As1|].
  by rewrite Ha3 Hct2 Hct1 Ha1.
Qed.

(** What is left of a transfer after [n] sectors. *)
Lemma chunks_left n cs :
  chunks (lba + n) (cnt - n) = cs → 0 <= n <= cnt →
  (cs = [] ∧ n = cnt) ∨
  (n < cnt ∧ ∃ cs', cs = (lba + n, Z.min 256 (cnt - n)) :: cs' ∧
     chunks (lba + (n + Z.min 256 (cnt - n))) (cnt - (n + Z.min 256 (cnt - n))) = cs').
Proof.
  intros E Hn. destruct (decide (n = cnt)) as [->|].
  - left. rewrite Z.sub_diag in E. by rewrite -E.
  - right. split; [lia|]. eexists. rewrite chunks_cons in E; [|lia]. split; [by rewrite -E|].
    destruct (decide (cnt - n <= 256)).
    + rewrite Z.min_r; [|lia]. by replace (cnt - (n + (cnt - n))) with (cnt - n - (cnt - n)) by lia;
        rewrite !Z.sub_diag !chunks_nil.
    + rewrite Z.min_l; [|lia]. f_equal; lia.
Qed.

Lemma read_loop_wp cs n v t data rest junk c (Φ : res unit → hPropI) :
  chunks (lba + n) (cnt - n) = cs → 0 <= n <= cnt → delivers cs (inputs c) data rest →
  on_stack c → Z.of_nat (length junk) = 512 * (cnt - n) → stays Φ →
  disk_line hd i dev base v -∗ idle_pair me idle -∗ g_ticks ↦w t -∗
  (buf + 512 * n) ↦∗ junk -∗
  (∀ c' v', ⌜∃ a, drove base c c' rest a ∧ a_sent a = a_sent (controller base c) ∧
       a_requests a = a_requests (controller base c) ++ chunk_requests CMD_READ_SECTOR dev cs⌝ -∗
     disk_line hd i dev base v' -∗ idle_pair me idle -∗ g_ticks ↦w t -∗
     (buf + 512 * n) ↦∗ data -∗ Φ (RRet tt c')) -∗
  wpi_loop me (idle_turn (0x2e + i)) (read_chunk hd lba buf cnt) n c Φ.
Proof.
  iIntros (Hcs Hn Hdel Hc Hjunk Hstays) "HD HP Ht Hbuf HΦ".
  iInduction cs as [|ch cs IH] forall (n v data junk c Hcs Hn Hdel Hc Hjunk);
    apply chunks_left in Hcs as [[E ->]|(Hlt & cs' & E & Hcs')]; simplify_eq; try done;
    iApply wpi_loop_step; inversion Hdel as [|? ? ? irq l block l' data' ? Hpoll Hlen Hdel' E1 E2]; subst.
  - rewrite /read_chunk (proj2 (Z.ltb_ge cnt cnt)) //. iApply wpi_wp; [auto|]. iApply wp_ret.
    wpi_reduce. destruct junk; [|simpl in Hjunk; lia].
    iApply ("HΦ" with "[%] HD HP Ht Hbuf"). eexists. split; [apply drove_refl|].
    split; [done|]. by rewrite app_nil_r.
  - set (op := Z.min 256 (cnt - n)) in *. assert (0 < op <= cnt - n) as Hop by lia.
    rewrite -(take_drop (Z.to_nat (512 * op)) junk) bytes_app.
    assert (length (take (Z.to_nat (512 * op)) junk) = Z.to_nat (512 * op)) as Htk
      by (rewrite length_take; lia).
    rewrite Htk. iDestruct "Hbuf" as "[Hb1 Hb2]".
    iApply (read_chunk_wp n v t irq l block l' with "HD HP Ht Hb1");
      [done|lia|done|done|done|rewrite Htk; lia|auto|].
    iIntros (c1 (a1 & Hc1 & As1 & Ha1)) "HD HP Ht Hb1". wpi_reduce.
    iApply ("IH" $! (n + op) 0 data' (drop (Z.to_nat (512 * op)) junk) c1
      with "[%] [%] [%] [%] [%] HD HP Ht [Hb2]").
    + done.
    + lia.
    + destruct Hc1 as (_ & _ & -> & _). done.
    + by eapply on_stack_drove.
    + rewrite length_drop. lia.
    + by replace (buf + 512 * (n + op)) with (buf + 512 * n + Z.to_nat (512 * op)) by lia.
    + iIntros (c' v' (a & Hc' & As & Ha)) "HD HP Ht Hb2".
      iApply ("HΦ" with "[%] HD HP Ht [Hb1 Hb2]").
      * exists a. split; [by eapply drove_trans|]. rewrite Ha As. destruct Hc1 as (_ & _ & _ & ->).
        split; [done|]. by rewrite Ha1 -app_assoc.
      * rewrite bytes_app length_fmap. iFrame "Hb1".
        by replace (buf + 512 * n + length block) with (buf + 512 * (n + op)) by lia.
Qed.

Lemma write_loop_wp cs n v t data rest c (Φ : res unit → hPropI) :
  chunks (lba + n) (cnt - n) = cs → 0 <= n <= cnt → accepts cs (inputs c) rest →
  on_stack c → Z.of_nat (length data) = 512 * (cnt - n) → stays Φ →
  disk_line hd i dev base v -∗ idle_pair me idle -∗ g_ticks ↦w t -∗
  (buf + 512 * n) ↦∗ data -∗
  (∀ c' v', ⌜∃ a, drove base c c' rest a ∧ a_sent a = a_sent (controller base c) ++ data ∧
       a_requests a = a_requests (controller base c) ++ chunk_requests CMD_WRITE_SECTOR dev cs⌝ -∗
     disk_line hd i dev base v' -∗ idle_pair me idle -∗ g_ticks ↦w t -∗
     (buf + 512 * n) ↦∗ data -∗ Φ (RRet tt c')) -∗
  wpi_loop me (idle_turn (0x2e + i)) (write_chunk hd lba buf cnt) n c Φ.
Proof.
  iIntros (Hcs Hn Hdel Hc Hdata Hstays) "HD HP Ht Hbuf HΦ".
  iInduction cs as [|ch cs IH] forall (n v data c Hcs Hn Hdel Hc Hdata);
    apply chunks_left in Hcs as [[E ->]|(Hlt & cs' & E & Hcs')]; simplify_eq; try done;
    iApply wpi_loop_step; inversion Hdel as [|? ? ? ? irq l' ? Hpoll Hdel' E1 E2]; subst.
  - rewrite /write_chunk (proj2 (Z.ltb_ge cnt cnt)) //. iApply wpi_wp; [auto|]. iApply wp_ret.
    wpi_reduce. destruct data; [|simpl in Hdata; lia].
    iApply ("HΦ" with "[%] HD HP Ht Hbuf"). eexists. split; [apply drove_refl|].
    by rewrite !app_nil_r.
  - set (op := Z.min 256 (cnt - n)) in *. assert (0 < op <= cnt - n) as Hop by lia.
    set (k := Z.to_nat (512 * op)). assert (length (take k data) = k) as Htk
      by (rewrite length_take; lia).
    rewrite -{1}(take_drop k data) bytes_app Htk. iDestruct "Hbuf" as "[Hb1 Hb2]".
    iApply (write_chunk_wp n v t irq l' with "HD HP Ht Hb1"); [done|lia|done|lia|auto|].
    iIntros (c1 (a1 & Hc1 & As1 & Ha1)) "HD HP Ht Hb1". wpi_reduce.
    assert (buf + 512 * n + k = buf + 512 * (n + op)) as Eb by lia.
    iApply ("IH" $! (n + op) 0 (drop k data) c1 with "[%] [%] [%] [%] [%] HD HP Ht [Hb2]").
    + done.
    + lia.
    + destruct Hc1 as (_ & _ & -> & _). done.
    + by eapply on_stack_drove.
    + rewrite length_drop. lia.
    + by rewrite Eb.
    + iIntros (c' v' (a & Hc' & As & Ha)) "HD HP Ht Hb2".
      iApply ("HΦ" with "[%] HD HP Ht [Hb1 Hb2]").
      * exists a. split; [by eapply drove_trans|]. destruct Hc1 as (_ & _ & _ & Hct1).
        rewrite Hct1 in As, Ha. split; [by rewrite As As1 -app_assoc take_drop|].
        by rewrite Ha Ha1 -app_assoc.
      * iEval (rewrite -(take_drop k data) bytes_app Htk Eb). iFrame.
Qed.

(** The lock of the channel around a transfer. *)
Lemma with_channel_wp (step : Z → M (Z + unit)) v c (Φ : res unit → hPropI) :
  on_stack c → 0 < me < 2 ^ 32 → stays Φ →
  quiet_lock (chan_lock (ide_channel_at i)) 0 -∗ disk_line hd i dev base v -∗
  (∀ c', ⌜∃ a, drove base c c' (inputs c) a ∧ a_requests a = a_requests (controller base c) ∧
            a_sent a = a_sent (controller base c)⌝ -∗
     disk_line hd i dev base v -∗
     wpi_loop me (idle_turn (0x2e + i)) step 0 c' (returns (λ _ c2,
       ∃ v', ⌜on_stack c2⌝ ∗ disk_line hd i dev base v' ∗
         (quiet_lock (chan_lock (ide_channel_at i)) 0 -∗ disk_line hd i dev base v' -∗
          Φ (RRet tt c2))))) -∗
  run (channel <- ld32 (disk_my_channel hd);
       lock_acquire (chan_lock channel) ;;
       select_disk hd ;;
       loop step 0 ;;
       channel <- ld32 (disk_my_channel hd);
       lock_release (chan_lock channel)) c Φ.
Proof.
  iIntros ([Hp Hr] Hme Hstays) "HL ((Hch & Hd & Hp) & Hline) HΦ". wpi_ld "Hch".
  wpi_bind. iApply (mutex_acquire with "HL"); [done|done|]. iIntros "HL". wpi_reduce.
  wpi_bind. iApply (select_disk_wp with "[$Hch $Hd $Hp]"); [done|].
  iIntros (c1 Hc1) "HD". wpi_reduce. iApply wpi_bind. iApply wpi_loop_start.
  iDestruct ("HΦ" with "[//] [$HD $Hline]") as "HW".
  iApply (wp_loop_wand with "HW").
  iIntros ([? c2|?|?|? ?]) "HW //=". iDestruct "HW" as "(%v' & [%Hp2 %Hr2] & ((Hch & Hd & Hp) & Hline) & HΦ)".
  wpi_ld "Hch". iApply wpi_wp; [done|].
  iApply (mutex_release with "HL"); [done|done|]. iIntros "HL".
  iApply ("HΦ" with "HL [$Hch $Hd $Hp $Hline]").
Qed.

(** A transfer as a statement of a thread: what it does to the controller. *)
Definition transferred (c c' : cpu) (rest : list Z) (out : list Z) (cmd : Z) : Prop :=
  on_stack c' ∧ ∃ a, drove base c c' rest a ∧ a_sent a = a_sent (controller base c) ++ out ∧
  a_requests a = a_requests (controller base c) ++ chunk_requests cmd dev (chunks lba cnt).

(** What a transfer needs besides the buffer. *)
Definition disk_ready (t : Z) : hPropI :=
  (quiet_lock (chan_lock (ide_channel_at i)) 0 ∗ (∃ v, disk_line hd i dev base v) ∗
   idle_pair me idle ∗ g_ticks ↦w t)%I.

Lemma ide_read_wpi t junk data rest c (Φ : res unit → hPropI) :
  on_stack c → delivers (chunks lba cnt) (inputs c) data rest →
  Z.of_nat (length junk) = 512 * cnt → stays Φ →
  disk_ready t -∗ buf ↦∗ junk -∗
  (∀ c', ⌜transferred c c' rest [] CMD_READ_SECTOR⌝ -∗ disk_ready t -∗ buf ↦∗ data -∗
     Φ (RRet tt c')) -∗
  run (ide_read hd lba buf cnt) c Φ.
Proof.
  iIntros (Hc Hdel Hjunk Hstays) "(HL & [%v HD] & HP & Ht) Hbuf HΦ".
  iDestruct (idle_pair_range with "HP") as %Hme. pose proof Hlba as [Hl1 Hl2]. rewrite /ide_read.
  wpi_bind. iApply wp_assert; [apply Z.leb_le; lia|]. wpi_reduce.
  wpi_bind. iApply wp_assert; [apply Z.gtb_lt; lia|]. wpi_reduce.
  iApply (with_channel_wp with "HL HD"); [done|done|done|].
  iIntros (c1 (a1 & Hc1 & Ha1 & As1)) "HD".
  iApply (read_loop_wp (chunks lba cnt) 0 _ t data rest junk with "HD HP Ht [Hbuf]").
  - by rewrite Z.add_0_r Z.sub_0_r.
  - lia.
  - by destruct Hc1 as (_ & _ & -> & _).
  - by eapply on_stack_drove.
  - lia.
  - done.
  - by rewrite Z.mul_0_r Z.add_0_r.
  - iIntros (c2 v' (a2 & Hc2 & As2 & Ha2)) "HD HP Ht Hbuf /=". iExists v'. iFrame "HD".
    assert (on_stack c2) by (eapply on_stack_drove; [|done]; by eapply on_stack_drove).
    iSplit; [done|]. iIntros "HL HD". rewrite Z.mul_0_r Z.add_0_r.
    iApply ("HΦ" with "[%] [$HL HD $HP $Ht] Hbuf"); [|by iExists v'].
    split; [done|]. exists a2. split; [by eapply drove_trans|].
    destruct Hc1 as (_ & _ & _ & Hct1). by rewrite app_nil_r As2 Ha2 Hct1 As1 Ha1.
Qed.

Lemma ide_write_wpi t data rest c (Φ : res unit → hPropI) :
  on_stack c → accepts (chunks lba cnt) (inputs c) rest →
  Z.of_nat (length data) = 512 * cnt → stays Φ →
  disk_ready t -∗ buf ↦∗ data -∗
  (∀ c', ⌜transferred c c' rest data CMD_WRITE_SECTOR⌝ -∗ disk_ready t -∗ buf ↦∗ data -∗
     Φ (RRet tt c')) -∗
  run (ide_write hd lba buf cnt) c Φ.
Proof.
  iIntros (Hc Hdel Hdata Hstays) "(HL & [%v HD] & HP & Ht) Hbuf HΦ".
  iDestruct (idle_pair_range with "HP") as %Hme. pose proof Hlba as [Hl1 Hl2]. rewrite /ide_write.
  wpi_bind. iApply wp_assert; [apply Z.leb_le; lia|]. wpi_reduce.
  wpi_bind. iApply wp_assert; [apply Z.gtb_lt; lia|]. wpi_reduce.
  iApply (with_channel_wp with "HL HD"); [done|done|done|].
  iIntros (c1 (a1 & Hc1 & Ha1 & As1)) "HD".
  iApply (write_loop_wp (chunks lba cnt) 0 _ t data rest with "HD HP Ht [Hbuf]").
  - by rewrite Z.add_0_r Z.sub_0_r.
  - lia.
  - by destruct Hc1 as (_ & _ & -> & _).
  - by eapply on_stack_drove.
  - lia.
  - done.
  - by rewrite Z.mul_0_r Z.add_0_r.
  - iIntros (c2 v' (a2 & Hc2 & As2 & Ha2)) "HD HP Ht Hbuf /=". iExists v'. iFrame "HD".
    assert (on_stack c2) by (eapply on_stack_drove; [|done]; by eapply on_stack_drove).
    iSplit; [done|]. iIntros "HL HD". rewrite Z.mul_0_r Z.add_0_r.
    iApply ("HΦ" with "[%] [$HL HD $HP $Ht] Hbuf"); [|by iExists v'].
    split; [done|]. exists a2. split; [by eapply drove_trans|].
    destruct Hc1 as (_ & _ & _ & Hct1). by rewrite As2 Ha2 Hct1 As1 Ha1.
Qed.

(** C14: Reading from a disk: a thread that asks for any number of sectors is blocked
    for every command, until the interrupt; in the end its buffer holds what the
    data port delivered, the controller was asked for exactly these sectors, in
    order, 256 at a time, and channel, scheduler and lock are as they were. *)
Theorem ide_read_sectors v t junk data rest c :
  on_stack c → delivers (chunks lba cnt) (inputs c) data rest →
  Z.of_nat (length junk) = 512 * cnt →
  {{ quiet_lock (chan_lock (ide_channel_at i)) 0 ∗ disk_line hd i dev base v ∗
     idle_pair me idle ∗ g_ticks ↦w t ∗ buf ↦∗ junk }}
    (interleave me (idle_turn (0x2e + i)) (ide_read hd lba buf cnt)) @ c
  {{ r c', ⌜on_stack c' ∧ if_on c' = if_on c ∧ inputs c' = rest ∧
            a_requests (controller base c') =
              a_requests (controller base c) ++
              chunk_requests CMD_READ_SECTOR dev (chunks lba cnt)⌝ ∗
           quiet_lock (chan_lock (ide_channel_at i)) 0 ∗
           (∃ v', disk_line hd i dev base v') ∗ idle_pair me idle ∗ g_ticks ↦w t ∗
           buf ↦∗ data }}.
Proof.
  intros Hc Hdel Hjunk. apply triple_wp. iIntros "(HL & HD & HP & Ht & Hbuf)".
  iEval (rewrite -/(wpi _ _ _ _ _)).
  iApply (ide_read_wpi t with "[$HL HD $HP $Ht] Hbuf"); [done..|auto|by iExists v|].
  iIntros (c' (Hc' & a & (? & ? & ? & <-) & _ & ?)) "($ & $ & $ & $) Hbuf /=". by iFrame.
Qed.

(** C15: Writing to a disk: the controller is sent the bytes of the buffer, all of
    them and in order, for exactly the sectors asked for. *)
Theorem ide_write_sectors v t data rest c :
  on_stack c → accepts (chunks lba cnt) (inputs c) rest → Z.of_nat (length data) = 512 * cnt →
  {{ quiet_lock (chan_lock (ide_channel_at i)) 0 ∗ disk_line hd i dev base v ∗
     idle_pair me idle ∗ g_ticks ↦w t ∗ buf ↦∗ data }}
    (interleave me (idle_turn (0x2e + i)) (ide_write hd lba buf cnt)) @ c
  {{ r c', ⌜on_stack c' ∧ if_on c' = if_on c ∧ inputs c' = rest ∧
            a_sent (controller base c') = a_sent (controller base c) ++ data ∧
            a_requests (controller base c') =
              a_requests (controller base c) ++
              chunk_requests CMD_WRITE_SECTOR dev (chunks lba cnt)⌝ ∗
           quiet_lock (chan_lock (ide_channel_at i)) 0 ∗
           (∃ v', disk_line hd i dev base v') ∗ idle_pair me idle ∗ g_ticks ↦w t ∗
           buf ↦∗ data }}.
Proof.
  intros Hc Hdel Hdata. apply triple_wp. iIntros "(HL & HD & HP & Ht & Hbuf)".
  iEval (rewrite -/(wpi _ _ _ _ _)).
  iApply (ide_write_wpi t with "[$HL HD $HP $Ht] Hbuf"); [done..|auto|by iExists v|].
  iIntros (c' (Hc' & a & (? & ? & ? & <-) & ? & ?)) "($ & $ & $ & $) Hbuf /=". by iFrame.
Qed.

End transfer.

(** ** Polling ends *)

(** C26: Whatever the port delivers, polling a disk ends, with an answer, after at
    most 30000 reads of the status; a disk that stays busy is polled 29999
    times (the counter goes down by one, not by ten) and given up. *)
Theorem busy_wait_terminates `{Symbols} hd ch dev base t c :
  (Z.to_nat 30000 <= length (inputs c))%nat →
  {{ is_disk hd ch dev base ∗ g_ticks ↦w t }} (busy_wait hd) @ c
  {{ r c', ⌜(r = 0 ∨ r = 8) ∧
            (∃ k, (k <= Z.to_nat 30000)%nat ∧ inputs c' = drop k (inputs c)) ∧
            (Forall (λ st, Z.testbit st 7 = true) (take (Z.to_nat 29999) (inputs c)) →
             r = 0 ∧ inputs c' = drop (Z.to_nat 29999) (inputs c))⌝ ∗
           is_disk hd ch dev base ∗ g_ticks ↦w t }}.
Proof.
  intros Hl. apply triple_wp. iIntros "[HD Ht]".
  destruct (poll_total polls (inputs c)) as (r & k & Hp & Hk & Hr); [unfold polls; lia|].
  iApply (busy_wait_wp with "HD Ht"); [done|]. iIntros (c' (_ & _ & Hin & _)) "HD Ht /=".
  iFrame. iPureIntro. split; [done|split; [exists k; split; [unfold polls in Hk; lia|done]|]].
  intros Hb. unfold polls in Hp. rewrite poll_busy // in Hp; [|lia]. injection Hp as <- E. split; [done|]. by rewrite Hin -E.
Qed.

(** ** Witnesses *)

#[local] Existing Instance link_map.
#[local] Existing Instance demo_frames.

(** The slave of the first channel, thread a running, the idle thread blocked. *)
Definition demo_hd : Z := 0xc0040000.
Definition demo_disk : list (Z * list Z) :=
  lock_cells (chan_lock (ide_channel_at 0)) 0 1 0 [] ++
  [(disk_my_channel demo_hd, word_bytes (ide_channel_at 0)); (disk_dev_no demo_hd, [1]);
   (chan_port_base (ide_channel_at 0), [0xf0; 0x01]);
   (g_exception_funcptr_table + 4 * (0x2e + 0), word_bytes fn_intr_hd_handler);
   (chan_expection_interrupt (ide_channel_at 0), word_bytes 0)] ++
  sem_cells (chan_disk_done_sem (ide_channel_at 0)) 0 [] ++
  node_cells (pcb_general_tag 0xc009e000) ++ node_cells (pcb_general_tag 0xc0102000) ++
  [(g_ticks, word_bytes 7)] ++ sched_cells [thread_a; thread_idle] [] 0xc0102000 0.

Lemma demo_disk_models :
  cells demo_disk ⊢
    quiet_lock (chan_lock (ide_channel_at 0)) 0 ∗ disk_line demo_hd 0 1 0x1f0 0 ∗
    idle_pair 0xc009e000 0xc0102000 ∗ g_ticks ↦w 7.
Proof.
  unfold demo_disk. do 6 rewrite cells_app. iIntros "(HL & HD & HS & Hn & Hni & Ht & HT)".
  iSplitL "HL"; [iApply quiet_lock_cells; [vm_compute; reflexivity|done]|].
  iSplitL "HD HS".
  { rewrite cells_word // cells_cons cells_cons cells_word; [|done].
    rewrite cells_word // bytes_cons !bytes_cons.
    iDestruct "HD" as "(Hch & [Hd _] & (Hp1 & Hp2 & _) & Hf & He & _)".
    iDestruct (sem_cells_models with "HS") as "HS"; [vm_compute; reflexivity|].
    rewrite /disk_line /is_disk /pt16. iFrame. done. }
  iSplitR "Ht"; [|rewrite cells_word //; by iDestruct "Ht" as "[$ _]"].
  iExists (list_to_map [thread_a; thread_idle]), 0, thread_a.2, thread_idle.2.
  rewrite sched_cells_models; [|vm_compute; reflexivity].
  rewrite !node_cells_models; [|done..]. iFrame. iPureIntro.
  split_and!; try done; vm_compute; reflexivity.
Qed.

Lemma demo_transfer_models bs :
  cells (demo_disk ++ [(0xc0050000, bs)]) ⊢
    quiet_lock (chan_lock (ide_channel_at 0)) 0 ∗ disk_line demo_hd 0 1 0x1f0 0 ∗
    idle_pair 0xc009e000 0xc0102000 ∗ g_ticks ↦w 7 ∗ 0xc0050000 ↦∗ bs.
Proof.
  rewrite cells_app demo_disk_models cells_cons. iIntros "(($ & $ & $ & $) & $ & _)".
Qed.

(** One sector of sevens, after a poll that finds the disk busy. *)
Definition demo_sector : list Z := replicate 512 7.
Definition cpu_read : cpu := set_inputs (0x50 :: 0x80 :: 0x50 :: 0x58 :: demo_sector) cpu_a.
Definition cpu_write : cpu := set_inputs [0x80; 0x50; 0x58; 0x50] cpu_a.

Lemma demo_delivers : delivers (chunks 100 1) (inputs cpu_read) demo_sector [].
Proof.
  apply (delivers_cons 100 1 [] 0x50 (0x80 :: 0x50 :: 0x58 :: demo_sector) demo_sector [] [] []);
    [vm_compute; reflexivity|reflexivity|constructor].
Qed.

Lemma demo_accepts : accepts (chunks 100 1) (inputs cpu_write) [].
Proof.
  apply (accepts_cons 100 1 [] [0x80; 0x50; 0x58; 0x50] 0x50 [] []);
    [vm_compute; reflexivity|constructor].
Qed.

Lemma demo_on_stack l : on_stack 0xc009e000 (set_inputs l cpu_a).
Proof. split; [reflexivity|split; vm_compute; [discriminate|reflexivity]]. Qed.

Lemma ide_read_sectors_witness :
  ∃ r h', exec (interleave 0xc009e000 (idle_turn (0x2e + 0)) (ide_read demo_hd 100 0xc0050000 1))
      cpu_read (mem_of (demo_disk ++ [(0xc0050000, replicate 512 0)])) r h' ∧
    h' ⊨ (returns (λ _ c', ⌜a_requests (controller 0x1f0 c') =
                            [Request CMD_READ_SECTOR 1 100 1]⌝ ∗
                           0xc0050000 ↦∗ demo_sector)%I r).
Proof.
  edestruct (triple_run _ _ _ _ (mem_of (demo_disk ++ [(0xc0050000, replicate 512 0)]))
    (ide_read_sectors 0xc009e000 0xc0102000 demo_hd 0 1 0x1f0 100 0xc0050000 1
       ltac:(lia) ltac:(by left) ltac:(lia) ltac:(done) ltac:(split; vm_compute; discriminate)
       ltac:(lia) ltac:(lia) 0 7 (replicate 512 0) demo_sector [] cpu_read (demo_on_stack _)
       demo_delivers ltac:(rewrite length_replicate; reflexivity)))
    as (r & h' & Hx & Hq).
  - eapply models_mono; [apply demo_transfer_models|apply mem_of_models; vm_compute; reflexivity].
  - exists r, h'. split; [exact Hx|]. eapply models_mono; [|apply Hq].
    destruct r; simpl; [|by iIntros "[]"..]. iIntros "(%Hr & _ & _ & _ & _ & Hd)".
    iSplit; [iPureIntro; apply Hr|iApply "Hd"].
Defined.

Lemma ide_write_sectors_witness :
  ∃ r h', exec (interleave 0xc009e000 (idle_turn (0x2e + 0)) (ide_write demo_hd 100 0xc0050000 1))
      cpu_write (mem_of (demo_disk ++ [(0xc0050000, demo_sector)])) r h' ∧
    h' ⊨ (returns (λ _ c', ⌜a_sent (controller 0x1f0 c') = demo_sector ∧
                            a_requests (controller 0x1f0 c') =
                            [Request CMD_WRITE_SECTOR 1 100 1]⌝)%I r).
Proof.
  edestruct (triple_run _ _ _ _ (mem_of (demo_disk ++ [(0xc0050000, demo_sector)]))
    (ide_write_sectors 0xc009e000 0xc0102000 demo_hd 0 1 0x1f0 100 0xc0050000 1
       ltac:(lia) ltac:(by left) ltac:(lia) ltac:(done) ltac:(split; vm_compute; discriminate)
       ltac:(lia) ltac:(lia) 0 7 demo_sector [] cpu_write (demo_on_stack _)
       demo_accepts ltac:(rewrite length_replicate; reflexivity)))
    as (r & h' & Hx & Hq).
  - eapply models_mono; [apply demo_transfer_models|apply mem_of_models; vm_compute; reflexivity].
  - exists r, h'. split; [exact Hx|]. eapply models_mono; [|apply Hq].
    destruct r; simpl; [|by iIntros "[]"..]. iIntros "(%Hr & _)".
    iPureIntro. split; apply Hr.
Defined.

(** A disk that is never ready. *)
Definition cpu_busy : cpu := set_inputs (replicate (Z.to_nat 30000) 0x80) cpu_a.

Lemma cpu_busy_length : (Z.to_nat 30000 <= length (inputs cpu_busy))%nat.
Proof. unfold cpu_busy. cbn [inputs set_inputs]. rewrite length_replicate. lia. Qed.

Lemma cpu_busy_all :
  Forall (λ st, Z.testbit st 7 = true) (take (Z.to_nat 29999) (inputs cpu_busy)).
Proof.
  unfold cpu_busy. cbn [inputs set_inputs]. rewrite take_replicate. by apply Forall_replicate.
Qed.

Lemma busy_wait_terminates_witness :
  ∃ r h', exec (busy_wait demo_hd) cpu_busy
      (mem_of [(disk_my_channel demo_hd, word_bytes (ide_channel_at 0)); (disk_dev_no demo_hd, [1]);
               (chan_port_base (ide_channel_at 0), [0xf0; 0x01]); (g_ticks, word_bytes 7)]) r h' ∧
    h' ⊨ (returns (λ r c', ⌜r = 0⌝)%I r).
Proof.
  edestruct (triple_run _ _ _ _
      (mem_of [(disk_my_channel demo_hd, word_bytes (ide_channel_at 0)); (disk_dev_no demo_hd, [1]);
               (chan_port_base (ide_channel_at 0), [0xf0; 0x01]); (g_ticks, word_bytes 7)])
    (busy_wait_terminates demo_hd (ide_channel_at 0) 1 0x1f0 7 cpu_busy cpu_busy_length))
    as (r & h' & Hx & Hq).
  - eapply models_mono; [|apply mem_of_models; vm_compute; reflexivity].
    rewrite cells_word // cells_cons cells_cons cells_word; [|done].
    rewrite bytes_cons !bytes_cons /is_disk /pt16.
    iIntros "($ & [$ _] & ($ & $ & _) & $ & _)". done.
  - exists r, h'. split; [exact Hx|]. eapply models_mono; [|apply Hq].
    destruct r; cbn [returns]; [|by iIntros "[]"..]. iIntros "[%Hr _]". iPureIntro.
    apply (proj2 (proj2 Hr)), cpu_busy_all.
Defined.
