(* ===== verification/Inode.v ===== *)
(** fs/inode.c and fs/file.c: the nodes of the file system, on disk and in the
    list of open ones, the bitmaps of a partition and the tables of open files. *)
From S2P Require Export Ide.

(** ** Layout *)

(** struct super_block *)
Definition sb_magic (s : Z) : Z := s.
Definition sb_sec_cnt (s : Z) : Z := s + 4.
Definition sb_inode_cnt (s : Z) : Z := s + 8.
Definition sb_part_lba_base (s : Z) : Z := s + 12.
Definition sb_block_bitmap_lba (s : Z) : Z := s + 16.
Definition sb_block_bitmap_sects (s : Z) : Z := s + 20.
Definition sb_inode_bitmap_lba (s : Z) : Z := s + 24.
Definition sb_inode_bitmap_sects (s : Z) : Z := s + 28.
Definition sb_inode_table_lba (s : Z) : Z := s + 32.
Definition sb_inode_table_sects (s : Z) : Z := s + 36.
Definition sb_data_start_lba (s : Z) : Z := s + 40.
Definition sb_root_inode_no (s : Z) : Z := s + 44.
Definition sb_dir_entry_size (s : Z) : Z := s + 48.
Definition sizeof_super_block : Z := 512.

(** struct inode *)
Definition inode_i_no (i : Z) : Z := i.
Definition inode_i_size (i : Z) : Z := i + 4.
Definition inode_i_open_cnts (i : Z) : Z := i + 8.
Definition inode_write_deny (i : Z) : Z := i + 12.
Definition inode_i_sectors (i k : Z) : Z := i + 16 + 4 * k.
Definition inode_inode_tag (i : Z) : Z := i + 68.
Definition inode_of_inode_tag (e : Z) : Z := e - 68.
Definition sizeof_inode : Z := 76.

(** struct inode_position *)
Record inode_position := InodePosition {
  two_sec : bool;
  sec_lba : Z;
  off_size : Z
}.

(** struct file *)
Definition file_fd_pos (f : Z) : Z := f.
Definition file_fd_flag (f : Z) : Z := f + 4.
Definition file_fd_inode (f : Z) : Z := f + 8.
Definition sizeof_file : Z := 12.

Definition MAX_FILE_OPEN : Z := 32.
Definition SECTOR_SIZE : Z := 512.
Definition BLOCK_SIZE : Z := SECTOR_SIZE.

Inductive bitmap_type := INODE_BITMAP | BLOCK_BITMAP.

Section inode.
Context `{Symbols, Frames}.

(** ** fs/inode.c *)

Definition inode_locate (part inode_no : Z) : M inode_position :=
  ASSERT (inode_no <? 4096) "fs/inode.c" 9 "inode_locate" "inode_no < 4096" ;;
  let inode_size := sizeof_inode in
  sb <- ld32 (part_sb part);
  inode_table_lba <- ld32 (sb_inode_table_lba sb);
  let inode_sum_size := w32 (inode_no * inode_size) in
  let the_inode_start_lba := w32 (inode_table_lba + inode_sum_size / 512) in
  let left_inode_size := inode_sum_size mod 512 in
  ret (InodePosition (negb (512 - left_inode_size >? inode_size))
         the_inode_start_lba left_inode_size).

(** The sectors an inode is in, read into a buffer. *)
Definition inode_sects (pos : inode_position) : Z := if two_sec pos then 2 else 1.

Definition inode_sync (part inode io_buff : Z) : M unit :=
  i_no <- ld32 (inode_i_no inode);
  inode_pos <- inode_locate part i_no;
  start_lba <- ld32 (part_start_lba part);
  sector_counter <- ld32 (part_sector_counter part);
  ASSERT (sec_lba inode_pos <=? w32 (start_lba + sector_counter)) "fs/inode.c" 33 "inode_sync"
    "inode_pos.sec_lba <= (part->start_lba + part->sector_counter)" ;;
  memcpy fr_pure_inode inode sizeof_inode ;;
  st32 (inode_i_open_cnts fr_pure_inode) 0 ;;
  st32 (inode_write_deny fr_pure_inode) 0 ;;
  st32 (list_elem_next (inode_inode_tag fr_pure_inode)) 0 ;;
  st32 (list_elem_prev (inode_inode_tag fr_pure_inode)) 0 ;;
  let inode_buf := io_buff in
  my_disk <- ld32 (part_my_disk part);
  ide_read my_disk (sec_lba inode_pos) inode_buf (inode_sects inode_pos) ;;
  memcpy (inode_buf + off_size inode_pos) fr_pure_inode sizeof_inode ;;
  my_disk <- ld32 (part_my_disk part);
  ide_write my_disk (sec_lba inode_pos) inode_buf (inode_sects inode_pos).

(** Looking for an inode among the open ones; what is found is counted. *)
Definition find_open (part inode_no : Z) : Z → M (Z + option Z) :=
  λ tmp_elem,
    if negb (tmp_elem =? list_tail (part_open_inodes part)) then
      let curr_inode := inode_of_inode_tag tmp_elem in
      i_no <- ld32 (inode_i_no curr_inode);
      if i_no =? inode_no then
        cnt <- ld32 (inode_i_open_cnts curr_inode);
        st32 (inode_i_open_cnts curr_inode) (cnt + 1) ;;
        ret (inr (Some curr_inode))
      else
        tmp_elem <- ld32 (list_elem_next tmp_elem);
        ret (inl tmp_elem)
    else ret (inr None).

(** An inode comes from the kernel's memory whoever asks: the allocator goes
    by the page directory of the running thread, which is hidden meanwhile. *)
Definition as_kernel {A} (m : M A) : M A :=
  curr_prog <- running_thread;
  keep_pgdir <- ld32 (pcb_pgdir curr_prog);
  st32 (pcb_pgdir curr_prog) 0 ;;
  r <- m;
  st32 (pcb_pgdir curr_prog) keep_pgdir ;;
  ret r.

Definition inode_open (part inode_no : Z) : M Z :=
  tmp_elem <- ld32 (list_elem_next (list_head (part_open_inodes part)));
  found <- loop (find_open part inode_no) tmp_elem;
  match found with
  | Some curr_inode => ret curr_inode
  | None =>
      curr_inode <- as_kernel (sys_malloc sizeof_inode);
      inode_pos <- inode_locate part inode_no;
      io_buf <- (if two_sec inode_pos then
                   io_buf <- sys_malloc 1024;
                   my_disk <- ld32 (part_my_disk part);
                   ide_read my_disk (sec_lba inode_pos) io_buf 2 ;;
                   ret io_buf
                 else
                   io_buf <- sys_malloc 512;
                   my_disk <- ld32 (part_my_disk part);
                   ide_read my_disk (sec_lba inode_pos) io_buf 1 ;;
                   ret io_buf);
      memcpy curr_inode (io_buf + off_size inode_pos) sizeof_inode ;;
      list_append (part_open_inodes part) (inode_inode_tag curr_inode) ;;
      st32 (inode_i_open_cnts curr_inode) 1 ;;
      sys_free io_buf ;;
      ret curr_inode
  end.

(** Declared to return a pointer, it returns nothing. *)
Definition inode_close (inode : Z) : M unit :=
  old_status <- intr_disable;
  cnt <- ld32 (inode_i_open_cnts inode);
  st32 (inode_i_open_cnts inode) (cnt - 1) ;;
  cnt <- ld32 (inode_i_open_cnts inode);
  when (cnt =? 0)
    (list_remove (inode_inode_tag inode) ;;
     as_kernel (sys_free inode)) ;;
  intr_set_status old_status ;; ret tt.

Definition inode_init (inode_no new_inode : Z) : M unit :=
  st32 (inode_i_no new_inode) inode_no ;;
  st32 (inode_i_open_cnts new_inode) 0 ;;
  st32 (inode_i_size new_inode) 0 ;;
  st32 (inode_write_deny new_inode) 0 ;;
  for_ 0 13 (λ sec_idx, st32 (inode_i_sectors new_inode sec_idx) 0).

(** ** fs/file.c *)

Definition file_at (idx : Z) : Z := g_file_table + sizeof_file * idx.

(** The first free entry from [idx] on, or [limit]. *)
Definition free_slot (slot : Z → Z) (free limit : Z) : Z → M (Z + Z) :=
  λ idx,
    if idx <? limit then
      v <- ld32 (slot idx);
      if v =? free then ret (inr idx) else ret (inl (idx + 1))
    else ret (inr idx).

Definition get_free_slot_in_global : M Z :=
  idx <- loop (free_slot (λ idx, file_fd_inode (file_at idx)) 0 MAX_FILE_OPEN) 3;
  if idx =? MAX_FILE_OPEN then
    call_printk "exceed max open files\n" [] ;; ret (-1)
  else ret idx.

(** A free entry of [fd_table] holds -1. *)
Definition pcb_fd_install (global_fd_idx : Z) : M Z :=
  curr_prog <- running_thread;
  idx <- loop (free_slot (pcb_fd_table curr_prog) (w32 (-1))
                 MAX_FILES_OPEN_PER_PROC) 3;
  if idx =? MAX_FILES_OPEN_PER_PROC then
    call_printk "exceed max open file_per_proc\n" [] ;; ret (-1)
  else
    st32 (pcb_fd_table curr_prog idx) global_fd_idx ;;
    ret idx.

Definition inode_bitmap_alloc (part : Z) : M Z :=
  idx <- bitmap_scan (part_inode_bitmap part) 1;
  if idx =? -1 then ret (-1)
  else
    bitmap_set (part_inode_bitmap part) idx 1 ;;
    ret idx.

Definition block_bitmap_alloc (part : Z) : M Z :=
  idx <- bitmap_scan (part_block_bitmap part) 1;
  if idx =? -1 then ret (-1)
  else
    bitmap_set (part_block_bitmap part) idx 1 ;;
    sb <- ld32 (part_sb part);
    data_start_lba <- ld32 (sb_data_start_lba sb);
    ret (s32 (data_start_lba + idx)).

(** Both kinds write bits of the inode bitmap, and the inode bitmap's go where
    the inode table is. *)
Definition bitmap_sync (part bit_idx : Z) (btmp : bitmap_type) : M unit :=
  let off_sec := bit_idx / (SECTOR_SIZE * 8) in
  let off_size := w32 (BLOCK_SIZE * off_sec) in
  sb <- ld32 (part_sb part);
  dest <- match btmp with
          | INODE_BITMAP =>
              lba <- ld32 (sb_inode_table_lba sb);
              bits <- ld32 (bitmap_bits_of (part_inode_bitmap part));
              ret (w32 (lba + off_sec), w32 (bits + off_size))
          | BLOCK_BITMAP =>
              lba <- ld32 (sb_block_bitmap_lba sb);
              bits <- ld32 (bitmap_bits_of (part_inode_bitmap part));
              ret (w32 (lba + off_sec), w32 (bits + off_size))
          end;
  let '(sec_lba, bitmap_off) := (dest : Z * Z) in
  my_disk <- ld32 (part_my_disk part);
  ide_write my_disk sec_lba bitmap_off 1.

(** Declared but not written: the body is empty, and the value undefined. *)
Definition file_create (uninit parent_dir filename flag : Z) : M Z := ret uninit.

End inode.

(** ** Representation *)

(** Where inode [no] is, given the first sector of the table. *)
Definition inode_place (table no : Z) : inode_position :=
  InodePosition (512 - no * 76 mod 512 <=? 76) (table + no * 76 / 512) (no * 76 mod 512).

(** An open inode: its address, its number, how often it is open. *)
Definition open_inode (p : Z * Z * Z) : hPropI :=
  let '(x, no, cnt) := p in (inode_i_no x ↦w no ∗ inode_i_open_cnts x ↦w cnt)%I.

(** The open inodes of a partition, in the order of its list. *)
Definition open_inodes (part : Z) (ps : list (Z * Z * Z)) : hPropI :=
  (is_list (part_open_inodes part) ((λ p, inode_inode_tag p.1.1) <$> ps) ∗
   [∗ list] p ∈ ps, open_inode p)%I.

Section spec.
Context `{Symbols, Frames}.
Implicit Types (c : cpu).

Lemma inode_locate_wp part sb table no c (Φ : res inode_position → hPropI) :
  0 <= no < 4096 → 0 <= table ∧ table + 608 <= 2 ^ 32 →
  part_sb part ↦w sb -∗ sb_inode_table_lba sb ↦w table -∗
  (part_sb part ↦w sb -∗ sb_inode_table_lba sb ↦w table -∗
   Φ (RRet (inode_place table no) c)) -∗
  wp (inode_locate part no) c Φ.
Proof.
  iIntros (Hno Ht) "Hsb Hlba HΦ". rewrite /inode_locate.
  wp_bind. iApply wp_assert; [apply Z.ltb_lt; lia|]. wp_reduce. wp_ld "Hsb". wp_ld "Hlba".
  rewrite /sizeof_inode. rewrite (w32_small (no * 76)); [|lia].
  assert (0 <= no * 76 / 512 <= 607) by (Z.div_mod_to_equations; lia).
  rewrite w32_small; [|lia]. wp_pure. unfold inode_place. rewrite Z.gtb_ltb.
  rewrite Z.leb_antisym. iApply ("HΦ" with "Hsb Hlba").
Qed.

(** The search stops at the inode and counts it once more. *)
Lemma find_open_wp part x no cnt pre post a z c (Φ : res (option Z) → hPropI) :
  z = list_tail (part_open_inodes part) → Forall (λ p, p.1.2 ≠ no) pre →
  Klist.chain a ((λ p, inode_inode_tag p.1.1) <$> (pre ++ (x, no, cnt) :: post)) z -∗
  ([∗ list] p ∈ (pre ++ (x, no, cnt) :: post), open_inode p) -∗
  (Klist.chain a ((λ p, inode_inode_tag p.1.1) <$> (pre ++ (x, no, w32 (cnt + 1)) :: post)) z -∗
   ([∗ list] p ∈ (pre ++ (x, no, w32 (cnt + 1)) :: post), open_inode p) -∗
   Φ (RRet (Some x) c)) -∗
  wp_loop (find_open part no)
    (default z (head ((λ p, inode_inode_tag p.1.1) <$> (pre ++ (x, no, cnt) :: post)))) c Φ.
Proof.
  iIntros (-> Hpre) "HC HI HΦ".
  iInduction pre as [|[[y no'] cnt'] pre IH] forall (a Hpre); iApply wp_loop_step; simpl;
    iDestruct (chain_ne _ (_ :: _) with "HC") as %[Hne _]%not_elem_of_cons;
    rewrite /find_open (proj2 (Z.eqb_neq _ (list_tail (part_open_inodes part)))); [|by intros E|
      |by intros E].
  - iDestruct "HI" as "[[Hn Hc] HI]". wp_reduce.
    replace (inode_of_inode_tag (inode_inode_tag x)) with x
      by (unfold inode_of_inode_tag, inode_inode_tag; lia).
    wp_ld "Hn". rewrite Z.eqb_refl. wp_ld "Hc". wp_st "Hc". wp_pure.
    iApply ("HΦ" with "HC"). iFrame.
  - iDestruct "HI" as "[[Hn Hc] HI]". wp_reduce. apply Forall_cons in Hpre as [Hno Hpre].
    replace (inode_of_inode_tag (inode_inode_tag y)) with y
      by (unfold inode_of_inode_tag, inode_inode_tag; lia).
    wp_ld "Hn". rewrite (proj2 (Z.eqb_neq no' no)) //. iDestruct "HC" as "[Hlk HC]".
    wp_bind. iApply (wp_chain_next with "HC"). iIntros "HC". wp_reduce. wp_pure.
    iApply ("IH" with "[//] HC HI"). iIntros "HC HI". iApply ("HΦ" with "[$Hlk $HC] [$Hn $Hc $HI]").
Qed.

Lemma inode_open_again_wp part x no cnt pre post c (Φ : res Z → hPropI) :
  Forall (λ p, p.1.2 ≠ no) pre →
  open_inodes part (pre ++ (x, no, cnt) :: post) -∗
  (open_inodes part (pre ++ (x, no, w32 (cnt + 1)) :: post) -∗ Φ (RRet x c)) -∗
  wp (inode_open part no) c Φ.
Proof.
  iIntros (Hpre) "[(%Hr & H1 & H2 & HC) HI] HΦ". rewrite /inode_open.
  wp_bind. iApply (wp_chain_next with "HC"). iIntros "HC". wp_reduce.
  wp_bind. iApply wp_loop_start. iApply (find_open_wp with "HC HI"); [done|done|].
  iIntros "HC HI". wp_reduce. wp_pure. iApply "HΦ". iFrame. done.
Qed.

(** Closing an inode that stays open. *)
Lemma inode_close_again_wp part x no cnt pre post c (Φ : res unit → hPropI) :
  1 < cnt →
  open_inodes part (pre ++ (x, no, cnt) :: post) -∗
  (open_inodes part (pre ++ (x, no, cnt - 1) :: post) -∗ Φ (RRet tt c)) -∗
  wp (inode_close x) c Φ.
Proof.
  iIntros (Hcnt) "[HL HI] HΦ". rewrite /inode_close.
  iDestruct "HI" as "(HI1 & [Hn Hc] & HI2)". iDestruct (pt32_range with "Hc") as %Hrange.
  wp_bind. iApply wp_intr_disable. wp_reduce. wp_ld "Hc". wp_st "Hc". wp_ld "Hc".
  rewrite w32_small; [|lia]. rewrite (proj2 (Z.eqb_neq (cnt - 1) 0)); [|lia].
  wp_bind. iApply wp_when. wp_reduce. wp_bind. iApply wp_intr_restore. wp_reduce. wp_pure.
  iApply "HΦ". rewrite /open_inodes !fmap_app /=. iFrame.
Qed.

(** ** Properties *)

(** C29: Where an inode is looked for: in the sectors that are transferred, at the
    place that is its alone; they are sectors of the inode table, but for the
    last inode, for which one sector past the table is transferred too. *)
Theorem inode_locate_bounds part sb table no c :
  0 <= no < 4096 → 0 <= table ∧ table + 608 <= 2 ^ 32 →
  {{ part_sb part ↦w sb ∗ sb_inode_table_lba sb ↦w table }} (inode_locate part no) @ c
  {{ pos c', ⌜c' = c ∧ (512 * (sec_lba pos - table) + off_size pos = sizeof_inode * no ∧
              0 <= off_size pos ∧ off_size pos + sizeof_inode <= 512 * inode_sects pos ∧
              table <= sec_lba pos ∧
              (no < 4095 → sec_lba pos + inode_sects pos <= table + 608) ∧
              (no = 4095 → sec_lba pos + inode_sects pos = table + 609))%Z⌝ ∗
             part_sb part ↦w sb ∗ sb_inode_table_lba sb ↦w table }}.
Proof.
  intros Hno Ht. apply triple_wp. iIntros "[Hsb Hlba]".
  iApply (inode_locate_wp with "Hsb Hlba"); [done|done|]. iIntros "Hsb Hlba /=". iFrame.
  iPureIntro. unfold inode_sects, sizeof_inode, inode_place. simpl.
  destruct (Z.leb_spec (512 - no * 76 mod 512) 76);
    Z.div_mod_to_equations; split_and!; (done || lia).
Qed.

(** C25: An inode that is open is opened again without the disk: every opener gets
    the same one, and closing it as often leaves it as it was. *)
Theorem inode_open_close_counts part x no cnt pre post c :
  Forall (λ p, p.1.2 ≠ no) pre → 1 <= cnt < 2 ^ 32 - 1 →
  {{ open_inodes part (pre ++ (x, no, cnt) :: post) }}
    (i <- inode_open part no; cnt <- ld32 (inode_i_open_cnts i); inode_close i ;; ret (i, cnt)) @ c
  {{ r c', ⌜r = (x, (cnt + 1)%Z) ∧ c' = c⌝ ∗ open_inodes part (pre ++ (x, no, cnt) :: post) }}.
Proof.
  intros Hpre Hcnt. apply triple_wp. iIntros "HI". wp_bind.
  iApply (inode_open_again_wp with "HI"); [done|]. iIntros "HI". wp_reduce.
  rewrite w32_small; [|lia]. iDestruct "HI" as "(HL & HI1 & [Hn Hc] & HI2)". wp_ld "Hc".
  wp_bind. iApply (inode_close_again_wp part x no (cnt + 1) pre post with "[HL HI1 Hn Hc HI2]");
    [lia|iFrame|]. iIntros "HI". wp_reduce. wp_pure. simpl.
  replace (cnt + 1 - 1) with cnt by lia. by iFrame.
Qed.

(** A new block is the lowest free one of the partition, by its sector on the
    disk, and is marked; a full map gives -1 and is left alone. *)
Theorem block_bitmap_alloc_lowest part sb base addr bs c :
  0 <= base → base + bits_of bs < 2 ^ 31 →
  {{ is_bitmap (part_block_bitmap part) addr bs ∗ part_sb part ↦w sb ∗
     sb_data_start_lba sb ↦w base }}
    (block_bitmap_alloc part) @ c
  {{ r c', ⌜c' = c ∧ r = from_option (λ i, (base + i)%Z) (-1) (first_free bs)⌝ ∗
           is_bitmap (part_block_bitmap part) addr
             (from_option (λ i, bm_set bs i true) bs (first_free bs)) ∗
           part_sb part ↦w sb ∗ sb_data_start_lba sb ↦w base }}.
Proof.
  intros Hb Hbs. apply triple_wp. iIntros "(HB & Hsb & Hlba)". rewrite /block_bitmap_alloc.
  wp_bind. iApply (bitmap_scan_one_wp with "HB"). iIntros "HB". wp_reduce.
  destruct (first_free bs) as [i|] eqn:Ei; simpl.
  - destruct (first_free_Some _ _ Ei) as (Hi & _).
    rewrite (proj2 (Z.eqb_neq i (-1))); [|lia]. wp_reduce.
    wp_bind. iApply (bitmap_set_wp _ _ _ i true with "HB"); [done|]. iIntros "HB". wp_reduce.
    wp_ld "Hsb". wp_ld "Hlba". wp_pure. rewrite s32_small; [|lia]. by iFrame.
  - wp_pure. by iFrame.
Qed.

End spec.

(** ** Witnesses *)

#[local] Existing Instance link_map.
#[local] Existing Instance demo_frames.

Lemma inode_locate_bounds_witness :
  ∃ r h', exec (inode_locate 0xc0040000 4095) cpu0
      (mem_of [(part_sb 0xc0040000, word_bytes 0xc0041000);
               (sb_inode_table_lba 0xc0041000, word_bytes 70)]) r h' ∧
    h' ⊨ (returns (λ pos c', ⌜(sec_lba pos + inode_sects pos)%Z = 679⌝)%I r).
Proof.
  edestruct (triple_run _ _ _ _ (mem_of [(part_sb 0xc0040000, word_bytes 0xc0041000);
               (sb_inode_table_lba 0xc0041000, word_bytes 70)])
    (inode_locate_bounds 0xc0040000 0xc0041000 70 4095 cpu0 ltac:(lia) ltac:(lia)))
    as (r & h' & Hx & Hq).
  - eapply models_mono; [|apply mem_of_models; vm_compute; reflexivity].
    rewrite !cells_word //. iIntros "($ & $ & _)".
  - exists r, h'. split; [done|]. eapply models_mono; [|apply Hq].
    destruct r as [pos c'|?|?|? ?]; simpl; [|by iIntros "[]"..]. iIntros "(%Hr & _)". iPureIntro.
    destruct Hr as (_ & _ & _ & _ & _ & _ & Hr). by rewrite Hr.
Defined.

(** Two open inodes, 5 and 9. *)
Definition demo_inodes : list (Z * list Z) :=
  list_cells (part_open_inodes 0xc0040000)
    [inode_inode_tag 0xc0101000; inode_inode_tag 0xc0102000] ++
  [(inode_i_no 0xc0101000, word_bytes 5); (inode_i_open_cnts 0xc0101000, word_bytes 1);
   (inode_i_no 0xc0102000, word_bytes 9); (inode_i_open_cnts 0xc0102000, word_bytes 2)].

Lemma inode_open_close_counts_witness :
  ∃ r h', exec (i <- inode_open 0xc0040000 9; cnt <- ld32 (inode_i_open_cnts i);
                inode_close i ;; ret (i, cnt))%prog cpu0 (mem_of demo_inodes) r h' ∧
    h' ⊨ (returns (λ r c', ⌜r = (0xc0102000, 3) ∧ c' = cpu0⌝ ∗
            open_inodes 0xc0040000 ([(0xc0101000, 5, 1)] ++ [(0xc0102000, 9, 2)]))%I r).
Proof.
  eapply triple_run.
  - apply (inode_open_close_counts 0xc0040000 0xc0102000 9 2 [(0xc0101000, 5, 1)] [] cpu0);
      [by repeat constructor|lia].
  - eapply models_mono; [|apply mem_of_models; vm_compute; reflexivity].
    unfold demo_inodes. rewrite cells_app list_cells_models; [|vm_compute; reflexivity..].
    repeat (rewrite cells_word; [|done]). iIntros "($ & $ & $ & $ & $ & _)". by rewrite !big_sepL_nil; iSplit.
Defined.

(** Blocks 0 to 9 taken. *)
Lemma block_bitmap_alloc_lowest_witness :
  ∃ r h', exec (block_bitmap_alloc 0xc0040000) cpu0
      (mem_of [(bitmap_len_of (part_block_bitmap 0xc0040000), word_bytes 2);
               (bitmap_bits_of (part_block_bitmap 0xc0040000), word_bytes 0xc0050000);
               (0xc0050000, [255; 3]);
               (part_sb 0xc0040000, word_bytes 0xc0041000);
               (sb_data_start_lba 0xc0041000, word_bytes 1216)]) r h' ∧
    h' ⊨ (returns (λ r c', ⌜c' = cpu0 ∧ r = 1226⌝ ∗
            is_bitmap (part_block_bitmap 0xc0040000) 0xc0050000 [255; 7] ∗
            part_sb 0xc0040000 ↦w 0xc0041000 ∗ sb_data_start_lba 0xc0041000 ↦w 1216)%I r).
Proof.
  eapply triple_run.
  - apply (block_bitmap_alloc_lowest 0xc0040000 0xc0041000 1216 0xc0050000 [255; 3] cpu0);
      [lia|vm_compute; reflexivity].
  - eapply models_mono; [|apply mem_of_models; vm_compute; reflexivity].
    do 2 (rewrite cells_word; [|done]). rewrite cells_cons. do 2 (rewrite cells_word; [|done]).
    iIntros "(Hl & Hb & Hbs & Hs & Hd & _)".
    iSplitL "Hl Hb Hbs"; [|iSplitL "Hs"; [iExact "Hs"|iExact "Hd"]].
    iSplitR; [iPureIntro; reflexivity|]. iSplitL "Hl"; [iExact "Hl"|].
    iSplitL "Hb"; [iExact "Hb"|iExact "Hbs"].
Defined.
