(* ===== verification/Storage.v ===== *)
(** fs/inode.c on the disk: what [inode_sync] makes of the inode table, the disk
    being driven through device/ide.c. *)
From S2P Require Export Inode Transfer.

(** ** Disks *)

(** A disk as its bytes, by their offset from the first sector. *)
Definition image := Z → Z.

Definition sectors_of (d : image) (lba n : Z) : list Z := d <$> seqZ (512 * lba) (512 * n).

(** [bs] written at offset [a]. *)
Definition put_bytes (d : image) (a : Z) (bs : list Z) : image :=
  λ x, default (d x) (if decide (a <= x) then bs !! Z.to_nat (x - a) else None).

Definition bytes_of (d : image) (a n : Z) : list Z := d <$> seqZ a n.

Lemma length_sectors_of d lba n :
  0 <= n → Z.of_nat (length (sectors_of d lba n)) = 512 * n.
Proof. intros Hn. rewrite /sectors_of length_fmap length_seqZ. lia. Qed.

(** Writing inside some sectors is replacing a part of them. *)
Lemma sectors_of_put d lba n o bs :
  0 <= o → o + Z.of_nat (length bs) <= 512 * n →
  sectors_of (put_bytes d (512 * lba + o) bs) lba n =
  take (Z.to_nat o) (sectors_of d lba n) ++ bs ++
  drop (Z.to_nat o + length bs) (sectors_of d lba n).
Proof.
  intros Ho Hn. apply list_eq. intros j. unfold sectors_of.
  set (l := seqZ (512 * lba) (512 * n)).
  assert (∀ f : image, ∀ j, (f <$> l) !! j =
    if decide (Z.of_nat j < 512 * n) then Some (f (512 * lba + Z.of_nat j)) else None) as Hl.
  { intros f k. rewrite list_lookup_fmap. subst l. case_decide.
    - rewrite lookup_seqZ_lt; [done|lia].
    - rewrite lookup_seqZ_ge; [done|lia]. }
  rewrite Hl. unfold put_bytes.
  destruct (decide (Z.of_nat j < o)) as [Hj|Hj].
  - rewrite lookup_app_l; [|rewrite length_take length_fmap length_seqZ; lia].
    rewrite lookup_take_lt; [|lia]. rewrite Hl. case_decide; [|done]. rewrite decide_False; [done|lia].
  - rewrite lookup_app_r; [|rewrite length_take length_fmap length_seqZ; lia].
    rewrite length_take length_fmap length_seqZ Nat.min_l; [|lia].
    destruct (decide (Z.of_nat j < o + Z.of_nat (length bs))) as [Hb|Hb].
    + rewrite lookup_app_l; [|lia]. rewrite !decide_True; [|lia..].
      replace (Z.to_nat (512 * lba + j - (512 * lba + o))) with (j - Z.to_nat o)%nat by lia.
      destruct (lookup_lt_is_Some_2 bs (j - Z.to_nat o)) as [b ->]; [lia|done].
    + rewrite lookup_app_r; [|lia]. rewrite lookup_drop Hl.
      replace (Z.of_nat (Z.to_nat o + length bs + (j - Z.to_nat o - length bs))) with (Z.of_nat j) by lia.
      case_decide; [|done]. rewrite decide_True; [|lia].
      rewrite lookup_ge_None_2; [done|lia].
Qed.

(** What is written is there, and nothing else changes. *)
Lemma bytes_of_put d a bs : bytes_of (put_bytes d a bs) a (Z.of_nat (length bs)) = bs.
Proof.
  apply list_eq_same_length with (length bs); [done|rewrite /bytes_of length_fmap length_seqZ; lia|].
  intros j x y Hj Hx Hy. apply list_lookup_fmap_Some in Hx as (z & -> & [-> _]%lookup_seqZ).
  unfold put_bytes. rewrite decide_True; [|lia].
  replace (Z.to_nat (a + j - a)) with j by lia. by rewrite Hy.
Qed.

Lemma bytes_of_put_apart d a bs b n :
  b + n <= a ∨ a + Z.of_nat (length bs) <= b → bytes_of (put_bytes d a bs) b n = bytes_of d b n.
Proof.
  intros Hab. apply list_fmap_ext. intros j x [-> Hj]%lookup_seqZ. unfold put_bytes.
  case_decide; [|done]. rewrite lookup_ge_None_2; [done|lia].
Qed.

(** ** Inodes as bytes *)

Record node := Node {
  n_no : Z; n_size : Z; n_open_cnts : Z; n_write_deny : Z;
  n_sectors : list Z;   (* the bytes of the 13 sector numbers *)
  n_prev : Z; n_next : Z
}.
Definition node_ok (x : node) : Prop :=
  Forall word_ok [n_no x; n_size x; n_open_cnts x; n_write_deny x; n_prev x; n_next x] ∧
  length (n_sectors x) = 52%nat.

Definition node_bytes (x : node) : list Z :=
  word_bytes (n_no x) ++ word_bytes (n_size x) ++ word_bytes (n_open_cnts x) ++
  word_bytes (n_write_deny x) ++ n_sectors x ++ word_bytes (n_prev x) ++ word_bytes (n_next x).

(** What goes to the disk: not who has it open. *)
Definition pure_node (x : node) : node := Node (n_no x) (n_size x) 0 0 (n_sectors x) 0 0.

Lemma length_node_bytes x : node_ok x → length (node_bytes x) = 76%nat.
Proof. intros [_ Hl]. unfold node_bytes. rewrite !length_app Hl. done. Qed.

Lemma pure_node_ok x : node_ok x → node_ok (pure_node x).
Proof.
  intros [Hw Hl]. split; [|done]. do 2 apply Forall_cons in Hw as [? Hw].
  repeat constructor; unfold word_ok in *; simpl in *; lia.
Qed.

Lemma node_bytes_fields a x :
  node_ok x →
  a ↦∗ node_bytes x ⊣⊢
  inode_i_no a ↦w n_no x ∗ inode_i_size a ↦w n_size x ∗ inode_i_open_cnts a ↦w n_open_cnts x ∗
  inode_write_deny a ↦w n_write_deny x ∗ (a + 16) ↦∗ n_sectors x ∗
  list_elem_prev (inode_inode_tag a) ↦w n_prev x ∗ list_elem_next (inode_inode_tag a) ↦w n_next x.
Proof.
  intros [Hw Hl]. do 6 apply Forall_cons in Hw as [? Hw]. unfold word_ok in *.
  unfold node_bytes. rewrite !bytes_app !bytes_word // Hl. cbn [length word_bytes].
  unfold inode_i_no, inode_i_size, inode_i_open_cnts, inode_write_deny, inode_inode_tag,
    list_elem_prev, list_elem_next.
  replace (a + 4%nat + 4%nat + 4%nat + 4%nat) with (a + 16) by lia.
  replace (a + 4%nat + 4%nat + 4%nat) with (a + 12) by lia.
  replace (a + 4%nat + 4%nat) with (a + 8) by lia.
  replace (a + 4%nat) with (a + 4) by lia.
  replace (a + 16 + 52%nat + 4%nat) with (a + 68 + 4) by lia.
  replace (a + 16 + 52%nat) with (a + 68) by lia. done.
Qed.

(** ** Writing an inode back *)

Section sync.
Context `{Symbols, Frames}.
Implicit Types (c : cpu).

Context (me idle hd i dev base part sb table start count : Z).
Hypothesis Hi : 0 <= i < 2.
Hypothesis Hb : ata_base base.
Hypothesis Hdev : 0 <= dev < 2.
Hypothesis Hg : 0 < g_ide_channels.
Hypothesis Htable : 0 <= table ∧ table + 608 <= max_lba.
Hypothesis Hpart : table + 608 <= start + count < 2 ^ 32.

(** The partition, on the disk [hd], with its inode table. *)
Definition partition_at : hPropI :=
  (part_start_lba part ↦w start ∗ part_sector_counter part ↦w count ∗
   part_my_disk part ↦w hd ∗ part_sb part ↦w sb ∗ sb_inode_table_lba sb ↦w table)%I.

(** Where inode [no] is, in bytes. *)
Definition inode_slot (no : Z) : Z := 512 * table + sizeof_inode * no.

#[local] Abbreviation place no := (inode_place table no).
#[local] Abbreviation sects no := (inode_sects (inode_place table no)).

Lemma place_slot no :
  0 <= no < 4096 →
  inode_slot no = 512 * sec_lba (place no) + off_size (place no) ∧
  0 <= off_size (place no) ∧ off_size (place no) + 76 <= 512 * sects no ∧
  table <= sec_lba (place no) ∧ sec_lba (place no) + sects no <= table + 609 ∧ 1 <= sects no <= 2.
Proof.
  clear -table. intros Hno. unfold inode_slot, inode_sects, sizeof_inode, inode_place. cbn [two_sec sec_lba off_size].
  destruct (Z.leb_spec (512 - no * 76 mod 512) 76); Z.div_mod_to_equations; split_and!; lia.
Qed.

(** The copy that goes to the disk. *)
Lemma pure_node_wp x inode junk k c (Φ : res unit → hPropI) :
  node_ok x → inode ≠ 0 → fr_pure_inode ≠ 0 → length junk = 76%nat → stays Φ →
  inode ↦∗ node_bytes x -∗ fr_pure_inode ↦∗ junk -∗
  (inode ↦∗ node_bytes x -∗ fr_pure_inode ↦∗ node_bytes (pure_node x) -∗
   wpi me (idle_turn (0x2e + i)) k c Φ) -∗
  wpi me (idle_turn (0x2e + i))
    (memcpy fr_pure_inode inode sizeof_inode ;;
     st32 (inode_i_open_cnts fr_pure_inode) 0 ;;
     st32 (inode_write_deny fr_pure_inode) 0 ;;
     st32 (list_elem_next (inode_inode_tag fr_pure_inode)) 0 ;;
     st32 (list_elem_prev (inode_inode_tag fr_pure_inode)) 0 ;; k) c Φ.
Proof.
  iIntros (Hx Hn Hf Hl Hs) "Hi Hj HΦ". pose proof (length_node_bytes x Hx) as Hlx.
  wpi_bind. iApply (memcpy_wp with "Hi Hj"); [done|done|by rewrite Hlx|by rewrite Hlx|].
  iIntros "Hi Hj". wpi_reduce. rewrite (node_bytes_fields fr_pure_inode x) //.
  iDestruct "Hj" as "(H1 & H2 & H3 & H4 & H5 & H6 & H7)".
  wpi_st "H3". wpi_st "H4". wpi_st "H7". wpi_st "H6". iApply ("HΦ" with "Hi").
  rewrite (node_bytes_fields _ (pure_node x)); [|by apply pure_node_ok]. iFrame.
Qed.

(** The sectors of an inode are one command. *)
Lemma chunks_sects lba n : 1 <= n <= 2 → chunks lba n = [(lba, n)].
Proof. intros Hn. rewrite chunks_cons; [|lia]. rewrite Z.min_r; [|lia]. by rewrite Z.sub_diag. Qed.

(** A part of a block replaced by a copy. *)
Lemma splice_wp buf o bs src pre c (Φ : res unit → hPropI) :
  0 <= o → o + Z.of_nat (length pre) <= Z.of_nat (length bs) → 0 < buf → src ≠ 0 →
  buf ↦∗ bs -∗ src ↦∗ pre -∗
  (src ↦∗ pre -∗
   buf ↦∗ (take (Z.to_nat o) bs ++ pre ++ drop (Z.to_nat o + length pre) bs) -∗ Φ (RRet tt c)) -∗
  wp (memcpy (buf + o) src (Z.of_nat (length pre))) c Φ.
Proof.
  iIntros (Ho Hl Hb0 Hs) "Hbuf Hs HΦ".
  rewrite -{1}(take_drop (Z.to_nat o) bs) -{1}(take_drop (length pre) (drop (Z.to_nat o) bs)).
  rewrite !bytes_app drop_drop !length_take length_drop !Nat.min_l; [|lia..].
  rewrite Z2Nat.id //. iDestruct "Hbuf" as "(H1 & H2 & H3)".
  iApply (memcpy_wp with "Hs H2"); [lia|done|done|rewrite length_take length_drop; lia|].
  iIntros "Hs H2". iApply ("HΦ" with "Hs"). iFrame.
Qed.

Lemma inode_sync_wpi x inode buf t d junk pjunk l rest c (Φ : res unit → hPropI) :
  let no := n_no x in
  let lba := sec_lba (place no) in
  let d' := put_bytes d (inode_slot no) (node_bytes (pure_node x)) in
  node_ok x → 0 <= no < 4096 → inode ≠ 0 → fr_pure_inode ≠ 0 →
  0 < buf ∧ buf + 1024 <= 2 ^ 32 →
  Z.of_nat (length junk) = 512 * sects no → length pjunk = 76%nat →
  on_stack me c → delivers (chunks lba (sects no)) (inputs c) (sectors_of d lba (sects no)) l →
  accepts (chunks lba (sects no)) l rest → stays Φ →
  partition_at -∗ inode ↦∗ node_bytes x -∗ fr_pure_inode ↦∗ pjunk -∗
  disk_ready me idle hd i dev base t -∗ buf ↦∗ junk -∗
  (∀ c', ⌜on_stack me c' ∧ ∃ a, drove base c c' rest a ∧
            a_sent a = a_sent (controller base c) ++ sectors_of d' lba (sects no) ∧
            a_requests a = a_requests (controller base c) ++
              [Request CMD_READ_SECTOR dev lba (sects no);
               Request CMD_WRITE_SECTOR dev lba (sects no)]⌝ -∗
     partition_at -∗ inode ↦∗ node_bytes x -∗ fr_pure_inode ↦∗ node_bytes (pure_node x) -∗
     disk_ready me idle hd i dev base t -∗ buf ↦∗ sectors_of d' lba (sects no) -∗ Φ (RRet tt c')) -∗
  wpi me (idle_turn (0x2e + i)) (inode_sync part inode buf) c Φ.
Proof.
  iIntros (no lba d' Hx Hno Hn Hf Hbuf Hj Hpj Hc Hdel Hacc Hs) "(Hst & Hct & Hdk & Hsb & Htb) Hx Hpj HR Hbuf HΦ".
  destruct (place_slot no Hno) as (Hslot & Ho & Ho2 & Hl1 & Hl2 & Hn2). fold lba in Hslot, Hl1, Hl2.
  rewrite /inode_sync. iEval (rewrite node_bytes_fields //) in "Hx".
  iDestruct "Hx" as "[Hno Hx]". wpi_ld "Hno". fold no.
  iAssert (inode ↦∗ node_bytes x)%I with "[Hno Hx]" as "Hx"; [rewrite node_bytes_fields //; iFrame|].
  wpi_bind. iApply (inode_locate_wp with "Hsb Htb"); [done|lia|]. iIntros "Hsb Htb". wpi_reduce.
  wpi_ld "Hst". wpi_ld "Hct".
  wpi_bind. iApply wp_assert; [apply Z.leb_le; rewrite w32_small; change (2 ^ 32) with 4294967296 in Hpart; fold lba; lia|].
  wpi_reduce. iApply (pure_node_wp with "Hx Hpj"); [done..|]. iIntros "Hx Hp".
  wpi_ld "Hdk". fold lba. iApply wpi_bind.
  iApply (ide_read_wpi me idle hd i dev base lba buf (sects no) with "HR Hbuf");
    [done|done|done|done|lia|lia|lia|done|done|done|auto|].
  iIntros (c1 (Hc1 & a1 & Hd1 & As1 & Ar1)) "HR Hbuf". wpi_reduce.
  pose proof (length_node_bytes _ (pure_node_ok _ Hx)) as Hlp.
  replace sizeof_inode with (Z.of_nat (length (node_bytes (pure_node x)))) by (by rewrite Hlp).
  wpi_bind.
  iApply (splice_wp with "Hbuf Hp"); [lia| |lia|done|].
  { pose proof (length_sectors_of d lba (sects no)). lia. }
  iIntros "Hp Hbuf". wpi_reduce. wpi_ld "Hdk".
  rewrite -sectors_of_put; [|lia..]. rewrite -Hslot. fold d'.
  iApply (ide_write_wpi me idle hd i dev base lba buf (sects no) with "HR Hbuf");
    [done|done|done|done|lia|lia|lia|done| |apply length_sectors_of; lia|done|].
  { destruct Hd1 as (_ & _ & -> & _). done. }
  iIntros (c2 (Hc2 & a2 & Hd2 & As2 & Ar2)) "HR Hbuf".
  iApply ("HΦ" with "[%] [$Hst $Hct $Hdk $Hsb $Htb] Hx Hp HR Hbuf"). split; [done|].
  exists a2. split; [by eapply drove_trans|]. destruct Hd1 as (_ & _ & _ & E1).
  rewrite As2 Ar2 E1 As1 Ar1 app_nil_r -app_assoc /chunk_requests chunks_sects //.
Qed.

(** C19: Writing an inode back changes its slot of the inode table, and nothing
    else: the sectors that hold it are read and written, with the bytes of the
    inode in its slot, its openers left out, and the slots of the other inodes
    as they were; in memory the inode is unchanged. *)
Theorem inode_sync_updates_slot x inode buf t d junk pjunk l rest c :
  let no := n_no x in
  let lba := sec_lba (place no) in
  node_ok x → 0 <= no < 4096 → inode ≠ 0 → fr_pure_inode ≠ 0 →
  0 < buf ∧ buf + 1024 <= 2 ^ 32 →
  Z.of_nat (length junk) = 512 * sects no → length pjunk = 76%nat →
  on_stack me c → delivers (chunks lba (sects no)) (inputs c) (sectors_of d lba (sects no)) l →
  accepts (chunks lba (sects no)) l rest →
  {{ partition_at ∗ inode ↦∗ node_bytes x ∗ fr_pure_inode ↦∗ pjunk ∗
     disk_ready me idle hd i dev base t ∗ buf ↦∗ junk }}
    (interleave me (idle_turn (0x2e + i)) (inode_sync part inode buf)) @ c
  {{ r c', ∃ d' : image,
       ⌜inputs c' = rest ∧
        a_requests (controller base c') = a_requests (controller base c) ++
          [Request CMD_READ_SECTOR dev lba (sects no);
           Request CMD_WRITE_SECTOR dev lba (sects no)] ∧
        a_sent (controller base c') = a_sent (controller base c) ++ sectors_of d' lba (sects no) ∧
        bytes_of d' (inode_slot no) sizeof_inode = node_bytes (pure_node x) ∧
        (∀ no', no' ≠ no → bytes_of d' (inode_slot no') sizeof_inode = bytes_of d (inode_slot no') sizeof_inode)⌝ ∗
       partition_at ∗ inode ↦∗ node_bytes x ∗ disk_ready me idle hd i dev base t }}.
Proof.
  intros no lba Hx Hno Hn Hf Hbuf Hj Hpj Hc Hdel Hacc. apply triple_wp.
  iIntros "(HP & Hx & Hp & HR & Hbuf)". iEval (rewrite -/(wpi _ _ _ _ _)).
  iApply (inode_sync_wpi x inode buf t d with "HP Hx Hp HR Hbuf"); [done..|auto|].
  iIntros (c' (Hc' & a & (_ & _ & Hin & Hct) & Has & Har)) "HP Hx _ HR _". cbn [returns].
  iExists _. iFrame. rewrite Hct. iPureIntro.
  pose proof (length_node_bytes _ (pure_node_ok _ Hx)) as Hl.
  split_and!; [done|done|done| |].
  - unfold sizeof_inode. rewrite -{2}(bytes_of_put d (inode_slot no) (node_bytes (pure_node x))) Hl //.
  - intros no' Hne. apply bytes_of_put_apart. rewrite Hl. unfold inode_slot, sizeof_inode in *. lia.
Qed.

End sync.

(** ** Writing a bitmap back *)

Section bitmaps.
Context `{Symbols, Frames}.
Implicit Types (c : cpu).

Context (me idle hd i dev base part sb table blocks bits : Z).
Hypothesis Hi : 0 <= i < 2.
Hypothesis Hb : ata_base base.
Hypothesis Hdev : 0 <= dev < 2.
Hypothesis Hg : 0 < g_ide_channels.

(** Where [bitmap_sync] starts counting sectors: the inode table for the inode bitmap. *)
Definition sync_lba (btmp : bitmap_type) : Z :=
  match btmp with INODE_BITMAP => table | BLOCK_BITMAP => blocks end.

Definition bitmaps_at : hPropI :=
  (part_sb part ↦w sb ∗ sb_inode_table_lba sb ↦w table ∗ sb_block_bitmap_lba sb ↦w blocks ∗
   bitmap_bits_of (part_inode_bitmap part) ↦w bits ∗ part_my_disk part ↦w hd)%I.

Lemma bitmap_sync_wpi btmp n t data rest c (Φ : res unit → hPropI) :
  let s := n / 4096 in
  0 <= n → 0 <= sync_lba btmp → sync_lba btmp + s <= max_lba →
  0 <= bits → bits + 512 * s + 512 <= 2 ^ 32 → length data = 512%nat →
  on_stack me c → accepts (chunks (sync_lba btmp + s) 1) (inputs c) rest → stays Φ →
  bitmaps_at -∗ (bits + 512 * s) ↦∗ data -∗ disk_ready me idle hd i dev base t -∗
  (∀ c', ⌜transferred me dev base (sync_lba btmp + s) 1 c c' rest data CMD_WRITE_SECTOR⌝ -∗
     bitmaps_at -∗ (bits + 512 * s) ↦∗ data -∗ disk_ready me idle hd i dev base t -∗
     Φ (RRet tt c')) -∗
  wpi me (idle_turn (0x2e + i)) (bitmap_sync part n btmp) c Φ.
Proof.
  iIntros (s Hn Hl0 Hl Hb0 Hb1 Hd Hc Hacc Hs) "(Hsb & Htb & Hbl & Hbi & Hdk) HD HR HΦ".
  assert (0 <= s) as Hs0 by (apply Z.div_pos; lia).
  assert (sync_lba btmp + s < 2 ^ 32) as Hl32.
  { assert (max_lba < 2 ^ 32) by (vm_compute; reflexivity). lia. }
  rewrite /bitmap_sync. change (SECTOR_SIZE * 8) with 4096. fold s. change BLOCK_SIZE with 512.
  rewrite (w32_small (512 * s)); [|lia]. wpi_ld "Hsb".
  destruct btmp; unfold sync_lba in *; wpi_bind; [wp_ld "Htb"|wp_ld "Hbl"]; wp_ld "Hbi".
  all: iApply wp_ret; wpi_reduce; rewrite !w32_small; [|lia..]; wpi_ld "Hdk".
  all: iApply (ide_write_wpi me idle hd i dev base _ (bits + 512 * s) 1 with "HR HD");
    [done|done|done|done|lia|lia|lia|done|done|by rewrite Hd|done|].
  all: iIntros (c' Hc') "HR HD";
    iApply ("HΦ" with "[//] [$Hsb $Htb $Hbl $Hbi $Hdk] HD HR").
Qed.

(** C40: [bitmap_sync] writes one sector, and not the one its name says: for the
    inode bitmap it goes over the inode table, and for the block bitmap too what
    is written is the bits of the inode bitmap. *)
Theorem bitmap_sync_writes_inode_bits btmp n t data rest c :
  let s := n / 4096 in
  0 <= n → 0 <= sync_lba btmp → sync_lba btmp + s <= max_lba →
  0 <= bits → bits + 512 * s + 512 <= 2 ^ 32 → length data = 512%nat →
  on_stack me c → accepts (chunks (sync_lba btmp + s) 1) (inputs c) rest →
  {{ bitmaps_at ∗ (bits + 512 * s) ↦∗ data ∗ disk_ready me idle hd i dev base t }}
    (interleave me (idle_turn (0x2e + i)) (bitmap_sync part n btmp)) @ c
  {{ r c', ⌜inputs c' = rest ∧ a_sent (controller base c') = a_sent (controller base c) ++ data ∧
            a_requests (controller base c') = a_requests (controller base c) ++
              [Request CMD_WRITE_SECTOR dev
                 (match btmp with INODE_BITMAP => table | BLOCK_BITMAP => blocks end + s) 1]⌝ ∗
           bitmaps_at ∗ (bits + 512 * s) ↦∗ data ∗ disk_ready me idle hd i dev base t }}.
Proof.
  intros. apply triple_wp. iIntros "(HB & HD & HR)". iEval (rewrite -/(wpi _ _ _ _ _)).
  iApply (bitmap_sync_wpi with "HB HD HR"); [done..|auto|].
  iIntros (c' (_ & a & (_ & _ & Hin & Ea) & As & Ar)) "HB HD HR". cbn [returns]. iFrame. iPureIntro.
  rewrite Ea As Ar /chunk_requests chunks_sects //.
Qed.

End bitmaps.

(** ** Example: inode 5 of an empty table *)

#[local] Existing Instance link_map.
#[local] Existing Instance demo_frames.

Definition demo_part : Z := 0xc0060000.
Definition demo_sb : Z := 0xc0061000.
Definition demo_node : node := Node 5 1024 2 0 (replicate 52 1) 0xc0070000 0xc0071000.
Definition empty_image : image := λ _, 0.
Definition cpu_sync : cpu :=
  set_inputs (0x50 :: 0x80 :: 0x50 :: 0x58 :: replicate 512 0 ++ [0x80; 0x50; 0x58; 0x50]) cpu_a.

Definition demo_sync : list (Z * list Z) :=
  demo_disk ++
  [(part_start_lba demo_part, word_bytes 63); (part_sector_counter demo_part, word_bytes 20000);
   (part_my_disk demo_part, word_bytes demo_hd); (part_sb demo_part, word_bytes demo_sb);
   (sb_inode_table_lba demo_sb, word_bytes 100);
   (0xc0062000, node_bytes demo_node); (fr_pure_inode, replicate 76 9); (0xc0050000, replicate 512 9)].

Lemma demo_node_ok : node_ok demo_node.
Proof. split; [repeat constructor; vm_compute; congruence|reflexivity]. Qed.

Lemma demo_sync_models :
  cells demo_sync ⊢
  partition_at demo_hd demo_part demo_sb 100 63 20000 ∗ 0xc0062000 ↦∗ node_bytes demo_node ∗
  fr_pure_inode ↦∗ replicate 76 9 ∗
  disk_ready 0xc009e000 0xc0102000 demo_hd 0 1 0x1f0 7 ∗ 0xc0050000 ↦∗ replicate 512 9.
Proof.
  unfold demo_sync. rewrite cells_app demo_disk_models.
  iIntros "[(HL & HD & HP & Ht) H]". do 5 (iEval (rewrite cells_word; [|done]) in "H").
  iDestruct "H" as "(H1 & H2 & H3 & H4 & H5 & H)".
  iEval (do 3 rewrite cells_cons) in "H". iDestruct "H" as "(Hn & Hf & Hb & _)".
  iSplitL "H1 H2 H3 H4 H5".
  { iSplitL "H1"; [iExact "H1"|]. iSplitL "H2"; [iExact "H2"|]. iSplitL "H3"; [iExact "H3"|].
    iSplitL "H4"; [iExact "H4"|iExact "H5"]. }
  iSplitL "Hn"; [iExact "Hn"|]. iSplitL "Hf"; [iExact "Hf"|]. iSplitR "Hb"; [|iExact "Hb"].
  iSplitL "HL"; [iExact "HL"|]. iSplitL "HD"; [iExists 0; iExact "HD"|].
  iSplitL "HP"; [iExact "HP"|iExact "Ht"].
Qed.

Lemma demo_sync_delivers :
  delivers (chunks 100 1) (inputs cpu_sync) (sectors_of empty_image 100 1) [0x80; 0x50; 0x58; 0x50].
Proof.
  apply (delivers_cons 100 1 [] 0x50 (0x80 :: 0x50 :: 0x58 :: replicate 512 0 ++ [0x80; 0x50; 0x58; 0x50])
    (replicate 512 0) [0x80; 0x50; 0x58; 0x50] [] _); [vm_compute; reflexivity|reflexivity|constructor].
Qed.

Lemma demo_sync_accepts : accepts (chunks 100 1) [0x80; 0x50; 0x58; 0x50] [].
Proof.
  apply (accepts_cons 100 1 [] [0x80; 0x50; 0x58; 0x50] 0x50 [] []);
    [vm_compute; reflexivity|constructor].
Qed.

Lemma inode_sync_updates_slot_witness :
  ∃ r h', exec (interleave 0xc009e000 (idle_turn (0x2e + 0)) (inode_sync demo_part 0xc0062000 0xc0050000))
      cpu_sync (mem_of demo_sync) r h' ∧
    h' ⊨ (returns (λ _ c', ⌜a_requests (controller 0x1f0 c') =
      [Request CMD_READ_SECTOR 1 100 1; Request CMD_WRITE_SECTOR 1 100 1]⌝)%I r).
Proof.
  edestruct (triple_run _ _ _ _ (mem_of demo_sync)
    (inode_sync_updates_slot 0xc009e000 0xc0102000 demo_hd 0 1 0x1f0 demo_part demo_sb 100 63 20000
       ltac:(lia) ltac:(by left) ltac:(lia) ltac:(done) ltac:(split; vm_compute; discriminate)
       ltac:(lia) demo_node 0xc0062000 0xc0050000 7 empty_image (replicate 512 9) (replicate 76 9)
       [0x80; 0x50; 0x58; 0x50] [] cpu_sync demo_node_ok ltac:(vm_compute; split; congruence)
       ltac:(lia) ltac:(vm_compute; congruence) ltac:(lia) ltac:(vm_compute; reflexivity)
       ltac:(vm_compute; reflexivity) (demo_on_stack _) demo_sync_delivers demo_sync_accepts))
    as (r & h' & Hx & Hq).
  - eapply models_mono; [apply demo_sync_models|apply mem_of_models; vm_compute; reflexivity].
  - exists r, h'. split; [exact Hx|]. eapply models_mono; [|apply Hq].
    destruct r; cbn [returns]; [|by iIntros "[]"..]. iIntros "(%d & %Hd & _)".
    iPureIntro. apply Hd.
Defined.

(** ** Example: the bit of inode 5 *)

Definition demo_bits : list (Z * list Z) :=
  demo_disk ++
  [(part_sb demo_part, word_bytes demo_sb); (sb_inode_table_lba demo_sb, word_bytes 100);
   (sb_block_bitmap_lba demo_sb, word_bytes 65);
   (bitmap_bits_of (part_inode_bitmap demo_part), word_bytes 0xc0066000);
   (part_my_disk demo_part, word_bytes demo_hd); (0xc0066000, replicate 512 3)].

Lemma demo_bits_models :
  cells demo_bits ⊢
  bitmaps_at demo_hd demo_part demo_sb 100 65 0xc0066000 ∗
  (0xc0066000 + 512 * (5 / 4096)) ↦∗ replicate 512 3 ∗
  disk_ready 0xc009e000 0xc0102000 demo_hd 0 1 0x1f0 7.
Proof.
  change (0xc0066000 + 512 * (5 / 4096)) with 0xc0066000.
  unfold demo_bits. rewrite cells_app demo_disk_models.
  iIntros "[(HL & HD & HP & Ht) H]". do 5 (iEval (rewrite cells_word; [|done]) in "H").
  iDestruct "H" as "(H1 & H2 & H3 & H4 & H5 & H)".
  iEval (rewrite cells_cons) in "H". iDestruct "H" as "[Hn _]".
  iSplitL "H1 H2 H3 H4 H5".
  { iSplitL "H1"; [iExact "H1"|]. iSplitL "H2"; [iExact "H2"|]. iSplitL "H3"; [iExact "H3"|].
    iSplitL "H4"; [iExact "H4"|iExact "H5"]. }
  iSplitL "Hn"; [iExact "Hn"|].
  iSplitL "HL"; [iExact "HL"|]. iSplitL "HD"; [iExists 0; iExact "HD"|].
  iSplitL "HP"; [iExact "HP"|iExact "Ht"].
Qed.

Lemma bitmap_sync_writes_inode_bits_witness :
  ∃ r h', exec (interleave 0xc009e000 (idle_turn (0x2e + 0)) (bitmap_sync demo_part 5 INODE_BITMAP))
      cpu_write (mem_of demo_bits) r h' ∧
    h' ⊨ (returns (λ _ c', ⌜a_requests (controller 0x1f0 c') = [Request CMD_WRITE_SECTOR 1 100 1] ∧
                            a_sent (controller 0x1f0 c') = replicate 512 3⌝)%I r).
Proof.
  edestruct (triple_run _ _ _ _ (mem_of demo_bits)
    (bitmap_sync_writes_inode_bits 0xc009e000 0xc0102000 demo_hd 0 1 0x1f0 demo_part demo_sb
       100 65 0xc0066000 ltac:(lia) ltac:(by left) ltac:(lia) ltac:(done)
       INODE_BITMAP 5 7 (replicate 512 3) [] cpu_write
       ltac:(lia) ltac:(done) ltac:(vm_compute; discriminate) ltac:(done)
       ltac:(vm_compute; discriminate) ltac:(vm_compute; reflexivity) (demo_on_stack _) demo_accepts))
    as (r & h' & Hx & Hq).
  - eapply models_mono; [apply demo_bits_models|apply mem_of_models; vm_compute; reflexivity].
  - exists r, h'. split; [exact Hx|]. eapply models_mono; [|apply Hq].
    destruct r; cbn [returns]; [|by iIntros "[]"..]. iIntros "[%Hr _]".
    iPureIntro. destruct Hr as (_ & Hs & Hr). rewrite Hs Hr. split; vm_compute; reflexivity.
Defined.
