(* ===== verification/Reopen.v ===== *)
(** fs/inode.c: opening an inode that is not open.  It is read from the disk into
    a block of the kernel's heap and joins the list of open inodes.  What is read
    is what the disk gives; with [Storage], when that is what it was sent, it is the
    inode that was written back. *)
From S2P Require Export Storage Blocks.

(** ** A part of some sectors *)

Lemma put_bytes_same d a n : ∀ x, put_bytes d a (bytes_of d a n) x = d x.
Proof.
  intros x. unfold put_bytes, bytes_of. case_decide as Ha; [|done].
  destruct (decide (x - a < n)).
  - rewrite list_lookup_fmap lookup_seqZ_lt; [|lia]. simpl. f_equal. lia.
  - rewrite list_lookup_fmap lookup_seqZ_ge; [done|lia].
Qed.

Lemma length_bytes_of d a n : 0 <= n → Z.of_nat (length (bytes_of d a n)) = n.
Proof. intros Hn. rewrite length_fmap length_seqZ. lia. Qed.

Lemma sectors_of_split d lba n o k :
  0 <= o → 0 <= k → o + k <= 512 * n →
  sectors_of d lba n =
  take (Z.to_nat o) (sectors_of d lba n) ++ bytes_of d (512 * lba + o) k ++
  drop (Z.to_nat o + Z.to_nat k) (sectors_of d lba n).
Proof.
  intros Ho Hk Hn. pose proof (length_bytes_of d (512 * lba + o) k Hk) as Hl.
  replace (Z.to_nat k) with (length (bytes_of d (512 * lba + o) k)) by lia.
  rewrite -sectors_of_put; [|lia..]. apply list_fmap_ext. intros i x _. by rewrite put_bytes_same.
Qed.

Lemma bytes_of_sectors d lba n o k :
  0 <= o → 0 <= k → o + k <= 512 * n →
  bytes_of d (512 * lba + o) k = take (Z.to_nat k) (drop (Z.to_nat o) (sectors_of d lba n)).
Proof.
  intros Ho Hk Hn. pose proof (length_bytes_of d (512 * lba + o) k Hk) as Hl.
  pose proof (length_sectors_of d lba n) as Hls.
  rewrite (sectors_of_split d lba n o k) // drop_app_length'; [|rewrite length_take; lia].
  by rewrite take_app_length'; [|lia].
Qed.

(** The disk that has [data] from sector [lba] on. *)
Definition image_of (lba : Z) (data : list Z) : image := λ x, default 0 (data !! Z.to_nat (x - 512 * lba)).

Lemma sectors_of_image lba n data :
  Z.of_nat (length data) = 512 * n → sectors_of (image_of lba data) lba n = data.
Proof.
  intros Hl. apply list_eq_same_length with (length data); [done|rewrite /sectors_of length_fmap length_seqZ; lia|].
  intros j x y Hj Hx Hy. apply list_lookup_fmap_Some in Hx as (z & -> & [-> _]%lookup_seqZ).
  unfold image_of. replace (Z.to_nat (512 * lba + j - 512 * lba)) with j by lia. by rewrite Hy.
Qed.

(** ** Reading an inode's bytes *)

Definition word_of (bs : list Z) : Z :=
  if bs is [b0; b1; b2; b3] then b0 + 2 ^ 8 * b1 + 2 ^ 16 * b2 + 2 ^ 24 * b3 else 0.

Definition node_of_bytes (bs : list Z) : Storage.node :=
  let field o := word_of (take 4 (drop o bs)) in
  Node (field 0%nat) (field 4%nat) (field 8%nat) (field 12%nat) (take 52 (drop 16 bs))
       (field 68%nat) (field 72%nat).

Lemma word_of_ok bs :
  length bs = 4%nat → Forall (λ b, 0 <= b < 256) bs → word_ok (word_of bs) ∧ word_bytes (word_of bs) = bs.
Proof.
  intros Hl Hb. destruct bs as [|b0 [|b1 [|b2 [|b3 [|]]]]]; try done.
  repeat match goal with H : Forall _ (_ :: _) |- _ => apply Forall_cons_1 in H as [? H] end.
  destruct (word_of_bytes b0 b1 b2 b3) as (Hv & E0 & E1 & E2 & E3); [done..|].
  split; [exact Hv|]. by rewrite /word_bytes /word_of E0 E1 E2 E3.
Qed.

Lemma node_of_bytes_ok bs :
  length bs = 76%nat → Forall (λ b, 0 <= b < 256) bs →
  node_ok (node_of_bytes bs) ∧ node_bytes (node_of_bytes bs) = bs.
Proof.
  intros Hl Hb.
  assert (∀ o, (o + 4 <= 76)%nat → word_ok (word_of (take 4 (drop o bs))) ∧
    word_bytes (word_of (take 4 (drop o bs))) = take 4 (drop o bs)) as Hw.
  { intros o Ho. apply word_of_ok; [rewrite length_take length_drop; lia|by apply Forall_take, Forall_drop]. }
  split.
  - split; [|cbn [node_of_bytes n_sectors]; rewrite length_take length_drop; lia].
    repeat constructor; apply Hw; lia.
  - unfold node_bytes, node_of_bytes. cbn [n_no n_size n_open_cnts n_write_deny n_sectors n_prev n_next].
    rewrite !(proj2 (Hw _ _)); [|lia..]. clear -Hl.
    do 76 (destruct bs as [|? bs]; [done|]). by destruct bs.
Qed.

Lemma node_of_node_bytes y : node_ok y → node_of_bytes (node_bytes y) = y.
Proof.
  assert (∀ v, word_ok v → word_of (word_bytes v) = v) as Hv.
  { intros v Hv. apply (bytes_of_word v Hv). }
  destruct y as [no size cnt deny secs p q]. intros [Hw Hl].
  unfold node_of_bytes, node_bytes. cbn [n_no n_size n_open_cnts n_write_deny n_sectors n_prev n_next] in *.
  do 6 (apply Forall_cons in Hw as [? Hw]). cbn [app word_bytes drop take].
  assert (∀ k rest, drop (52 + k) (secs ++ rest) = drop k rest) as Hd.
  { intros k rest. by rewrite -drop_drop drop_app_length'. }
  rewrite (Hd 0%nat) (Hd 4%nat). cbn [drop take].
  f_equal; first [by apply Hv|by rewrite drop_0 take_app_length'].
Qed.

(** What a disk gives for one or two sectors. *)
Lemma delivers_bytes `{Symbols, Frames} lba n l data rest :
  1 <= n <= 2 → delivers (chunks lba n) l data rest →
  Z.of_nat (length data) = 512 * n ∧ Forall (λ b, 0 <= b < 256) data.
Proof.
  intros Hn. rewrite chunks_sects //. intros Hd.
  inversion Hd as [|? ? ? irq l1 block l' data' ? Hp Hl Hd' E1 E2 E3]; subst.
  inversion Hd'; subst. rewrite app_nil_r length_fmap. split; [done|].
  apply Forall_fmap, Forall_true. intros b. apply Z.mod_pos_bound. done.
Qed.

(** ** Searching in vain *)

Section search.
Context `{Symbols, Frames}.
Implicit Types (c : cpu).

Lemma find_open_none_wp part no ps a z c (Φ : res (option Z) → hPropI) :
  z = list_tail (part_open_inodes part) → Forall (λ p, p.1.2 ≠ no) ps →
  Klist.chain a ((λ p, inode_inode_tag p.1.1) <$> ps) z -∗ ([∗ list] p ∈ ps, open_inode p) -∗
  (Klist.chain a ((λ p, inode_inode_tag p.1.1) <$> ps) z -∗ ([∗ list] p ∈ ps, open_inode p) -∗
   Φ (RRet None c)) -∗
  wp_loop (find_open part no) (default z (head ((λ p, inode_inode_tag p.1.1) <$> ps))) c Φ.
Proof.
  iIntros (-> Hps) "HC HI HΦ".
  iInduction ps as [|[[y no'] cnt'] ps IH] forall (a Hps); iApply wp_loop_step; simpl; rewrite /find_open.
  - rewrite Z.eqb_refl. wp_pure. by iApply ("HΦ" with "HC").
  - iDestruct (chain_ne _ (_ :: _) with "HC") as %[Hne _]%not_elem_of_cons.
    rewrite (proj2 (Z.eqb_neq _ (list_tail (part_open_inodes part)))); [|by intros E].
    iDestruct "HI" as "[[Hn Hc] HI]". wp_reduce. apply Forall_cons in Hps as [Hno Hps].
    replace (inode_of_inode_tag (inode_inode_tag y)) with y
      by (unfold inode_of_inode_tag, inode_inode_tag; lia).
    wp_ld "Hn". rewrite (proj2 (Z.eqb_neq no' no)) //. iDestruct "HC" as "[Hlk HC]".
    wp_bind. iApply (wp_chain_next with "HC"). iIntros "HC". wp_reduce. wp_pure.
    iApply ("IH" with "[//] HC HI"). iIntros "HC HI". iApply ("HΦ" with "[$Hlk $HC] [$Hn $Hc $HI]").
Qed.

(** ** Allocating *)

(** [as_kernel] for a thread that has no page directory of its own. *)
Lemma as_kernel_wp {A} (m : M A) me t c (Φ : res A → hPropI) :
  t_pgdir t = 0 → Z.land (esp c) 0xfffff000 = me →
  tcb_at me t -∗
  (tcb_at me t -∗
   wp m c (returns (λ a c', tcb_at me t ∗ (tcb_at me t -∗ Φ (RRet a c'))))) -∗
  wp (as_kernel m) c Φ.
Proof.
  iIntros (Ht He) "(%Hp & Hsp & Hst & Hpr & Htk & Hpg) Hm". rewrite /as_kernel.
  wp_bind. iApply running_thread_wp. rewrite He. wp_reduce. wp_ld "Hpg". wp_st "Hpg".
  rewrite Ht. wp_bind.
  iApply (wp_wand with "[-]"); [iApply ("Hm" with "[Hsp Hst Hpr Htk Hpg]")|].
  { rewrite /tcb_at Ht w32_small //. by iFrame. }
  iIntros ([a c'|c'|c'|x c']) "H"; cbn [returns]; [|done..]. wp_reduce.
  iDestruct "H" as "[(_ & Hsp & Hst & Hpr & Htk & Hpg) HΦ]". wp_st "Hpg". wp_pure.
  iApply "HΦ". rewrite /tcb_at Ht w32_small //. by iFrame.
Qed.

Lemma idle_pair_thread me idle :
  idle_pair me idle ⊢ ∃ t, ⌜t_pgdir t = 0⌝ ∗ tcb_at me t ∗ (tcb_at me t -∗ idle_pair me idle).
Proof.
  iIntros "(%m & %tag & %ta & %ti & %Hm & (HR & HT & HG) & Hn)". pose proof Hm as (_ & Hme & Hd & _).
  iDestruct (tcbs_acc with "HT") as "[Ht HT]"; [exact Hme|]. iExists ta. iFrame "Ht". iSplit; [done|].
  iIntros "Ht". iExists m, tag, ta, ti. iFrame "HR HG Hn". iSplit; [done|].
  iSpecialize ("HT" with "Ht"). by rewrite insert_id.
Qed.

End search.

(** ** Blocks of the kernel's heap *)

Section blocks.
Context `{Symbols, Frames} (start addr nx pstart paddr ustart el : Z) (ds : gmap Z Z) (npages : nat)
  (nframes : Z) (others : gset Z).
Implicit Types (c : cpu) (A : gmap Z arena) (t : tcb).

#[local] Abbreviation heap := (idle_heap start addr nx pstart paddr ustart el ds npages nframes others).
#[local] Abbreviation heap_of me t A :=
  (small_heap start addr nx pstart paddr ustart el ds npages nframes others me t A).

Hypothesis Hdescs : 0 < g_k_mem_block_descs ∧ g_k_mem_block_descs + 168 <= 2 ^ 32.

(** Block [j] of arena [r], which has the blocks [U] in use, is free. *)
Definition free_slot_at A r i U j : Prop :=
  A !! r = Some (ArenaOf i U) ∧ (j ∈ slots i) ∧ (j ∉ U) ∧
  0 < slot start r i j ∧ slot start r i j + blk_size i <= 2 ^ 32.

Lemma slot_end m A r i U j :
  arenas_ok npages others m A → 0 < start ∧ start mod 4096 = 0 ∧ start + 4096 * Z.of_nat npages < 2 ^ 32 →
  A !! r = Some (ArenaOf i U) → j ∈ slots i →
  0 < slot start r i j ∧ slot start r i j + blk_size i <= 2 ^ 32.
Proof.
  intros (HA & _) Hs Hr Hj. destruct (HA _ _ Hr) as (Hr0 & Hi & _). cbn [ar_desc] in Hi.
  pose proof (page_range start npages Hs r Hr0) as (? & ? & _). pose proof (blk_bounds i Hi) as (? & _ & ?).
  apply elem_of_slots in Hj. unfold slot, block_at, sizeof_arena in *. nia.
Qed.

Lemma alloc_block_wp A size i me t c (Φ : res Z → hPropI) :
  0 < me < 2 ^ 32 → 0 <= size <= 1024 → best_desc size i → has_room A i → t_pgdir t = 0 →
  Z.land (esp c) 0xfffff000 = me →
  tcb_at me t -∗ heap A -∗
  (∀ r U j, ⌜free_slot_at A r i U j⌝ -∗ tcb_at me t -∗ heap (take_slot A r i U j) -∗
     slot start r i j ↦∗ replicate (Z.to_nat (blk_size i)) 0 -∗ Φ (RRet (slot start r i j) c)) -∗
  wp (sys_malloc size) c Φ.
Proof.
  iIntros (Hme Hsz Hi Hroom Ht He) "Ht HH HΦ".
  iAssert (heap_of me t A) with "[Ht HH]" as "HH"; [rewrite small_heap_split; iFrame|].
  iDestruct (small_heap_ok with "HH") as %(m & HA & Hs).
  iApply (sys_malloc_wp with "HH"); [done..|]. iIntros (a A' Hst) "HH Ha".
  destruct Hst as [Hno|r U j Hr Hr0 Hj Hn]; [done|].
  destruct Hr as [Hr|(_ & _ & Hno)]; [|done].
  destruct (slot_end m A r i U j HA Hs Hr Hj) as [Ha0 Ha1].
  rewrite (proj2 (Z.eqb_neq (slot start r i j) 0)); [|lia].
  rewrite small_heap_split. iDestruct "HH" as "[Ht HH]". by iApply ("HΦ" with "[//] Ht HH Ha").
Qed.

(** Giving back the block that was taken. *)
Lemma give_take A r i U j :
  A !! r = Some (ArenaOf i U) → j ∉ U → U ≠ ∅ → give_slot (take_slot A r i U j) r i ({[j]} ∪ U) j = A.
Proof.
  intros Hr Hj HU. unfold give_slot, take_slot.
  assert (({[j]} ∪ U) ∖ {[j]} = U) as -> by set_solver.
  rewrite decide_False // insert_insert_eq insert_id //.
Qed.

(** Giving back the block that was taken, from an arena with others in use. *)
Lemma untake_block_wp A r i U j me t bs c (Φ : res unit → hPropI) :
  0 < me < 2 ^ 32 → A !! r = Some (ArenaOf i U) → j ∉ U → U ≠ ∅ → Z.of_nat (length bs) = blk_size i →
  t_pgdir t = 0 → Z.land (esp c) 0xfffff000 = me →
  tcb_at me t -∗ heap (take_slot A r i U j) -∗ slot start r i j ↦∗ bs -∗
  (tcb_at me t -∗ heap A -∗ Φ (RRet tt c)) -∗
  wp (sys_free (slot start r i j)) c Φ.
Proof.
  iIntros (Hme Hr Hj HU Hl Ht He) "Ht HH Hb HΦ".
  iAssert (heap_of me t (take_slot A r i U j)) with "[Ht HH]" as "HH"; [rewrite small_heap_split; iFrame|].
  iApply (sys_free_wp _ _ _ _ _ _ _ _ _ _ _ _ _ Hme Ht Hdescs _ r i ({[j]} ∪ U) with "HH Hb");
    [by rewrite /take_slot lookup_insert_eq|set_solver|done|done|].
  assert (({[j]} ∪ U) ∖ {[j]} = U) as E by set_solver. iIntros (c' [_ Hc']) "HH". rewrite Hc' ?E //.
  rewrite give_take // small_heap_split. iDestruct "HH" as "[Ht HH]". iApply ("HΦ" with "Ht HH").
Qed.

Lemma has_room_take A r i U j i' :
  i ≠ i' → A !! r = Some (ArenaOf i U) → has_room A i' → has_room (take_slot A r i U j) i'.
Proof.
  intros Hne Hr (r' & U' & j' & Hr' & Hj). exists r', U', j'. split; [|done].
  rewrite lookup_insert_ne //. intros <-. rewrite Hr in Hr'. congruence.
Qed.

End blocks.

(** ** Reading an inode *)

Section reopen.
Context `{Symbols, Frames}.
Implicit Types (c : cpu) (A : gmap Z arena).

Context (me idle hd i dev base part sb table start count : Z).
Hypothesis Hi : 0 <= i < 2.
Hypothesis Hb : ata_base base.
Hypothesis Hdev : 0 <= dev < 2.
Hypothesis Hg : 0 < g_ide_channels.
Hypothesis Htable : 0 <= table ∧ table + 608 <= max_lba.
Hypothesis Hpart : table + 608 <= start + count < 2 ^ 32.

Context (hstart addr nx pstart paddr ustart el : Z) (ds : gmap Z Z) (npages : nat)
  (nframes : Z) (others : gset Z).
Hypothesis Hdescs : 0 < g_k_mem_block_descs ∧ g_k_mem_block_descs + 168 <= 2 ^ 32.

#[local] Abbreviation heap := (idle_heap hstart addr nx pstart paddr ustart el ds npages nframes others).
#[local] Abbreviation place no := (inode_place table no).
#[local] Abbreviation sects no := (inode_sects (inode_place table no)).
#[local] Abbreviation slot := (slot hstart).
#[local] Abbreviation disk := (disk_ready me idle hd i dev base).
#[local] Abbreviation run := (wpi me (idle_turn (0x2e + i))).

(** The descriptor of the blocks the sectors of an inode are read into. *)
Definition buf_class (no : Z) : Z := if two_sec (place no) then 6 else 5.

(** A buffer from the heap with sectors of the disk in it. *)
Lemma read_buf_wpi A lba n k t data rest c (Φ : res Z → hPropI) :
  1 <= n <= 2 → 0 <= lba ∧ lba + n - 1 <= max_lba → best_desc (512 * n) k → blk_size k = 512 * n →
  has_room A k → on_stack me c → delivers (chunks lba n) (inputs c) data rest → stays Φ →
  part_my_disk part ↦w hd -∗ disk t -∗ heap A -∗
  (∀ r U j c', ⌜free_slot_at hstart A r k U j ∧
                transferred me dev base lba n c c' rest [] CMD_READ_SECTOR⌝ -∗
     part_my_disk part ↦w hd -∗ disk t -∗ heap (take_slot A r k U j) -∗ slot r k j ↦∗ data -∗
     Φ (RRet (slot r k j) c')) -∗
  run (io_buf <- sys_malloc (512 * n);
       my_disk <- ld32 (part_my_disk part);
       ide_read my_disk lba io_buf n ;;
       ret io_buf) c Φ.
Proof.
  iIntros (Hn Hlba Hk Hsz Hroom Hc Hdel Hs) "Hdk (HL & HD & HP & Ht) HH HΦ".
  iDestruct (idle_pair_range with "HP") as %Hme. iDestruct (idle_pair_thread with "HP") as (th Hth) "[Hth HP]".
  wpi_bind. iApply (alloc_block_wp with "Hth HH"); [done|done|lia|done|done|done|apply Hc|].
  iIntros (r U j Hfree) "Hth HH Ha". wpi_reduce. iSpecialize ("HP" with "Hth"). wpi_ld "Hdk".
  pose proof Hfree as (_ & _ & _ & H1 & H2). rewrite Hsz in H2.
  iApply wpi_bind.
  iApply (ide_read_wpi me idle hd i dev base lba _ n with "[$HL $HD $HP $Ht] Ha");
    [done|done|done|done|lia|lia|lia|done|done|rewrite length_replicate; lia|auto|].
  iIntros (c1 Hc1) "HR Hbuf". wpi_reduce. iApply wpi_wp; [done|]. iApply wp_ret.
  iApply ("HΦ" with "[//] Hdk HR HH Hbuf").
Qed.

Lemma read_slot_wpi A no t data rest c (Φ : res Z → hPropI) :
  0 <= no < 4096 → has_room A (buf_class no) → on_stack me c →
  delivers (chunks (sec_lba (place no)) (sects no)) (inputs c) data rest → stays Φ →
  part_my_disk part ↦w hd -∗ disk t -∗ heap A -∗
  (∀ r U j c', ⌜free_slot_at hstart A r (buf_class no) U j ∧
                transferred me dev base (sec_lba (place no)) (sects no) c c' rest [] CMD_READ_SECTOR⌝ -∗
     part_my_disk part ↦w hd -∗ disk t -∗ heap (take_slot A r (buf_class no) U j) -∗
     slot r (buf_class no) j ↦∗ data -∗ Φ (RRet (slot r (buf_class no) j) c')) -∗
  run (if two_sec (place no) then
         io_buf <- sys_malloc 1024;
         my_disk <- ld32 (part_my_disk part);
         ide_read my_disk (sec_lba (place no)) io_buf 2 ;;
         ret io_buf
       else
         io_buf <- sys_malloc 512;
         my_disk <- ld32 (part_my_disk part);
         ide_read my_disk (sec_lba (place no)) io_buf 1 ;;
         ret io_buf) c Φ.
Proof.
  iIntros (Hno Hroom Hc Hdel Hs) "Hdk HR HH HΦ".
  destruct (place_slot table no Hno) as (_ & _ & _ & Hl1 & Hl2 & _).
  unfold buf_class, inode_sects in *. destruct (two_sec (place no)).
  - iApply (read_buf_wpi A _ 2 6 with "Hdk HR HH HΦ"); [lia|lia| |done..].
    apply best_desc_between; [lia|change (1024 <= 1024); lia|right; change (512 < 1024); lia].
  - iApply (read_buf_wpi A _ 1 5 with "Hdk HR HH HΦ"); [lia|lia| |done..].
    apply best_desc_between; [lia|change (512 <= 512); lia|right; change (256 < 512); lia].
Qed.

(** No arena is without a block in use: one that loses its last is given back. *)
Definition busy A : Prop := ∀ r a, A !! r = Some a → ar_used a ≠ ∅.

Lemma slice_wp buf a o pre bs post junk size c (Φ : res unit → hPropI) :
  Z.of_nat (length pre) = o → 0 < buf → a ≠ 0 → Z.of_nat (length bs) = size → length junk = length bs →
  buf ↦∗ (pre ++ bs ++ post) -∗ a ↦∗ junk -∗
  (buf ↦∗ (pre ++ bs ++ post) -∗ a ↦∗ bs -∗ Φ (RRet tt c)) -∗
  wp (memcpy a (buf + o) size) c Φ.
Proof.
  iIntros (<- Hb0 Ha Hs Hl) "Hbuf Ha HΦ". rewrite !bytes_app. iDestruct "Hbuf" as "(H1 & H2 & H3)".
  iApply (memcpy_wp with "H2 Ha"); [done|lia|done|done|]. iIntros "H2 Ha".
  iApply ("HΦ" with "[$H1 $H2 $H3] Ha").
Qed.

(** The copy of an inode out of the buffer it was read into. *)
Lemma unslot_wp d no y buf a junk c (Φ : res unit → hPropI) :
  0 <= no < 4096 → node_ok y → bytes_of d (inode_slot table no) sizeof_inode = node_bytes y →
  0 < buf → a ≠ 0 → length junk = 76%nat →
  buf ↦∗ sectors_of d (sec_lba (place no)) (sects no) -∗ a ↦∗ junk -∗
  (buf ↦∗ sectors_of d (sec_lba (place no)) (sects no) -∗ a ↦∗ node_bytes y -∗ Φ (RRet tt c)) -∗
  wp (memcpy a (buf + off_size (place no)) sizeof_inode) c Φ.
Proof.
  iIntros (Hno Hy Hd Hb0 Ha Hl) "Hbuf Ha HΦ".
  destruct (place_slot table no Hno) as (Hslot & Ho & Ho2 & _ & _ & Hn).
  pose proof (length_node_bytes y Hy) as Hly.
  rewrite (sectors_of_split d (sec_lba (place no)) (sects no) (off_size (place no)) 76);
    [|lia|done|lia].
  rewrite -Hslot. change (bytes_of d (inode_slot table no) 76) with (bytes_of d (inode_slot table no) sizeof_inode).
  rewrite Hd. iApply (slice_wp with "Hbuf Ha HΦ"); [|lia|done|by rewrite Hly|lia].
  pose proof (length_sectors_of d (sec_lba (place no)) (sects no)). rewrite length_take. lia.
Qed.

(** The record of an open inode, its link and its count in the list apart. *)
Definition node_rest (a : Z) (y : Storage.node) : hPropI :=
  (inode_i_size a ↦w n_size y ∗ inode_write_deny a ↦w n_write_deny y ∗ (a + 16) ↦∗ n_sectors y ∗
   (a + sizeof_inode) ↦∗ replicate 52 0)%I.

(** A block that holds an inode, linked into the open ones. *)
Lemma join_open_wpi ps a y k c (Φ : res Z → hPropI) :
  node_ok y → 0 <= inode_inode_tag a < 2 ^ 32 → stays Φ →
  open_inodes part ps -∗ a ↦∗ node_bytes y -∗ (a + sizeof_inode) ↦∗ replicate 52 0 -∗
  (open_inodes part (ps ++ [(a, n_no y, 1)]) -∗ node_rest a y -∗ run k c Φ) -∗
  run (list_append (part_open_inodes part) (inode_inode_tag a) ;;
       st32 (inode_i_open_cnts a) 1 ;; k) c Φ.
Proof.
  iIntros (Hy Htag Hs) "[HL HI] Ha Hr HΦ". rewrite node_bytes_fields //.
  iDestruct "Ha" as "(Hno & Hsz & Hcnt & Hwd & Hsec & Hp & Hn)".
  wpi_bind. iApply (list_append_wp with "HL [Hp Hn]").
  { iSplit; [done|]. iSplitL "Hp"; [by iExists _|by iExists _]. }
  iIntros "HL". wpi_reduce. wpi_st "Hcnt".
  iApply ("HΦ" with "[HL HI Hno Hcnt] [$Hsz $Hwd $Hsec $Hr]").
  rewrite /open_inodes fmap_app big_sepL_app. iSplitL "HL"; [iExact "HL"|]. iSplitL "HI"; [iExact "HI"|].
  iSplitL; [|done]. iSplitL "Hno"; [iExact "Hno"|iExact "Hcnt"].
Qed.

#[local] Abbreviation partition := (partition_at hd part sb table start count).

(** An inode that is not open: it comes from the disk. *)
Lemma inode_open_wpi A ps d no y t rest c (Φ : res Z → hPropI) :
  0 <= no < 4096 → node_ok y → bytes_of d (inode_slot table no) sizeof_inode = node_bytes y →
  Forall (λ p, p.1.2 ≠ no) ps → has_room A 3 → has_room A (buf_class no) → busy A →
  on_stack me c →
  delivers (chunks (sec_lba (place no)) (sects no)) (inputs c)
    (sectors_of d (sec_lba (place no)) (sects no)) rest → stays Φ →
  partition -∗ open_inodes part ps -∗ disk t -∗ heap A -∗
  (∀ r U j c', ⌜free_slot_at hstart A r 3 U j ∧
                transferred me dev base (sec_lba (place no)) (sects no) c c' rest [] CMD_READ_SECTOR⌝ -∗
     partition -∗ open_inodes part (ps ++ [(slot r 3 j, n_no y, 1)]) -∗ node_rest (slot r 3 j) y -∗
     disk t -∗ heap (take_slot A r 3 U j) -∗ Φ (RRet (slot r 3 j) c')) -∗
  run (inode_open part no) c Φ.
Proof.
  iIntros (Hno Hy Hd Hps Hroom Hroom' Hbusy Hc Hdel Hs) "(Hst & Hct & Hdk & Hsb & Htb) HO HR HH HΦ".
  iDestruct "HR" as "(HL & HD & HP & Ht)". iDestruct "HO" as "[(%Hr & H1 & H2 & HC) HI]".
  iDestruct (idle_pair_range with "HP") as %Hme. rewrite /inode_open.
  wpi_bind. iApply (wp_chain_next with "HC"). iIntros "HC". wpi_reduce.
  wpi_bind. iApply wp_loop_start. iApply (find_open_none_wp with "HC HI"); [done|done|].
  iIntros "HC HI". wpi_reduce. iDestruct (idle_pair_thread with "HP") as (th Hth) "[Hth HP]".
  wpi_bind. iApply (as_kernel_wp with "Hth"); [done|apply Hc|]. iIntros "Hth".
  iApply (alloc_block_wp _ _ _ _ _ _ _ _ _ _ _ Hdescs A sizeof_inode 3 with "Hth HH");
    [done|done|exact (class_of_best 76 ltac:(lia))|done|done|apply Hc|].
  iIntros (r U j Hfree) "Hth HH Ha". cbn [returns]. iFrame "Hth". iIntros "Hth". wpi_reduce.
  iSpecialize ("HP" with "Hth"). destruct Hfree as (HA & Hj & Hn & Ha0 & Ha1).
  change (blk_size 3) with 128 in Ha1.
  wpi_bind. iApply (inode_locate_wp with "Hsb Htb"); [done|change max_lba with 163839 in Htable; lia|].
  iIntros "Hsb Htb". wpi_reduce. iApply wpi_bind.
  iApply (read_slot_wpi with "Hdk [$HL $HD $HP $Ht] HH"); [done| |done|done|auto|].
  { eapply has_room_take; [|done|done]. unfold buf_class. by case_match. }
  iIntros (r2 U2 j2 c2 [(HA2 & Hj2 & Hn2 & Hb0 & Hb1) Hc2]) "Hdk HR HH Hbuf". wpi_reduce.
  change (Z.to_nat (blk_size 3)) with (76 + 52)%nat. rewrite replicate_add bytes_app length_replicate.
  iDestruct "Ha" as "[Ha Hrest]".
  wpi_bind. iApply (unslot_wp d no y with "Hbuf Ha"); [done|done|done|done|lia|apply length_replicate|].
  iIntros "Hbuf Ha". wpi_reduce.
  iApply (join_open_wpi ps with "[H1 H2 HC HI] Ha Hrest"); [done|unfold inode_inode_tag; lia|done| |].
  { iFrame "HI". iSplit; [done|]. iFrame. }
  iIntros "HO Hnode". pose proof Hc2 as [Hc2' _]. iDestruct "HR" as "(HL & HD & HP & Ht)".
  assert (r2 ≠ r) as Hrr.
  { intros ->. rewrite /take_slot lookup_insert_eq in HA2. injection HA2 as E _. move: E. unfold buf_class. by case_match. }
  iDestruct (idle_pair_thread with "HP") as (th2 Hth2) "[Hth HP]".
  wpi_bind. iApply (untake_block_wp with "Hth HH Hbuf"); [done|done|exact HA2|done| | |done|apply Hc2'|].
  { rewrite /take_slot lookup_insert_ne in HA2; [|done]. by apply (Hbusy _ _ HA2). }
  { rewrite length_sectors_of; [|destruct (place_slot table no Hno); lia]. unfold buf_class, inode_sects. by destruct (two_sec (place no)). }
  iIntros "Hth HH". wpi_reduce. iSpecialize ("HP" with "Hth"). iApply wpi_wp; [done|]. iApply wp_ret.
  iApply ("HΦ" with "[%] [$Hst $Hct $Hdk $Hsb $Htb] HO Hnode [$HL $HD $HP $Ht] HH").
  split; [by split_and!|done].
Qed.

(** The inode in the sectors that were read. *)
Definition inode_in (no : Z) (data : list Z) : Storage.node :=
  node_of_bytes (take 76 (drop (Z.to_nat (off_size (place no))) data)).

Lemma inode_in_sectors d no :
  0 <= no < 4096 →
  inode_in no (sectors_of d (sec_lba (place no)) (sects no)) =
  node_of_bytes (bytes_of d (inode_slot table no) sizeof_inode).
Proof.
  intros Hno. destruct (place_slot table no Hno) as (-> & Ho & Ho2 & _ & _ & Hn).
  rewrite (bytes_of_sectors d _ (sects no)); [done|lia|done|unfold sizeof_inode; lia].
Qed.

Lemma inode_in_bytes no data :
  0 <= no < 4096 → Z.of_nat (length data) = 512 * sects no → Forall (λ b, 0 <= b < 256) data →
  node_ok (inode_in no data) ∧
  bytes_of (image_of (sec_lba (place no)) data) (inode_slot table no) sizeof_inode =
  node_bytes (inode_in no data).
Proof.
  intros Hno Hl Hrange. destruct (place_slot table no Hno) as (Hslot & Ho & Ho2 & _ & _ & Hn).
  destruct (node_of_bytes_ok (take 76 (drop (Z.to_nat (off_size (place no))) data))) as [Hok E].
  { rewrite length_take length_drop. lia. }
  { by apply Forall_take, Forall_drop. }
  split; [done|]. rewrite /inode_in E Hslot (bytes_of_sectors _ _ (sects no));
    [|lia|done|unfold sizeof_inode; lia]. by rewrite sectors_of_image.
Qed.

(** C17: An inode is written back and opened again, on a disk that answers the
    second read with any bytes.  What is then in memory, in a block of the heap
    that was free, are the fields found at the inode's place in those bytes; and if
    they are the bytes that the disk was sent, that is the inode written, with its
    number, size and sectors, not denied to writers.  It is the last of the open
    inodes, open once; the disk is asked to read, to write and to read the sectors
    of the inode, and nothing else, and the buffer goes back to the heap. *)
Theorem inode_sync_open_roundtrip A ps x inode buf t d data junk pjunk l l' rest c :
  let no := n_no x in
  let lba := sec_lba (place no) in
  let y := inode_in no data in
  node_ok x → 0 <= no < 4096 → inode ≠ 0 → fr_pure_inode ≠ 0 →
  0 < buf ∧ buf + 1024 <= 2 ^ 32 →
  Z.of_nat (length junk) = 512 * sects no → length pjunk = 76%nat →
  Forall (λ p, p.1.2 ≠ no) ps → has_room A 3 → has_room A (buf_class no) → busy A →
  on_stack me c → delivers (chunks lba (sects no)) (inputs c) (sectors_of d lba (sects no)) l →
  accepts (chunks lba (sects no)) l l' →
  delivers (chunks lba (sects no)) l' data rest →
  {{ partition ∗ inode ↦∗ node_bytes x ∗ fr_pure_inode ↦∗ pjunk ∗ buf ↦∗ junk ∗
     open_inodes part ps ∗ disk t ∗ heap A }}
    (interleave me (idle_turn (0x2e + i)) (inode_sync part inode buf ;; inode_open part no)) @ c
  {{ a c', ∃ r U j sent,
       ⌜a = slot r 3 j ∧ A !! r = Some (ArenaOf 3 U) ∧ (j ∈ slots 3) ∧ (j ∉ U) ∧ inputs c' = rest ∧
        a_sent (controller base c') = a_sent (controller base c) ++ sent ∧
        sent = sectors_of (put_bytes d (inode_slot table no) (node_bytes (pure_node x))) lba (sects no) ∧
        (data = sent → y = pure_node x) ∧
        a_requests (controller base c') = a_requests (controller base c) ++
          [Request CMD_READ_SECTOR dev lba (sects no); Request CMD_WRITE_SECTOR dev lba (sects no);
           Request CMD_READ_SECTOR dev lba (sects no)]⌝ ∗
       open_inodes part (ps ++ [(a, n_no y, 1)]) ∗
       inode_i_size a ↦w n_size y ∗ inode_write_deny a ↦w n_write_deny y ∗ (a + 16)%Z ↦∗ n_sectors y ∗
       partition ∗ inode ↦∗ node_bytes x ∗ disk t ∗ heap (take_slot A r 3 U j) }}.
Proof.
  intros no lba y Hx Hno Hn Hf Hbuf Hj Hpj Hps Hroom Hroom' Hbusy Hc Hdel Hacc Hdel'. apply triple_wp.
  iIntros "(HP & Hx & Hp & Hbuf & HO & HR & HH)". iEval (rewrite -/(wpi _ _ _ _ _)). iApply wpi_bind.
  iApply (inode_sync_wpi me idle hd i dev base part sb table start count Hi Hb Hdev Hg Htable Hpart
    x inode buf t d with "HP Hx Hp HR Hbuf"); [done..|auto|].
  iIntros (c1 (Hc1 & a & (Es & Ei & Hin & Hct) & Has & Har)) "HP Hx _ HR _". wpi_reduce.
  destruct (place_slot table no Hno) as (_ & _ & _ & Hl1 & Hl2 & Hsec).
  destruct (delivers_bytes _ _ _ _ _ Hsec Hdel') as [Hlen Hbytes].
  destruct (inode_in_bytes no data Hno Hlen Hbytes) as [Hy Hd'].
  iApply (inode_open_wpi A ps (image_of lba data) no y with "HP HO HR HH");
    [done|done|done..|by rewrite Hin sectors_of_image|auto|].
  iIntros (r U j c2 [(HA & Hjs & Hnj & _) (_ & a2 & (_ & _ & Hin2 & Hct2) & Has2 & Har2)]) "HP HO Hnode HR HH".
  cbn [returns]. iDestruct "Hnode" as "(Hsz & Hwd & Hsec & _)".
  iExists r, U, j, _. iFrame "HO Hsz Hwd Hsec HP Hx HR HH". iPureIntro. split_and!; try done.
  - by rewrite Hct2 Has2 app_nil_r Hct Has.
  - intros ->. rewrite /y inode_in_sectors //.
    pose proof (length_node_bytes _ (pure_node_ok _ Hx)) as Hl. unfold sizeof_inode.
    rewrite -{1}(eq_refl : Z.of_nat 76 = 76) -Hl bytes_of_put. apply node_of_node_bytes, pure_node_ok, Hx.
  - rewrite Hct2 Har2 Hct Har -app_assoc /chunk_requests chunks_sects //.
Qed.

(** The block of an inode, once it is out of the list. *)
Lemma node_block a cnt y :
  node_ok y →
  inode_i_no a ↦w n_no y ∗ inode_i_open_cnts a ↦w cnt ∗ node_rest a y ∗ Klist.node (inode_inode_tag a) ⊢
  ∃ bs, ⌜length bs = 128%nat⌝ ∗ a ↦∗ bs.
Proof.
  iIntros (Hy) "(Hno & Hc & (Hsz & Hwd & Hsec & Hr) & _ & (%p & Hp) & (%q & Hq))".
  iDestruct (pt32_range with "Hc") as %Hc. iDestruct (pt32_range with "Hp") as %Hp.
  iDestruct (pt32_range with "Hq") as %Hq. destruct Hy as [Hw Hl].
  do 4 apply Forall_cons in Hw as [? Hw].
  assert (node_ok (Node (n_no y) (n_size y) cnt (n_write_deny y) (n_sectors y) p q)) as Hok.
  { split; [|done]. do 6 (apply Forall_cons_2; [done|]). apply Forall_nil_2. }
  set (y' := Node (n_no y) (n_size y) cnt (n_write_deny y) (n_sectors y) p q) in *.
  pose proof (length_node_bytes y' Hok) as Hly.
  iExists (node_bytes y' ++ replicate 52 0). iSplitR.
  { iPureIntro. rewrite length_app length_replicate Hly. reflexivity. }
  rewrite bytes_app Hly (node_bytes_fields a y' Hok). iSplitR "Hr"; [|iExact "Hr"].
  iSplitL "Hno"; [iExact "Hno"|]. iSplitL "Hsz"; [iExact "Hsz"|]. iSplitL "Hc"; [iExact "Hc"|].
  iSplitL "Hwd"; [iExact "Hwd"|]. iSplitL "Hsec"; [iExact "Hsec"|].
  iSplitL "Hp"; [iExact "Hp"|iExact "Hq"].
Qed.

(** The last close of the last inode opened. *)
Lemma inode_close_last_wp A ps r U j y t c (Φ : res unit → hPropI) :
  node_ok y → A !! r = Some (ArenaOf 3 U) → (j ∉ U) → busy A → on_stack me c →
  open_inodes part (ps ++ [(slot r 3 j, n_no y, 1)]) -∗ node_rest (slot r 3 j) y -∗ disk t -∗
  heap (take_slot A r 3 U j) -∗
  (open_inodes part ps -∗ disk t -∗ heap A -∗ Φ (RRet tt c)) -∗
  wp (inode_close (slot r 3 j)) c Φ.
Proof.
  iIntros (Hy HA Hj Hbusy Hc) "[HL HI] Hn (HK & HD & HP & Ht) HH HΦ". rewrite /inode_close.
  iDestruct (idle_pair_range with "HP") as %Hme.
  iDestruct "HI" as "(HI & [Hno Hcnt] & _)".
  wp_bind. iApply wp_intr_disable. wp_reduce. wp_ld "Hcnt". wp_st "Hcnt". wp_ld "Hcnt".
  change (w32 (1 - 1) =? 0) with true.
  wp_bind. iApply wp_when. wp_bind. iEval (rewrite fmap_app /=) in "HL".
  iApply (list_remove_mid_wp with "HL"). iIntros "HL Hnode". wp_reduce.
  iDestruct (node_block with "[$Hno $Hcnt $Hn $Hnode]") as (bs Hbs) "Ha"; [done|].
  iDestruct (idle_pair_thread with "HP") as (th Hth) "[Hth HP]".
  iApply (as_kernel_wp with "Hth"); [done|apply Hc|]. iIntros "Hth".
  iApply (untake_block_wp with "Hth HH Ha"); [done|done|exact HA|done| | |done|apply Hc|].
  { by apply (Hbusy _ _ HA). }
  { by rewrite Hbs. }
  iIntros "Hth HH". cbn [returns]. iFrame "Hth". iIntros "Hth". wp_reduce. iSpecialize ("HP" with "Hth").
  wp_bind. iApply wp_intr_restore. wp_reduce. wp_pure.
  iApply ("HΦ" with "[HL HI] [$HK $HD $HP $Ht] HH"). rewrite app_nil_r. iFrame "HL HI".
Qed.

(** C18: Opening an inode that is not open and closing it leaves the list of open
    inodes, the heap and the partition as they were: the sectors of the inode
    are read, and its block and the buffer go back. *)
Theorem inode_open_close_restores A ps d no y t rest c :
  0 <= no < 4096 → node_ok y → bytes_of d (inode_slot table no) sizeof_inode = node_bytes y →
  Forall (λ p, p.1.2 ≠ no) ps → has_room A 3 → has_room A (buf_class no) → busy A →
  on_stack me c →
  delivers (chunks (sec_lba (place no)) (sects no)) (inputs c)
    (sectors_of d (sec_lba (place no)) (sects no)) rest →
  {{ partition ∗ open_inodes part ps ∗ disk t ∗ heap A }}
    (interleave me (idle_turn (0x2e + i)) (inode <- inode_open part no; inode_close inode)) @ c
  {{ r c', ⌜inputs c' = rest ∧ a_requests (controller base c') = a_requests (controller base c) ++
             [Request CMD_READ_SECTOR dev (sec_lba (place no)) (sects no)]⌝ ∗
           partition ∗ open_inodes part ps ∗ disk t ∗ heap A }}.
Proof.
  intros Hno Hy Hd Hps Hroom Hroom' Hbusy Hc Hdel. apply triple_wp.
  iIntros "(HP & HO & HR & HH)". iEval (rewrite -/(wpi _ _ _ _ _)). iApply wpi_bind.
  iApply (inode_open_wpi A ps d no y with "HP HO HR HH"); [done..|auto|].
  iIntros (r U j c1 [(HA & Hjs & Hnj & _) (Hc1 & a & (_ & _ & Hin & Hct) & _ & Hr)]) "HP HO Hnode HR HH".
  wpi_reduce. iApply wpi_wp; [auto|].
  iApply (inode_close_last_wp with "HO Hnode HR HH"); [done..|].
  iIntros "HO HR HH". cbn [returns]. iFrame "HP HO HR HH". iPureIntro. split; [done|].
  rewrite Hct Hr /chunk_requests chunks_sects //. by destruct (place_slot table no Hno) as (_ & _ & _ & _ & _ & ?).
Qed.

End reopen.

(** ** Example: inode 5 written and opened, from a heap with three arenas *)

#[local] Existing Instance link_map.
#[local] Existing Instance demo_frames.

(** Arenas of blocks of 128, 512 and 1024 bytes, with one block free in each. *)
Definition demo_arenas : gmap Z arena :=
  {[0 := ArenaOf 3 (slots 3 ∖ {[1]}); 1 := ArenaOf 5 (slots 5 ∖ {[1]}); 2 := ArenaOf 6 (slots 6 ∖ {[1]})]}.
Definition demo_mapped : gmap Z Z := {[0 := 0; 1 := 1; 2 := 2]}.
Definition demo_frees (i : Z) : list Z :=
  if i =? 3 then [slot 0xc0200000 0 3 1] else if i =? 5 then [slot 0xc0200000 1 5 1]
  else if i =? 6 then [slot 0xc0200000 2 6 1] else [].

Lemma demo_arenas_lookup r a :
  demo_arenas !! r = Some a →
  ∃ i, a = ArenaOf i (slots i ∖ {[1]}) ∧ ((r = 0 ∧ i = 3) ∨ (r = 1 ∧ i = 5) ∨ (r = 2 ∧ i = 6)).
Proof.
  unfold demo_arenas. intros [[<- <-]|[_ [[<- <-]|[_ [<- <-]%lookup_singleton_Some]]%lookup_insert_Some]]%lookup_insert_Some; eauto 10.
Qed.

Lemma demo_arenas_ok : arenas_ok 8 ∅ demo_mapped demo_arenas.
Proof.
  split_and!.
  - intros r a (i & -> & Hr)%demo_arenas_lookup. cbn [ar_desc ar_used]. split_and!; [lia..|set_solver].
  - intros r. unfold demo_mapped, demo_arenas. rewrite !lookup_insert_is_Some !lookup_empty elem_of_empty !is_Some_alt. tauto.
  - intros r ?%elem_of_empty. done.
Qed.

Lemma demo_frees_ok : frees_ok 0xc0200000 demo_arenas demo_frees.
Proof.
  assert (∀ i j, j ∈ slots i → j ∉ slots i ∖ {[1]} → j = 1) as Hone.
  { intros i j. rewrite not_elem_of_difference elem_of_singleton. tauto. }
  intros i b Hi. unfold demo_frees, free_in. split.
  - destruct (Z.eqb_spec i 3) as [->|]; [|destruct (Z.eqb_spec i 5) as [->|]; [|destruct (Z.eqb_spec i 6) as [->|]; [|by intros ?%elem_of_nil]]].
    + intros ->%list_elem_of_singleton. exists 0, (slots 3 ∖ {[1]}), 1.
      split; [done|]. rewrite elem_of_slots. split; [vm_compute; split; congruence|set_solver].
    + intros ->%list_elem_of_singleton. exists 1, (slots 5 ∖ {[1]}), 1.
      split; [done|]. rewrite elem_of_slots. split; [vm_compute; split; congruence|set_solver].
    + intros ->%list_elem_of_singleton. exists 2, (slots 6 ∖ {[1]}), 1.
      split; [done|]. rewrite elem_of_slots. split; [vm_compute; split; congruence|set_solver].
  - intros (r & U & j & (i' & [= <- ->] & [[-> ->]|[[-> ->]|[-> ->]]])%demo_arenas_lookup & Hj & Hn & ->);
      rewrite (Hone _ j Hj Hn); by apply list_elem_of_singleton.
Qed.

Lemma demo_busy : busy demo_arenas.
Proof.
  intros r a (i & -> & Hr)%demo_arenas_lookup. cbn [ar_used]. intros E.
  assert (0 ∈ slots i ∖ {[1]}) as H0; [|by rewrite E in H0].
  rewrite elem_of_difference elem_of_slots. pose proof (blk_bounds i). set_solver by lia.
Qed.

(** Arena [r], of descriptor [i], but for the links of the free block. *)
Definition arena_cells (r i : Z) : list (Z * list Z) :=
  let p := page 0xc0200000 r in
  [(arena_mem_desc_addr p, word_bytes (desc_at g_k_mem_block_descs i)); (arena_cnt p, word_bytes 1);
   (arena_large p, word_bytes 0);
   (p + (sizeof_arena + blk_count i * blk_size i),
    replicate (Z.to_nat (4096 - (sizeof_arena + blk_count i * blk_size i))) 7);
   (slot 0xc0200000 r i 1 + 8, replicate (Z.to_nat (blk_size i - 8)) 7)].

Lemma arena_cells_models r i :
  0 <= desc_at g_k_mem_block_descs i < 2 ^ 32 → i = 3 ∨ i = 5 ∨ i = 6 →
  cells (arena_cells r i) ⊢
  arena_res 0xc0200000 r (ArenaOf i (slots i ∖ {[1]})) ∗ block_tail (blk_size i) (slot 0xc0200000 r i 1).
Proof.
  intros Hd Hi. unfold arena_cells. do 3 (rewrite cells_word; [|done]). rewrite !cells_cons.
  assert (blk_count i - Z.of_nat (size (slots i ∖ {[1]})) = 1) as Hs.
  { destruct Hi as [-> | [-> | ->]]; vm_compute; reflexivity. }
  iIntros "(H1 & H2 & H3 & H4 & H5 & _)". iSplitR "H5".
  - rewrite /arena_res /arena_header. cbn [ar_desc ar_used]. rewrite Hs. iFrame "H1 H2 H3".
    iExists _. iFrame "H4". iPureIntro. rewrite length_replicate.
    by destruct Hi as [-> | [-> | ->]].
  - iExists _. iFrame "H5". iPureIntro. rewrite length_replicate. by destruct Hi as [-> | [-> | ->]].
Qed.

(** The heap: eight pages of which three are arenas, in eight frames. *)
Definition demo_room : list (Z * list Z) :=
  (vpool_cells g_kernel_vaddr 0xc0200000 0xc009a100 [7] ++ demo_pool 7 ++ demo_pde ++
   [(0xc009a100 + 1, [1]); (pool_phy_start_addr g_user_pool, word_bytes 0x208000);
    (pte_addr (0xc0200000 + 4096 * 8), word_bytes 0);
    (pte_addr 0xc0200000, word_bytes (page_entry 0x200000));
    (pte_addr 0xc0201000, word_bytes (page_entry 0x201000));
    (pte_addr 0xc0202000, word_bytes (page_entry 0x202000))] ++ ptes_cells 0xc0203000 5) ++
  lock_cells (pool_lock g_kernel_pool) 0 1 0 [] ++ descs_cells g_k_mem_block_descs demo_frees ++
  arena_cells 0 3 ++ arena_cells 1 5 ++ arena_cells 2 6 ++ [(0xc0203000, replicate (4096 * 5) 7)].

Lemma demo_mapped_lookup k f : demo_mapped !! k = Some f → f = k ∧ (k = 0 ∨ k = 1 ∨ k = 2).
Proof.
  unfold demo_mapped.
  intros [[<- <-]|[_ [[<- <-]|[_ [<- <-]%lookup_singleton_Some]]%lookup_insert_Some]]%lookup_insert_Some; auto.
Qed.

Lemma demo_pages_models :
  cells (vpool_cells g_kernel_vaddr 0xc0200000 0xc009a100 [7] ++ demo_pool 7 ++ demo_pde ++
   [(0xc009a100 + 1, [1]); (pool_phy_start_addr g_user_pool, word_bytes 0x208000);
    (pte_addr (0xc0200000 + 4096 * 8), word_bytes 0);
    (pte_addr 0xc0200000, word_bytes (page_entry 0x200000));
    (pte_addr 0xc0201000, word_bytes (page_entry 0x201000));
    (pte_addr 0xc0202000, word_bytes (page_entry 0x202000))] ++ ptes_cells 0xc0203000 5) ⊢
  kheap 0xc0200000 0xc009a100 1 0x200000 0xc009a000 0x208000 0 {[768 := 0x101007]} 8 8 demo_mapped.
Proof.
  do 4 rewrite cells_app. iIntros "(HV & HP & HD & HA & HE)".
  iEval (rewrite cells_cons bytes_cons) in "HA". iDestruct "HA" as "((Hnx & _) & HA)".
  do 5 (iEval (rewrite cells_word; [|done]) in "HA"). iDestruct "HA" as "(Hu & Hel & He0 & He1 & He2 & _)".
  iDestruct (vpool_cells_models with "HV") as "HV"; [vm_compute; reflexivity|].
  iDestruct (demo_pool_models with "HP") as "HP". iDestruct (demo_pdes with "HD") as "HD".
  iDestruct (ptes_cells_models with "HE") as "HE".
  iExists [7], [7]. iSplitR.
  { iPureIntro. split_and!; [done|done|split].
    - intros k f [-> Hk]%demo_mapped_lookup. destruct Hk as [->|[->| ->]]; by vm_compute.
    - intros k k' f [-> _]%demo_mapped_lookup [-> _]%demo_mapped_lookup. done. }
  iSplitL "HV"; [iExact "HV"|]. iSplitL "Hnx"; [iExact "Hnx"|].
  iSplitL "HP"; [iExact "HP"|]. iSplitR; [done|]. iSplitL "Hu"; [iExact "Hu"|].
  iSplitL "HD"; [iExact "HD"|]. iSplitR.
  { iPureIntro. intros k Hk. replace ((0xc0200000 + 4096 * k) / 2 ^ 22) with 768; [by eexists|].
    Z.div_mod_to_equations. lia. }
  iSplitR "Hel"; [|iExact "Hel"].
  iExists (page_entry 0x200000 :: page_entry 0x201000 :: page_entry 0x202000 :: replicate 5 0). iSplitR.
  { iPureIntro. split; [done|]. intros k e. do 8 (destruct k as [|k]; [by intros [= <-]|]). done. }
  rewrite !ptes_cons. iSplitL "He0"; [iExact "He0"|]. iSplitL "He1"; [iExact "He1"|].
  iSplitL "He2"; [iExact "He2"|iExact "HE"].
Qed.

Lemma demo_frees_tails (P : Z → Z → hPropI) :
  P 3 (slot 0xc0200000 0 3 1) ∗ P 5 (slot 0xc0200000 1 5 1) ∗ P 6 (slot 0xc0200000 2 6 1) ⊢
  [∗ list] i ∈ seqZ 0 7, [∗ list] b ∈ demo_frees i, P i b.
Proof.
  change (seqZ 0 7) with [0; 1; 2; 3; 4; 5; 6]. rewrite /demo_frees /=. iIntros "($ & $ & $)".
Qed.

Lemma demo_room_models :
  cells demo_room ⊢
  idle_heap 0xc0200000 0xc009a100 1 0x200000 0xc009a000 0x208000 0 {[768 := 0x101007]} 8 8 ∅ demo_arenas.
Proof.
  unfold demo_room. rewrite cells_app demo_pages_models. do 5 rewrite cells_app.
  iIntros "(HK & HL & HD & H0 & H1 & H2 & Hp)".
  iDestruct (lock_cells_models with "HL") as "HL"; [vm_compute; reflexivity|].
  iDestruct (arena_cells_models with "H0") as "[H0 Ht0]"; [vm_compute; split; congruence|by left|].
  iDestruct (arena_cells_models with "H1") as "[H1 Ht1]"; [vm_compute; split; congruence|by right; left|].
  iDestruct (arena_cells_models with "H2") as "[H2 Ht2]"; [vm_compute; split; congruence|by right; right|].
  iDestruct (descs_cells_models with "[$HD Ht0 Ht1 Ht2]") as "HD"; [done|done| | |].
  { intros i. unfold demo_frees. destruct (i =? 3); [|destruct (i =? 5); [|destruct (i =? 6)]]; vm_compute; reflexivity. }
  { iApply demo_frees_tails. iFrame "Ht0 Ht1 Ht2". }
  iExists demo_mapped, demo_frees. iSplitR "HL"; [|iExact "HL"].
  iSplitR; [iPureIntro; split; [apply demo_arenas_ok|apply demo_frees_ok]|].
  iSplitL "HK"; [iExact "HK"|]. iSplitL "Hp".
  - rewrite cells_cons. iDestruct "Hp" as "[Hp _]".
    iDestruct (raw_pages_models 0xc0200000 3 5 with "Hp") as "Hp"; [apply length_replicate|].
    rewrite /spare. change (seqZ 0 (Z.of_nat 8)) with ([0; 1; 2] ++ seqZ 3 (Z.of_nat 5)).
    rewrite big_sepL_app. iSplitR; [by rewrite !big_sepL_cons big_sepL_nil|]. iApply (big_sepL_impl with "Hp"). iIntros "!>" (k r Hr) "H".
    by case_match.
  - iSplitL "HD"; [iExact "HD"|]. rewrite /demo_arenas big_sepM_insert; [|done].
    rewrite big_sepM_insert; [|done]. rewrite big_sepM_singleton. iFrame "H0 H1 H2".
Qed.

(** No inode open yet, and the disk answering three commands. *)
Definition demo_reopen : list (Z * list Z) :=
  demo_sync ++ list_cells (part_open_inodes demo_part) [] ++ demo_room.

Lemma demo_reopen_models :
  cells demo_reopen ⊢
  partition_at demo_hd demo_part demo_sb 100 63 20000 ∗ 0xc0062000 ↦∗ node_bytes demo_node ∗
  fr_pure_inode ↦∗ replicate 76 9 ∗ 0xc0050000 ↦∗ replicate 512 9 ∗ open_inodes demo_part [] ∗
  disk_ready 0xc009e000 0xc0102000 demo_hd 0 1 0x1f0 7 ∗
  idle_heap 0xc0200000 0xc009a100 1 0x200000 0xc009a000 0x208000 0 {[768 := 0x101007]} 8 8 ∅ demo_arenas.
Proof.
  unfold demo_reopen. do 2 rewrite cells_app. rewrite demo_sync_models demo_room_models.
  rewrite list_cells_models; [|vm_compute; reflexivity|done].
  iIntros "((HP & Hx & Hp & HR & Hb) & HO & HH)".
  iSplitL "HP"; [iExact "HP"|]. iSplitL "Hx"; [iExact "Hx"|]. iSplitL "Hp"; [iExact "Hp"|].
  iSplitL "Hb"; [iExact "Hb"|]. iSplitL "HO"; [iSplitL; [iExact "HO"|done]|].
  iSplitL "HR"; [iExact "HR"|iExact "HH"].
Qed.

Lemma demo_reopen_ok : regions_ok demo_reopen.
Proof. vm_compute. reflexivity. Qed.

Definition demo_written : image :=
  put_bytes empty_image (inode_slot 100 5) (node_bytes (pure_node demo_node)).
Definition demo_again : list Z := 0x50 :: 0x80 :: 0x50 :: 0x58 :: sectors_of demo_written 100 1.
Definition cpu_reopen : cpu :=
  set_inputs (0x50 :: 0x80 :: 0x50 :: 0x58 :: replicate 512 0 ++ [0x80; 0x50; 0x58; 0x50] ++ demo_again) cpu_a.

Lemma demo_reopen_delivers :
  delivers (chunks 100 1) (inputs cpu_reopen) (sectors_of empty_image 100 1)
    ([0x80; 0x50; 0x58; 0x50] ++ demo_again).
Proof.
  apply (delivers_cons 100 1 [] 0x50 (0x80 :: 0x50 :: 0x58 :: replicate 512 0 ++ [0x80; 0x50; 0x58; 0x50] ++ demo_again)
    (replicate 512 0) ([0x80; 0x50; 0x58; 0x50] ++ demo_again) [] _); [vm_compute; reflexivity|reflexivity|constructor].
Qed.

Lemma demo_reopen_accepts : accepts (chunks 100 1) ([0x80; 0x50; 0x58; 0x50] ++ demo_again) demo_again.
Proof.
  apply (accepts_cons 100 1 [] ([0x80; 0x50; 0x58; 0x50] ++ demo_again) 0x50 demo_again demo_again);
    [vm_compute; reflexivity|constructor].
Qed.

Lemma demo_again_delivers : delivers (chunks 100 1) demo_again (sectors_of demo_written 100 1) [].
Proof.
  apply (delivers_cons 100 1 [] 0x50 (0x80 :: 0x50 :: 0x58 :: sectors_of demo_written 100 1)
    (sectors_of demo_written 100 1) [] [] []); [vm_compute; reflexivity|vm_compute; reflexivity|constructor].
Qed.

Lemma demo_has_room i : i = 3 ∨ i = 5 ∨ i = 6 → has_room demo_arenas i.
Proof.
  intros [-> | [-> | ->]]; [exists 0, (slots 3 ∖ {[1]}), 1|exists 1, (slots 5 ∖ {[1]}), 1|exists 2, (slots 6 ∖ {[1]}), 1];
    (split; [done|]); rewrite elem_of_slots; (split; [vm_compute; split; congruence|set_solver]).
Qed.

Lemma inode_sync_open_roundtrip_witness :
  ∃ r h', exec (interleave 0xc009e000 (idle_turn (0x2e + 0))
        (inode_sync demo_part 0xc0062000 0xc0050000 ;; inode_open demo_part 5))
      cpu_reopen (mem_of demo_reopen) r h' ∧
    h' ⊨ (returns (λ a _, inode_i_size a ↦w 1024 ∗ (a + 16)%Z ↦∗ replicate 52 1 ∗
                          open_inodes demo_part [(a, 5, 1)])%I r).
Proof.
  edestruct (triple_run _ _ _ _ (mem_of demo_reopen)
    (inode_sync_open_roundtrip 0xc009e000 0xc0102000 demo_hd 0 1 0x1f0 demo_part demo_sb 100 63 20000
       ltac:(lia) ltac:(by left) ltac:(lia) ltac:(done) ltac:(split; vm_compute; discriminate)
       ltac:(lia) 0xc0200000 0xc009a100 1 0x200000 0xc009a000 0x208000 0 {[768 := 0x101007]} 8 8 ∅
       demo_descs demo_arenas [] demo_node 0xc0062000 0xc0050000 7 empty_image
       (sectors_of demo_written 100 1) (replicate 512 9) (replicate 76 9) ([0x80; 0x50; 0x58; 0x50] ++ demo_again) demo_again [] cpu_reopen
       demo_node_ok ltac:(vm_compute; split; congruence) ltac:(lia) ltac:(vm_compute; congruence)
       ltac:(lia) ltac:(vm_compute; reflexivity) ltac:(vm_compute; reflexivity) (Forall_nil_2 _)
       (demo_has_room 3 (or_introl eq_refl)) (demo_has_room 5 (or_intror (or_introl eq_refl))) demo_busy
       (demo_on_stack _) demo_reopen_delivers demo_reopen_accepts demo_again_delivers))
    as (r & h' & Hx & Hq).
  - eapply models_mono; [apply demo_reopen_models|apply mem_of_models, demo_reopen_ok].
  - exists r, h'. split; [exact Hx|]. eapply models_mono; [|apply Hq].
    destruct r; cbn [returns]; [|by iIntros "[]"..].
    iIntros "(%rr & %U & %j & %sent & %Hall & HO & Hsz & _ & Hsec & _)".
    destruct Hall as (_ & _ & _ & _ & _ & _ & -> & Hy & _).
    iEval (rewrite Hy //) in "Hsz". iEval (rewrite Hy //) in "Hsec". iEval (rewrite Hy //) in "HO".
    iSplitL "Hsz"; [iExact "Hsz"|]. iSplitL "Hsec"; [iExact "Hsec"|iExact "HO"].
Defined.

Definition cpu_open : cpu := set_inputs demo_again cpu_a.

Lemma inode_open_close_restores_witness :
  ∃ r h', exec (interleave 0xc009e000 (idle_turn (0x2e + 0))
        (inode <- inode_open demo_part 5; inode_close inode)) cpu_open (mem_of demo_reopen) r h' ∧
    h' ⊨ (returns (λ _ c', ⌜a_requests (controller 0x1f0 c') = [Request CMD_READ_SECTOR 1 100 1]⌝ ∗
                          open_inodes demo_part [])%I r).
Proof.
  edestruct (triple_run _ _ _ _ (mem_of demo_reopen)
    (inode_open_close_restores 0xc009e000 0xc0102000 demo_hd 0 1 0x1f0 demo_part demo_sb 100 63 20000
       ltac:(lia) ltac:(by left) ltac:(lia) ltac:(done) ltac:(split; vm_compute; discriminate)
       0xc0200000 0xc009a100 1 0x200000 0xc009a000 0x208000 0 {[768 := 0x101007]} 8 8 ∅
       demo_descs demo_arenas [] demo_written 5 (pure_node demo_node) 7 [] cpu_open
       ltac:(lia) (pure_node_ok _ demo_node_ok) eq_refl (Forall_nil_2 _)
       (demo_has_room 3 (or_introl eq_refl)) (demo_has_room 5 (or_intror (or_introl eq_refl))) demo_busy
       (demo_on_stack _) demo_again_delivers))
    as (r & h' & Hx & Hq).
  - eapply models_mono; [|apply mem_of_models, demo_reopen_ok]. rewrite demo_reopen_models.
    iIntros "(HP & _ & _ & _ & HO & HR & HH)". iSplitL "HP"; [iExact "HP"|].
    iSplitL "HO"; [iExact "HO"|]. iSplitL "HR"; [iExact "HR"|iExact "HH"].
  - exists r, h'. split; [exact Hx|]. eapply models_mono; [|apply Hq].
    destruct r; cbn [returns]; [|by iIntros "[]"..].
    iIntros "((_ & %Hr) & _ & HO & _)". iSplitR; [|iExact "HO"]. by iPureIntro.
Defined.
