(* ===== verification/Fs.v ===== *)
(** fs/dir.c and fs/fs.c: directories, the layout of a partition, mounting and
    path names. *)
From S2P Require Export Inode.

(** ** Layout *)

(** struct dir *)
Definition dir_inode (d : Z) : Z := d.
Definition dir_dir_pos (d : Z) : Z := d + 4.
Definition sizeof_dir : Z := 520.

(** struct dir_entry *)
Definition MAX_FILE_NAME_LEN : Z := 16.
Definition de_filename (e : Z) : Z := e.
Definition de_i_no (e : Z) : Z := e + 16.
Definition de_f_type (e : Z) : Z := e + 20.
Definition sizeof_dir_entry : Z := 24.

(** enum file_types *)
Definition FT_UNKNOWN : Z := 0.
Definition FT_REGULAR : Z := 1.
Definition FT_DIRECTORY : Z := 2.

(** struct path_search_record *)
Definition MAX_PATH_LEN : Z := 512.
Definition psr_searched_path (r : Z) : Z := r.
Definition psr_parent_dir (r : Z) : Z := r + 512.
Definition psr_file_type (r : Z) : Z := r + 516.

Definition MAX_FILES_PER_PART : Z := 4096.
Definition BITS_PER_SECTOR : Z := 4096.
Definition FS_MAGIC : Z := 0x19990814.

(** ** Path names (fs/fs.c) *)

(** Past the slashes after the first one. *)
Definition skip_slashes (pathname : Z) : M (Z + Z) :=
  let pathname := pathname + 1 in
  b <- ld8 pathname;
  if b =? 47 then ret (inl pathname) else ret (inr pathname).

(** Copying one component. *)
Definition copy_component : Z * Z → M (Z * Z + Z * Z) :=
  λ '(pathname, name_store),
    b <- ld8 pathname;
    if negb (b =? 47) && negb (b =? 0) then
      st8 name_store b ;; ret (inl (pathname + 1, name_store + 1))
    else ret (inr (pathname, name_store)).

Definition path_parse (pathname name_store : Z) : M Z :=
  b <- ld8 pathname;
  pathname <- (if b =? 47 then loop skip_slashes pathname else ret pathname);
  r <- loop copy_component (pathname, name_store);
  let pathname := (r : Z * Z).1 in
  b <- ld8 pathname;
  ret (if b =? 0 then 0 else pathname).

Section fs.
Context `{Symbols, Frames}.

Definition depth_step : Z * Z → M (Z * Z + Z) :=
  λ '(p, depth),
    b <- ld8 fr_depth_name;
    if negb (b =? 0) then
      memset fr_depth_name 0 MAX_FILE_NAME_LEN ;;
      p <- (if negb (p =? 0) then path_parse p fr_depth_name else ret p);
      ret (inl (p, w32 (depth + 1)))
    else ret (inr depth).

Definition path_deepth_cnt (pathname : Z) : M Z :=
  ASSERT (negb (pathname =? 0)) "fs/fs.c" 212 "path_deepth_cnt" "pathname != 0" ;;
  p <- path_parse pathname fr_depth_name;
  loop depth_step (p, 0).

(** ** fs/dir.c *)

Definition open_root_dir (part : Z) : M unit :=
  sb <- ld32 (part_sb part);
  root_inode_no <- ld32 (sb_root_inode_no sb);
  inode <- inode_open part root_inode_no;
  st32 (dir_inode g_root_dir) inode ;;
  st32 (dir_dir_pos g_root_dir) 0.

Definition dir_open (part inode_no : Z) : M Z :=
  pdir <- sys_malloc sizeof_dir;
  inode <- inode_open part inode_no;
  st32 (dir_inode pdir) inode ;;
  st32 (dir_dir_pos pdir) 0 ;;
  ret pdir.

(** Comparing the entries of one sector; the one found is copied out. *)
Definition match_entry (buf name dir_e dir_entry_cnts : Z) : Z → M (Z + bool) :=
  λ dir_entry_idx,
    if dir_entry_idx <? dir_entry_cnts then
      let entry := buf + sizeof_dir_entry * dir_entry_idx in
      r <- strcmp (de_filename entry) name;
      if r =? 0 then
        memcpy dir_e entry sizeof_dir_entry ;;
        ret (inr true)
      else ret (inl (dir_entry_idx + 1))
    else ret (inr false).

(** The array of sectors is one of bytes: entry [i] is byte [i]. *)
Definition search_sector (part each_sect_addr_array buf name dir_e : Z) :
    Z → M (Z + bool) :=
  λ i,
    if i <? 140 then
      sect <- ld8 (each_sect_addr_array + i);
      if sect =? 0 then ret (inl (i + 1))
      else
        my_disk <- ld32 (part_my_disk part);
        sect <- ld8 (each_sect_addr_array + i);
        ide_read my_disk sect buf 1 ;;
        found <- loop (match_entry buf name dir_e (SECTOR_SIZE / sizeof_dir_entry)) 0;
        if (found : bool) then ret (inr true)
        else memset buf 0 SECTOR_SIZE ;; ret (inl (i + 1))
    else ret (inr false).

Definition search_dir_entry (part pdir name dir_e : Z) : M bool :=
  each_sect_addr_array <- sys_malloc (12 * 4 + 512);
  if each_sect_addr_array =? 0 then
    call_printk "search dir entry alloc memory failed !!!!" [] ;; ret false
  else
    for_ 0 12 (λ i,
      inode <- ld32 (dir_inode pdir);
      v <- ld32 (inode_i_sectors inode i);
      st8 (each_sect_addr_array + i) v) ;;
    inode <- ld32 (dir_inode pdir);
    indirect <- ld32 (inode_i_sectors inode 12);
    when (negb (indirect =? 0))
      (my_disk <- ld32 (part_my_disk part);
       ide_read my_disk indirect (each_sect_addr_array + 12) 1) ;;
    buf <- sys_malloc SECTOR_SIZE;
    found <- loop (search_sector part each_sect_addr_array buf name dir_e) 0;
    sys_free buf ;;
    sys_free each_sect_addr_array ;;
    ret found.

(** The directory, not its inode, is closed. *)
Definition dir_close (dir : Z) : M unit :=
  if dir =? g_root_dir then ret tt
  else inode_close dir ;; sys_free dir.

Definition create_dir_entry (filename inode_no file_type p_de : Z) : M unit :=
  len <- strlen filename;
  ASSERT (len <=? MAX_FILE_NAME_LEN) "fs/dir.c" 83 "create_dir_entry"
    "strlen(filename) <= MAX_FILE_NAME_LEN" ;;
  st32 (de_i_no p_de) inode_no ;;
  len <- strlen filename;
  memcpy (de_filename p_de) filename len ;;
  st32 (de_f_type p_de) (w8 file_type).

Definition all_block (i : Z) : Z := fr_all_blocks + 4 * i.

(** A block allocated for the bitmaps and the index, then the bitmap written:
    what [sync_dir_entry] does each time. *)
Definition sync_block (block_lba : Z) : M unit :=
  part <- ld32 g_curr_part;
  sb <- ld32 (part_sb part);
  data_start_lba <- ld32 (sb_data_start_lba sb);
  bitmap_sync part (w32 (block_lba - data_start_lba)) BLOCK_BITMAP.

Definition alloc_curr : M Z :=
  part <- ld32 g_curr_part;
  r <- block_bitmap_alloc part;
  ret (w32 r).

Definition write_curr (lba buf : Z) : M unit :=
  part <- ld32 g_curr_part;
  my_disk <- ld32 (part_my_disk part);
  ide_write my_disk lba buf 1.

(** A block for entry [block_idx] of the index: false when there is none.  Past
    the direct blocks a second block is allocated, for the entry or its index. *)
Definition extend_dir (inode block_idx : Z) : M bool :=
  block_lba <- alloc_curr;
  if block_lba =? w32 (-1) then
    call_printk "alloc block bitmap for sync_dir_entry failed\n" [] ;; ret false
  else
    sync_block block_lba ;;
    if block_idx <? 12 then
      st32 (all_block block_idx) block_lba ;;
      st32 (inode_i_sectors inode block_idx) block_lba ;;
      ret true
    else if block_idx =? 12 then
      st32 (inode_i_sectors inode block_idx) block_lba ;;
      block_lba <- alloc_curr;
      if block_lba =? w32 (-1) then
        block_lba <- ld32 (inode_i_sectors inode block_idx);
        part <- ld32 g_curr_part;
        sb <- ld32 (part_sb part);
        data_start_lba <- ld32 (sb_data_start_lba sb);
        bitmap_set (part_block_bitmap part) (w32 (block_lba - data_start_lba)) 0 ;;
        st32 (inode_i_sectors inode block_idx) 0 ;;
        ret false
      else
        st32 (all_block block_idx) block_lba ;;
        sync_block block_lba ;;
        indirect <- ld32 (inode_i_sectors inode block_idx);
        write_curr indirect (all_block 12) ;;
        ret true
    else
      block_lba <- alloc_curr;
      sync_block block_lba ;;
      st32 (all_block block_idx) block_lba ;;
      indirect <- ld32 (inode_i_sectors inode 12);
      write_curr indirect (all_block 12) ;;
      ret true.

(** A free entry of a sector that is in use. *)
Definition fill_entry (inode p_de io_buf block_idx dir_entry_cnts : Z) : Z → M (Z + bool) :=
  λ dir_entry_idx,
    if dir_entry_idx <? dir_entry_cnts then
      let dir_e := io_buf + sizeof_dir_entry * dir_entry_idx in
      f_type <- ld32 (de_f_type dir_e);
      if f_type =? FT_UNKNOWN then
        memcpy dir_e p_de sizeof_dir_entry ;;
        lba <- ld32 (all_block block_idx);
        write_curr lba io_buf ;;
        cnt <- ld32 (inode_i_open_cnts inode);
        st32 (inode_i_open_cnts inode) (cnt + sizeof_dir_entry) ;;
        ret (inr true)
      else ret (inl (dir_entry_idx + 1))
    else ret (inr false).

(** One turn of the loop over the blocks. *)
Definition sync_step (uninit : bool) (inode p_de io_buf dir_entry_cnts : Z) : Z → M (Z + bool) :=
  λ block_idx,
    if block_idx <? 140 then
      lba <- ld32 (all_block block_idx);
      if lba =? 0 then
        ok <- extend_dir inode block_idx;
        if negb ok then ret (inr false)
        else
          memset io_buf 0 512 ;;
          memcpy io_buf p_de sizeof_dir_entry ;;
          lba <- ld32 (all_block block_idx);
          write_curr lba io_buf ;;
          size <- ld32 (inode_i_size inode);
          st32 (inode_i_size inode) (size + sizeof_dir_entry) ;;
          ret (inr true)
      else
        lba <- ld32 (all_block block_idx);
        part <- ld32 g_curr_part;
        my_disk <- ld32 (part_my_disk part);
        ide_read my_disk lba io_buf 1 ;;
        done <- loop (fill_entry inode p_de io_buf block_idx dir_entry_cnts) 0;
        if (done : bool) then ret (inr true) else ret (inl (block_idx + 1))
    else ret (inr uninit).

(** With every block full the function ends without returning a value:
    [uninit] is what its caller would see. *)
Definition sync_dir_entry (uninit : bool) (parent_dir p_de io_buf : Z) : M bool :=
  inode <- ld32 (dir_inode parent_dir);
  dir_size <- ld32 (inode_i_size inode);
  ASSERT (dir_size mod sizeof_dir =? 0) "fs/dir.c" 94 "sync_dir_entry"
    "(dir_size % sizeof(struct dir)) == 0" ;;
  inode <- ld32 (dir_inode parent_dir);
  for_ 0 140 (λ i, st32 (all_block i) 0) ;;
  for_ 0 12 (λ i, v <- ld32 (inode_i_sectors inode i); st32 (all_block i) v) ;;
  indirect <- ld32 (inode_i_sectors inode 12);
  when (negb (indirect =? 0))
    (block_lba <- ld32 (inode_i_sectors inode 12);
     part <- ld32 g_curr_part;
     my_disk <- ld32 (part_my_disk part);
     ide_read my_disk block_lba (all_block 12) 1) ;;
  loop (sync_step uninit inode p_de io_buf (SECTOR_SIZE / sizeof_dir_entry)) 0.

(** ** Formatting and mounting (fs/fs.c) *)

(** Where the parts of a partition go; the layout [partition_format] computes. *)
Record layout := Layout {
  lay_inode_bitmap_sects : Z;
  lay_inode_table_sects : Z;
  lay_block_bitmap_bit_len : Z;
  lay_block_bitmap_sects : Z
}.

Definition partition_layout (sector_counter : Z) : layout :=
  let inode_bitmap_sects := DIV_ROUND_UP MAX_FILES_PER_PART BITS_PER_SECTOR in
  let inode_table_sects := DIV_ROUND_UP (sizeof_inode * MAX_FILES_PER_PART) SECTOR_SIZE in
  let used_sects := w32 (2 + inode_bitmap_sects + inode_table_sects) in
  let free_sects := w32 (sector_counter - used_sects) in
  let block_bitmap_sects := DIV_ROUND_UP free_sects BITS_PER_SECTOR in
  let block_bitmap_bit_len := w32 (free_sects - block_bitmap_sects) in
  let block_bitmap_sects := DIV_ROUND_UP block_bitmap_bit_len BITS_PER_SECTOR in
  Layout inode_bitmap_sects inode_table_sects block_bitmap_bit_len block_bitmap_sects.

(** The super block, in the local [sb]. *)
Definition fill_super_block (part : Z) (l : layout) : M unit :=
  let sb := fr_sb in
  st32 (sb_magic sb) FS_MAGIC ;;
  sector_counter <- ld32 (part_sector_counter part);
  st32 (sb_sec_cnt sb) sector_counter ;;
  st32 (sb_inode_cnt sb) MAX_FILES_PER_PART ;;
  start_lba <- ld32 (part_start_lba part);
  st32 (sb_part_lba_base sb) start_lba ;;
  start_lba <- ld32 (part_start_lba part);
  st32 (sb_block_bitmap_lba sb) (start_lba + 2) ;;
  st32 (sb_block_bitmap_sects sb) (lay_block_bitmap_sects l) ;;
  lba <- ld32 (sb_block_bitmap_lba sb);
  st32 (sb_inode_bitmap_lba sb) (lba + lay_block_bitmap_sects l) ;;
  st32 (sb_inode_bitmap_sects sb) (lay_inode_bitmap_sects l) ;;
  lba <- ld32 (sb_inode_bitmap_lba sb);
  st32 (sb_inode_table_lba sb) (lba + lay_inode_bitmap_sects l) ;;
  st32 (sb_inode_table_sects sb) (lay_inode_table_sects l) ;;
  sects <- ld32 (sb_inode_table_sects sb);
  st32 (sb_data_start_lba sb) (sects + lay_inode_table_sects l) ;;
  st32 (sb_root_inode_no sb) 0 ;;
  st32 (sb_dir_entry_size sb) sizeof_dir_entry.

Definition print_layout (part : Z) : M unit :=
  call_printk "%s info:\n" [part_name part] ;;
  let sb := fr_sb in
  magic <- ld32 (sb_magic sb);
  part_lba_base <- ld32 (sb_part_lba_base sb);
  sec_cnt <- ld32 (sb_sec_cnt sb);
  inode_cnt <- ld32 (sb_inode_cnt sb);
  block_bitmap_lba <- ld32 (sb_block_bitmap_lba sb);
  block_bitmap_sects <- ld32 (sb_block_bitmap_sects sb);
  inode_bitmap_lba <- ld32 (sb_inode_bitmap_lba sb);
  inode_bitmap_sects <- ld32 (sb_inode_bitmap_sects sb);
  inode_table_lba <- ld32 (sb_inode_table_lba sb);
  inode_table_sects <- ld32 (sb_inode_table_sects sb);
  data_start_lba <- ld32 (sb_data_start_lba sb);
  call_printk
    "\tmagic:0x%x\n\tpart_lba_base:0x%x\n\tall_sectors:0x%x\n\tinode_cnt:0x%x\n\tblock_bitmap_lba:0x%x\n\tblock_bitmap_sectors:0x%x\n\tinode_bitmap_lba:0x%x\n\tinode_bitmap_sectors:0x%x\n\tinode_table_lba:0x%x\n\tinode_table_sectors:0x%x\n\tdata_start_lba:0x%x\n"
    [magic; part_lba_base; sec_cnt; inode_cnt; block_bitmap_lba; block_bitmap_sects;
     inode_bitmap_lba; inode_bitmap_sects; inode_table_lba; inode_table_sects; data_start_lba].

Definition set_bit_or (a mask : Z) : M unit := b <- ld8 a; st8 a (Z.lor b mask).

(** The block bitmap: the root directory's block is in use, and so is
    everything beyond the last block. *)
Definition write_block_bitmap (hd buf block_bitmap_bit_len : Z) : M unit :=
  set_bit_or buf 0x01 ;;
  let block_bitmap_bytes_len := block_bitmap_bit_len / 8 in
  let block_bitmap_odd_idx := w8 (block_bitmap_bit_len mod 8) in
  let last_size := SECTOR_SIZE - block_bitmap_bytes_len mod SECTOR_SIZE in
  memset (buf + block_bitmap_bytes_len) 0xff last_size ;;
  for_ 0 (block_bitmap_odd_idx + 1) (λ i,
    b <- ld8 (buf + block_bitmap_odd_idx);
    st8 (buf + block_bitmap_odd_idx) (Z.ldiff b (Z.shiftl 1 i))) ;;
  lba <- ld32 (sb_block_bitmap_lba fr_sb);
  sects <- ld32 (sb_block_bitmap_sects fr_sb);
  ide_write hd lba buf sects.

(** [buf[0] != 0x01;] compares and does nothing. *)
Definition write_inode_bitmap (hd buf buf_size : Z) : M unit :=
  memset buf 0 buf_size ;;
  ld8 buf ;;
  lba <- ld32 (sb_inode_bitmap_lba fr_sb);
  sects <- ld32 (sb_inode_bitmap_sects fr_sb);
  ide_write hd lba buf sects.

Definition write_inode_table (hd buf buf_size : Z) : M unit :=
  memset buf 0 buf_size ;;
  let inode := buf in
  st32 (inode_i_no inode) 0 ;;
  size <- ld32 (sb_dir_entry_size fr_sb);
  st32 (inode_i_size inode) (size * 2) ;;
  lba <- ld32 (sb_data_start_lba fr_sb);
  st32 (inode_i_sectors inode 0) lba ;;
  lba <- ld32 (sb_inode_table_lba fr_sb);
  sects <- ld32 (sb_inode_table_sects fr_sb);
  ide_write hd lba buf sects.

Definition write_root_dir (hd buf buf_size : Z) : M unit :=
  memset buf 0 buf_size ;;
  let entry := buf in
  st32 (de_f_type entry) FT_DIRECTORY ;;
  st32 (de_i_no entry) 0 ;;
  memcpy (de_filename entry) (str_lit ".") 1 ;;
  let entry := entry + sizeof_dir_entry in
  st32 (de_f_type entry) FT_DIRECTORY ;;
  st32 (de_i_no entry) 0 ;;
  memcpy (de_filename entry) (str_lit "..") 2 ;;
  lba <- ld32 (sb_data_start_lba fr_sb);
  ide_write hd lba buf 1.

(** The largest of the three areas, in bytes. *)
Definition format_buf_size : M Z :=
  block <- ld32 (sb_block_bitmap_sects fr_sb);
  inode <- ld32 (sb_inode_bitmap_sects fr_sb);
  let buf_size := if block >=? inode then block else inode in
  table <- ld32 (sb_inode_table_sects fr_sb);
  ret (w32 ((if buf_size >=? table then buf_size else table) * SECTOR_SIZE)).

Definition partition_format (part : Z) : M unit :=
  sector_counter <- ld32 (part_sector_counter part);
  let l := partition_layout sector_counter in
  fill_super_block part l ;;
  print_layout part ;;
  hd <- ld32 (part_my_disk part);
  start_lba <- ld32 (part_start_lba part);
  ide_write hd (w32 (start_lba + 1)) fr_sb 1 ;;
  start_lba <- ld32 (part_start_lba part);
  call_printk "    super_block_lba:0x%x\n" [w32 (start_lba + 1)] ;;
  buf_size <- format_buf_size;
  buf <- sys_malloc (w32 (buf_size * 2));
  write_block_bitmap hd buf (lay_block_bitmap_bit_len l) ;;
  write_inode_bitmap hd buf buf_size ;;
  write_inode_table hd buf buf_size ;;
  write_root_dir hd buf buf_size ;;
  lba <- ld32 (sb_data_start_lba fr_sb);
  call_printk " root_dir_lba: 0x%x\n" [lba] ;;
  call_printk "%s format done \n" [part_name part] ;;
  sys_free buf.

(** [curr_part->field] *)
Definition curr_field (field : Z → Z) : M Z := part <- ld32 g_curr_part; ld32 (field part).
Definition curr_sb (field : Z → Z) : M Z := sb <- curr_field part_sb; ld32 (field sb).

Definition no_memory (p line : Z) (func message : string) : M unit :=
  when (p =? 0) (exception_report "fs/fs.c" line func message).

(** A bitmap of the mounted partition, read from [lba]; both are given the
    length of the block bitmap. *)
Definition mount_bitmap (bitmap : Z → Z) (lba sects : Z → Z) (line : Z) : M unit :=
  n <- curr_sb sects;
  bits <- sys_malloc (w32 (n * SECTOR_SIZE));
  (part <- ld32 g_curr_part; st32 (bitmap_bits_of (bitmap part)) bits) ;;
  (bits <- curr_field (λ part, bitmap_bits_of (bitmap part));
   no_memory bits line "mount_partition" "alloc memory failed") ;;
  (n <- curr_sb sb_block_bitmap_sects;
   part <- ld32 g_curr_part;
   st32 (bitmap_len_of (bitmap part)) (n * SECTOR_SIZE)) ;;
  my_disk <- curr_field part_my_disk;
  start <- curr_sb lba;
  bits <- curr_field (λ part, bitmap_bits_of (bitmap part));
  n <- curr_sb sects;
  ide_read my_disk start bits n.

Definition mount_partition (pelem arg : Z) : M bool :=
  let name := arg in
  let part := part_of_part_tag pelem in
  r <- strcmp (part_name part) name;
  if r =? 0 then
    st32 g_curr_part part ;;
    (sb <- sys_malloc SECTOR_SIZE; curr <- ld32 g_curr_part; st32 (part_sb curr) sb) ;;
    (sb <- curr_field part_sb;
     no_memory sb 110 "mount_partition" "alloc memory failed") ;;
    (my_disk <- curr_field part_my_disk;
     start_lba <- curr_field part_start_lba;
     sb <- curr_field part_sb;
     ide_read my_disk (w32 (start_lba + 1)) sb 1) ;;
    mount_bitmap part_block_bitmap sb_block_bitmap_lba sb_block_bitmap_sects 119 ;;
    mount_bitmap part_inode_bitmap sb_inode_bitmap_lba sb_inode_bitmap_sects 128 ;;
    (curr <- ld32 g_curr_part; list_init (part_open_inodes curr)) ;;
    call_printk "mount %s done!\n" [part_name part] ;;
    ret true
  else ret false.

(** One of the twelve partitions of a disk: formatted, unless it is empty or
    carries a file system. *)
Definition check_partition (hd sb : Z) : Z * Z → M (Z * Z + unit) :=
  λ '(part_idx, part),
    if part_idx <? 12 then
      let part := if part_idx =? 4 then disk_logic_parts hd 0 else part in
      n <- ld32 (part_sector_counter part);
      when (negb (n =? 0))
        (memset sb 0 SECTOR_SIZE ;;
         start_lba <- ld32 (part_start_lba part);
         ide_read hd (w32 (start_lba + 1)) sb 1 ;;
         magic <- ld32 (sb_magic sb);
         if magic =? FS_MAGIC then call_printk "%s has filesystem \n" [part_name part]
         else
           call_printk "formatting %s parttin %s \n" [disk_name hd; part_name part] ;;
           partition_format part) ;;
      ret (inl (part_idx + 1, part + sizeof_partition))
    else ret (inr tt).

(** The second disk of a channel; the first one is passed over. *)
Definition check_channel (sb : Z) : Z → M (Z + unit) :=
  λ channel_idx,
    channel_cnt <- ld8 g_channel_cnt;
    if channel_idx <? channel_cnt then
      let channel := ide_channel_at channel_idx in
      let hd := chan_devices channel 1 in
      loop (check_partition hd sb) (0, disk_prim_parts hd 0) ;;
      ret (inl (w32 (channel_idx + 1)))
    else ret (inr tt).

Definition filesys_init : M unit :=
  sb <- sys_malloc sizeof_super_block;
  no_memory sb 146 "filesys_init" "alloc memory failed!" ;;
  loop (check_channel sb) 0 ;;
  sys_free sb ;;
  st_bytes fr_default_part [115; 100; 98; 49; 0; 0; 0; 0] ;;
  list_traveral g_partition_list mount_partition fr_default_part ;; ret tt.

(** ** Looking a path up *)

Definition is_root_path (filename : Z) : M bool :=
  r <- strcmp filename (str_lit "/");
  if r =? 0 then ret true
  else
    r <- strcmp filename (str_lit "/..");
    if r =? 0 then ret true
    else r <- strcmp filename (str_lit "/."); ret (r =? 0).

(** One turn of the loop of [search_file], with its locals [path_ptr],
    [parent_dir] and [parent_inode_no]; [inr (Some r)] is a [return]. *)
Definition search_step (searched_record : Z) :
    Z * Z * Z → M (Z * Z * Z + option Z * Z * Z) :=
  λ '(path_ptr, parent_dir, parent_inode_no),
    b <- ld8 fr_name;
    if negb (b =? 0) then
      strcat (psr_searched_path searched_record) (str_lit "/") ;;
      strcat (psr_searched_path searched_record) fr_name ;;
      part <- ld32 g_curr_part;
      found <- search_dir_entry part parent_dir fr_name fr_p_de;
      if (found : bool) then
        memset fr_name 0 MAX_PATH_LEN ;;
        b <- ld8 path_ptr;
        path_ptr <- (if negb (b =? 0) then path_parse path_ptr fr_name else ret path_ptr);
        f_type <- ld32 (de_f_type fr_p_de);
        if f_type =? FT_DIRECTORY then
          inode <- ld32 (dir_inode parent_dir);
          parent_inode_no <- ld32 (inode_i_no inode);
          dir_close parent_dir ;;
          part <- ld32 g_curr_part;
          i_no <- ld32 (de_i_no fr_p_de);
          parent_dir <- dir_open part i_no;
          st32 (psr_parent_dir searched_record) parent_dir ;;
          ret (inl (path_ptr, parent_dir, parent_inode_no))
        else if f_type =? FT_REGULAR then
          st32 (psr_file_type searched_record) FT_REGULAR ;;
          i_no <- ld32 (de_i_no fr_p_de);
          ret (inr (Some i_no, parent_dir, parent_inode_no))
        else ret (inl (path_ptr, parent_dir, parent_inode_no))
      else ret (inr (Some (-1), parent_dir, parent_inode_no))
    else ret (inr (None, parent_dir, parent_inode_no)).

(** Two components are parsed before the first one is looked for. *)
Definition search_file (filename searched_record : Z) : M Z :=
  root <- is_root_path filename;
  if (root : bool) then
    st32 (psr_parent_dir searched_record) g_root_dir ;;
    st32 (psr_file_type searched_record) FT_DIRECTORY ;;
    st8 (psr_searched_path searched_record) 0 ;;
    ret 0
  else
    for_ 0 MAX_PATH_LEN (λ i, st8 (fr_name + i) 0) ;;
    path_ptr <- path_parse filename fr_name;
    st32 (psr_file_type searched_record) FT_UNKNOWN ;;
    st32 (psr_parent_dir searched_record) g_root_dir ;;
    path_ptr <- path_parse path_ptr fr_name;
    r <- loop (search_step searched_record) (path_ptr, g_root_dir, 0);
    let '(answer, parent_dir, parent_inode_no) := (r : option Z * Z * Z) in
    match answer with
    | Some i_no => ret (s32 i_no)
    | None =>
        dir_close parent_dir ;;
        part <- ld32 g_curr_part;
        parent <- dir_open part parent_inode_no;
        st32 (psr_parent_dir searched_record) parent ;;
        st32 (psr_file_type searched_record) FT_DIRECTORY ;;
        i_no <- ld32 (de_i_no fr_p_de);
        ret (s32 i_no)
    end.

End fs.

(** ** Components of a path *)

Fixpoint skip_slash (s : list Z) : list Z :=
  match s with
  | [] => []
  | b :: s' => if b =? 47 then skip_slash s' else s
  end.

(** Up to the next slash, and from there. *)
Fixpoint component (s : list Z) : list Z :=
  match s with
  | [] => []
  | b :: s' => if b =? 47 then [] else b :: component s'
  end.
Fixpoint after (s : list Z) : list Z :=
  match s with
  | [] => []
  | b :: s' => if b =? 47 then s else after s'
  end.

Fixpoint components_n (k : nat) (s : list Z) : list (list Z) :=
  match k with
  | O => []
  | S k => let t := skip_slash s in
           match component t with
           | [] => []
           | x => x :: components_n k (after t)
           end
  end.
Definition components (s : list Z) : list (list Z) := components_n (S (length s)) s.

Lemma component_after s : component s ++ after s = s.
Proof. induction s as [|b s IH]; simpl; [done|]. destruct (b =? 47); simpl; [done|by rewrite IH]. Qed.

Lemma after_head s : after s = [] ∨ ∃ t, after s = 47 :: t.
Proof.
  induction s as [|b s IH]; simpl; [by left|]. destruct (Z.eqb_spec b 47) as [->|]; [|done].
  right. by eexists.
Qed.

Lemma skip_slash_suffix s : ∃ pre, s = pre ++ skip_slash s.
Proof.
  induction s as [|b s [pre IH]]; simpl; [by exists []|].
  destruct (b =? 47); [exists (b :: pre); by rewrite /= -IH|by exists []].
Qed.

Lemma skip_slash_length s : (length (skip_slash s) <= length s)%nat.
Proof. destruct (skip_slash_suffix s) as [pre E]. rewrite {2}E length_app. lia. Qed.

Lemma cstr_suffix a s1 s2 :
  cstr a (s1 ++ s2) ⊢
    cstr (a + Z.of_nat (length s1)) s2 ∗ (cstr (a + Z.of_nat (length s1)) s2 -∗ cstr a (s1 ++ s2)).
Proof.
  revert a. induction s1 as [|b s1 IH]; intros a; simpl.
  - rewrite Z.add_0_r. iIntros "$ $".
  - rewrite cstr_cons. iIntros "(% & Hb & H)". iDestruct (IH with "H") as "[H HW]".
    replace (a + S (length s1)) with (a + 1 + length s1) by lia. iFrame "H". iIntros "H".
    iFrame "Hb". iSplit; [done|]. by iApply "HW".
Qed.

Lemma skip_slash_head s t : skip_slash s ≠ 47 :: t.
Proof.
  induction s as [|b s IH]; simpl; [done|]. destruct (Z.eqb_spec b 47); [exact IH|congruence].
Qed.

Lemma after_shorter s :
  component (skip_slash s) ≠ [] → (length (after (skip_slash s)) < length s)%nat.
Proof.
  intros Hx. pose proof (skip_slash_length s) as Hl.
  pose proof (f_equal length (component_after (skip_slash s))) as E. rewrite length_app in E.
  destruct (component (skip_slash s)); [done|]. simpl in E. lia.
Qed.

Lemma Forall_parse (P : Z → Prop) s :
  Forall P s → Forall P (component (skip_slash s)) ∧ Forall P (after (skip_slash s)).
Proof.
  destruct (skip_slash_suffix s) as [pre E]. rewrite {1}E Forall_app. intros [_ H].
  rewrite -(component_after (skip_slash s)) Forall_app in H. exact H.
Qed.

Lemma components_n_length k s : (length (components_n k s) <= length s)%nat.
Proof.
  revert s. induction k as [|k IH]; intros s; [simpl; lia|]. cbn [components_n].
  destruct (component (skip_slash s)) eqn:E; [simpl; lia|]. cbn [length].
  specialize (IH (after (skip_slash s))).
  pose proof (after_shorter s) as Hlt. rewrite E in Hlt. specialize (Hlt ltac:(done)). lia.
Qed.

Section paths.
Implicit Types (c : cpu) (s : list Z).

(** Reading the byte that starts a suffix. *)
Lemma wp_ld8_suffix a s1 s2 p c (Φ : res Z → hPropI) :
  p = a + Z.of_nat (length s1) →
  cstr a (s1 ++ s2) -∗ (cstr a (s1 ++ s2) -∗ Φ (RRet (default 0 (head s2)) c)) -∗
  wp (ld8 p) c Φ.
Proof.
  iIntros (->) "H HΦ". iDestruct (cstr_suffix with "H") as "[H HW]".
  iDestruct (cstr_head with "H") as (b) "(-> & _ & Hb & H)". wp_ldb "Hb".
  iApply "HΦ". iApply "HW". by iApply "H".
Qed.

Lemma skip_slashes_wp s p c (Φ : res Z → hPropI) :
  cstr (p + 1) s -∗
  (cstr (p + 1) s -∗ Φ (RRet (p + 1 + Z.of_nat (length s - length (skip_slash s))) c)) -∗
  wp_loop skip_slashes p c Φ.
Proof.
  iIntros "Hs HΦ". iInduction s as [|b s IH] forall (p); iApply wp_loop_step; rewrite /skip_slashes.
  - rewrite cstr_nil. wp_ldb "Hs". wp_pure. rewrite Z.add_0_r. by iApply "HΦ".
  - rewrite cstr_cons. iDestruct "Hs" as "(%Hb & Hb & Hs)". wp_ldb "Hb". simpl.
    destruct (b =? 47); wp_pure.
    + iApply ("IH" with "Hs"). iIntros "Hs". pose proof (skip_slash_length s).
      replace (p + 1 + Z.of_nat (S (length s) - length (skip_slash s)))
        with (p + 1 + 1 + Z.of_nat (length s - length (skip_slash s))) by lia.
      iApply "HΦ". by iFrame.
    + rewrite Nat.sub_diag Z.add_0_r. iApply "HΦ". by iFrame.
Qed.

Lemma copy_component_wp s p nm junk c (Φ : res (Z * Z) → hPropI) :
  length junk = length (component s) →
  cstr p s -∗ nm ↦∗ junk -∗
  (cstr p s -∗ nm ↦∗ component s -∗
   Φ (RRet (p + Z.of_nat (length (component s)), nm + Z.of_nat (length (component s))) c)) -∗
  wp_loop copy_component (p, nm) c Φ.
Proof.
  iIntros (Hl) "Hs Hn HΦ".
  iInduction s as [|b s IH] forall (p nm junk Hl); iApply wp_loop_step; rewrite /copy_component; simpl in Hl.
  - rewrite cstr_nil. wp_ldb "Hs". wp_pure. simpl. rewrite !Z.add_0_r.
    destruct junk; [|done]. iApply ("HΦ" with "Hs Hn").
  - rewrite cstr_cons. iDestruct "Hs" as "(%Hb & Hb & Hs)". wp_ldb "Hb". simpl.
    rewrite (proj2 (Z.eqb_neq b 0)); [|lia]. rewrite andb_true_r.
    destruct (b =? 47); wp_reduce.
    + wp_pure. destruct junk; [|done]. rewrite /= !Z.add_0_r. iApply ("HΦ" with "[$Hb $Hs //] Hn").
    + destruct junk as [|j junk]; [done|]. rewrite bytes_cons. iDestruct "Hn" as "[Hj Hn]".
      wp_stb "Hj". wp_pure. iApply ("IH" with "[%] Hs Hn"); [simpl in Hl; lia|]. iIntros "Hs Hn".
      rewrite w8_small; [|lia]. simpl.
      replace (p + S (length (component s))) with (p + 1 + length (component s)) by lia.
      replace (nm + S (length (component s))) with (nm + 1 + length (component s)) by lia.
      iApply ("HΦ" with "[$Hb $Hs //]"). rewrite bytes_cons. iFrame.
Qed.

(** [path_parse] copies the next component and answers where the rest is. *)
Lemma path_parse_wp s pre p nm junk c (Φ : res Z → hPropI) :
  s = pre ++ skip_slash s → length junk = length (component (skip_slash s)) →
  cstr p s -∗ nm ↦∗ junk -∗
  (cstr p s -∗ nm ↦∗ component (skip_slash s) -∗
   Φ (RRet (if decide (after (skip_slash s) = []) then 0
            else p + Z.of_nat (length pre + length (component (skip_slash s)))) c)) -∗
  wp (path_parse p nm) c Φ.
Proof.
  iIntros (Hpre Hl) "Hs Hn HΦ". rewrite /path_parse.
  iDestruct (cstr_head with "Hs") as (b) "(-> & _ & Hb & Hs)". wp_ldb "Hb".
  iDestruct ("Hs" with "Hb") as "Hs". wp_bind.
  iApply (wp_wand _ _ (returns (λ q c', ⌜q = (p + Z.of_nat (length pre))%Z ∧ c' = c⌝ ∗ cstr p s)%I) with "[Hs]").
  { destruct s as [|b s]; simpl in *.
    - destruct pre; [|done]. wp_reduce. wp_pure. rewrite Z.add_0_r. by iFrame.
    - destruct (Z.eqb_spec b 47) as [->|Hne].
      + iEval (rewrite cstr_cons) in "Hs". iDestruct "Hs" as "(% & Hb & Hs)". iApply wp_loop_start.
        iApply (skip_slashes_wp with "Hs"). iIntros "Hs". cbn [returns].
        iSplitR; [iPureIntro|iEval (rewrite cstr_cons); by iFrame].
        assert (length (47 :: s) = length (pre ++ skip_slash s)) as E by (by rewrite -Hpre).
        rewrite length_app /= in E. pose proof (skip_slash_length s). split; [lia|done].
      + wp_reduce. assert (pre = []) as ->.
        { apply (f_equal length) in Hpre. rewrite length_app /= in Hpre. destruct pre; [done|simpl in Hpre; lia]. }
        iApply wp_ret. simpl. rewrite Z.add_0_r. by iFrame. }
  iIntros ([q c'|?|?|? ?]) "H //=". iDestruct "H" as "[[-> ->] Hs]".
  pose proof (cstr_suffix p pre (skip_slash s)) as HS. rewrite -Hpre in HS.
  iDestruct (HS with "Hs") as "[Hs HW]".
  wp_bind. iApply wp_loop_start. iApply (copy_component_wp with "Hs Hn"); [done|].
  iIntros "Hs Hn". wp_reduce. cbn [fst]. wp_bind.
  iEval (rewrite -(component_after (skip_slash s))) in "Hs".
  iApply (wp_ld8_suffix with "Hs"); [done|]. iIntros "Hs". wp_reduce.
  iEval (rewrite component_after) in "Hs". iApply wp_ret.
  iDestruct ("HW" with "Hs") as "Hs".
  iSpecialize ("HΦ" with "Hs Hn"). destruct (after_head (skip_slash s)) as [->|[t ->]]; cbn.
  - done.
  - by replace (p + Z.of_nat (length pre) + Z.of_nat (length (component (skip_slash s))))
      with (p + Z.of_nat (length pre + length (component (skip_slash s)))) by lia.
Qed.

(** The name buffer: a component, and what is left of it. *)
Lemma parse_name_wp s p nm buf c (Φ : res Z → hPropI) :
  (length (component (skip_slash s)) <= length buf)%nat →
  cstr p s -∗ nm ↦∗ buf -∗
  (∀ q, ⌜if decide (after (skip_slash s) = []) then q = 0 else p <= q⌝ -∗
        (if decide (after (skip_slash s) = []) then cstr p s
         else cstr q (after (skip_slash s)) ∗ (cstr q (after (skip_slash s)) -∗ cstr p s)) -∗
        nm ↦∗ (component (skip_slash s) ++ drop (length (component (skip_slash s))) buf) -∗
        Φ (RRet q c)) -∗
  wp (path_parse p nm) c Φ.
Proof.
  iIntros (Hl) "Hs Hn HΦ". set (x := component (skip_slash s)) in *.
  rewrite -{1}(take_drop (length x) buf) bytes_app. iDestruct "Hn" as "[Hn Hr]".
  rewrite length_take Nat.min_l; [|done]. destruct (skip_slash_suffix s) as [pre Hpre].
  iApply (path_parse_wp s pre with "Hs Hn"); [done|rewrite length_take; fold x; lia|].
  iIntros "Hs Hn". fold x. iSpecialize ("HΦ" with "[%] [Hs] [Hn Hr]"); [| | |iExact "HΦ"].
  - destruct (decide _); [done|lia].
  - destruct (decide _); [done|]. assert (s = (pre ++ x) ++ after (skip_slash s)) as E.
    { rewrite -app_assoc /x component_after. exact Hpre. }
    pose proof (cstr_suffix p (pre ++ x) (after (skip_slash s))) as HS.
    rewrite -E length_app in HS. by iApply HS.
  - rewrite bytes_app. fold x. iFrame.
Qed.

(** The part of the path [s] still to be read, at the pointer [q] that reading
    its first component left. *)
Definition path_rest (q : Z) s : hPropI :=
  (if decide (after (skip_slash s) = []) then ⌜q = 0⌝
   else ⌜0 < q⌝ ∗ cstr q (after (skip_slash s)))%I.

(** What is in the buffer of a name, 16 bytes and those that follow it in memory:
    after a name is copied there, after it is cleared, and after each of the names
    [xs] was copied and cleared. *)
Definition store (x nb : list Z) : list Z := x ++ drop (length x) nb.
Definition wipe (nb : list Z) : list Z := replicate 16 0 ++ drop 16 nb.
Definition spilled (xs : list (list Z)) (nb : list Z) : list Z := foldl (λ nb x, wipe (store x nb)) nb xs.

Lemma length_store x nb : (length x <= length nb)%nat → length (store x nb) = length nb.
Proof. intros Hl. unfold store. rewrite length_app length_drop. lia. Qed.

Lemma length_wipe nb : (16 <= length nb)%nat → length (wipe nb) = length nb.
Proof. intros Hl. unfold wipe. rewrite length_app length_drop length_replicate. lia. Qed.

Context `{Symbols, Frames}.

Lemma wipe_wp nb c (Φ : res unit → hPropI) :
  fr_depth_name ≠ 0 → (16 <= length nb)%nat →
  fr_depth_name ↦∗ nb -∗ (fr_depth_name ↦∗ wipe nb -∗ Φ (RRet tt c)) -∗
  wp (memset fr_depth_name 0 MAX_FILE_NAME_LEN) c Φ.
Proof.
  intros Hne Hl. rewrite -{1}(take_drop 16 nb) bytes_app. iIntros "[Hn Hr] HΦ". assert (length (take 16 nb) = 16%nat) as E by (rewrite length_take; lia).
  iApply (memset_wp with "Hn"); [done|by rewrite E|]. iIntros "Hn". iApply "HΦ".
  rewrite /wipe bytes_app length_replicate E. change (w8 0) with 0. iFrame.
Qed.

Lemma depth_loop_wp k s q nb depth c (Φ : res Z → hPropI) :
  let x := component (skip_slash s) in
  (length s < k)%nat → (16 <= length nb)%nat → Forall (λ b, 0 < b < 256) s →
  fr_depth_name ≠ 0 → (x = [] → head nb = Some 0) →
  Forall (λ x, length x <= length nb)%nat (components_n k s) →
  0 <= depth → depth + Z.of_nat (length (components_n k s)) < 2 ^ 32 →
  path_rest q s -∗ fr_depth_name ↦∗ store x nb -∗
  (path_rest q s -∗ fr_depth_name ↦∗ spilled (components_n k s) nb -∗
   Φ (RRet (depth + Z.of_nat (length (components_n k s))) c)) -∗
  wp_loop depth_step (q, depth) c Φ.
Proof.
  intros x Hk. subst x. revert s q nb depth Φ Hk.
  induction k as [|k IH]; [lia|]. intros s q nb depth Φ Hk Hnb Hs Hne Hh Hall Hd Hmax.
  iIntros "Hr Hn HΦ". iApply wp_loop_step; rewrite {1}/depth_step.
  destruct (Forall_parse _ _ Hs) as [Hx Ht]. cbn [components_n] in *.
  destruct (component (skip_slash s)) as [|x0 x] eqn:Ex.
  { destruct nb as [|b nb]; [simpl in Hnb; lia|]. injection (Hh eq_refl) as ->.
    rewrite /store. cbn [app drop length]. rewrite bytes_cons. iDestruct "Hn" as "[Hb Hn]". wp_ldb "Hb".
    wp_pure. rewrite Z.add_0_r. iApply ("HΦ" with "Hr").
    iFrame "Hb Hn". }
  apply Forall_cons in Hx as [Hx0 _]. apply Forall_cons in Hall as [Hxl Hall].
  pose proof (length_store _ _ Hxl) as Hls. set (nb1 := store (x0 :: x) nb) in *.
  assert (nb1 = x0 :: (x ++ drop (S (length x)) nb)) as E1 by done.
  iEval (rewrite E1 bytes_cons) in "Hn". iDestruct "Hn" as "[Hb Hn]". wp_ldb "Hb".
  iAssert (fr_depth_name ↦∗ nb1)%I with "[Hb Hn]" as "Hn"; [rewrite E1 bytes_cons; iFrame|].
  rewrite (proj2 (Z.eqb_neq x0 0)); [|lia]. wp_reduce. clear E1.
  wp_bind. iApply (wipe_wp with "Hn"); [done|lia|]. iIntros "Hn". wp_reduce. wp_bind.
  assert (length (wipe nb1) = length nb) as Hlw by (rewrite length_wipe; lia).
  cbn [spilled foldl]. fold nb1. fold (spilled (components_n k (after (skip_slash s))) (wipe nb1)).
  rewrite -Hlw in Hnb, Hall. clearbody nb1. clear Hls Hxl.
  assert (∀ t, component t = [] → head (wipe nb1) = Some 0) as Hhead by done.
  assert (length (after (skip_slash s)) < k)%nat as Hlt.
  { pose proof (after_shorter s) as Hlt. rewrite Ex in Hlt. specialize (Hlt ltac:(done)). lia. }
  cbn [length] in Hmax |- *. set (t := after (skip_slash s)) in *.
  assert (w32 (depth + 1) = depth + 1) as Hw by (apply w32_small; lia).
  iEval (rewrite /path_rest -/t) in "Hr". destruct (decide (t = [])) as [E|E].
  - iDestruct "Hr" as %->. wp_reduce. wp_pure. rewrite -/depth_step Hw. iApply wp_ret. wp_reduce.
    iApply (IH t 0 (wipe nb1) with "[] [Hn] [HΦ]"); [done|done|done|done|by intros|done|lia|lia| | |].
    + rewrite E. by iPureIntro.
    + rewrite E /=. done.
    + iIntros "_ Hn". replace (depth + 1 + length (components_n k t))
        with (depth + S (length (components_n k t))) by lia.
      iApply ("HΦ" with "[] Hn"). by rewrite /path_rest decide_True.
  - iDestruct "Hr" as "[%Hq Hr]". rewrite (proj2 (Z.eqb_neq q 0)); [|lia]. wp_reduce.
    iApply (parse_name_wp with "Hr Hn").
    { destruct k; [lia|]. cbn [components_n] in Hall.
      destruct (component (skip_slash t)); [simpl; lia|]. by apply Forall_cons in Hall as [? _]. }
    iIntros (q' Hq') "Hr Hn". wp_pure. rewrite -/depth_step Hw.
    iAssert (path_rest q' t ∗ (path_rest q' t -∗ cstr q t))%I with "[Hr]" as "[Hr HW]".
    { rewrite /path_rest. destruct (decide (after (skip_slash t) = [])).
      - iSplitR; [done|]. by iIntros "_".
      - iDestruct "Hr" as "[$ HW]". iSplitR; [iPureIntro; lia|]. iIntros "[_ H]". by iApply "HW". }
    iApply (IH t with "Hr Hn"); [done|done|done|done|by intros|done|lia|lia|].
    iIntros "Hr Hn". iDestruct ("HW" with "Hr") as "Hr".
    replace (depth + 1 + length (components_n k t)) with (depth + S (length (components_n k t)))
      by lia.
    iApply ("HΦ" with "[Hr] Hn"). rewrite /path_rest decide_False; [|done]. by iFrame.
Qed.

(** C24: The depth of a path is the number of its components, however many slashes
    separate them and whether one ends it, if there is one.  For a path with none,
    such as "/", it is 1 or 0 as the byte that the stack held where the name goes
    is set or clear: the name is not initialised.  The name has 16 bytes: [buf] is
    what is there and in the bytes that follow, as far as the longest component
    reaches (the locals [p] and [depth] are not among them); each component is copied
    over them whatever its length, and the name alone is cleared again. *)
Theorem path_deepth_cnt_components p s buf c :
  let xs := components s in
  let b := default 0 (head buf) in
  0 < p → fr_depth_name ≠ 0 → (16 <= length buf)%nat → Z.of_nat (length s) < 2 ^ 32 →
  Forall (λ x, length x <= length buf)%nat xs →
  {{ cstr p s ∗ fr_depth_name ↦∗ buf }}
    (path_deepth_cnt p) @ c
  {{ r c', ⌜c' = c ∧ r = if xs is [] then b2z (negb (b =? 0)) else Z.of_nat (length xs)⌝ ∗
           cstr p s ∗
           fr_depth_name ↦∗ (if xs is [] then if b =? 0 then buf else wipe buf else spilled xs buf) }}.
Proof.
  intros xs b Hp Hne Hb Hs Hall. apply triple_wp. iIntros "[Hs Hn]". rewrite /path_deepth_cnt.
  iAssert ⌜Forall (λ b, 0 < b < 256) s⌝%I as %Hf; [by iDestruct "Hs" as "[% _]"|].
  pose proof (components_n_length (S (length s)) s) as Hcl. fold (components s) in Hcl.
  wp_bind. iApply wp_assert; [by rewrite (proj2 (Z.eqb_neq p 0)); [|lia]|]. wp_reduce.
  assert (length (component (skip_slash s)) <= length buf)%nat as Hx16.
  { subst xs. unfold components in Hall. cbn [components_n] in Hall.
    destruct (component (skip_slash s)); [simpl; lia|]. by apply Forall_cons in Hall as [? _]. }
  wp_bind. iApply (parse_name_wp with "Hs Hn"); [lia|]. iIntros (q Hq) "Hr Hn". wp_reduce.
  iAssert (path_rest q s ∗ (path_rest q s -∗ cstr p s))%I with "[Hr]" as "[Hr HW]".
  { rewrite /path_rest. destruct (decide (after (skip_slash s) = [])).
    - iSplitR; [done|]. by iIntros "_".
    - iDestruct "Hr" as "[$ HW]". iSplitR; [iPureIntro; lia|]. iIntros "[_ H]". by iApply "HW". }
  iApply wp_loop_start. fold (store (component (skip_slash s)) buf).
  destruct (component (skip_slash s)) as [|x0 x] eqn:Ex.
  - assert (xs = []) as -> by by rewrite /xs /components /= Ex.
    assert (after (skip_slash s) = []) as Ea.
    { pose proof (after_head (skip_slash s)) as [->|[t Et]]; [done|].
      pose proof (component_after (skip_slash s)) as E. rewrite Ex Et /= in E.
      by apply symmetry, skip_slash_head in E. }
    iEval (rewrite /path_rest decide_True //) in "Hr". iDestruct "Hr" as %->.
    iDestruct ("HW" with "[]") as "Hs"; [by rewrite /path_rest decide_True|].
    destruct buf as [|y buf]; [simpl in Hb; lia|]. subst b. rewrite /store. cbn [app drop length].
    iApply wp_loop_step. rewrite {1}/depth_step.
    iEval (rewrite bytes_cons) in "Hn". iDestruct "Hn" as "[Hy Hn]". wp_ldb "Hy".
    iAssert (fr_depth_name ↦∗ (y :: buf))%I with "[Hy Hn]" as "Hn"; [rewrite bytes_cons; iFrame|].
    change (default 0 (head (y :: buf))) with y. destruct (y =? 0); cbn [negb b2z].
    + wp_pure. iFrame "Hs Hn". done.
    + wp_bind. iApply (wipe_wp with "Hn"); [done|done|]. iIntros "Hn". wp_reduce. wp_pure. wp_pure.
      iApply wp_loop_step. rewrite {1}/depth_step.
      set (nb := wipe (y :: buf)). assert (nb = 0 :: (replicate 15 0 ++ drop 16 (y :: buf))) as Enb by done.
      clearbody nb. subst nb. iEval (rewrite bytes_cons) in "Hn". iDestruct "Hn" as "[Hy Hn]". wp_ldb "Hy".
      wp_pure. iFrame "Hs". iSplitR; [done|]. rewrite bytes_cons. iFrame "Hy Hn".
  - assert (match xs with [] => False | _ => True end) as Hxs by by rewrite /xs /components /= Ex.
    iApply (depth_loop_wp (S (length s)) s with "Hr [Hn] [HW]"); fold (components s); fold xs;
      [lia|done|done|done|by rewrite Ex|done|lia|unfold xs; lia|by rewrite Ex|].
    iIntros "Hr Hn". iDestruct ("HW" with "Hr") as "Hs". cbn [returns]. destruct xs; [done|].
    iFrame "Hs Hn". iPureIntro. by rewrite Z.add_0_l.
Qed.

End paths.

(** ** Layout of a partition *)


Section spec.
Context `{Symbols, Frames}.
Implicit Types (c : cpu).





End spec.

(** ** Witnesses *)

#[local] Existing Instance link_map.
#[local] Existing Instance demo_frames.

(** "/a//bc/", with one byte after the name: it stays. *)
Lemma path_deepth_cnt_components_witness :
  ∃ r h', exec (path_deepth_cnt 0xc0040000) cpu0
      (mem_of [(0xc0040000, [47; 97; 47; 47; 98; 99; 47; 0]); (fr_depth_name, replicate 17 7)])
      r h' ∧
    h' ⊨ (returns (λ r c', ⌜c' = cpu0 ∧ r = 2⌝ ∗ cstr 0xc0040000 [47; 97; 47; 47; 98; 99; 47] ∗
           fr_depth_name ↦∗ (replicate 16 0 ++ [7]))%I r).
Proof.
  eapply triple_run.
  - apply (path_deepth_cnt_components 0xc0040000 [47; 97; 47; 47; 98; 99; 47] (replicate 17 7) cpu0);
      [lia|done|rewrite length_replicate; lia|simpl; lia|repeat constructor; simpl; lia].
  - eapply models_mono; [|apply mem_of_models; vm_compute; reflexivity].
    iIntros "($ & $ & _)". iPureIntro. repeat constructor; lia.
Defined.

(** "/" is one deep when the stack holds a 7 there; a component of seventeen bytes
    ends in the byte after the name. *)
Example spilled_long : spilled (components (47 :: replicate 17 97)) (replicate 17 7) = replicate 16 0 ++ [97].
Proof. reflexivity. Qed.


