(* ===== verification/Lookup.v ===== *)
(** fs/dir.c: what the search of a directory finds in one of its sectors. *)
From S2P Require Export Fs.

(** ** Entries *)

(** The name of an entry is what comes before its first zero byte, wherever
    that is: the field of the name need not hold one. *)
Definition is_entry (e : list Z) : Prop := length e = 24%nat ∧ 0 ∈ e.
#[export] Instance is_entry_dec e : Decision (is_entry e).
Proof. unfold is_entry. apply _. Defined.

(** The first entry with a name. *)
Definition lookup_entry (name : list Z) (es : list (list Z)) : option (list Z) :=
  snd <$> list_find (λ e, till_zero e = name) es.

(** Strings that compare equal are equal. *)
Lemma strcmp_spec_zero s t :
  Forall (λ b, 0 < b < 256) s → Forall (λ b, 0 < b < 256) t →
  (strcmp_spec s t =? 0) = bool_decide (s = t).
Proof.
  assert (∀ x y, 0 <= x < 256 → 0 <= y < 256 → x ≠ y → cmp8 x y ≠ 0) as Hcmp.
  { intros x y Hx Hy Hne E. apply Hne, s8_inj; [done..|]. unfold cmp8 in E.
    destruct (Z.ltb_spec (s8 x) (s8 y)); [done|]. rewrite Z.gtb_ltb in E.
    destruct (Z.ltb_spec (s8 y) (s8 x)); [done|lia]. }
  intros Hs. revert t. induction Hs as [|x s Hx Hs IH]; intros [|y t] Ht; cbn [strcmp_spec head default from_option].
  - reflexivity.
  - apply Forall_cons in Ht as [Hy _]. rewrite bool_decide_false; [|done]. change (id y) with y.
    apply Z.eqb_neq, Hcmp; lia.
  - rewrite bool_decide_false; [|done]. apply Z.eqb_neq, Hcmp; lia.
  - apply Forall_cons in Ht as [Hy Ht]. destruct (Z.eqb_spec x y) as [->|Hne].
    + rewrite IH //. apply bool_decide_ext. split; [by intros ->|by intros [= ->]].
    + rewrite bool_decide_false; [|by intros [= ->]]. apply Z.eqb_neq, Hcmp; [lia|lia|done].
Qed.

Lemma lookup_entry_cons name e es :
  lookup_entry name (e :: es) =
  if bool_decide (till_zero e = name) then Some e else lookup_entry name es.
Proof.
  unfold lookup_entry. cbn [list_find]. rewrite decide_bool_decide.
  destruct (bool_decide _); [done|]. by destruct (list_find _ es) as [[]|].
Qed.

Section lookup.
Implicit Types (c : cpu).

Lemma match_loop_wp buf nm dir_e name es (pre : list (list Z)) old k c (Φ : res bool → hPropI) :
  0 < buf → nm ≠ 0 → dir_e ≠ 0 → length old = 24%nat → Forall is_entry es →
  k = Z.of_nat (length pre + length es) →
  (buf + 24 * Z.of_nat (length pre)) ↦∗ concat es -∗ cstr nm name -∗ dir_e ↦∗ old -∗
  ((buf + 24 * Z.of_nat (length pre)) ↦∗ concat es -∗ cstr nm name -∗
   dir_e ↦∗ default old (lookup_entry name es) -∗
   Φ (RRet (bool_decide (is_Some (lookup_entry name es))) c)) -∗
  wp_loop (match_entry buf nm dir_e k) (Z.of_nat (length pre)) c Φ.
Proof.
  iIntros (Hb Hn Hd Hold Hes Hk) "He Hnm Hd HΦ".
  iInduction es as [|e es IH] forall (pre Hes Hk); iApply wp_loop_step; iEval (rewrite /match_entry).
  - rewrite (proj2 (Z.ltb_ge _ k)); [|simpl in Hk; lia]. wp_pure. iApply ("HΦ" with "He Hnm Hd").
  - apply Forall_cons in Hes as [[Hl H0] Hes]. cbn [concat].
    rewrite (proj2 (Z.ltb_lt _ k)); [|simpl in Hk; lia].
    rewrite bytes_app Hl. iDestruct "He" as "[He Hr]".
    change sizeof_dir_entry with 24. unfold de_filename.
    iDestruct (till_zero_cstr with "He") as "[He HW]"; [done|].
    iAssert ⌜Forall (λ b, 0 < b < 256) (till_zero e)⌝%I as %Hf1; [by iDestruct "He" as "[% _]"|].
    iAssert ⌜Forall (λ b, 0 < b < 256) name⌝%I as %Hf2; [by iDestruct "Hnm" as "[% _]"|].
    wp_bind. iApply (strcmp_wp with "He Hnm"); [lia|done|]. iIntros "He Hnm". wp_reduce.
    rewrite strcmp_spec_zero //. iDestruct ("HW" with "He") as "He".
    rewrite lookup_entry_cons. destruct (bool_decide (till_zero e = name)).
    + wp_bind. iApply (memcpy_wp with "He Hd"); [done|lia|by rewrite Hl|by rewrite Hold Hl|].
      iIntros "He Hd". wp_reduce. wp_pure. cbn [from_option].
      iApply ("HΦ" with "[He Hr] Hnm Hd"). iFrame.
    + wp_pure. replace (Z.of_nat (length pre) + 1) with (Z.of_nat (length (pre ++ [e])))
        by (rewrite length_app /=; lia).
      replace (buf + 24 * Z.of_nat (length pre) + Z.of_nat 24)
        with (buf + 24 * Z.of_nat (length (pre ++ [e]))) by (rewrite length_app /=; lia).
      iApply ("IH" with "[%] [%] Hr Hnm Hd [He HΦ]"); [done|rewrite length_app /= in Hk |- *; lia|].
      iIntros "Hr". iApply "HΦ". iFrame.
Qed.

(** The entries of a sector are searched in order: the answer is whether one
    has the name, and the first that does is copied out; an entry without it
    leaves the place for the answer alone. *)
Theorem match_entry_first buf nm dir_e name es old c :
  0 < buf → nm ≠ 0 → dir_e ≠ 0 → length old = 24%nat → Forall is_entry es →
  {{ buf ↦∗ concat es ∗ cstr nm name ∗ dir_e ↦∗ old }}
    (loop (match_entry buf nm dir_e (Z.of_nat (length es))) 0) @ c
  {{ r c', ⌜c' = c ∧ r = bool_decide (is_Some (lookup_entry name es))⌝ ∗
           buf ↦∗ concat es ∗ cstr nm name ∗
           dir_e ↦∗ default old (lookup_entry name es) }}.
Proof.
  intros Hb Hn Hd Hold Hes. apply triple_wp. iIntros "(He & Hnm & Hd)". iApply wp_loop_start.
  iApply (match_loop_wp buf nm dir_e name es [] old with "[He] Hnm Hd"); [done..| |].
  - by rewrite Z.mul_0_r Z.add_0_r.
  - rewrite Z.mul_0_r Z.add_0_r. iIntros "$ $ $". by iPureIntro.
Qed.

End lookup.

(** ** Witness *)

Definition entry_of (name : list Z) (i_no f_type : Z) : list Z :=
  name ++ replicate (16 - length name) 0 ++ word_bytes i_no ++ word_bytes f_type.
Definition demo_entries : list (list Z) :=
  [entry_of [46] 0 2; entry_of [46; 46] 0 2; entry_of [97; 98] 7 1].

(** "ab", among ".", ".." and "ab" *)
Lemma match_entry_first_witness :
  ∃ r h', exec (loop (match_entry 0xc0040000 0xc0041000 0xc0042000 3) 0) cpu0
      (mem_of [(0xc0040000, concat demo_entries); (0xc0041000, [97; 98; 0]);
               (0xc0042000, replicate 24 9)]) r h' ∧
    h' ⊨ (returns (λ r c', ⌜c' = cpu0 ∧ r = true⌝ ∗ 0xc0040000 ↦∗ concat demo_entries ∗
            cstr 0xc0041000 [97; 98] ∗ 0xc0042000 ↦∗ entry_of [97; 98] 7 1)%I r).
Proof.
  eapply triple_run.
  - apply (match_entry_first 0xc0040000 0xc0041000 0xc0042000 [97; 98] demo_entries
             (replicate 24 9) cpu0); [lia|lia|lia|done|].
    apply (bool_decide_unpack (Forall is_entry demo_entries)). vm_compute. exact I.
  - eapply models_mono; [|apply mem_of_models; vm_compute; reflexivity].
    rewrite !cells_cons. cbn [fst snd]. iIntros "(H1 & H2 & H3 & _)".
    iSplitL "H1"; [iExact "H1"|]. iSplitL "H2"; [|iExact "H3"].
    iSplitR; [iPureIntro; repeat constructor; lia|iExact "H2"].
Defined.
