(* ===== verification/Dirs.v ===== *)
(** fs/dir.c on the disk: a new entry for a directory whose first block has room,
    or the failure of the assertion on the size of the directory. *)
From S2P Require Export Lookup Storage.

(** ** Entries *)

Record dirent := Dirent {
  d_head : list Z;   (* the name and the inode number *)
  d_type : Z
}.
Definition dirent_ok (e : dirent) : Prop := length (d_head e) = 20%nat ∧ word_ok (d_type e).
Definition dirent_bytes (e : dirent) : list Z := d_head e ++ word_bytes (d_type e).

(** A sector of entries; the bytes after the last one belong to none. *)
Definition dir_sector (es : list dirent) (tail : list Z) : list Z :=
  concat (dirent_bytes <$> es) ++ tail.

(** The first entry that is free. *)
Definition free_entry (es : list dirent) : option nat :=
  fst <$> list_find (λ e, d_type e = FT_UNKNOWN) es.

Lemma length_dirent_bytes e : dirent_ok e → length (dirent_bytes e) = 24%nat.
Proof. intros [Hl _]. unfold dirent_bytes. by rewrite length_app Hl. Qed.

Lemma dirent_fields a e :
  dirent_ok e → a ↦∗ dirent_bytes e ⊣⊢ a ↦∗ d_head e ∗ de_f_type a ↦w d_type e.
Proof. intros [Hl Ht]. by rewrite /dirent_bytes bytes_app bytes_word // Hl. Qed.

(** ** Arrays of words *)

Section arrays.
Implicit Types (c : cpu).

Lemma clear_words_wp a vs c (Φ : res unit → hPropI) :
  words a vs -∗ (words a (replicate (length vs) 0) -∗ Φ (RRet tt c)) -∗
  wp (for_ 0 (Z.of_nat (length vs)) (λ i, st32 (a + 4 * i) 0)) c Φ.
Proof.
  iIntros "HW HΦ".
  iApply (wp_for (λ i, words a (replicate (Z.to_nat i) 0 ++ drop (Z.to_nat i) vs)) with "[HW]"); [lia| |done|].
  - intros i Hi. iIntros "HW".
    destruct (lookup_lt_is_Some_2 vs (Z.to_nat i)) as [v Hv]; [lia|].
    rewrite (drop_S _ _ _ Hv) words_at length_replicate Z2Nat.id; [|lia].
    iDestruct "HW" as "(H1 & Hx & H2)". wp_st "Hx". iSplit; [done|].
    replace (Z.to_nat (i + 1)) with (Z.to_nat i + 1)%nat by lia.
    rewrite replicate_add -app_assoc Nat.add_1_r.
    rewrite words_at length_replicate Z2Nat.id; [|lia]. iFrame.
  - rewrite Nat2Z.id drop_ge // app_nil_r. done.
Qed.

Lemma copy_words_wp a b n ws vs c (Φ : res unit → hPropI) :
  Forall word_ok ws → (n <= length ws)%nat → (n <= length vs)%nat →
  words b ws -∗ words a vs -∗
  (words b ws -∗ words a (take n ws ++ drop n vs) -∗ Φ (RRet tt c)) -∗
  wp (for_ 0 (Z.of_nat n) (λ i, v <- ld32 (b + 4 * i); st32 (a + 4 * i) v)) c Φ.
Proof.
  iIntros (Hok Hw Hv) "HB HA HΦ".
  iApply (wp_for (λ i, words b ws ∗ words a (take (Z.to_nat i) ws ++ drop (Z.to_nat i) vs))%I
    with "[HA HB]"); [lia| |simpl; iFrame|].
  - intros i Hi. iIntros "[HB HA]".
    destruct (lookup_lt_is_Some_2 ws (Z.to_nat i)) as [w Ew]; [lia|].
    destruct (lookup_lt_is_Some_2 vs (Z.to_nat i)) as [v Ev]; [lia|].
    iDestruct (words_acc with "HB") as "[Hx HB]"; [exact Ew|]. rewrite Z2Nat.id; [|lia].
    wp_ld "Hx". iDestruct ("HB" with "Hx") as "HB". rewrite list_insert_id //.
    rewrite (drop_S _ _ _ Ev) words_at length_take Nat.min_l ?Z2Nat.id; [|lia..].
    iDestruct "HA" as "(H1 & Hx & H2)". wp_st "Hx". iSplit; [done|]. iFrame "HB".
    pose proof (Forall_lookup_1 _ _ _ _ Hok Ew) as Hr. rewrite w32_small; [|exact Hr].
    replace (Z.to_nat (i + 1)) with (S (Z.to_nat i)) by lia.
    rewrite (take_S_r _ _ _ Ew) -app_assoc.
    rewrite words_at length_take Nat.min_l ?Z2Nat.id; [|lia..]. iFrame.
  - rewrite Nat2Z.id. iIntros "[HB HA]". iApply ("HΦ" with "HB HA").
Qed.

End arrays.

(** ** Adding an entry *)

Lemma length_dir_concat es : Forall dirent_ok es → length (concat (dirent_bytes <$> es)) = (24 * length es)%nat.
Proof.
  induction 1 as [|e es He _ IH]; [done|]. cbn [fmap list_fmap concat length].
  rewrite length_app IH length_dirent_bytes //. lia.
Qed.

Lemma dir_sector_at a pre e es tail :
  Forall dirent_ok pre → dirent_ok e →
  a ↦∗ dir_sector (pre ++ e :: es) tail ⊣⊢
  a ↦∗ concat (dirent_bytes <$> pre) ∗ (a + 24 * Z.of_nat (length pre)) ↦∗ dirent_bytes e ∗
  (a + 24 * Z.of_nat (length pre) + 24) ↦∗ dir_sector es tail.
Proof.
  intros Hpre He. unfold dir_sector.
  rewrite fmap_app fmap_cons concat_app. cbn [concat]. rewrite -(app_assoc (concat _)) -(app_assoc (dirent_bytes e)).
  rewrite bytes_app (bytes_app _ (dirent_bytes e)).
  rewrite length_dir_concat // length_dirent_bytes //.
  by replace (a + (24 * length pre)%nat) with (a + 24 * length pre) by lia.
Qed.

#[local] Opaque dirent_bytes.

Section add.
Context `{Symbols, Frames}.
Implicit Types (c : cpu).

Context (me idle hd i dev base part : Z).
Hypothesis Hi : 0 <= i < 2.
Hypothesis Hb : ata_base base.
Hypothesis Hdev : 0 <= dev < 2.
Hypothesis Hg : 0 < g_ide_channels.

#[local] Abbreviation run := (wpi me (idle_turn (0x2e + i))).

(** The current partition is on the disk. *)
Definition curr_on_disk : hPropI := (g_curr_part ↦w part ∗ part_my_disk part ↦w hd)%I.

Lemma write_curr_wpi lba buf t data rest c (Φ : res unit → hPropI) :
  0 <= lba <= max_lba → 0 <= buf ∧ buf + 512 <= 2 ^ 32 → length data = 512%nat →
  on_stack me c → accepts (chunks lba 1) (inputs c) rest → stays Φ →
  curr_on_disk -∗ disk_ready me idle hd i dev base t -∗ buf ↦∗ data -∗
  (∀ c', ⌜transferred me dev base lba 1 c c' rest data CMD_WRITE_SECTOR⌝ -∗
     curr_on_disk -∗ disk_ready me idle hd i dev base t -∗ buf ↦∗ data -∗ Φ (RRet tt c')) -∗
  (run (write_curr lba buf) c Φ).
Proof.
  iIntros (Hl Hbuf Hd Hc Ha Hs) "[Hp Hk] HR Hb HΦ". rewrite /write_curr. wpi_ld "Hp". wpi_ld "Hk".
  iApply (ide_write_wpi me idle hd i dev base lba buf 1 with "HR Hb");
    [done|done|done|done|lia|lia|lia|done|done|lia|done|].
  iIntros (c' Hc') "HR Hb". iApply ("HΦ" with "[//] [$Hp $Hk] HR Hb").
Qed.

(** The search of the first free entry, which is filled and written. *)
Lemma fill_loop_wpi inode p_de buf lba new cnt t all pre es tail k l rest c (Φ : res bool → hPropI) :
  free_entry es = Some k → Forall dirent_ok (pre ++ es) → dirent_ok new →
  length (pre ++ es) = 21%nat → length tail = 8%nat →
  all !! 0%nat = Some lba → 0 <= lba <= max_lba → 0 < buf ∧ buf + 512 <= 2 ^ 32 → p_de ≠ 0 →
  on_stack me c → inputs c = l → accepts (chunks lba 1) l rest → stays Φ →
  curr_on_disk -∗ disk_ready me idle hd i dev base t -∗
  buf ↦∗ dir_sector (pre ++ es) tail -∗ p_de ↦∗ dirent_bytes new -∗
  words fr_all_blocks all -∗ inode_i_open_cnts inode ↦w cnt -∗
  (∀ c', ⌜transferred me dev base lba 1 c c' rest
            (dir_sector (pre ++ <[k := new]> es) tail) CMD_WRITE_SECTOR⌝ -∗
     curr_on_disk -∗ disk_ready me idle hd i dev base t -∗
     buf ↦∗ dir_sector (pre ++ <[k := new]> es) tail -∗ p_de ↦∗ dirent_bytes new -∗
     words fr_all_blocks all -∗ inode_i_open_cnts inode ↦w w32 (cnt + sizeof_dir_entry) -∗
     Φ (RRet true c')) -∗
  wpi_loop me (idle_turn (0x2e + i)) (fill_entry inode p_de buf 0 21) (Z.of_nat (length pre)) c Φ.
Proof.
  iIntros (Hfree Hok Hnew Hlen Htail Hall Hlba Hbuf Hp Hc Hin Hacc Hs) "HC HR Hb Hn HA Ho HΦ".
  iInduction es as [|e es IH] forall (pre k Hfree Hok Hlen); [done|].
  apply Forall_app in Hok as [Hpre [He Hes]%Forall_cons].
  assert ((Z.of_nat (length pre) <? 21) = true) as Hlt.
  { apply Z.ltb_lt. rewrite length_app /= in Hlen. lia. }
  iApply wpi_loop_step. iEval (rewrite {1}/fill_entry Hlt).
  iEval (rewrite (dir_sector_at buf pre e es tail Hpre He)) in "Hb". iDestruct "Hb" as "(Hb1 & He & Hb2)".
  iEval (rewrite dirent_fields //) in "He". iDestruct "He" as "[Hh Ht]".
  wpi_ld "Ht". iAssert ((buf + 24 * length pre) ↦∗ dirent_bytes e)%I with "[Hh Ht]" as "He";
    [iEval (rewrite dirent_fields //); iFrame|].
  unfold free_entry in Hfree. cbn [list_find] in Hfree.
  destruct (decide (d_type e = FT_UNKNOWN)) as [E|Hne].
  - injection Hfree as <-. rewrite E Z.eqb_refl. change sizeof_dir_entry with 24. cbn [insert list_insert] in *.
    wpi_bind. iApply (memcpy_wp with "Hn He"); [lia|done|by rewrite length_dirent_bytes|
      by rewrite !length_dirent_bytes|].
    iIntros "Hn He". wpi_reduce.
    iDestruct (words_acc with "HA") as "[Ha HA]"; [exact Hall|]. wpi_ld "Ha".
    iDestruct ("HA" with "Ha") as "HA". rewrite list_insert_id //.
    iAssert (buf ↦∗ dir_sector (pre ++ new :: es) tail)%I with "[Hb1 He Hb2]" as "Hb";
      [iEval (rewrite dir_sector_at //); iFrame|].
    iApply wpi_bind. iApply (write_curr_wpi with "HC HR Hb"); [done|lia| |done|by rewrite Hin|auto|].
    { rewrite /dir_sector length_app length_dir_concat; [|by apply Forall_app; split; [|constructor]].
      rewrite !length_app !length_cons in Hlen |- *. lia. }
    iIntros (c' Hc') "HC HR Hb". wpi_reduce. wpi_ld "Ho". wpi_st "Ho".
    iApply wpi_wp; [auto|]. iApply wp_ret. cbn [wp_loop_k].
    iApply ("HΦ" with "[//] HC HR Hb Hn HA Ho").
  - destruct (list_find _ es) as [[k' e']|] eqn:Ef; simplify_eq/=.
    rewrite (proj2 (Z.eqb_neq _ _) Hne). iApply wpi_wp; [auto|]. iApply wp_ret. cbn [wp_loop_k].
    replace (Z.of_nat (length pre) + 1) with (Z.of_nat (length (pre ++ [e]))) by (rewrite length_app /=; lia).
    iAssert (buf ↦∗ dir_sector ((pre ++ [e]) ++ es) tail)%I with "[Hb1 He Hb2]" as "Hb".
    { rewrite -app_assoc /=. iEval (rewrite dir_sector_at //). iFrame. }
    iApply ("IH" with "[%] [%] [%] HC HR Hb Hn HA Ho"); [by rewrite /free_entry Ef|
      by rewrite -app_assoc; apply Forall_app; split; [|constructor]|by rewrite -app_assoc|].
    iIntros (c') "%Hc' HC HR Hb". rewrite -app_assoc /= in Hc' |- *.
    iApply ("HΦ" with "[//] HC HR Hb").
Qed.

(** The direct blocks, gathered for the search. *)
Lemma gather_wpi {A} inode ws all (k : M A) c (Φ : res A → hPropI) :
  Forall word_ok ws → length ws = 13%nat → length all = 140%nat → stays Φ →
  words (inode_i_sectors inode 0) ws -∗ words fr_all_blocks all -∗
  (words (inode_i_sectors inode 0) ws -∗ words fr_all_blocks (take 12 ws ++ replicate 128 0) -∗
   run k c Φ) -∗
  (run (for_ 0 140 (λ j, st32 (all_block j) 0) ;;
        for_ 0 12 (λ j, v <- ld32 (inode_i_sectors inode j); st32 (all_block j) v) ;; k) c Φ).
Proof.
  iIntros (Hok Hw Ha Hs) "HW HA HΦ". wpi_bind.
  change 140 with (Z.of_nat 140). rewrite -Ha.
  iApply (clear_words_wp with "HA"). iIntros "HA". wpi_reduce. rewrite Ha.
  unfold inode_i_sectors. replace (inode + 16 + 4 * 0) with (inode + 16) by lia.
  change 12 with (Z.of_nat 12). wpi_bind.
  iApply (copy_words_wp with "HW HA"); [done|lia|by rewrite length_replicate; lia|].
  iIntros "HW HA". wpi_reduce. rewrite drop_replicate. iApply ("HΦ" with "HW HA").
Qed.

Lemma sync_dir_entry_wpi uninit parent inode size cnt ws all p_de buf junk es new tail k lba t l rest c
    (Φ : res bool → hPropI) :
  free_entry es = Some k → Forall dirent_ok es → dirent_ok new →
  length es = 21%nat → length tail = 8%nat → length junk = 512%nat →
  Forall word_ok ws → length ws = 13%nat → length all = 140%nat →
  ws !! 0%nat = Some lba → ws !! 12%nat = Some 0 → 0 < lba <= max_lba →
  size mod sizeof_dir = 0 → 0 < buf ∧ buf + 512 <= 2 ^ 32 → p_de ≠ 0 →
  on_stack me c → delivers (chunks lba 1) (inputs c) (dir_sector es tail) l →
  accepts (chunks lba 1) l rest → stays Φ →
  dir_inode parent ↦w inode -∗ inode_i_size inode ↦w size -∗ inode_i_open_cnts inode ↦w cnt -∗
  words (inode_i_sectors inode 0) ws -∗ words fr_all_blocks all -∗
  curr_on_disk -∗ disk_ready me idle hd i dev base t -∗
  buf ↦∗ junk -∗ p_de ↦∗ dirent_bytes new -∗
  (∀ c' c'', ⌜transferred me dev base lba 1 c c' l [] CMD_READ_SECTOR ∧
              transferred me dev base lba 1 c' c'' rest
                (dir_sector (<[k := new]> es) tail) CMD_WRITE_SECTOR⌝ -∗
     dir_inode parent ↦w inode -∗ inode_i_size inode ↦w size -∗
     inode_i_open_cnts inode ↦w w32 (cnt + sizeof_dir_entry) -∗
     words (inode_i_sectors inode 0) ws -∗ curr_on_disk -∗ disk_ready me idle hd i dev base t -∗
     buf ↦∗ dir_sector (<[k := new]> es) tail -∗ Φ (RRet true c'')) -∗
  run (sync_dir_entry uninit parent p_de buf) c Φ.
Proof.
  iIntros (Hfree Hes Hnew Hle Hlt Hj Hok Hw Ha Hw0 Hw12 Hlba Hsz Hbuf Hp Hc Hdel Hacc Hs)
    "Hi Hsize Ho HW HA HC HR Hb Hn HΦ". rewrite /sync_dir_entry.
  wpi_ld "Hi". wpi_ld "Hsize".
  wpi_bind. iApply wp_assert; [by apply Z.eqb_eq|]. wpi_reduce. wpi_ld "Hi".
  iApply (gather_wpi with "HW HA"); [done..|]. iIntros "HW HA".
  iDestruct (words_acc with "HW") as "[Hx HW]"; [exact Hw12|].
  iEval (replace (inode_i_sectors inode 0 + 4 * Z.of_nat 12) with (inode_i_sectors inode 12)
    by (unfold inode_i_sectors; lia)) in "Hx".
  wpi_ld "Hx".
  iEval (replace (inode_i_sectors inode 12) with (inode_i_sectors inode 0 + 4 * Z.of_nat 12)
    by (unfold inode_i_sectors; lia)) in "Hx".
  iDestruct ("HW" with "Hx") as "HW". rewrite (list_insert_id ws) //.
  wpi_bind. iApply wp_when. wpi_reduce.
  iApply wpi_loop_start. iApply wpi_loop_step. iEval (rewrite {1}/sync_step).
  change (0 <? 140) with true. cbn [negb].
  assert ((take 12 ws ++ replicate 128 0) !! 0%nat = Some lba) as Hall.
  { rewrite lookup_app_l; [|rewrite length_take; lia]. by rewrite lookup_take_lt; [|lia]. }
  iDestruct (words_acc with "HA") as "[Hx HA]"; [exact Hall|]. wpi_ld "Hx".
  rewrite (proj2 (Z.eqb_neq lba 0)); [|lia]. wpi_ld "Hx".
  iDestruct ("HA" with "Hx") as "HA". rewrite (list_insert_id _ 0) //.
  iDestruct "HC" as "[Hpt Hdk]". wpi_ld "Hpt". wpi_ld "Hdk".
  iApply wpi_bind. iApply (ide_read_wpi me idle hd i dev base lba buf 1 with "HR Hb");
    [done|done|done|done|lia|lia|lia|done|exact Hdel|by rewrite Hj|auto|].
  iIntros (c1 Hc1) "HR Hb". wpi_reduce. iApply wpi_bind. iApply wpi_loop_start.
  change (SECTOR_SIZE / sizeof_dir_entry) with 21.
  pose proof Hc1 as (Hst & a1 & (_ & _ & Hin & _) & _ & _).
  iApply (fill_loop_wpi inode p_de buf lba new cnt t _ [] es tail k l rest
    with "[$Hpt $Hdk] HR Hb Hn HA Ho");
    [done|done|done|done|done|exact Hall|lia|done|done|exact Hst|exact Hin|done|auto|].
  iIntros (c2 Hc2) "HC HR Hb Hn HA Ho". wpi_reduce.
  iApply wpi_wp; [auto|]. iApply wp_ret. cbn [wp_loop_k].
  iApply ("HΦ" with "[//] Hi Hsize Ho HW HC HR Hb").
Qed.

(** The output of a failed assertion says nothing to the disk. *)
Lemma controller_report file line func src c :
  controller base (report_cpu file line func src c) = controller base c.
Proof. rewrite /report_cpu. cbn [fold_left]. rewrite !controller_log.
  change (controller base (cli_cpu c)) with (controller base c). by destruct (controller base c). Qed.

(** C20: A new entry for a directory whose first block is in use and has room.  The
    size of the directory decides: unless it is a multiple of 520, the size of a
    [struct dir], the assertion at the start fails, with nothing read or written;
    that is what happens to a directory of one to 64 entries of 24 bytes, such as a
    root with its two.  Otherwise the entry goes to the first free place of the
    block: the sector is read, the entry put there, all the others kept, and the
    sector written back.  What grows by the size of an entry is the open count of
    the directory's inode; its size stays. *)
Theorem sync_dir_entry_fills_or_panics uninit parent inode size cnt ws all p_de buf junk
    es new tail k lba t l rest c :
  free_entry es = Some k → Forall dirent_ok es → dirent_ok new →
  length es = 21%nat → length tail = 8%nat → length junk = 512%nat →
  Forall word_ok ws → length ws = 13%nat → length all = 140%nat →
  ws !! 0%nat = Some lba → ws !! 12%nat = Some 0 → 0 < lba <= max_lba →
  0 < buf ∧ buf + 512 <= 2 ^ 32 → p_de ≠ 0 →
  on_stack me c → delivers (chunks lba 1) (inputs c) (dir_sector es tail) l →
  accepts (chunks lba 1) l rest →
  triple
    (dir_inode parent ↦w inode ∗ inode_i_size inode ↦w size ∗ inode_i_open_cnts inode ↦w cnt ∗
     words (inode_i_sectors inode 0) ws ∗ words fr_all_blocks all ∗ curr_on_disk ∗
     disk_ready me idle hd i dev base t ∗ buf ↦∗ junk ∗ p_de ↦∗ dirent_bytes new)
    (interleave me (idle_turn (0x2e + i)) (sync_dir_entry uninit parent p_de buf)) c
    (if size mod sizeof_dir =? 0 then
       returns (λ r c',
         ⌜r = true ∧ inputs c' = rest ∧
          a_requests (controller base c') = a_requests (controller base c) ++
            [Request CMD_READ_SECTOR dev lba 1; Request CMD_WRITE_SECTOR dev lba 1] ∧
          a_sent (controller base c') = a_sent (controller base c) ++
            dir_sector (<[k := new]> es) tail⌝ ∗
         dir_inode parent ↦w inode ∗ inode_i_size inode ↦w size ∗
         inode_i_open_cnts inode ↦w w32 (cnt + sizeof_dir_entry) ∗
         words (inode_i_sectors inode 0) ws ∗ curr_on_disk ∗
         disk_ready me idle hd i dev base t ∗ buf ↦∗ dir_sector (<[k := new]> es) tail)%I
     else
       panics (λ c',
         ⌜c' = report_cpu "fs/dir.c" 94 "sync_dir_entry" "(dir_size % sizeof(struct dir)) == 0" c ∧
          controller base c' = controller base c⌝ ∗
         dir_inode parent ↦w inode ∗ inode_i_size inode ↦w size ∗ inode_i_open_cnts inode ↦w cnt ∗
         words (inode_i_sectors inode 0) ws ∗ words fr_all_blocks all ∗ curr_on_disk ∗
         disk_ready me idle hd i dev base t ∗ buf ↦∗ junk ∗ p_de ↦∗ dirent_bytes new)%I).
Proof.
  intros. apply triple_wp. iIntros "(Hi & Hsize & Ho & HW & HA & HC & HR & Hb & Hn)".
  iEval (rewrite -/(wpi _ _ _ _ _)). destruct (Z.eqb_spec (size mod sizeof_dir) 0) as [E|Hne].
  - iApply (sync_dir_entry_wpi with "Hi Hsize Ho HW HA HC HR Hb Hn"); [done..|auto|].
    iIntros (c1 c2 [(_ & a1 & (_ & _ & _ & E1) & As1 & Ar1) (_ & a2 & (_ & _ & Hin & E2) & As2 & Ar2)])
      "Hi Hsize Ho HW HC HR Hb". cbn [returns]. iFrame. iPureIntro.
    rewrite E2 As2 Ar2 E1 As1 Ar1 app_nil_r -app_assoc /chunk_requests chunks_sects //.
  - rewrite /sync_dir_entry. iApply wpi_wp; [by intros ?|].
    wp_ld "Hi". wp_ld "Hsize". rewrite (proj2 (Z.eqb_neq _ _) Hne). wp_bind. rewrite /ASSERT.
    iApply wp_exception_report. cbn [wp_k panics]. rewrite controller_report.
    iSplitR; [done|]. iSplitL "Hi"; [iExact "Hi"|]. iSplitL "Hsize"; [iExact "Hsize"|].
    iSplitL "Ho"; [iExact "Ho"|]. iFrame "HW HA HC HR Hb Hn".
Qed.

End add.

(** ** Example: the second of 21 entries is free *)

#[local] Existing Instance link_map.
#[local] Existing Instance demo_frames.

Definition demo_dir : Z := 0xc0063000.
Definition demo_dir_inode : Z := 0xc0064000.
Definition demo_p_de : Z := 0xc0065000.
Definition demo_entries : list dirent :=
  Dirent (replicate 20 46) FT_DIRECTORY :: replicate 20 (Dirent (replicate 20 0) FT_UNKNOWN).
Definition demo_new : dirent := Dirent (replicate 20 97) FT_REGULAR.
Definition demo_tail : list Z := replicate 8 0.
Definition demo_sectors : list Z := 100 :: replicate 12 0.
Definition cpu_dir : cpu :=
  set_inputs (0x50 :: 0x80 :: 0x50 :: 0x58 :: dir_sector demo_entries demo_tail ++
    [0x80; 0x50; 0x58; 0x50]) cpu_a.

Definition demo_dir_cells (size : Z) : list (Z * list Z) :=
  demo_disk ++
  [(dir_inode demo_dir, word_bytes demo_dir_inode); (inode_i_size demo_dir_inode, word_bytes size);
   (inode_i_open_cnts demo_dir_inode, word_bytes 1); (g_curr_part, word_bytes demo_part);
   (part_my_disk demo_part, word_bytes demo_hd);
   (inode_i_sectors demo_dir_inode 0, concat (word_bytes <$> demo_sectors));
   (fr_all_blocks, concat (word_bytes <$> replicate 140 7));
   (0xc0050000, replicate 512 9); (demo_p_de, dirent_bytes demo_new)].

Lemma demo_entries_ok : Forall dirent_ok demo_entries.
Proof.
  constructor; [|apply Forall_replicate]; (split; [reflexivity|vm_compute; split; congruence]).
Qed.

Lemma demo_words_ok : Forall word_ok demo_sectors ∧ Forall word_ok (replicate 140 7).
Proof.
  split; [constructor|]; [|apply Forall_replicate..]; vm_compute; split; congruence.
Qed.

Lemma demo_dir_models size :
  word_ok size →
  cells (demo_dir_cells size) ⊢
  dir_inode demo_dir ↦w demo_dir_inode ∗ inode_i_size demo_dir_inode ↦w size ∗
  inode_i_open_cnts demo_dir_inode ↦w 1 ∗ words (inode_i_sectors demo_dir_inode 0) demo_sectors ∗
  words fr_all_blocks (replicate 140 7) ∗ curr_on_disk demo_hd demo_part ∗
  disk_ready 0xc009e000 0xc0102000 demo_hd 0 1 0x1f0 7 ∗ 0xc0050000 ↦∗ replicate 512 9 ∗
  demo_p_de ↦∗ dirent_bytes demo_new.
Proof.
  intros Hsize. unfold demo_dir_cells. rewrite cells_app demo_disk_models.
  iIntros "[(HL & HD & HP & Ht) H]". do 5 (iEval (rewrite cells_word; [|done]) in "H").
  iDestruct "H" as "(H1 & H2 & H3 & H4 & H5 & H)".
  iEval (do 4 rewrite cells_cons) in "H". iDestruct "H" as "(Hw & Ha & Hb & Hn & _)".
  iEval (rewrite -words_bytes; [|apply demo_words_ok]) in "Hw".
  iEval (rewrite -words_bytes; [|apply demo_words_ok]) in "Ha".
  iSplitL "H1"; [iExact "H1"|]. iSplitL "H2"; [iExact "H2"|]. iSplitL "H3"; [iExact "H3"|].
  iSplitL "Hw"; [iExact "Hw"|]. iSplitL "Ha"; [iExact "Ha"|].
  iSplitL "H4 H5"; [iSplitL "H4"; [iExact "H4"|iExact "H5"]|].
  iSplitR "Hb Hn"; [|iSplitL "Hb"; [iExact "Hb"|iExact "Hn"]].
  iSplitL "HL"; [iExact "HL"|]. iSplitL "HD"; [iExists 0; iExact "HD"|].
  iSplitL "HP"; [iExact "HP"|iExact "Ht"].
Qed.

Lemma demo_dir_delivers :
  delivers (chunks 100 1) (inputs cpu_dir) (dir_sector demo_entries demo_tail) [0x80; 0x50; 0x58; 0x50].
Proof.
  apply (delivers_cons 100 1 [] 0x50
    (0x80 :: 0x50 :: 0x58 :: dir_sector demo_entries demo_tail ++ [0x80; 0x50; 0x58; 0x50])
    (dir_sector demo_entries demo_tail) [0x80; 0x50; 0x58; 0x50] [] _);
    [vm_compute; reflexivity|reflexivity|constructor].
Qed.

(** A directory of 48 bytes, and one of 520. *)
Lemma sync_dir_entry_fills_or_panics_witness :
  (∃ r h', exec (interleave 0xc009e000 (idle_turn (0x2e + 0))
                   (sync_dir_entry false demo_dir demo_p_de 0xc0050000))
       cpu_dir (mem_of (demo_dir_cells 48)) r h' ∧
     h' ⊨ (panics (λ c', ⌜controller 0x1f0 c' = ata0⌝)%I r)) ∧
  (∃ r h', exec (interleave 0xc009e000 (idle_turn (0x2e + 0))
                   (sync_dir_entry false demo_dir demo_p_de 0xc0050000))
       cpu_dir (mem_of (demo_dir_cells 520)) r h' ∧
     h' ⊨ (returns (λ r c', ⌜r = true ∧ a_sent (controller 0x1f0 c') =
       dir_sector (<[1%nat := demo_new]> demo_entries) demo_tail⌝ ∗
       inode_i_size demo_dir_inode ↦w 520 ∗ inode_i_open_cnts demo_dir_inode ↦w 25)%I r)).
Proof.
  pose proof (λ size : Z,
    sync_dir_entry_fills_or_panics 0xc009e000 0xc0102000 demo_hd 0 1 0x1f0 demo_part
       ltac:(lia) ltac:(by left) ltac:(lia) ltac:(done) false demo_dir demo_dir_inode size 1
       demo_sectors (replicate 140 7) demo_p_de 0xc0050000 (replicate 512 9)
       demo_entries demo_new demo_tail 1 100 7 [0x80; 0x50; 0x58; 0x50] [] cpu_dir
       ltac:(vm_compute; reflexivity) demo_entries_ok
       ltac:(split; [reflexivity|vm_compute; split; congruence]) ltac:(reflexivity) ltac:(reflexivity)
       ltac:(vm_compute; reflexivity) (proj1 demo_words_ok) ltac:(reflexivity)
       ltac:(vm_compute; reflexivity) ltac:(reflexivity) ltac:(reflexivity)
       ltac:(split; vm_compute; [reflexivity|discriminate]) ltac:(lia)
       ltac:(vm_compute; congruence) (demo_on_stack _) demo_dir_delivers demo_sync_accepts) as Hrun.
  split.
  - edestruct (triple_run _ _ _ _ (mem_of (demo_dir_cells 48)) (Hrun 48)) as (r & h' & Hx & Hq).
    + eapply models_mono; [apply demo_dir_models; vm_compute; split; congruence|
        apply mem_of_models; vm_compute; reflexivity].
    + exists r, h'. split; [exact Hx|]. eapply models_mono; [|apply Hq].
      change (48 mod sizeof_dir =? 0) with false. cbn iota.
      destruct r; cbn [panics]; [by iIntros "[]"..| |by iIntros "[]"].
      iIntros "([_ %E] & _)". by iPureIntro.
  - edestruct (triple_run _ _ _ _ (mem_of (demo_dir_cells 520)) (Hrun 520)) as (r & h' & Hx & Hq).
    + eapply models_mono; [apply demo_dir_models; vm_compute; split; congruence|
        apply mem_of_models; vm_compute; reflexivity].
    + exists r, h'. split; [exact Hx|]. eapply models_mono; [|apply Hq].
      change (520 mod sizeof_dir =? 0) with true. cbn iota.
      destruct r; cbn [returns]; [|by iIntros "[]"..]. iIntros "(%Hr & _ & Hs & Ho & _)".
      iFrame "Hs Ho". iPureIntro. destruct Hr as (-> & _ & _ & ->). done.
Defined.
