(* ===== verification/Search.v ===== *)
(** fs/dir.c: the search of a whole directory, from the heap it takes its buffers
    from to the sectors it reads. *)
From S2P Require Export Dirs Reopen.

(** ** The entries of a sector *)

Definition entries_in (d : image) (a : Z) : list (list Z) :=
  (λ j, bytes_of d (512 * a + 24 * j) 24) <$> seqZ 0 21.

Lemma bytes_of_add d a n m :
  0 <= n → 0 <= m → bytes_of d a (n + m) = bytes_of d a n ++ bytes_of d (a + n) m.
Proof. intros Hn Hm. unfold bytes_of. rewrite seqZ_app // fmap_app //. Qed.

Lemma concat_bytes_of d a k (n : nat) :
  0 <= k →
  concat ((λ j, bytes_of d (a + k * j) k) <$> seqZ 0 (Z.of_nat n)) = bytes_of d a (k * Z.of_nat n).
Proof.
  intros Hk. induction n as [|n IH]; [by rewrite Z.mul_0_r|].
  replace (Z.of_nat (S n)) with (Z.of_nat n + 1) by lia.
  rewrite seqZ_app; [|lia..]. rewrite fmap_app concat_app IH.
  rewrite (seqZ_cons (0 + n) 1) // seqZ_nil //. cbn [fmap list_fmap concat]. rewrite app_nil_r.
  replace (k * (Z.of_nat n + 1)) with (k * Z.of_nat n + k) by lia.
  rewrite bytes_of_add; [by rewrite Z.add_0_l|nia|done].
Qed.

Lemma sector_entries d a :
  sectors_of d a 1 = concat (entries_in d a) ++ bytes_of d (512 * a + 504) 8.
Proof.
  unfold entries_in. rewrite (concat_bytes_of d (512 * a) 24 21); [|done].
  by rewrite -(bytes_of_add d (512 * a) 504 8).
Qed.

Lemma length_entries d a : length (concat (entries_in d a)) = 504%nat.
Proof.
  unfold entries_in. rewrite (concat_bytes_of d (512 * a) 24 21); [|done].
  pose proof (length_bytes_of d (512 * a) (24 * 21%nat)). lia.
Qed.

Lemma lookup_entry_app name es es' :
  lookup_entry name (es ++ es') =
  match lookup_entry name es with Some e => Some e | None => lookup_entry name es' end.
Proof.
  induction es as [|e es IH]; [done|]. rewrite -app_comm_cons !lookup_entry_cons IH.
  by destruct (bool_decide _).
Qed.

(** ** What a search is *)

(** The entries of the sectors at [addrs], an address of zero being none. *)
Definition dir_entries (d : image) (addrs : list Z) : list (list Z) :=
  addrs ≫= λ a, if a =? 0 then [] else entries_in d a.

(** The sectors read until the name is found. *)
Fixpoint scanned (d : image) (name addrs : list Z) : list Z :=
  match addrs with
  | [] => []
  | a :: addrs =>
      if a =? 0 then scanned d name addrs
      else a :: (if lookup_entry name (entries_in d a) is Some _ then [] else scanned d name addrs)
  end.

(** One command for each sector. *)
Definition single (addrs : list Z) : list (Z * Z) := (λ a, (a, 1)) <$> addrs.
Definition sectors_at (d : image) (addrs : list Z) : list Z := addrs ≫= λ a, sectors_of d a 1.

(** Every entry has its name ended inside it. *)
Definition entries_ok (d : image) (addrs : list Z) : Prop :=
  Forall (λ a, Forall is_entry (entries_in d a)) addrs.

(** The transfer of the first sector apart from the others. *)
Lemma delivers_split a n cs l data more rest :
  Z.of_nat (length data) = 512 * n → delivers ((a, n) :: cs) l (data ++ more) rest →
  ∃ l', delivers [(a, n)] l data l' ∧ delivers cs l' more rest.
Proof.
  intros Hlen Hd. inversion Hd as [|? ? ? irq l1 block l' data' ? Hp Hl Hd' E1 E2 E3]; subst.
  apply app_inj_1 in E3 as [E3 ->].
  - exists l'. split; [|done]. rewrite -E3 -(app_nil_r (w8 <$> block)).
    eapply delivers_cons; [exact Hp|exact Hl|constructor].
  - rewrite length_fmap. lia.
Qed.

Lemma delivers_first d a addrs l rest :
  delivers (single (a :: addrs)) l (sectors_at d (a :: addrs)) rest →
  ∃ l', delivers (chunks a 1) l (sectors_of d a 1) l' ∧
        delivers (single addrs) l' (sectors_at d addrs) rest.
Proof.
  rewrite chunks_sects; [|done]. apply delivers_split. by apply length_sectors_of.
Qed.

(** ** The search *)

Section search.
Context `{Symbols, Frames}.
Implicit Types (c : cpu) (A : gmap Z arena).

Context (me idle hd i dev base part : Z).
Hypothesis Hi : 0 <= i < 2.
Hypothesis Hb : ata_base base.
Hypothesis Hdev : 0 <= dev < 2.
Hypothesis Hg : 0 < g_ide_channels.

#[local] Abbreviation run := (wpi me (idle_turn (0x2e + i))).
#[local] Abbreviation disk := (disk_ready me idle hd i dev base).

(** The disk has read the sectors [addrs], one command each. *)
Definition read_all (addrs rest : list Z) (c c' : cpu) : Prop :=
  on_stack me c' ∧ ∃ a, drove base c c' rest a ∧ a_sent a = a_sent (controller base c) ∧
  a_requests a = a_requests (controller base c) ++ chunk_requests CMD_READ_SECTOR dev (single addrs).

Lemma read_all_nil c : on_stack me c → read_all [] (inputs c) c c.
Proof. intros Hc. split; [done|]. exists (controller base c). rewrite app_nil_r. by split; [apply drove_refl|]. Qed.

Lemma read_all_cons a addrs l rest c c1 c2 :
  transferred me dev base a 1 c c1 l [] CMD_READ_SECTOR → read_all addrs rest c1 c2 →
  read_all (a :: addrs) rest c c2.
Proof.
  intros (Hc1 & x1 & Hd1 & Hs1 & Hr1) (Hc2 & x2 & Hd2 & Hs2 & Hr2). split; [done|].
  exists x2. split; [by eapply drove_trans|]. destruct Hd1 as (_ & _ & _ & E).
  rewrite Hs2 Hr2 E Hs1 Hr1 app_nil_r -app_assoc chunks_sects //.
Qed.

(** One sector is read and searched. *)
Lemma scan_sector_wpi d a arr buf nm dir_e name old junk k t l c (Φ : res (Z + bool) → hPropI) :
  0 < a < 256 → Forall is_entry (entries_in d a) → 0 <= k < 140 →
  0 < buf ∧ buf + 512 <= 2 ^ 32 → nm ≠ 0 → dir_e ≠ 0 → length old = 24%nat → length junk = 512%nat →
  on_stack me c → delivers (chunks a 1) (inputs c) (sectors_of d a 1) l → stays Φ →
  (arr + k) ↦ a -∗ part_my_disk part ↦w hd -∗ disk t -∗ buf ↦∗ junk -∗ cstr nm name -∗ dir_e ↦∗ old -∗
  (∀ c' bs, ⌜transferred me dev base a 1 c c' l [] CMD_READ_SECTOR ∧ length bs = 512%nat⌝ -∗
     (arr + k) ↦ a -∗ part_my_disk part ↦w hd -∗ disk t -∗ buf ↦∗ bs -∗ cstr nm name -∗
     dir_e ↦∗ default old (lookup_entry name (entries_in d a)) -∗
     Φ (RRet (if lookup_entry name (entries_in d a) is Some _ then inr true else inl (k + 1)) c')) -∗
  run (search_sector part arr buf nm dir_e k) c Φ.
Proof.
  iIntros (Ha Hes Hk Hbuf Hn Hd Hold Hj Hc Hdel Hs) "Hx Hdk HR Hb Hnm Hde HΦ".
  rewrite /search_sector (proj2 (Z.ltb_lt k 140)); [|lia]. wpi_ldb "Hx".
  rewrite (proj2 (Z.eqb_neq a 0)); [|lia]. wpi_ld "Hdk". wpi_ldb "Hx". iApply wpi_bind.
  iApply (ide_read_wpi me idle hd i dev base a buf 1 with "HR Hb");
    [done|done|done|done|change max_lba with 163839; lia|lia|lia|done|done|by rewrite Hj|auto|].
  iIntros (c1 Hc1) "HR Hb". wpi_reduce. iEval (rewrite sector_entries bytes_app) in "Hb".
  iDestruct "Hb" as "[He Hb]". change (SECTOR_SIZE / sizeof_dir_entry) with 21.
  wpi_bind. iApply wp_loop_start.
  iApply (match_loop_wp buf nm dir_e name (entries_in d a) [] old 21 with "[He] Hnm Hde"); [lia|done..| |].
  { by rewrite Z.mul_0_r Z.add_0_r. }
  rewrite Z.mul_0_r Z.add_0_r. iIntros "He Hnm Hde". wpi_reduce.
  iCombine "He Hb" as "Hb". iEval (rewrite -bytes_app -sector_entries) in "Hb".
  destruct (lookup_entry name (entries_in d a)) as [e|] eqn:El.
  - rewrite bool_decide_true; [|done]. iApply wpi_wp; [done|]. iApply wp_ret.
    iApply ("HΦ" with "[%] Hx Hdk HR Hb Hnm Hde"). split; [done|].
    pose proof (length_sectors_of d a 1). lia.
  - rewrite bool_decide_false; [|by intros [? ?]].
    wpi_bind. iApply (memset_wp with "Hb"); [lia|by rewrite length_sectors_of|].
    iIntros "Hb". wpi_reduce. iApply wpi_wp; [done|]. iApply wp_ret.
    iApply ("HΦ" with "[%] Hx Hdk HR Hb Hnm Hde"). split; [done|]. rewrite length_replicate.
    pose proof (length_sectors_of d a 1). lia.
Qed.

Lemma search_loop_wpi d arr buf nm dir_e name addrs pre old junk t rest c (Φ : res bool → hPropI) :
  length (pre ++ addrs) = 140%nat → entries_ok d (scanned d name addrs) →
  0 < buf ∧ buf + 512 <= 2 ^ 32 → nm ≠ 0 → dir_e ≠ 0 → length old = 24%nat → length junk = 512%nat →
  on_stack me c →
  delivers (single (scanned d name addrs)) (inputs c) (sectors_at d (scanned d name addrs)) rest →
  stays Φ →
  arr ↦∗ (pre ++ addrs) -∗ part_my_disk part ↦w hd -∗ disk t -∗ buf ↦∗ junk -∗
  cstr nm name -∗ dir_e ↦∗ old -∗
  (∀ c' bs, ⌜read_all (scanned d name addrs) rest c c' ∧ length bs = 512%nat⌝ -∗
     arr ↦∗ (pre ++ addrs) -∗ part_my_disk part ↦w hd -∗ disk t -∗ buf ↦∗ bs -∗ cstr nm name -∗
     dir_e ↦∗ default old (lookup_entry name (dir_entries d addrs)) -∗
     Φ (RRet (bool_decide (is_Some (lookup_entry name (dir_entries d addrs)))) c')) -∗
  wpi_loop me (idle_turn (0x2e + i)) (search_sector part arr buf nm dir_e) (Z.of_nat (length pre)) c Φ.
Proof.
  iIntros (Hlen Hes Hbuf Hn Hd Hold Hj Hc Hdel Hs) "HA Hdk HR Hb Hnm Hde HΦ".
  iInduction addrs as [|a addrs IH] forall (pre junk c Hlen Hes Hj Hc Hdel); iApply wpi_loop_step.
  - inversion Hdel; subst. rewrite /search_sector (proj2 (Z.ltb_ge _ 140)); [|rewrite app_nil_r in Hlen; lia].
    iApply wpi_wp; [auto|]. iApply wp_ret. wpi_reduce.
    iApply ("HΦ" with "[%] HA Hdk HR Hb Hnm Hde"). split; [by apply read_all_nil|done].
  - assert (0 <= Z.of_nat (length pre) < 140) as Hk by (rewrite length_app /= in Hlen; lia).
    iDestruct (bytes_range with "HA") as %[_ [Ha _]%Forall_cons]%Forall_app.
    iDestruct (bytes_acc _ _ (length pre) a with "HA") as "[Hx HA]"; [by rewrite list_lookup_middle|].
    assert (length ((pre ++ [a]) ++ addrs) = 140%nat) as Hlen' by by rewrite -app_assoc.
    cbn [scanned] in Hes, Hdel |- *. unfold dir_entries. cbn [mbind list_bind].
    destruct (Z.eqb_spec a 0) as [->|Hne].
    + rewrite /search_sector (proj2 (Z.ltb_lt _ 140)); [|lia]. wpi_ldb "Hx". iApply wpi_wp; [auto|]. iApply wp_ret.
      wpi_reduce. iSpecialize ("HA" with "Hx"). rewrite list_insert_id; [|by rewrite list_lookup_middle].
      replace (Z.of_nat (length pre) + 1) with (Z.of_nat (length (pre ++ [0]))) by (rewrite length_app /=; lia).
      iApply ("IH" with "[%] [%] [%] [%] [%] [HA] Hdk HR Hb Hnm Hde [HΦ]"); [done..|by rewrite -app_assoc|].
      rewrite -app_assoc. iExact "HΦ".
    + apply Forall_cons in Hes as [Hea Hes]. apply delivers_first in Hdel as (l & Hdel1 & Hdel).
      iApply (scan_sector_wpi d a with "Hx Hdk HR Hb Hnm Hde"); [lia|done..|auto|].
      iIntros (c1 bs [Hc1 Hbs]) "Hx Hdk HR Hb Hnm Hde".
      iSpecialize ("HA" with "Hx"). rewrite list_insert_id; [|by rewrite list_lookup_middle].
      pose proof Hc1 as (Hst & x1 & (_ & _ & Hin & _) & _). rewrite lookup_entry_app.
      destruct (lookup_entry name (entries_in d a)) as [e|] eqn:El; wpi_reduce.
      * inversion Hdel; subst. iApply ("HΦ" with "[%] HA Hdk HR Hb Hnm Hde"). split; [|done].
        eapply read_all_cons; [done|]. by apply read_all_nil.
      * replace (Z.of_nat (length pre) + 1) with (Z.of_nat (length (pre ++ [a]))) by (rewrite length_app /=; lia).
        iApply ("IH" with "[%] [%] [%] [%] [%] [HA] Hdk HR Hb Hnm Hde [HΦ]");
          [done|done|done|done|by rewrite Hin|by rewrite -app_assoc|].
        iIntros (c2 bs2 [Hc2 Hbs2]) "HA". rewrite -app_assoc.
        iApply ("HΦ" with "[%] HA"). split; [by eapply read_all_cons|done].
Qed.

(** The low bytes of the direct blocks. *)
Lemma copy_low_wp pdir inode arr ws (n : nat) vs c (Φ : res unit → hPropI) :
  (n <= length ws)%nat → (n <= length vs)%nat →
  dir_inode pdir ↦w inode -∗ words (inode_i_sectors inode 0) ws -∗ arr ↦∗ vs -∗
  (dir_inode pdir ↦w inode -∗ words (inode_i_sectors inode 0) ws -∗
   arr ↦∗ ((w8 <$> take n ws) ++ drop n vs) -∗ Φ (RRet tt c)) -∗
  wp (for_ 0 (Z.of_nat n) (λ i, inode <- ld32 (dir_inode pdir);
                                v <- ld32 (inode_i_sectors inode i); st8 (arr + i) v)) c Φ.
Proof.
  iIntros (Hw Hv) "Hp HW HA HΦ".
  iApply (wp_for (λ i, dir_inode pdir ↦w inode ∗ words (inode_i_sectors inode 0) ws ∗
                       arr ↦∗ ((w8 <$> take (Z.to_nat i) ws) ++ drop (Z.to_nat i) vs))%I
    with "[Hp HA HW]"); [lia| |simpl; iFrame|].
  - intros k Hk. iIntros "(Hp & HW & HA)".
    destruct (lookup_lt_is_Some_2 ws (Z.to_nat k)) as [w Ew]; [lia|].
    destruct (lookup_lt_is_Some_2 vs (Z.to_nat k)) as [v Ev]; [lia|].
    wp_ld "Hp". iDestruct (words_acc with "HW") as "[Hx HW]"; [exact Ew|].
    wp_bind. iApply (wp_ld32 with "Hx"); [unfold inode_i_sectors; lia|]. iIntros "Hx". wp_reduce.
    iDestruct ("HW" with "Hx") as "HW". rewrite list_insert_id //.
    iDestruct (bytes_acc _ _ (Z.to_nat k) v with "HA") as "[Hx HA]".
    { rewrite lookup_app_r length_fmap length_take; [|lia]. rewrite lookup_drop -Ev. f_equal. lia. }
    iApply (wp_st8 with "Hx"); [lia|]. iIntros "Hx". cbn [returns]. iSplit; [done|]. iFrame "Hp HW".
    iSpecialize ("HA" with "Hx"). replace (Z.to_nat (k + 1)) with (S (Z.to_nat k)) by lia.
    rewrite (take_S_r _ _ _ Ew) (drop_S _ _ _ Ev) fmap_app -app_assoc.
    rewrite insert_app_r_alt; [|rewrite length_fmap length_take; lia].
    rewrite length_fmap length_take. replace (Z.to_nat k - Z.to_nat k `min` length ws)%nat with 0%nat by lia.
    iExact "HA".
  - rewrite Nat2Z.id. iIntros "(Hp & HW & HA)". iApply ("HΦ" with "Hp HW HA").
Qed.

(** The sector of the indirect block, [ind], that the array goes on with. *)
Definition indirect (ind : Z) : list Z := if ind =? 0 then [] else [ind].
Definition more_addrs (d : image) (ind : Z) : list Z :=
  if ind =? 0 then replicate 512 0 else sectors_of d ind 1.

Lemma length_more_addrs d ind : length (more_addrs d ind) = 512%nat.
Proof.
  unfold more_addrs. case_match; [by rewrite length_replicate|]. pose proof (length_sectors_of d ind 1). lia.
Qed.

Lemma read_indirect_wpi d ind a t addrs rest c (Φ : res unit → hPropI) :
  0 <= ind <= max_lba → 0 <= a ∧ a + 512 <= 2 ^ 32 → on_stack me c →
  delivers (single (indirect ind ++ addrs)) (inputs c) (sectors_at d (indirect ind ++ addrs)) rest →
  stays Φ →
  part_my_disk part ↦w hd -∗ disk t -∗ a ↦∗ replicate 512 0 -∗
  (∀ c' l, ⌜read_all (indirect ind) l c c' ∧ inputs c' = l ∧ delivers (single addrs) l (sectors_at d addrs) rest⌝ -∗
     part_my_disk part ↦w hd -∗ disk t -∗ a ↦∗ more_addrs d ind -∗ Φ (RRet tt c')) -∗
  run (when (negb (ind =? 0)) (my_disk <- ld32 (part_my_disk part); ide_read my_disk ind a 1)) c Φ.
Proof.
  iIntros (Hind Ha Hc Hdel Hs) "Hdk HR HA HΦ". rewrite /when /indirect /more_addrs in Hdel |- *.
  destruct (Z.eqb_spec ind 0) as [->|Hne]; cbn [negb app] in *.
  - iApply wpi_wp; [done|]. iApply wp_ret. iApply ("HΦ" with "[%] Hdk HR HA").
    split_and!; [by apply read_all_nil|done|done].
  - apply delivers_first in Hdel as (l & Hdel1 & Hdel). wpi_ld "Hdk".
    iApply (ide_read_wpi me idle hd i dev base ind a 1 with "HR HA");
      [done|done|done|done|lia|lia|lia|done|done|by rewrite length_replicate|done|].
    iIntros (c1 Hc1) "HR HA". pose proof Hc1 as (Hst & x1 & (_ & _ & Hin & _) & _).
    iApply ("HΦ" with "[%] Hdk HR HA"). split_and!; [|done|done].
    eapply read_all_cons; [done|]. rewrite -Hin. by apply read_all_nil.
Qed.

Lemma read_all_app xs ys l rest c c1 c2 :
  read_all xs l c c1 → read_all ys rest c1 c2 → read_all (xs ++ ys) rest c c2.
Proof.
  intros (Hc1 & x1 & Hd1 & Hs1 & Hr1) (Hc2 & x2 & Hd2 & Hs2 & Hr2). split; [done|].
  exists x2. split; [by eapply drove_trans|]. destruct Hd1 as (_ & _ & _ & E).
  rewrite Hs2 Hr2 E Hs1 Hr1 -app_assoc. split; [done|]. unfold chunk_requests, single. by rewrite !fmap_app.
Qed.

(** What the array of sectors holds: the low bytes of the direct blocks, and the
    first bytes of the indirect one, not its words. *)
Definition dir_addrs (d : image) (ws : list Z) (ind : Z) : list Z :=
  (w8 <$> take 12 ws) ++ take 128 (more_addrs d ind).

Lemma length_dir_addrs d ws ind : length ws = 13%nat → length (dir_addrs d ws ind) = 140%nat.
Proof.
  intros Hw. unfold dir_addrs. rewrite length_app length_fmap !length_take length_more_addrs Hw. done.
Qed.

Context (hstart addr nx pstart paddr ustart el : Z) (ds : gmap Z Z) (npages : nat)
  (nframes : Z) (others : gset Z).
Hypothesis Hdescs : 0 < g_k_mem_block_descs ∧ g_k_mem_block_descs + 168 <= 2 ^ 32.
#[local] Abbreviation heap := (idle_heap hstart addr nx pstart paddr ustart el ds npages nframes others).

(** Giving both buffers back. *)
Lemma free_both_wpi A r U j r2 U2 j2 bs bs2 t b c (Φ : res bool → hPropI) :
  0 < me < 2 ^ 32 → busy A → on_stack me c → stays Φ →
  A !! r = Some (ArenaOf 6 U) → (j ∉ U) →
  take_slot A r 6 U j !! r2 = Some (ArenaOf 5 U2) → (j2 ∉ U2) →
  length bs = 1024%nat → length bs2 = 512%nat →
  disk t -∗ heap (take_slot (take_slot A r 6 U j) r2 5 U2 j2) -∗
  slot hstart r 6 j ↦∗ bs -∗ slot hstart r2 5 j2 ↦∗ bs2 -∗
  (disk t -∗ heap A -∗ Φ (RRet b c)) -∗
  run (sys_free (slot hstart r2 5 j2) ;; sys_free (slot hstart r 6 j) ;; ret b) c Φ.
Proof.
  iIntros (Hme Hbusy Hc Hs HA Hj HA2 Hj2 Hl Hl2) "(HL & HD & HP & Ht) HH Ha Hb HΦ".
  assert (r2 ≠ r) as Hrr by (intros ->; rewrite /take_slot lookup_insert_eq in HA2; done).
  iDestruct (idle_pair_thread with "HP") as (th Hth) "[Hth HP]".
  wpi_bind. iApply (untake_block_wp with "Hth HH Hb"); [done|done|exact HA2|done| | |done|apply Hc|].
  { rewrite /take_slot lookup_insert_ne in HA2; [|done]. by apply (Hbusy _ _ HA2). }
  { by rewrite Hl2. }
  iIntros "Hth HH". wpi_reduce.
  wpi_bind. iApply (untake_block_wp with "Hth HH Ha"); [done|done|exact HA|done| | |done|apply Hc|].
  { by apply (Hbusy _ _ HA). }
  { by rewrite Hl. }
  iIntros "Hth HH". wpi_reduce. iSpecialize ("HP" with "Hth"). iApply wpi_wp; [done|]. iApply wp_ret.
  iApply ("HΦ" with "[$HL $HD $HP $Ht] HH").
Qed.

Lemma search_dir_entry_wpi A d pdir inode ws ind nm dir_e name old t rest c (Φ : res bool → hPropI) :
  let addrs := dir_addrs d ws ind in
  let reads := indirect ind ++ scanned d name addrs in
  ws !! 12%nat = Some ind → length ws = 13%nat → 0 <= ind <= max_lba →
  entries_ok d (scanned d name addrs) →
  has_room A 6 → has_room A 5 → busy A → nm ≠ 0 → dir_e ≠ 0 → length old = 24%nat →
  on_stack me c → delivers (single reads) (inputs c) (sectors_at d reads) rest → stays Φ →
  dir_inode pdir ↦w inode -∗ words (inode_i_sectors inode 0) ws -∗ part_my_disk part ↦w hd -∗
  disk t -∗ heap A -∗ cstr nm name -∗ dir_e ↦∗ old -∗
  (∀ c', ⌜read_all reads rest c c'⌝ -∗
     dir_inode pdir ↦w inode -∗ words (inode_i_sectors inode 0) ws -∗ part_my_disk part ↦w hd -∗
     disk t -∗ heap A -∗ cstr nm name -∗
     dir_e ↦∗ default old (lookup_entry name (dir_entries d addrs)) -∗
     Φ (RRet (bool_decide (is_Some (lookup_entry name (dir_entries d addrs)))) c')) -∗
  run (search_dir_entry part pdir nm dir_e) c Φ.
Proof.
  iIntros (addrs reads Hind Hw Hi2 Hes Hroom6 Hroom5 Hbusy Hn Hd Hold Hc Hdel Hs)
    "Hp HW Hdk HR HH Hnm Hde HΦ". rewrite /search_dir_entry.
  iDestruct "HR" as "(HL & HD & HP & Ht)". iDestruct (idle_pair_range with "HP") as %Hme.
  iDestruct (idle_pair_thread with "HP") as (th Hth) "[Hth HP]". change (12 * 4 + 512) with 560.
  wpi_bind. iApply (alloc_block_wp _ _ _ _ _ _ _ _ _ _ _ Hdescs A 560 6 with "Hth HH");
    [done|done|exact (class_of_best 560 ltac:(lia))|done|done|apply Hc|].
  iIntros (r U j (HA & Hj & Hnj & Ha0 & Ha1)) "Hth HH Ha". wpi_reduce. change (blk_size 6) with 1024 in *.
  rewrite (proj2 (Z.eqb_neq (slot hstart r 6 j) 0)); [|lia].
  wpi_bind. change 12 with (Z.of_nat 12) at 1.
  iApply (copy_low_wp with "Hp HW Ha"); [lia|by rewrite length_replicate; lia|].
  iIntros "Hp HW Ha". wpi_reduce. wpi_ld "Hp".
  iDestruct (words_acc with "HW") as "[Hx HW]"; [exact Hind|].
  wpi_bind. iApply (wp_ld32 with "Hx"); [unfold inode_i_sectors; lia|]. iIntros "Hx". wpi_reduce.
  iSpecialize ("HW" with "Hx"). rewrite (list_insert_id ws) //. iSpecialize ("HP" with "Hth").
  change (Z.to_nat 1024) with (12 + (512 + 500))%nat. rewrite drop_replicate.
  replace (12 + (512 + 500) - 12)%nat with (512 + 500)%nat by lia. rewrite replicate_add.
  assert (length (w8 <$> take 12 ws) = 12%nat) as Hl12 by (rewrite length_fmap length_take; lia).
  rewrite !bytes_app Hl12 length_replicate. iDestruct "Ha" as "(Ha1 & Ha2 & Ha3)".
  change (Z.of_nat 12) with 12. iApply wpi_bind.
  iApply (read_indirect_wpi d ind _ t (scanned d name addrs) rest with "Hdk [$HL $HD $HP $Ht] Ha2");
    [done|lia|done|exact Hdel|auto|].
  iIntros (c1 l (Hc1 & Hin1 & Hdel1)) "Hdk (HL & HD & HP & Ht) Ha2". wpi_reduce.
  iDestruct (idle_pair_thread with "HP") as (th2 Hth2) "[Hth HP]".
  assert (has_room (take_slot A r 6 U j) 5) as Hroom by (eapply has_room_take; [|done|done]; done).
  wpi_bind. iApply (alloc_block_wp _ _ _ _ _ _ _ _ _ _ _ Hdescs _ 512 5 with "Hth HH");
    [done|done|exact (class_of_best 512 ltac:(lia))|done|done|apply Hc1|].
  iIntros (r2 U2 j2 (HA2 & Hj2 & Hnj2 & Hb0 & Hb1)) "Hth HH Hb". wpi_reduce. iSpecialize ("HP" with "Hth").
  change (blk_size 5) with 512 in *.
  iAssert (slot hstart r 6 j ↦∗ (addrs ++ drop 128 (more_addrs d ind) ++ replicate 500 0))%I
    with "[Ha1 Ha2 Ha3]" as "Ha".
  { rewrite /addrs /dir_addrs -app_assoc (app_assoc (take 128 _)) take_drop bytes_app.
    iSplitL "Ha1"; [iExact "Ha1"|]. rewrite bytes_app Hl12 length_more_addrs.
    iSplitL "Ha2"; [iExact "Ha2"|iExact "Ha3"]. }
  iEval (rewrite bytes_app) in "Ha". iDestruct "Ha" as "[Ha Hrest]". iApply wpi_bind. iApply wpi_loop_start.
  iApply (search_loop_wpi d _ _ nm dir_e name addrs [] old _ t rest
    with "Ha Hdk [$HL $HD $HP $Ht] Hb Hnm Hde");
    [by apply length_dir_addrs|done|lia|done|done|done|by rewrite length_replicate|apply Hc1|by rewrite Hin1|auto|].
  iIntros (c2 bs [Hc2 Hbs]) "Ha Hdk HR Hb Hnm Hde". wpi_reduce. iCombine "Ha Hrest" as "Ha".
  iEval (rewrite -bytes_app) in "Ha".
  iApply (free_both_wpi A r U j r2 U2 j2 with "HR HH Ha Hb");
    [done|done|apply Hc2|done|done|done|done|done| |done|].
  { rewrite app_nil_l length_app length_app length_drop length_more_addrs length_replicate length_dir_addrs //. }
  iIntros "HR HH". iApply ("HΦ" with "[%] Hp HW Hdk HR HH Hnm Hde"). by eapply read_all_app.
Qed.

(** C27: [search_dir_entry] answers whether an entry of the directory has the name
    and copies out the first that does, as finding in the list of its entries
    would, reading no sector behind that one; its two buffers are back in the
    heap.  But the entries are those of the sectors whose numbers are the low
    bytes of the directory's blocks, and for the indirect block the first bytes
    of it: the array of sectors is one of bytes. *)
Theorem search_dir_entry_low_bytes A d pdir inode ws ind nm dir_e name old t rest c :
  let addrs := dir_addrs d ws ind in
  let reads := indirect ind ++ scanned d name addrs in
  ws !! 12%nat = Some ind → length ws = 13%nat → 0 <= ind <= max_lba →
  entries_ok d (scanned d name addrs) →
  has_room A 6 → has_room A 5 → busy A → nm ≠ 0 → dir_e ≠ 0 → length old = 24%nat →
  on_stack me c → delivers (single reads) (inputs c) (sectors_at d reads) rest →
  {{ dir_inode pdir ↦w inode ∗ words (inode_i_sectors inode 0) ws ∗ part_my_disk part ↦w hd ∗
     disk t ∗ heap A ∗ cstr nm name ∗ dir_e ↦∗ old }}
    (interleave me (idle_turn (0x2e + i)) (search_dir_entry part pdir nm dir_e)) @ c
  {{ r c', ⌜r = bool_decide (is_Some (lookup_entry name (dir_entries d addrs))) ∧ inputs c' = rest ∧
            a_requests (controller base c') = a_requests (controller base c) ++
              ((λ a, Request CMD_READ_SECTOR dev a 1) <$> reads)⌝ ∗
           dir_inode pdir ↦w inode ∗ words (inode_i_sectors inode 0) ws ∗ part_my_disk part ↦w hd ∗
           disk t ∗ heap A ∗ cstr nm name ∗
           dir_e ↦∗ default old (lookup_entry name (dir_entries d addrs)) }}.
Proof.
  intros addrs reads Hind Hw Hi2 Hes Hroom6 Hroom5 Hbusy Hn Hd Hold Hc Hdel. apply triple_wp.
  iIntros "(Hp & HW & Hdk & HR & HH & Hnm & Hde)". iEval (rewrite -/(wpi _ _ _ _ _)).
  iApply (search_dir_entry_wpi A d with "Hp HW Hdk HR HH Hnm Hde"); [done..|auto|].
  iIntros (c' (_ & a & (_ & _ & Hin & Hct) & _ & Hr)) "Hp HW Hdk HR HH Hnm Hde". cbn [returns].
  iFrame "Hp HW Hdk HR HH Hnm Hde". iPureIntro. split_and!; [done|done|].
  rewrite Hct Hr /chunk_requests /single -list_fmap_compose //.
Qed.

End search.

(** ** Example: block 356 of a directory, and what is in sector 100 *)

#[local] Existing Instance link_map.
#[local] Existing Instance demo_frames.

Definition demo_listing : image := put_bytes empty_image (512 * 100) (concat Lookup.demo_entries).
Definition demo_blocks_of_dir : list Z := 356 :: replicate 12 0.
Definition cpu_search : cpu :=
  set_inputs (0x50 :: 0x80 :: 0x50 :: 0x58 :: sectors_of demo_listing 100 1) cpu_a.

Definition demo_search : list (Z * list Z) :=
  demo_disk ++ demo_room ++
  [(dir_inode 0xc0070000, word_bytes 0xc0071000);
   (inode_i_sectors 0xc0071000 0, concat (word_bytes <$> demo_blocks_of_dir));
   (part_my_disk demo_part, word_bytes demo_hd); (0xc0072000, [97; 98; 0]); (0xc0073000, replicate 24 9)].

Lemma demo_search_models :
  cells demo_search ⊢
  dir_inode 0xc0070000 ↦w 0xc0071000 ∗ words (inode_i_sectors 0xc0071000 0) demo_blocks_of_dir ∗
  part_my_disk demo_part ↦w demo_hd ∗ disk_ready 0xc009e000 0xc0102000 demo_hd 0 1 0x1f0 7 ∗
  idle_heap 0xc0200000 0xc009a100 1 0x200000 0xc009a000 0x208000 0 {[768 := 0x101007]} 8 8 ∅ demo_arenas ∗
  cstr 0xc0072000 [97; 98] ∗ 0xc0073000 ↦∗ replicate 24 9.
Proof.
  unfold demo_search. do 2 rewrite cells_app. rewrite demo_disk_models demo_room_models.
  iIntros "((HL & HD & HP & Ht) & HH & H)". iEval (rewrite cells_word; [|done]) in "H".
  iEval (rewrite cells_cons cells_word; [|done]) in "H". iEval (do 2 rewrite cells_cons) in "H".
  iDestruct "H" as "(Hp & HW & Hdk & Hn & Hd & _)". cbn [fst snd].
  iSplitL "Hp"; [iExact "Hp"|]. iSplitL "HW".
  { rewrite words_bytes; [iExact "HW"|]. repeat constructor; done. }
  iSplitL "Hdk"; [iExact "Hdk"|]. iSplitL "HL HD HP Ht".
  { iSplitL "HL"; [iExact "HL"|]. iSplitL "HD"; [iExists 0; iExact "HD"|].
    iSplitL "HP"; [iExact "HP"|iExact "Ht"]. }
  iSplitL "HH"; [iExact "HH"|]. iSplitL "Hn"; [|iExact "Hd"].
  iSplitR; [iPureIntro; repeat constructor; lia|iExact "Hn"].
Qed.

Lemma demo_search_ok : regions_ok demo_search.
Proof. vm_compute. reflexivity. Qed.

Lemma demo_addrs : dir_addrs demo_listing demo_blocks_of_dir 0 = 100 :: replicate 139 0.
Proof. vm_compute. reflexivity. Qed.

Lemma demo_found : lookup_entry [97; 98] (entries_in demo_listing 100) = Some (Lookup.entry_of [97; 98] 7 1).
Proof. vm_compute. reflexivity. Qed.

Lemma demo_scanned : scanned demo_listing [97; 98] (dir_addrs demo_listing demo_blocks_of_dir 0) = [100].
Proof. rewrite demo_addrs. cbn [scanned Z.eqb Pos.eqb]. by rewrite demo_found. Qed.

Lemma demo_listing_ok :
  entries_ok demo_listing (scanned demo_listing [97; 98] (dir_addrs demo_listing demo_blocks_of_dir 0)).
Proof.
  rewrite demo_scanned. apply Forall_singleton.
  apply (bool_decide_unpack (Forall is_entry (entries_in demo_listing 100))). vm_compute. exact I.
Qed.

Lemma demo_search_delivers :
  let reads := indirect 0 ++ scanned demo_listing [97; 98] (dir_addrs demo_listing demo_blocks_of_dir 0) in
  delivers (single reads) (inputs cpu_search) (sectors_at demo_listing reads) [].
Proof.
  rewrite demo_scanned. apply (delivers_cons 100 1 [] 0x50 (0x80 :: 0x50 :: 0x58 :: sectors_of demo_listing 100 1)
    (sectors_of demo_listing 100 1) [] [] []); [vm_compute; reflexivity|vm_compute; reflexivity|constructor].
Qed.

(** Asked to look in block 356, it reads sector 100, and finds "ab" there. *)
Lemma search_dir_entry_low_bytes_witness :
  ∃ r h', exec (interleave 0xc009e000 (idle_turn (0x2e + 0))
        (search_dir_entry demo_part 0xc0070000 0xc0072000 0xc0073000)) cpu_search (mem_of demo_search) r h' ∧
    h' ⊨ (returns (λ r c', ⌜a_requests (controller 0x1f0 c') = [Request CMD_READ_SECTOR 1 100 1]⌝ ∗
            0xc0073000 ↦∗ default (replicate 24 9) (lookup_entry [97; 98]
              (dir_entries demo_listing (dir_addrs demo_listing demo_blocks_of_dir 0))))%I r).
Proof.
  edestruct (triple_run _ _ _ _ (mem_of demo_search)
    (search_dir_entry_low_bytes 0xc009e000 0xc0102000 demo_hd 0 1 0x1f0 demo_part
       ltac:(lia) ltac:(by left) ltac:(lia) ltac:(done)
       0xc0200000 0xc009a100 1 0x200000 0xc009a000 0x208000 0 {[768 := 0x101007]} 8 8 ∅
       demo_descs demo_arenas demo_listing 0xc0070000 0xc0071000 demo_blocks_of_dir 0 0xc0072000 0xc0073000
       [97; 98] (replicate 24 9) 7 [] cpu_search eq_refl eq_refl ltac:(vm_compute; split; congruence)
       demo_listing_ok (demo_has_room 6 (or_intror (or_intror eq_refl)))
       (demo_has_room 5 (or_intror (or_introl eq_refl))) demo_busy ltac:(lia) ltac:(lia) eq_refl
       (demo_on_stack _) demo_search_delivers))
    as (r & h' & Hx & Hq).
  - eapply models_mono; [apply demo_search_models|apply mem_of_models, demo_search_ok].
  - exists r, h'. split; [exact Hx|]. eapply models_mono; [|apply Hq].
    destruct r; cbn [returns]; [|by iIntros "[]"..].
    iIntros "((_ & _ & %Hr) & _ & _ & _ & _ & _ & _ & Hde)". iSplitR; [|iExact "Hde"].
    iPureIntro. rewrite Hr demo_scanned. vm_compute. reflexivity.
Defined.
