(* ===== verification/Init.v ===== *)
(** kernel/init.c and kernel/main.c: the order in which the parts of the kernel
    are started, and the kernel's entry point with its demonstration threads. *)
From S2P Require Export Fs.

Section init.
Context `{Symbols, Frames}.

(** ** kernel/init.c *)

Definition init_all : M unit :=
  putStr "init all start \n" ;;
  idt_init ;;
  mem_init ;;
  system_thread_init ;;
  timer_init ;;
  console_init ;;
  keyboard_init ;;
  tss_init ;;
  syscall_table_init ;;
  sti ;;
  ide_init ;;
  filesys_init ;;
  putStr "init all done \n".

(** ** kernel/main.c *)

(** [while (1);] *)
Definition spin {A} : M A := loop (λ _ : unit, ret (inl tt)) tt.

Definition main : M Z :=
  putStr "kernel\n" ;;
  init_all ;;
  spin.

(** The two kernel threads differ in the name they print and in the length of
    an empty loop; the user programs in their name. *)
Definition demo_thread (name : string) (turns : Z) : M unit :=
  addr1 <- sys_malloc 256;
  addr2 <- sys_malloc 255;
  addr3 <- sys_malloc 254;
  console_put_str (str_lit name) ;;
  console_put_int addr1 ;;
  console_put_str (str_lit ",") ;;
  console_put_int addr2 ;;
  console_put_str (str_lit ",") ;;
  console_put_int addr3 ;;
  console_put_str (str_lit "\n") ;;
  for_ 0 turns (λ _, ret tt) ;;
  sys_free addr1 ;;
  sys_free addr2 ;;
  sys_free addr3 ;;
  spin.

Definition thread1 (arg : Z) : M unit := demo_thread "thread 1 addr : 0x" 100000.
Definition thread2 (arg : Z) : M unit := demo_thread "thread 2 addr : 0x" 1000.

Definition demo_program (format : string) : M unit :=
  addr1 <- malloc 256;
  addr2 <- malloc 255;
  addr3 <- malloc 254;
  push_args fr_args [str_lit format; addr1; addr2; addr3] ;;
  printf fr_printk (str_lit format) fr_args ;;
  for_ 0 1000 (λ _, ret tt) ;;
  free addr1 ;;
  free addr2 ;;
  free addr3 ;;
  spin.

Definition u_prog_a : M unit := demo_program "userprog 1 addr : 0x%x,0x%x,0x%x\n".
Definition u_prog_b : M unit := demo_program "userprog 2 addr : 0x%x,0x%x,0x%x\n".

End init.
